(** * Slide navigation engine and progress-line animator (app.js)

    A shallow embedding of [SlideEngine] and [LineAnimator] from
    [src/app.js], together with the part of the browser they run on:
    the timer table behind [setTimeout]/[clearTimeout], the promise
    returned by [SlideEngine.transition], and the [slidechange] events
    dispatched on the document.

    What is kept: the hidden flag and [aria-hidden] of every slide, the
    reveal state of animated children, [currentSlide] and
    [isTransitioning], every timer list of the animator, its
    [isAnimating] flag, the progress paths and the wipe overlays.

    What is abstract: path geometry is a symbolic name of the function
    that measures the layout ([PathD]); inline styles of slides, the
    edge controls, the thumbnail rail and console output are left out:
    no navigation decision reads them.  JavaScript numbers that hold
    indices and millisecond delays are integers ([Z]); the numbers of
    the count-up curve and of the chart colours are binary64 doubles
    ([Double]): every operation rounds to nearest, ties to even, and
    overflows to an infinity. *)

From Stdlib Require Import ZArith List Bool Lia Arith Psatz Sorted.
From Stdlib Require Import QArith Qround Qminmax Lqa Qabs Qpower.
From Stdlib Require Ascii String.
Import ListNotations.
Open Scope Z_scope.

Set Implicit Arguments.

(** ** Data model *)

(** [config.transitions.type]. *)
Inductive TransitionType := Fade | SlideX | Zoom | NoTransition.

(** The [config] object with the fields the engine reads. *)
Record Config := {
  loop : bool;                   (* navigation.loop *)
  transitionType : TransitionType;
  duration : Z;                  (* transitions.duration, ms *)
  animationsEnabled : bool;      (* animations.enabled *)
  staggerDelay : Z;              (* animations.staggerDelay *)
  countUpDuration : Z            (* animations.countUpDuration *)
}.

(** A child carrying [data-animate]: [data-delay] and whether it has
    class [animate-in] (and not [animate-hidden]). *)
Record AnimatedElement := {
  dataDelay : Z;
  animateIn : bool
}.

(** A [.slide] element: class [slide-hidden], attribute [aria-hidden],
    and its animated children in document order. *)
Record Slide := {
  slideHidden : bool;
  ariaHidden : bool;
  animatedElements : list AnimatedElement
}.

(** The [then] reactions the engine attaches to the promise of
    [transition]. *)
Inductive Then :=
| ThenSettle (index : Z)          (* isTransitioning = false; afterSlideChange(index, true) *)
| ThenSettleReverse (index : Z)   (* the 12 -> 11 branch: also resets the overlays *)
| ThenSettleSplit (index : Z).    (* the 11 -> 12 branch: also sets currentSlide = index *)

(** The closures the engine hands to the animator.  [prev] and [next]
    are the captured slide elements, named by their index. *)
Inductive Callback :=
| OnSwap (prev next : Z) (k : Then)         (* onComplete of the swoop / reverse branches *)
| OnSlideReady (prev next index : Z)        (* first callback of the split branch *)
| OnContentReady (next : Z).                (* second callback of the split branch *)

(** Every closure passed to [setTimeout] in the two classes. *)
Inductive Action :=
| TransitionSafety (p : nat)
| TransitionDone (fromSlide toSlide : Z) (safetyTimeout p : nat)
| RevealElement (slide : Z) (el : nat)
| TimelineDraw (segment : nat)
| TimelineCircle (circleIndex : nat)
| TimelineFinal
| Swoop10T1 (onComplete : Callback)
| Swoop10T2
| Swoop10T3
| ReverseR1 (onComplete : Callback)
| ReverseR2
| ReverseR3
| ReverseR4
| ExpansionExpand
| SplitT0
| SplitT2
| SplitT3
| SplitT4
| SplitT5
| SwoopComplete (onComplete : Callback)
| SwoopCleanup
| ReverseSwoopComplete (onComplete : Callback)
| ReverseSwoopCleanup.

(** An entry of the browser's timer table. *)
Record Timer := {
  tid : nat;
  fireAt : Z;
  action : Action
}.

(** A promise created by [transition]: settled or not, and its
    reaction. *)
Record Promise := {
  settled : bool;
  reaction : Then
}.

(** The browser side: clock, timer table, promises, dispatched
    [slidechange] events (their [detail.current]). *)
Record Host := {
  now : Z;
  timers : list Timer;
  nextTimerId : nat;
  promises : list Promise;
  events : list Z
}.

(** Symbolic [d] attribute of a progress path: which geometry function
    produced it. *)
Inductive PathD :=
| PathUnset
| PathZero                         (* 'M 0,0 L 0,0' *)
| PathSlide1                       (* getSlide1Path() *)
| PathSlide2                       (* getSlide2Path() *)
| PathHeaderUnderline (slideIndex : Z)
| PathSlide10Timeline              (* getSlide10TimelinePath() *)
| PathTimelineHeader               (* header underline drawn by the step reveal *)
| PathSlide10Bottom                (* getSlide10BottomLinePath() *)
| PathSlide11 (expanded : bool)    (* getSlide11Path *)
| PathSlide12 (expanded : bool)    (* getSlide12Path *)
| PathSlide12Header (expanded : bool)
| PathScreenCenter (expanded : bool)
| PathOffScreenBottom.

Inductive Easing := EaseOut | EaseIn | CubicBezier.

(** [style.transition] of a path. *)
Inductive PathTransition :=
| TransitionUnset
| TransitionNone
| TransitionD (ms : Z) (e : Easing).

Record PathElement := {
  dAttr : PathD;
  pathTransition : PathTransition
}.

Inductive OverlayLength :=
| LenUnset | LenZero | LenCenterY | LenFooterMinusCenter | LenViewportMinusFooter.

Inductive OverlayTransition :=
| OvUnset | OvNone | OvHeight (ms : Z) | OvHeightOpacity (ms : Z).

(** A wipe overlay: [style.transition], [height], [top] or [bottom],
    [opacity] (1 or 0) and [display] (block or none). *)
Record Overlay := {
  ovTransition : OverlayTransition;
  ovHeight : OverlayLength;
  ovOffset : OverlayLength;
  ovOpaque : bool;
  ovDisplayed : bool
}.

(** The [LineAnimator] object and the DOM nodes it owns. *)
Record LineAnimator := {
  lineCurrentSlide : Z;                    (* this.currentSlide *)
  isAnimating : bool;
  timelineTimeouts : list nat;
  slide12ExpansionTimeout : option nat;    (* null or a timer id *)
  slide12SplitTimeouts : list nat;
  slide12ReverseTimeouts : list nat;
  slide10To11Timeouts : list nat;
  onContentReadyCallback : option Callback;
  path : PathElement;
  pathSecondary : option PathElement;      (* None: element missing *)
  overlayTop : option Overlay;
  overlayBottom : option Overlay;
  timelineSvg : bool;                      (* #timeline-segments-svg present *)
  circlesVisible : list bool;              (* milestone circle and box shown *)
  timelineDom : bool                       (* header and seven milestones exist *)
}.

(** The [SlideEngine] object. *)
Record SlideEngine := {
  config : Config;
  currentSlide : Z;
  slides : list Slide;
  isTransitioning : bool;
  lineAnimatorAttached : bool              (* this.lineAnimator is set *)
}.

Record State := {
  engine : SlideEngine;
  animator : LineAnimator;
  host : Host
}.

(** ** Field updates *)

Definition onEngine (f : SlideEngine -> SlideEngine) (s : State) : State :=
  {| engine := f (engine s); animator := animator s; host := host s |}.

Definition onAnimator (f : LineAnimator -> LineAnimator) (s : State) : State :=
  {| engine := engine s; animator := f (animator s); host := host s |}.

Definition onHost (f : Host -> Host) (s : State) : State :=
  {| engine := engine s; animator := animator s; host := f (host s) |}.

Definition setCurrentSlide (i : Z) : State -> State :=
  onEngine (fun e =>
    {| config := config e; currentSlide := i; slides := slides e;
       isTransitioning := isTransitioning e;
       lineAnimatorAttached := lineAnimatorAttached e |}).

Definition setSlides (l : list Slide) : State -> State :=
  onEngine (fun e =>
    {| config := config e; currentSlide := currentSlide e; slides := l;
       isTransitioning := isTransitioning e;
       lineAnimatorAttached := lineAnimatorAttached e |}).

Definition setIsTransitioning (b : bool) : State -> State :=
  onEngine (fun e =>
    {| config := config e; currentSlide := currentSlide e; slides := slides e;
       isTransitioning := b;
       lineAnimatorAttached := lineAnimatorAttached e |}).

Definition setNow (t : Z) : State -> State :=
  onHost (fun h =>
    {| now := t; timers := timers h; nextTimerId := nextTimerId h;
       promises := promises h; events := events h |}).

Definition setTimers (l : list Timer) : State -> State :=
  onHost (fun h =>
    {| now := now h; timers := l; nextTimerId := nextTimerId h;
       promises := promises h; events := events h |}).

Definition setNextTimerId (n : nat) : State -> State :=
  onHost (fun h =>
    {| now := now h; timers := timers h; nextTimerId := n;
       promises := promises h; events := events h |}).

Definition setPromises (l : list Promise) : State -> State :=
  onHost (fun h =>
    {| now := now h; timers := timers h; nextTimerId := nextTimerId h;
       promises := l; events := events h |}).

Definition setEvents (l : list Z) : State -> State :=
  onHost (fun h =>
    {| now := now h; timers := timers h; nextTimerId := nextTimerId h;
       promises := promises h; events := l |}).

Section AnimatorUpdates.
Variable a : LineAnimator.

Definition withLineCurrentSlide (v : Z) : LineAnimator :=
  {| lineCurrentSlide := v; isAnimating := isAnimating a;
     timelineTimeouts := timelineTimeouts a;
     slide12ExpansionTimeout := slide12ExpansionTimeout a;
     slide12SplitTimeouts := slide12SplitTimeouts a;
     slide12ReverseTimeouts := slide12ReverseTimeouts a;
     slide10To11Timeouts := slide10To11Timeouts a;
     onContentReadyCallback := onContentReadyCallback a;
     path := path a; pathSecondary := pathSecondary a;
     overlayTop := overlayTop a; overlayBottom := overlayBottom a;
     timelineSvg := timelineSvg a; circlesVisible := circlesVisible a;
     timelineDom := timelineDom a |}.

Definition withIsAnimating (v : bool) : LineAnimator :=
  {| lineCurrentSlide := lineCurrentSlide a; isAnimating := v;
     timelineTimeouts := timelineTimeouts a;
     slide12ExpansionTimeout := slide12ExpansionTimeout a;
     slide12SplitTimeouts := slide12SplitTimeouts a;
     slide12ReverseTimeouts := slide12ReverseTimeouts a;
     slide10To11Timeouts := slide10To11Timeouts a;
     onContentReadyCallback := onContentReadyCallback a;
     path := path a; pathSecondary := pathSecondary a;
     overlayTop := overlayTop a; overlayBottom := overlayBottom a;
     timelineSvg := timelineSvg a; circlesVisible := circlesVisible a;
     timelineDom := timelineDom a |}.

Definition withTimelineTimeouts (v : list nat) : LineAnimator :=
  {| lineCurrentSlide := lineCurrentSlide a; isAnimating := isAnimating a;
     timelineTimeouts := v;
     slide12ExpansionTimeout := slide12ExpansionTimeout a;
     slide12SplitTimeouts := slide12SplitTimeouts a;
     slide12ReverseTimeouts := slide12ReverseTimeouts a;
     slide10To11Timeouts := slide10To11Timeouts a;
     onContentReadyCallback := onContentReadyCallback a;
     path := path a; pathSecondary := pathSecondary a;
     overlayTop := overlayTop a; overlayBottom := overlayBottom a;
     timelineSvg := timelineSvg a; circlesVisible := circlesVisible a;
     timelineDom := timelineDom a |}.

Definition withSlide12ExpansionTimeout (v : option nat) : LineAnimator :=
  {| lineCurrentSlide := lineCurrentSlide a; isAnimating := isAnimating a;
     timelineTimeouts := timelineTimeouts a;
     slide12ExpansionTimeout := v;
     slide12SplitTimeouts := slide12SplitTimeouts a;
     slide12ReverseTimeouts := slide12ReverseTimeouts a;
     slide10To11Timeouts := slide10To11Timeouts a;
     onContentReadyCallback := onContentReadyCallback a;
     path := path a; pathSecondary := pathSecondary a;
     overlayTop := overlayTop a; overlayBottom := overlayBottom a;
     timelineSvg := timelineSvg a; circlesVisible := circlesVisible a;
     timelineDom := timelineDom a |}.

Definition withSlide12SplitTimeouts (v : list nat) : LineAnimator :=
  {| lineCurrentSlide := lineCurrentSlide a; isAnimating := isAnimating a;
     timelineTimeouts := timelineTimeouts a;
     slide12ExpansionTimeout := slide12ExpansionTimeout a;
     slide12SplitTimeouts := v;
     slide12ReverseTimeouts := slide12ReverseTimeouts a;
     slide10To11Timeouts := slide10To11Timeouts a;
     onContentReadyCallback := onContentReadyCallback a;
     path := path a; pathSecondary := pathSecondary a;
     overlayTop := overlayTop a; overlayBottom := overlayBottom a;
     timelineSvg := timelineSvg a; circlesVisible := circlesVisible a;
     timelineDom := timelineDom a |}.

Definition withSlide12ReverseTimeouts (v : list nat) : LineAnimator :=
  {| lineCurrentSlide := lineCurrentSlide a; isAnimating := isAnimating a;
     timelineTimeouts := timelineTimeouts a;
     slide12ExpansionTimeout := slide12ExpansionTimeout a;
     slide12SplitTimeouts := slide12SplitTimeouts a;
     slide12ReverseTimeouts := v;
     slide10To11Timeouts := slide10To11Timeouts a;
     onContentReadyCallback := onContentReadyCallback a;
     path := path a; pathSecondary := pathSecondary a;
     overlayTop := overlayTop a; overlayBottom := overlayBottom a;
     timelineSvg := timelineSvg a; circlesVisible := circlesVisible a;
     timelineDom := timelineDom a |}.

Definition withSlide10To11Timeouts (v : list nat) : LineAnimator :=
  {| lineCurrentSlide := lineCurrentSlide a; isAnimating := isAnimating a;
     timelineTimeouts := timelineTimeouts a;
     slide12ExpansionTimeout := slide12ExpansionTimeout a;
     slide12SplitTimeouts := slide12SplitTimeouts a;
     slide12ReverseTimeouts := slide12ReverseTimeouts a;
     slide10To11Timeouts := v;
     onContentReadyCallback := onContentReadyCallback a;
     path := path a; pathSecondary := pathSecondary a;
     overlayTop := overlayTop a; overlayBottom := overlayBottom a;
     timelineSvg := timelineSvg a; circlesVisible := circlesVisible a;
     timelineDom := timelineDom a |}.

Definition withOnContentReadyCallback (v : option Callback) : LineAnimator :=
  {| lineCurrentSlide := lineCurrentSlide a; isAnimating := isAnimating a;
     timelineTimeouts := timelineTimeouts a;
     slide12ExpansionTimeout := slide12ExpansionTimeout a;
     slide12SplitTimeouts := slide12SplitTimeouts a;
     slide12ReverseTimeouts := slide12ReverseTimeouts a;
     slide10To11Timeouts := slide10To11Timeouts a;
     onContentReadyCallback := v;
     path := path a; pathSecondary := pathSecondary a;
     overlayTop := overlayTop a; overlayBottom := overlayBottom a;
     timelineSvg := timelineSvg a; circlesVisible := circlesVisible a;
     timelineDom := timelineDom a |}.

Definition withPath (v : PathElement) : LineAnimator :=
  {| lineCurrentSlide := lineCurrentSlide a; isAnimating := isAnimating a;
     timelineTimeouts := timelineTimeouts a;
     slide12ExpansionTimeout := slide12ExpansionTimeout a;
     slide12SplitTimeouts := slide12SplitTimeouts a;
     slide12ReverseTimeouts := slide12ReverseTimeouts a;
     slide10To11Timeouts := slide10To11Timeouts a;
     onContentReadyCallback := onContentReadyCallback a;
     path := v; pathSecondary := pathSecondary a;
     overlayTop := overlayTop a; overlayBottom := overlayBottom a;
     timelineSvg := timelineSvg a; circlesVisible := circlesVisible a;
     timelineDom := timelineDom a |}.

Definition withPathSecondary (v : option PathElement) : LineAnimator :=
  {| lineCurrentSlide := lineCurrentSlide a; isAnimating := isAnimating a;
     timelineTimeouts := timelineTimeouts a;
     slide12ExpansionTimeout := slide12ExpansionTimeout a;
     slide12SplitTimeouts := slide12SplitTimeouts a;
     slide12ReverseTimeouts := slide12ReverseTimeouts a;
     slide10To11Timeouts := slide10To11Timeouts a;
     onContentReadyCallback := onContentReadyCallback a;
     path := path a; pathSecondary := v;
     overlayTop := overlayTop a; overlayBottom := overlayBottom a;
     timelineSvg := timelineSvg a; circlesVisible := circlesVisible a;
     timelineDom := timelineDom a |}.

Definition withOverlays (t b : option Overlay) : LineAnimator :=
  {| lineCurrentSlide := lineCurrentSlide a; isAnimating := isAnimating a;
     timelineTimeouts := timelineTimeouts a;
     slide12ExpansionTimeout := slide12ExpansionTimeout a;
     slide12SplitTimeouts := slide12SplitTimeouts a;
     slide12ReverseTimeouts := slide12ReverseTimeouts a;
     slide10To11Timeouts := slide10To11Timeouts a;
     onContentReadyCallback := onContentReadyCallback a;
     path := path a; pathSecondary := pathSecondary a;
     overlayTop := t; overlayBottom := b;
     timelineSvg := timelineSvg a; circlesVisible := circlesVisible a;
     timelineDom := timelineDom a |}.

Definition withTimelineSvg (v : bool) : LineAnimator :=
  {| lineCurrentSlide := lineCurrentSlide a; isAnimating := isAnimating a;
     timelineTimeouts := timelineTimeouts a;
     slide12ExpansionTimeout := slide12ExpansionTimeout a;
     slide12SplitTimeouts := slide12SplitTimeouts a;
     slide12ReverseTimeouts := slide12ReverseTimeouts a;
     slide10To11Timeouts := slide10To11Timeouts a;
     onContentReadyCallback := onContentReadyCallback a;
     path := path a; pathSecondary := pathSecondary a;
     overlayTop := overlayTop a; overlayBottom := overlayBottom a;
     timelineSvg := v; circlesVisible := circlesVisible a;
     timelineDom := timelineDom a |}.

Definition withCirclesVisible (v : list bool) : LineAnimator :=
  {| lineCurrentSlide := lineCurrentSlide a; isAnimating := isAnimating a;
     timelineTimeouts := timelineTimeouts a;
     slide12ExpansionTimeout := slide12ExpansionTimeout a;
     slide12SplitTimeouts := slide12SplitTimeouts a;
     slide12ReverseTimeouts := slide12ReverseTimeouts a;
     slide10To11Timeouts := slide10To11Timeouts a;
     onContentReadyCallback := onContentReadyCallback a;
     path := path a; pathSecondary := pathSecondary a;
     overlayTop := overlayTop a; overlayBottom := overlayBottom a;
     timelineSvg := timelineSvg a; circlesVisible := v;
     timelineDom := timelineDom a |}.
End AnimatorUpdates.

(** Sequencing of statements that return nothing. *)
Definition andThen (c1 c2 : State -> State) : State -> State :=
  fun s => c2 (c1 s).
Notation "c1 ;; c2" := (andThen c1 c2) (at level 61, right associativity).

Definition skip : State -> State := fun s => s.

Definition when (b : bool) (c : State -> State) : State -> State :=
  fun s => if b then c s else s.

(** A statement whose guard reads the current state. *)
Definition whenS (b : State -> bool) (c : State -> State) : State -> State :=
  fun s => if b s then c s else s.

(** ** The browser: timers and promises *)

(** [setTimeout(cb, delay)]: a fresh id, the callback due [delay] ms from
    now (a negative delay counts as 0). *)
Definition setTimeout (a : Action) (delay : Z) (s : State) : nat * State :=
  let h := host s in
  let id := nextTimerId h in
  (id,
   setNextTimerId (S id)
     (setTimers (timers h ++ [{| tid := id; fireAt := now h + Z.max 0 delay;
                                 action := a |}]) s)).

(** [clearTimeout(id)]. *)
Definition clearTimeout (id : nat) (s : State) : State :=
  setTimers (filter (fun t => negb (Nat.eqb (tid t) id)) (timers (host s))) s.

(** [ids.forEach(id => clearTimeout(id))]. *)
Definition clearTimeouts (ids : list nat) (s : State) : State :=
  fold_left (fun s' id => clearTimeout id s') ids s.

(** [const id = setTimeout(cb, delay); record(id)]: the statement pair the
    animator uses whenever it keeps the id of a timer. *)
Definition schedule (a : Action) (delay : Z) (record : nat -> State -> State)
  : State -> State :=
  fun s => let '(id, s') := setTimeout a delay s in record id s'.

(** [setTimeout(cb, delay)] with the id dropped. *)
Definition scheduleUntracked (a : Action) (delay : Z) : State -> State :=
  fun s => snd (setTimeout a delay s).

Definition pending (id : nat) (s : State) : bool :=
  existsb (fun t => Nat.eqb (tid t) id) (timers (host s)).

(** [document.dispatchEvent(new CustomEvent('slidechange', ...))]. *)
Definition dispatchSlideChange (index : Z) (s : State) : State :=
  setEvents (events (host s) ++ [index]) s.

(** ** Slides *)

Fixpoint mapAt {A} (n : nat) (f : A -> A) (l : list A) : list A :=
  match l, n with
  | [], _ => []
  | x :: l', O => f x :: l'
  | x :: l', S n' => x :: mapAt n' f l'
  end.

(** [this.slides[i]] updated in place; nothing happens for an index that
    names no slide (JavaScript would throw on the undefined element; the
    engine keeps every index it uses inside the list). *)
Definition updateSlide (i : Z) (f : Slide -> Slide) (l : list Slide) : list Slide :=
  if i <? 0 then l else mapAt (Z.to_nat i) f l.

Definition getSlide (i : Z) (l : list Slide) : option Slide :=
  if i <? 0 then None else nth_error l (Z.to_nat i).

(** [classList.add('slide-hidden'); setAttribute('aria-hidden','true')]. *)
Definition hide (sl : Slide) : Slide :=
  {| slideHidden := true; ariaHidden := true;
     animatedElements := animatedElements sl |}.

(** [classList.remove('slide-hidden'); setAttribute('aria-hidden','false')]. *)
Definition show (sl : Slide) : Slide :=
  {| slideHidden := false; ariaHidden := false;
     animatedElements := animatedElements sl |}.

Definition hideSlide (i : Z) (s : State) : State :=
  setSlides (updateSlide i hide (slides (engine s))) s.

Definition showSlide (i : Z) (s : State) : State :=
  setSlides (updateSlide i show (slides (engine s))) s.

Fixpoint mapIndexed {A} (f : Z -> A -> A) (i : Z) (l : list A) : list A :=
  match l with
  | [] => []
  | x :: l' => f i x :: mapIndexed f (i + 1) l'
  end.

Definition slideCount (s : State) : Z := Z.of_nat (length (slides (engine s))).

(** The hidden flag of slide [i]; a missing slide counts as hidden. *)
Definition hiddenFlag (i : Z) (s : State) : bool :=
  match getSlide i (slides (engine s)) with
  | Some sl => slideHidden sl
  | None => true
  end.

(** Number of slides whose hidden flag is cleared. *)
Definition visibleCount (s : State) : nat :=
  length (filter (fun sl => negb (slideHidden sl)) (slides (engine s))).

(** ** SlideEngine: helpers *)

(** [resetSlideAnimations(slide)]. *)
Definition resetSlideAnimations (i : Z) (s : State) : State :=
  setSlides
    (updateSlide i
       (fun sl => {| slideHidden := slideHidden sl; ariaHidden := ariaHidden sl;
                     animatedElements :=
                       map (fun el => {| dataDelay := dataDelay el; animateIn := false |})
                           (animatedElements sl) |})
       (slides (engine s))) s.

(** The body of the timer set by [triggerSlideAnimations] for one
    element. *)
Definition revealElement (i : Z) (n : nat) (s : State) : State :=
  setSlides
    (updateSlide i
       (fun sl => {| slideHidden := slideHidden sl; ariaHidden := ariaHidden sl;
                     animatedElements :=
                       mapAt n (fun el => {| dataDelay := dataDelay el; animateIn := true |})
                             (animatedElements sl) |})
       (slides (engine s))) s.

Fixpoint scheduleReveals (i : Z) (stagger : Z) (n : nat)
         (els : list AnimatedElement) (s : State) : State :=
  match els with
  | [] => s
  | el :: rest =>
      let totalDelay := dataDelay el + Z.of_nat n * stagger in
      scheduleReveals i stagger (S n) rest
        (snd (setTimeout (RevealElement i n) totalDelay s))
  end.

(** [triggerSlideAnimations(slide)]: one timer per animated child.  The
    count-up children are driven by animation frames, see [CountUp]. *)
Definition triggerSlideAnimations (i : Z) (s : State) : State :=
  match getSlide i (slides (engine s)) with
  | Some sl =>
      scheduleReveals i (staggerDelay (config (engine s))) 0 (animatedElements sl) s
  | None => s
  end.

(** [afterSlideChange(index, animationsAlreadyTriggered)]. *)
Definition afterSlideChange (index : Z) (animationsAlreadyTriggered : bool) : State -> State :=
  setCurrentSlide index ;;
  whenS (fun s => animationsEnabled (config (engine s)) && negb animationsAlreadyTriggered)
        (triggerSlideAnimations index) ;;
  dispatchSlideChange index.

(** [transition(fromSlide, toSlide, direction).then(k)]: the executor
    runs at once; [k] is kept with the promise.  The two timers are the
    safety timeout, set first, and the completion, set second. *)
Definition transition (fromSlide toSlide : Z) (k : Then) (s : State) : State :=
  let dur := duration (config (engine s)) in
  let p := length (promises (host s)) in
  let s := setPromises (promises (host s) ++ [{| settled := false; reaction := k |}]) s in
  let s := showSlide toSlide s in
  let '(safetyTimeout, s) := setTimeout (TransitionSafety p) (dur + 500) s in
  snd (setTimeout (TransitionDone fromSlide toSlide safetyTimeout p) dur s).

Definition resetOverlay (o : Overlay) : Overlay :=
  {| ovTransition := OvNone; ovHeight := LenZero; ovOffset := LenZero;
     ovOpaque := false; ovDisplayed := false |}.

(** The reaction run when the promise of [transition] resolves. *)
Definition runThen (k : Then) : State -> State :=
  match k with
  | ThenSettle index =>
      setIsTransitioning false ;;
      afterSlideChange index true
  | ThenSettleReverse index =>
      setIsTransitioning false ;;
      onAnimator (fun a => withOverlays a (option_map resetOverlay (overlayTop a))
                                          (option_map resetOverlay (overlayBottom a))) ;;
      afterSlideChange index true
  | ThenSettleSplit index =>
      setIsTransitioning false ;;
      setCurrentSlide index ;;
      afterSlideChange index true
  end.

Fixpoint settleAt (p : nat) (l : list Promise) : list Promise :=
  match l, p with
  | [], _ => []
  | pr :: l', O => {| settled := true; reaction := reaction pr |} :: l'
  | pr :: l', S p' => pr :: settleAt p' l'
  end.

(** [resolve()]: the first call settles the promise and runs its
    reaction; later calls do nothing. *)
Definition resolve (p : nat) (s : State) : State :=
  match nth_error (promises (host s)) p with
  | Some pr =>
      if settled pr then s
      else runThen (reaction pr) (setPromises (settleAt p (promises (host s))) s)
  | None => s
  end.

(** The closures given to the animator. *)
Definition runCallback (cb : Callback) : State -> State :=
  match cb with
  | OnSwap prev next k =>
      whenS (fun s => animationsEnabled (config (engine s)))
            (triggerSlideAnimations next) ;;
      transition prev next k
  | OnSlideReady prev next index =>
      fun s =>
        if currentSlide (engine s) =? index
        then setIsTransitioning false s
        else transition prev next (ThenSettleSplit index) s
  | OnContentReady next =>
      whenS (fun s => animationsEnabled (config (engine s)))
            (triggerSlideAnimations next)
  end.

(** ** LineAnimator *)

(** [this.timing]. *)
Definition timingStandard : Z := 400.
Definition timingSwoop : Z := 600.

Definition setPath (tr : PathTransition) (dv : PathD) : State -> State :=
  onAnimator (fun a => withPath a {| dAttr := dv; pathTransition := tr |}).

(** Writes to [this.pathSecondary], guarded by its presence. *)
Definition setPathSecondary (tr : PathTransition) (dv : PathD) : State -> State :=
  onAnimator (fun a =>
    withPathSecondary a
      (option_map (fun _ => {| dAttr := dv; pathTransition := tr |}) (pathSecondary a))).

Definition setIsAnimating (b : bool) : State -> State :=
  onAnimator (fun a => withIsAnimating a b).

Definition setLineCurrentSlide (i : Z) : State -> State :=
  onAnimator (fun a => withLineCurrentSlide a i).

(** [hideTimelineCircles()]. *)
Definition hideTimelineCircles : State -> State :=
  onAnimator (fun a => withCirclesVisible a (map (fun _ => false) (circlesVisible a))).

(** [showAllTimelineCircles()]. *)
Definition showAllTimelineCircles : State -> State :=
  onAnimator (fun a => withCirclesVisible a (map (fun _ => true) (circlesVisible a))).

(** [cancelTimelineAnimation()]. *)
Definition cancelTimelineAnimation : State -> State :=
  (fun s => clearTimeouts (timelineTimeouts (animator s)) s) ;;
  onAnimator (fun a => withTimelineTimeouts a []) ;;
  onAnimator (fun a => withTimelineSvg a false).

(** [drawSegments]: the [circleIndex] of the ten segments. *)
Definition drawSegments : list (option nat) :=
  [Some 2%nat; Some 1%nat; Some 0%nat; Some 3%nat; Some 4%nat; Some 5%nat;
   Some 6%nat; None; None; None].

Definition pushTimelineTimeout (id : nat) : State -> State :=
  onAnimator (fun a => withTimelineTimeouts a (timelineTimeouts a ++ [id])).

(** The [drawSegments.forEach] loop: a draw timer per segment, 800 ms
    apart, and a circle timer followed by a 300 ms pause where the segment
    ends in a circle.  Returns the final [currentDelay]. *)
Fixpoint scheduleSegments (segs : list (option nat)) (i : nat) (currentDelay : Z)
         (s : State) : Z * State :=
  match segs with
  | [] => (currentDelay, s)
  | c :: rest =>
      let '(drawTimeoutId, s) := setTimeout (TimelineDraw i) currentDelay s in
      let s := pushTimelineTimeout drawTimeoutId s in
      let currentDelay := currentDelay + 800 in
      match c with
      | Some circleIndex =>
          let '(circleTimeoutId, s) :=
            setTimeout (TimelineCircle circleIndex) currentDelay s in
          scheduleSegments rest (S i) (currentDelay + 300)
                           (pushTimelineTimeout circleTimeoutId s)
      | None => scheduleSegments rest (S i) currentDelay s
      end
  end.

(** The part of [animateTimelineStepByStep()] after the early return. *)
Definition drawTimeline : State -> State :=
  cancelTimelineAnimation ;;
  onAnimator (fun a => withTimelineSvg a true) ;;
  setPath TransitionNone PathTimelineHeader ;;
  (fun s =>
     let '(currentDelay, s) := scheduleSegments drawSegments 0 50 s in
     let totalDuration := currentDelay + 100 in
     schedule TimelineFinal totalDuration pushTimelineTimeout s).

(** [animateTimelineStepByStep()]. *)
Definition animateTimelineStepByStep : State -> State :=
  hideTimelineCircles ;;
  (fun s =>
     if negb (timelineDom (animator s)) then
       showAllTimelineCircles
         (setPath (pathTransition (path (animator s))) PathSlide10Timeline s)
     else drawTimeline s).

(** [getPathForSlide(slideIndex)]; [None] is the [null] of the default
    case. *)
Definition getPathForSlide (slideIndex : Z) : option PathD :=
  if slideIndex =? 0 then Some PathSlide1
  else if slideIndex =? 1 then Some PathSlide2
  else if (2 <=? slideIndex) && (slideIndex <=? 8) then Some (PathHeaderUnderline slideIndex)
  else if slideIndex =? 9 then Some PathSlide10Timeline
  else if slideIndex =? 10 then Some (PathSlide11 true)
  else if slideIndex =? 11 then Some (PathSlide12 true)
  else None.

(** [cancelSlide10To11Swoop()]. *)
Definition cancelSlide10To11Swoop : State -> State :=
  (fun s => clearTimeouts (slide10To11Timeouts (animator s)) s) ;;
  onAnimator (fun a => withSlide10To11Timeouts a []) ;;
  setIsAnimating false.

Definition pushSlide10To11Timeout (id : nat) : State -> State :=
  onAnimator (fun a => withSlide10To11Timeouts a (slide10To11Timeouts a ++ [id])).

(** [animateSlide10To11Swoop(onComplete)]. *)
Definition animateSlide10To11Swoop (onComplete : Callback) : State -> State :=
  cancelSlide10To11Swoop ;;
  setIsAnimating true ;;
  whenS (fun s => timelineDom (animator s))
        (setPath TransitionNone PathSlide10Bottom) ;;
  setPath (TransitionD timingSwoop CubicBezier) (PathSlide11 false) ;;
  schedule (Swoop10T1 onComplete) (timingSwoop * 2 / 10) pushSlide10To11Timeout ;;
  schedule Swoop10T2 (timingSwoop + 150) pushSlide10To11Timeout ;;
  schedule Swoop10T3 (timingSwoop + 1200) pushSlide10To11Timeout.

(** [cancelSlide12Expansion()]: the guard is the truthiness of the stored
    id. *)
Definition cancelSlide12Expansion (s : State) : State :=
  match slide12ExpansionTimeout (animator s) with
  | Some id =>
      if Nat.eqb id 0 then s
      else onAnimator (fun a => withSlide12ExpansionTimeout a None) (clearTimeout id s)
  | None => s
  end.

(** [animateSlide12Expansion()]. *)
Definition animateSlide12Expansion : State -> State :=
  cancelSlide12Expansion ;;
  setPath (TransitionD 800 EaseOut) (PathSlide12 false) ;;
  schedule ExpansionExpand 1200
           (fun id => onAnimator (fun a => withSlide12ExpansionTimeout a (Some id))).

Definition resetOverlays : State -> State :=
  onAnimator (fun a => withOverlays a (option_map resetOverlay (overlayTop a))
                                      (option_map resetOverlay (overlayBottom a))).

(** [cancelSlide12Split()]. *)
Definition cancelSlide12Split : State -> State :=
  (fun s => clearTimeouts (slide12SplitTimeouts (animator s)) s) ;;
  onAnimator (fun a => withSlide12SplitTimeouts a []) ;;
  (fun s => clearTimeouts (slide12ReverseTimeouts (animator s)) s) ;;
  onAnimator (fun a => withSlide12ReverseTimeouts a []) ;;
  whenS (fun s => negb (lineCurrentSlide (animator s) =? 11)) resetOverlays ;;
  setPathSecondary TransitionNone PathZero ;;
  setIsAnimating false.

Definition pushSlide12SplitTimeout (id : nat) : State -> State :=
  onAnimator (fun a => withSlide12SplitTimeouts a (slide12SplitTimeouts a ++ [id])).

Definition pushSlide12ReverseTimeout (id : nat) : State -> State :=
  onAnimator (fun a => withSlide12ReverseTimeouts a (slide12ReverseTimeouts a ++ [id])).

(** Overlay writes that touch only [transition] and [height]. *)
Definition retractOverlay (ms : Z) (o : Overlay) : Overlay :=
  {| ovTransition := OvHeight ms; ovHeight := LenZero; ovOffset := ovOffset o;
     ovOpaque := ovOpaque o; ovDisplayed := ovDisplayed o |}.

(** Overlay writes of phase 2 of the reverse: also [opacity = 0]. *)
Definition fadeOverlay (ms : Z) (o : Overlay) : Overlay :=
  {| ovTransition := OvHeightOpacity ms; ovHeight := LenZero; ovOffset := ovOffset o;
     ovOpaque := false; ovDisplayed := ovDisplayed o |}.

Definition mapOverlays (f : Overlay -> Overlay) : State -> State :=
  onAnimator (fun a => withOverlays a (option_map f (overlayTop a))
                                      (option_map f (overlayBottom a))).

(** The two statements that clear a timer list without the visual reset
    of its cancel method. *)
Definition clearSplitTimeouts : State -> State :=
  (fun s => clearTimeouts (slide12SplitTimeouts (animator s)) s) ;;
  onAnimator (fun a => withSlide12SplitTimeouts a []).

Definition clearReverseTimeouts : State -> State :=
  (fun s => clearTimeouts (slide12ReverseTimeouts (animator s)) s) ;;
  onAnimator (fun a => withSlide12ReverseTimeouts a []).

(** [animateSlide12To11Reverse(onComplete)]. *)
Definition animateSlide12To11Reverse (onComplete : Callback) : State -> State :=
  cancelSlide12Expansion ;;
  clearSplitTimeouts ;;
  clearReverseTimeouts ;;
  setIsAnimating true ;;
  mapOverlays (retractOverlay timingSwoop) ;;
  setPathSecondary TransitionNone (PathSlide12Header true) ;;
  setPath (TransitionD timingSwoop EaseIn) PathOffScreenBottom ;;
  setPathSecondary (TransitionD timingSwoop EaseOut) (PathSlide12Header false) ;;
  schedule (ReverseR1 onComplete) (timingSwoop * 3 / 10) pushSlide12ReverseTimeout ;;
  schedule ReverseR2 (timingSwoop + 100) pushSlide12ReverseTimeout ;;
  schedule ReverseR3 (timingSwoop + 950) pushSlide12ReverseTimeout ;;
  schedule ReverseR4 (timingSwoop + 1000) pushSlide12ReverseTimeout.

(** [animateSlide11To12Split(onSlideReady, onContentReady)]. *)
Definition animateSlide11To12Split (onSlideReady onContentReady : Callback)
  : State -> State :=
  cancelSlide10To11Swoop ;;
  cancelSlide12Split ;;
  cancelSlide12Expansion ;;
  setIsAnimating true ;;
  onAnimator (fun a => withOnContentReadyCallback a (Some onContentReady)) ;;
  (fun s =>
     match overlayTop (animator s), overlayBottom (animator s),
           pathSecondary (animator s) with
     | Some _, Some _, Some _ =>
         (runCallback onSlideReady ;;
          schedule SplitT0 50 pushSlide12SplitTimeout) s
     | _, _, _ =>
         (setIsAnimating false ;;
          runCallback onSlideReady ;;
          runCallback onContentReady) s
     end).

(** [continueSlide12SplitAnimation(headerY, footerY, centerY)]. *)
Definition continueSlide12SplitAnimation : State -> State :=
  schedule SplitT2 (timingSwoop + 150) pushSlide12SplitTimeout ;;
  schedule SplitT3 (timingSwoop + 800) pushSlide12SplitTimeout ;;
  schedule SplitT4 (timingSwoop * 2 + 850) pushSlide12SplitTimeout ;;
  schedule SplitT5 (timingSwoop * 2 + 1200) pushSlide12SplitTimeout.

(** [animateSwoopTransition(fromSlide, toSlide, onComplete)]: its two
    timers are stored nowhere. *)
Definition animateSwoopTransition (onComplete : Callback) : State -> State :=
  fun s =>
    if isAnimating (animator s) then s
    else
      (setIsAnimating true ;;
       setPath (TransitionD timingSwoop CubicBezier) (PathHeaderUnderline 2) ;;
       setLineCurrentSlide 2 ;;
       scheduleUntracked (SwoopComplete onComplete) (timingSwoop * 2 / 10) ;;
       scheduleUntracked SwoopCleanup timingSwoop) s.

(** [animateReverseSwoopTransition(fromSlide, toSlide, onComplete)]. *)
Definition animateReverseSwoopTransition (onComplete : Callback) : State -> State :=
  fun s =>
    if isAnimating (animator s) then s
    else
      (setIsAnimating true ;;
       setPath (TransitionD timingSwoop CubicBezier) PathSlide2 ;;
       scheduleUntracked (ReverseSwoopComplete onComplete) (timingSwoop * 4 / 10) ;;
       scheduleUntracked ReverseSwoopCleanup timingSwoop) s.

(** [updatePath(slideIndex, animate)]. *)
Definition updatePath (slideIndex : Z) (animate : bool) (s : State) : State :=
  let previousSlide := lineCurrentSlide (animator s) in
  let s := setLineCurrentSlide slideIndex s in
  let s :=
    if negb (slideIndex =? 9) &&
       ((previousSlide =? 9) || negb (Nat.eqb (length (timelineTimeouts (animator s))) 0))
    then showAllTimelineCircles (cancelTimelineAnimation s)
    else s in
  match getPathForSlide slideIndex with
  | None => s
  | Some pathData =>
      let s :=
        if (slideIndex =? 9) && animate then animateTimelineStepByStep s
        else if (slideIndex =? 11) && animate
        then showAllTimelineCircles (animateSlide12Expansion s)
        else
          let s := setPath (if animate then TransitionD timingStandard EaseOut
                            else TransitionNone) pathData s in
          if negb (lineCurrentSlide (animator s) =? 9)
          then showAllTimelineCircles s else s in
      if negb (slideIndex =? 11) then
        let s := setPathSecondary TransitionNone PathZero s in
        let s := match overlayTop (animator s), overlayBottom (animator s) with
                 | Some _, Some _ => resetOverlays s
                 | _, _ => s
                 end in
        cancelSlide12Split s
      else s
  end.

(** ** SlideEngine: navigation *)

(** The four cancel calls of the interruption block of [goToSlide]. *)
Definition cancelLineAnimations : State -> State :=
  cancelTimelineAnimation ;;
  cancelSlide10To11Swoop ;;
  cancelSlide12Split ;;
  cancelSlide12Expansion.

(** [this.slides.forEach((slide, i) => { if (i !== this.currentSlide && i
    !== index) hide })]. *)
Definition forceResetStuckSlides (index : Z) (s : State) : State :=
  let cur := currentSlide (engine s) in
  setSlides
    (mapIndexed (fun i sl => if negb (i =? cur) && negb (i =? index) then hide sl else sl)
                0 (slides (engine s))) s.

(** The bounds check of [goToSlide]. *)
Definition boundsCheck (index : Z) (s : State) : Z :=
  let len := slideCount s in
  let lp := loop (config (engine s)) in
  if index <? 0 then (if lp then len - 1 else 0)
  else if index >=? len then (if lp then 0 else len - 1)
  else index.

(** [goToSlide(index, animate)]. *)
Definition goToSlide (index : Z) (animate : bool) (s : State) : State :=
  (* If already transitioning to the same slide, ignore *)
  if isTransitioning (engine s) && (index =? currentSlide (engine s)) then s
  else
    (* If already transitioning, cancel current transition and proceed *)
    let s :=
      if isTransitioning (engine s) then
        let s := when (lineAnimatorAttached (engine s)) cancelLineAnimations s in
        setIsTransitioning false (forceResetStuckSlides index s)
      else s in
    let index := boundsCheck index s in
    if (index =? currentSlide (engine s)) && animate then s
    else
      let cur := currentSlide (engine s) in
      let prevSlide := cur in
      let nextSlide := index in
      let la := lineAnimatorAttached (engine s) in
      if (index =? 0) && (cur =? 0) && negb animate then
        let s := showSlide nextSlide s in
        let s := when la (updatePath 0 false) s in
        afterSlideChange 0 false s
      else
        (* Reset animations on the slide we're leaving *)
        let s :=
          if negb (prevSlide =? nextSlide) then
            let s := resetSlideAnimations prevSlide s in
            if (cur =? 11) && la
            then cancelSlide12Expansion (cancelSlide12Split s)
            else s
          else s in
        if animate && la && (cur =? 1) && (index =? 2) then
          let s := setIsTransitioning true s in
          let s := animateSwoopTransition
                     (OnSwap prevSlide nextSlide (ThenSettle index)) s in
          setCurrentSlide index s
        else if animate && la && (cur =? 2) && (index =? 1) then
          let s := setIsTransitioning true s in
          let s := animateReverseSwoopTransition
                     (OnSwap prevSlide nextSlide (ThenSettle index)) s in
          setCurrentSlide index s
        else if animate && la && (cur =? 9) && (index =? 10) then
          let s := setIsTransitioning true s in
          let s := cancelTimelineAnimation s in
          let s := showAllTimelineCircles s in
          let s := animateSlide10To11Swoop
                     (OnSwap prevSlide nextSlide (ThenSettle index)) s in
          setCurrentSlide index s
        else if animate && la && (cur =? 11) && (index =? 10) then
          let s := setIsTransitioning true s in
          let s := clearSplitTimeouts s in
          let s := animateSlide12To11Reverse
                     (OnSwap prevSlide nextSlide (ThenSettleReverse index)) s in
          setCurrentSlide index s
        else if animate && la && (cur =? 10) && (index =? 11) then
          let s := cancelTimelineAnimation s in
          let s := cancelSlide10To11Swoop s in
          let s := cancelSlide12Split s in
          let s := cancelSlide12Expansion s in
          let s := if isTransitioning (engine s)
                   then setIsTransitioning false (hideSlide prevSlide s)
                   else s in
          let s := setIsAnimating false s in
          let s := setIsTransitioning true s in
          (* Don't set currentSlide here - wait for transition to complete *)
          animateSlide11To12Split (OnSlideReady prevSlide nextSlide index)
                                  (OnContentReady nextSlide) s
        else
          let s :=
            match animate, transitionType (config (engine s)) with
            | true, (Fade | SlideX | Zoom) =>
                let s := setIsTransitioning true s in
                let s := when la (updatePath index true) s in
                let s := when (animationsEnabled (config (engine s)))
                              (triggerSlideAnimations nextSlide) s in
                transition prevSlide nextSlide (ThenSettle index) s
            | _, _ =>
                let s := when (negb (prevSlide =? nextSlide)) (hideSlide prevSlide) s in
                let s := showSlide nextSlide s in
                let s := when la (updatePath index false) s in
                afterSlideChange index false s
            end in
          setCurrentSlide index s.

(** [next()], [prev()], [first()], [last()]. *)
Definition next (s : State) : State := goToSlide (currentSlide (engine s) + 1) true s.
Definition prev (s : State) : State := goToSlide (currentSlide (engine s) - 1) true s.
Definition first (s : State) : State := goToSlide 0 true s.
Definition last (s : State) : State := goToSlide (slideCount s - 1) true s.

(** ** Timer callbacks and the event loop *)

Definition guardAnimating (c : State -> State) : State -> State :=
  whenS (fun s => isAnimating (animator s)) c.

Definition showOverlay (height offset : OverlayLength) (o : Overlay) : Overlay :=
  {| ovTransition := OvNone; ovHeight := height; ovOffset := offset;
     ovOpaque := true; ovDisplayed := true |}.

(** The body of each closure passed to [setTimeout]. *)
Definition runAction (a : Action) : State -> State :=
  match a with
  | TransitionSafety p => resolve p
  | TransitionDone fromSlide toSlide safetyTimeout p =>
      clearTimeout safetyTimeout ;;
      hideSlide fromSlide ;;
      resolve p
  | RevealElement i n => revealElement i n
  | TimelineDraw _ => skip
  | TimelineCircle circleIndex =>
      onAnimator (fun a => withCirclesVisible a
                             (mapAt circleIndex (fun _ => true) (circlesVisible a)))
  | TimelineFinal =>
      (fun s => setPath (pathTransition (path (animator s))) PathSlide10Timeline s) ;;
      onAnimator (fun a => withTimelineSvg a false)
  | Swoop10T1 onComplete => guardAnimating (runCallback onComplete)
  | Swoop10T2 => guardAnimating (setPath (TransitionD 1000 EaseOut) (PathSlide11 true))
  | Swoop10T3 => setIsAnimating false ;; setLineCurrentSlide 10
  | ReverseR1 onComplete => guardAnimating (runCallback onComplete)
  | ReverseR2 =>
      guardAnimating
        (setPathSecondary (TransitionD 800 EaseOut) (PathSlide11 true) ;;
         mapOverlays (fadeOverlay timingSwoop))
  | ReverseR3 =>
      guardAnimating
        (setPath TransitionNone (PathSlide11 true) ;;
         setPathSecondary TransitionNone PathZero ;;
         resetOverlays)
  | ReverseR4 => guardAnimating (setIsAnimating false ;; setLineCurrentSlide 10)
  | ExpansionExpand =>
      setPath (TransitionD 1000 EaseOut) (PathSlide12 true) ;;
      onAnimator (fun a => withSlide12ExpansionTimeout a None)
  | SplitT0 =>
      guardAnimating
        (onAnimator (fun a =>
           withOverlays a
             (option_map (showOverlay LenCenterY LenZero) (overlayTop a))
             (option_map (showOverlay LenFooterMinusCenter LenViewportMinusFooter)
                         (overlayBottom a))) ;;
         setPath (TransitionD timingSwoop CubicBezier) (PathScreenCenter false) ;;
         continueSlide12SplitAnimation)
  | SplitT2 =>
      guardAnimating (setPath (TransitionD 600 EaseOut) (PathScreenCenter true))
  | SplitT3 =>
      guardAnimating
        (setPathSecondary TransitionNone (PathScreenCenter true) ;;
         setPath (TransitionD timingSwoop EaseOut) (PathSlide12 true) ;;
         setPathSecondary (TransitionD timingSwoop EaseOut) (PathSlide12Header true) ;;
         mapOverlays (retractOverlay timingSwoop))
  | SplitT4 =>
      guardAnimating
        (fun s =>
           match onContentReadyCallback (animator s) with
           | Some cb =>
               onAnimator (fun a => withOnContentReadyCallback a None) (runCallback cb s)
           | None => s
           end)
  | SplitT5 => guardAnimating (setIsAnimating false ;; setLineCurrentSlide 11)
  | SwoopComplete onComplete => runCallback onComplete
  | SwoopCleanup => setIsAnimating false
  | ReverseSwoopComplete onComplete => runCallback onComplete
  | ReverseSwoopCleanup => setIsAnimating false ;; setLineCurrentSlide 1
  end.

(** The timer due first: smallest due time, and among equals the one set
    first (the table is kept in the order the timers were set). *)
Fixpoint earliest (best : Timer) (l : list Timer) : Timer :=
  match l with
  | [] => best
  | t :: l' => earliest (if fireAt t <? fireAt best then t else best) l'
  end.

Definition nextTimer (s : State) : option Timer :=
  match timers (host s) with
  | [] => None
  | t :: l => Some (earliest t l)
  end.

(** The event loop takes timer [t]: the clock reaches its due time, the
    entry leaves the table, the callback runs. *)
Definition fire (t : Timer) (s : State) : State :=
  runAction (action t)
    (clearTimeout (tid t) (setNow (Z.max (now (host s)) (fireAt t)) s)).

(** Run timers until the table is empty (at most [fuel] of them). *)
Fixpoint run (fuel : nat) (s : State) : State :=
  match fuel with
  | O => s
  | S fuel' =>
      match nextTimer s with
      | None => s
      | Some t => run fuel' (fire t s)
      end
  end.

(** Let the clock advance to [t], running every timer due by then. *)
Fixpoint runUntil (fuel : nat) (t : Z) (s : State) : State :=
  match fuel with
  | O => s
  | S fuel' =>
      match nextTimer s with
      | None => setNow (Z.max (now (host s)) t) s
      | Some tm =>
          if fireAt tm <=? t then runUntil fuel' t (fire tm s)
          else setNow (Z.max (now (host s)) t) s
      end
  end.

(** The engine is settled: no transition in flight, no timer pending. *)
Definition isSettled (s : State) : bool :=
  negb (isTransitioning (engine s)) &&
  match timers (host s) with [] => true | _ => false end.

(** ** Navigation input *)

Inductive Command :=
| GoTo (index : Z)      (* goToSlide(index), e.g. a thumbnail click *)
| Next | Prev | First | Last.

Definition perform (c : Command) : State -> State :=
  match c with
  | GoTo index => goToSlide index true
  | Next => next
  | Prev => prev
  | First => first
  | Last => last
  end.

(** A script of input: each command is issued [wait] ms after the
    previous one, timers due in between having run. *)
Fixpoint play (fuel : nat) (script : list (Z * Command)) (s : State) : State :=
  match script with
  | [] => s
  | (wait, c) :: rest =>
      play fuel rest (perform c (runUntil fuel (now (host s) + wait) s))
  end.

(** Each command is issued after the previous one has settled. *)
Fixpoint playSettled (fuel : nat) (script : list Command) (s : State) : State :=
  match script with
  | [] => s
  | c :: rest => playSettled fuel rest (run fuel (perform c s))
  end.

(** ** Start-up *)

(** [new SlideEngine(config)]. *)
Definition newSlideEngine (cfg : Config) : SlideEngine :=
  {| config := cfg; currentSlide := 0; slides := []; isTransitioning := false;
     lineAnimatorAttached := false |}.

(** [new LineAnimator(engine)]; the arguments say which of the optional
    DOM nodes exist. *)
Definition newLineAnimator (secondary overlays timeline : bool) : LineAnimator :=
  let ov := if overlays
            then Some {| ovTransition := OvUnset; ovHeight := LenUnset;
                         ovOffset := LenUnset; ovOpaque := false;
                         ovDisplayed := false |}
            else None in
  {| lineCurrentSlide := 0; isAnimating := false; timelineTimeouts := [];
     slide12ExpansionTimeout := None; slide12SplitTimeouts := [];
     slide12ReverseTimeouts := []; slide10To11Timeouts := [];
     onContentReadyCallback := None;
     path := {| dAttr := PathUnset; pathTransition := TransitionUnset |};
     pathSecondary := if secondary
                      then Some {| dAttr := PathUnset; pathTransition := TransitionUnset |}
                      else None;
     overlayTop := ov; overlayBottom := ov;
     timelineSvg := false;
     circlesVisible := if timeline then repeat false 7 else [];
     timelineDom := timeline |}.

(** Browsers number timers from 1. *)
Definition newHost : Host :=
  {| now := 0; timers := []; nextTimerId := 1; promises := []; events := [] |}.

(** [SlideEngine.init()] over the [.slide] elements found in the
    document. *)
Definition init (dom : list Slide) (s : State) : State :=
  match dom with
  | [] => s
  | _ =>
      let marked :=
        mapIndexed
          (fun i sl =>
             {| slideHidden := if i =? 0 then slideHidden sl else true;
                ariaHidden := negb (i =? 0);
                animatedElements :=
                  map (fun el => {| dataDelay := dataDelay el; animateIn := false |})
                      (animatedElements sl) |})
          0 dom in
      goToSlide 0 false (setSlides marked s)
  end.

(** [engine.lineAnimator = lineAnimator]. *)
Definition attachLineAnimator : State -> State :=
  onEngine (fun e =>
    {| config := config e; currentSlide := currentSlide e; slides := slides e;
       isTransitioning := isTransitioning e; lineAnimatorAttached := true |}).

(** The DOMContentLoaded handler: engine, then animator, whose [init]
    places the path for slide 0 two animation frames later. *)
Definition boot (cfg : Config) (dom : list Slide) (a : LineAnimator) : State :=
  let s := {| engine := newSlideEngine cfg; animator := a; host := newHost |} in
  let s := init dom s in
  let s := attachLineAnimator s in
  updatePath 0 false s.

(** The configuration passed in [app.js]. *)
Definition appConfig : Config :=
  {| loop := false; transitionType := Fade; duration := 400;
     animationsEnabled := true; staggerDelay := 100; countUpDuration := 2000 |}.

Definition appConfigLoop : Config :=
  {| loop := true; transitionType := Fade; duration := 400;
     animationsEnabled := true; staggerDelay := 100; countUpDuration := 2000 |}.

(** A deck of [n] slides, each with two animated children. *)
Definition deck (n : nat) : list Slide :=
  repeat {| slideHidden := false; ariaHidden := false;
            animatedElements := [ {| dataDelay := 0; animateIn := false |};
                                  {| dataDelay := 200; animateIn := false |} ] |} n.

(** The presentation once loaded and at rest: twelve slides, slide 0
    shown. *)
Definition loaded (cfg : Config) : State :=
  run 100 (boot cfg (deck 12) (newLineAnimator true true true)).

(** The presentation at rest on slide [n], reached by one jump from the
    first slide. *)
Definition restingAt (cfg : Config) (n : Z) : State :=
  run 100 (goToSlide n true (loaded cfg)).

Definition hiddenFlags (s : State) : list bool :=
  map slideHidden (slides (engine s)).

(** ** Special sequences and their timers *)

(** The choreographies of the animator that schedule timers. *)
Inductive Sequence :=
| SwoopForward      (* animateSwoopTransition, slide 2 -> 3 *)
| SwoopBack         (* animateReverseSwoopTransition, slide 3 -> 2 *)
| TimelineReveal    (* animateTimelineStepByStep *)
| Swoop10To11       (* animateSlide10To11Swoop *)
| Expansion         (* animateSlide12Expansion *)
| Split             (* animateSlide11To12Split *)
| ReverseSplit.     (* animateSlide12To11Reverse *)

Definition allSequences : list Sequence :=
  [SwoopForward; SwoopBack; TimelineReveal; Swoop10To11; Expansion; Split; ReverseSplit].

Definition sequenceEqb (a b : Sequence) : bool :=
  match a, b with
  | SwoopForward, SwoopForward | SwoopBack, SwoopBack
  | TimelineReveal, TimelineReveal | Swoop10To11, Swoop10To11
  | Expansion, Expansion | Split, Split | ReverseSplit, ReverseSplit => true
  | _, _ => false
  end.

(** The sequence whose method passed the closure to [setTimeout]; [None]
    for the timers of the engine. *)
Definition sequenceOf (a : Action) : option Sequence :=
  match a with
  | TransitionSafety _ | TransitionDone _ _ _ _ | RevealElement _ _ => None
  | TimelineDraw _ | TimelineCircle _ | TimelineFinal => Some TimelineReveal
  | Swoop10T1 _ | Swoop10T2 | Swoop10T3 => Some Swoop10To11
  | ReverseR1 _ | ReverseR2 | ReverseR3 | ReverseR4 => Some ReverseSplit
  | ExpansionExpand => Some Expansion
  | SplitT0 | SplitT2 | SplitT3 | SplitT4 | SplitT5 => Some Split
  | SwoopComplete _ | SwoopCleanup => Some SwoopForward
  | ReverseSwoopComplete _ | ReverseSwoopCleanup => Some SwoopBack
  end.

Definition belongsTo (q : Sequence) (t : Timer) : bool :=
  match sequenceOf (action t) with
  | Some q' => sequenceEqb q q'
  | None => false
  end.

(** Ids of the pending timers of sequence [q]. *)
Definition liveTimers (q : Sequence) (s : State) : list nat :=
  map tid (filter (belongsTo q) (timers (host s))).

(** The sequences with at least one pending timer. *)
Definition liveSequences (s : State) : list Sequence :=
  filter (fun q => match liveTimers q s with [] => false | _ => true end) allSequences.

(** The timer ids the animator has on record for a sequence; the two
    swoops of slides 2 and 3 record none. *)
Definition recordedTimers (q : Sequence) (s : State) : list nat :=
  let a := animator s in
  match q with
  | SwoopForward | SwoopBack => []
  | TimelineReveal => timelineTimeouts a
  | Swoop10To11 => slide10To11Timeouts a
  | Expansion => match slide12ExpansionTimeout a with
                 | Some id => if Nat.eqb id 0 then [] else [id]
                 | None => []
                 end
  | Split => slide12SplitTimeouts a
  | ReverseSplit => slide12ReverseTimeouts a
  end.

(** The start method of each sequence, as the animator exposes it. *)
Definition startSequence (q : Sequence) (cb1 cb2 : Callback) : State -> State :=
  match q with
  | SwoopForward => animateSwoopTransition cb1
  | SwoopBack => animateReverseSwoopTransition cb1
  | TimelineReveal => animateTimelineStepByStep
  | Swoop10To11 => animateSlide10To11Swoop cb1
  | Expansion => animateSlide12Expansion
  | Split => animateSlide11To12Split cb1 cb2
  | ReverseSplit => animateSlide12To11Reverse cb1
  end.

(** The animator's bookkeeping is sound: every pending timer of a
    recording sequence is on that sequence's record, timer ids are below
    the next id to hand out (which is positive), and timeline timers exist
    only where the timeline's DOM does. *)
Definition Tracked (s : State) : Prop :=
  (forall t, In t (timers (host s)) -> (tid t < nextTimerId (host s))%nat) /\
  (0 < nextTimerId (host s))%nat /\
  (forall q t, In t (timers (host s)) -> belongsTo q t = true ->
               q <> SwoopForward -> q <> SwoopBack ->
               In (tid t) (recordedTimers q s)) /\
  (timelineDom (animator s) = false -> liveTimers TimelineReveal s = []).

Definition recordsTimers (q : Sequence) : bool :=
  match q with
  | SwoopForward | SwoopBack => false
  | _ => true
  end.

(** [Tracked] as a test. *)
Definition trackedb (s : State) : bool :=
  forallb (fun t => (tid t <? nextTimerId (host s))%nat) (timers (host s)) &&
  (0 <? nextTimerId (host s))%nat &&
  forallb (fun t =>
             match sequenceOf (action t) with
             | Some q => negb (recordsTimers q) ||
                         existsb (Nat.eqb (tid t)) (recordedTimers q s)
             | None => true
             end) (timers (host s)) &&
  (timelineDom (animator s) ||
   forallb (fun t => negb (belongsTo TimelineReveal t)) (timers (host s))).

(** ** Numbers: IEEE 754 binary64 *)

Open Scope Q_scope.

(** A JavaScript Number.  A finite double is given by its value; the two
    zeros are not told apart (no result below depends on the sign of a
    zero: the one division by a number that can be zero is by a
    configured duration). *)
Inductive Double :=
| Finite (q : Q)
| PosInfinity
| NegInfinity
| NaN.

Definition pow2 (e : Z) : Q := 2 ^ e.

(** The binade of [x <> 0]: the [e] with [2^e <= |x| < 2^(e+1)]. *)
Definition binade (x : Q) : Z :=
  let e := (Z.log2 (Z.abs (Qnum x)) - Z.log2 (Zpos (Qden x)))%Z in
  if Qle_bool (pow2 e) (Qabs x) then e else (e - 1)%Z.

(** Exponent of the unit in the last place: 53 significant bits, and
    nothing finer than [2^-1074] (subnormal numbers). *)
Definition ulpExp (x : Q) : Z := Z.max (binade x - 52) (-1074).

(** The nearest integer, a tie going to the even one. *)
Definition roundNE (x : Q) : Z :=
  let f := Qfloor x in
  match Qcompare (x - inject_Z f) (1 # 2) with
  | Lt => f
  | Gt => (f + 1)%Z
  | Eq => if Z.even f then f else (f + 1)%Z
  end.

(** The nearest multiple of [2^k]. *)
Definition roundAt (k : Z) (x : Q) : Q :=
  Qred (inject_Z (roundNE (x / pow2 k)) * pow2 k).

(** Rounding to nearest, ties to even, the exponent unbounded above. *)
Definition fl (x : Q) : Q :=
  if Qeq_bool x 0 then 0 else roundAt (ulpExp x) x.

(** The Number for the real [x]: what rounds to [2^1024] or beyond
    overflows. *)
Definition toDouble (x : Q) : Double :=
  let y := fl x in
  if Qle_bool (pow2 1024) y then PosInfinity
  else if Qle_bool y (- pow2 1024) then NegInfinity
  else Finite y.

Definition ofZ (z : Z) : Double := toDouble (inject_Z z).

(** [a + b]. *)
Definition numAdd (a b : Double) : Double :=
  match a, b with
  | NaN, _ | _, NaN => NaN
  | PosInfinity, NegInfinity | NegInfinity, PosInfinity => NaN
  | PosInfinity, _ | _, PosInfinity => PosInfinity
  | NegInfinity, _ | _, NegInfinity => NegInfinity
  | Finite x, Finite y => toDouble (x + y)
  end.

(** [-a]. *)
Definition numNeg (a : Double) : Double :=
  match a with
  | Finite x => Finite (Qred (- x))
  | PosInfinity => NegInfinity
  | NegInfinity => PosInfinity
  | NaN => NaN
  end.

(** [a - b]. *)
Definition numSub (a b : Double) : Double :=
  match a, b with
  | Finite x, Finite y => toDouble (x - y)
  | _, _ => numAdd a (numNeg b)
  end.

(** The sign of a Number that is not [NaN]: [1], [0] or [-1]. *)
Definition signOf (a : Double) : Z :=
  match a with
  | Finite x => Z.sgn (Qnum x)
  | PosInfinity => 1
  | NegInfinity => (-1)
  | NaN => 0
  end.

Definition infinityOf (sign : Z) : Double :=
  if (sign <? 0)%Z then NegInfinity else PosInfinity.

(** [a * b]. *)
Definition numMul (a b : Double) : Double :=
  match a, b with
  | NaN, _ | _, NaN => NaN
  | Finite x, Finite y => toDouble (x * y)
  | _, _ =>
      if (signOf a * signOf b =? 0)%Z then NaN
      else infinityOf (signOf a * signOf b)
  end.

(** [a / b]; a zero divisor counts as [+0]. *)
Definition numDiv (a b : Double) : Double :=
  match a, b with
  | NaN, _ | _, NaN => NaN
  | Finite x, Finite y =>
      if Qeq_bool y 0
      then (if Qeq_bool x 0 then NaN else infinityOf (signOf a))
      else toDouble (x / y)
  | Finite _, _ => Finite 0
  | _, Finite _ => infinityOf (signOf a * (if (signOf b <? 0)%Z then -1 else 1))
  | _, _ => NaN
  end.

(** [a < b]. *)
Definition numLt (a b : Double) : bool :=
  match a, b with
  | NaN, _ | _, NaN => false
  | Finite x, Finite y => negb (Qle_bool y x)
  | NegInfinity, NegInfinity => false
  | NegInfinity, _ => true
  | _, PosInfinity => match a with PosInfinity => false | _ => true end
  | _, _ => false
  end.

(** [a <= b]. *)
Definition numLe (a b : Double) : bool :=
  match a, b with
  | NaN, _ | _, NaN => false
  | Finite x, Finite y => Qle_bool x y
  | NegInfinity, _ => true
  | _, PosInfinity => true
  | _, _ => false
  end.

(** [Math.min(a, b)]. *)
Definition mathMin (a b : Double) : Double :=
  match a, b with
  | NaN, _ | _, NaN => NaN
  | _, _ => if numLt b a then b else a
  end.

(** [Math.max(a, b)]. *)
Definition mathMax (a b : Double) : Double :=
  match a, b with
  | NaN, _ | _, NaN => NaN
  | _, _ => if numLt a b then b else a
  end.


(** [Math.round(a)]: the nearest integer, a tie going up. *)
Definition mathRoundNum (a : Double) : Double :=
  match a with
  | Finite x => Finite (inject_Z (Qfloor (x + (1 # 2))))
  | _ => a
  end.



(** [a || b] on Numbers: [a] unless it is zero or [NaN]. *)
Definition numOr (a b : Double) : Double :=
  match a with
  | NaN => b
  | Finite x => if Qeq_bool x 0 then b else a
  | _ => a
  end.

(** [array[a]]: an element for an index that is a whole number within
    the array, [undefined] ([None]) otherwise. *)
Definition elementAt {A} (l : list A) (a : Double) : option A :=
  match a with
  | Finite x =>
      if Qeq_bool x (inject_Z (Qfloor x)) && (0 <=? Qfloor x)%Z
      then nth_error l (Z.to_nat (Qfloor x))
      else None
  | _ => None
  end.

Close Scope Q_scope.

(** ** Count-up numbers *)

Section CountUp.
(** What the host supplies: the real cube its [Math.pow(x, 3)] rounds,
    and [Number.prototype.toLocaleString()], which follows the locale of
    the browser. *)
Variable cube : Q -> Q.
Variable toLocaleString : Double -> String.string.






End CountUp.

Section Formatting.
Import Ascii String.



End Formatting.
(** The loaded presentation after [k] calls of [next()], each issued once
    the engine has settled. *)
Definition afterNexts (cfg : Config) (k : nat) : State :=
  playSettled 100 (repeat Next k) (loaded cfg).

(** A timer survives [clearTimeout] of every id in [ids]. *)
Definition keptAfterClearing (ids : list nat) (t : Timer) : bool :=
  negb (existsb (Nat.eqb (tid t)) ids).

(** Timer callbacks that only repaint: they touch the animator's nodes
    or the classes of animated children, schedule and cancel nothing, and
    leave hidden flags, promises and the engine's fields alone. *)
Definition quiet (a : Action) : bool :=
  match a with
  | RevealElement _ _ | TimelineDraw _ | TimelineCircle _ | TimelineFinal
  | Swoop10T2 | Swoop10T3 | ReverseR2 | ReverseR3 | ReverseR4
  | ExpansionExpand | SplitT2 | SplitT3 | SplitT5
  | SwoopCleanup | ReverseSwoopCleanup => true
  | _ => false
  end.

(** The index a reaction passes to [afterSlideChange]. *)
Definition thenIndex (k : Then) : Z :=
  match k with
  | ThenSettle index | ThenSettleReverse index | ThenSettleSplit index => index
  end.

(** The promise numbered [p] is settled. *)
Definition isSettledPromise (p : nat) (s : State) : bool :=
  match nth_error (promises (host s)) p with
  | Some pr => settled pr
  | None => false
  end.

(** The sequences whose recorded timers the start method of [q] clears
    before it sets its own. *)
Definition cancelledBy (q : Sequence) : list Sequence :=
  match q with
  | SwoopForward | SwoopBack => []
  | TimelineReveal => [TimelineReveal]
  | Swoop10To11 => [Swoop10To11]
  | Expansion => [Expansion]
  | Split => [Swoop10To11; Split; ReverseSplit; Expansion]
  | ReverseSplit => [Expansion; Split; ReverseSplit]
  end.

(** A timer set by the engine, not by a sequence of the animator. *)
Definition engineTimer (t : Timer) : Prop := sequenceOf (action t) = None.

(** [s'] has the timers of [s] and, possibly, fresh engine timers; the
    animator is as in [s]. *)
Definition addsEngineTimers (s s' : State) : Prop :=
  animator s' = animator s /\
  (nextTimerId (host s) <= nextTimerId (host s'))%nat /\
  (forall t, In t (timers (host s')) ->
             In t (timers (host s)) \/
             ((nextTimerId (host s) <= tid t)%nat /\ engineTimer t)).

(** What a start method may leave in the timer table: timers that were
    there and are on no record it clears, and fresh timers of its own
    sequence or of the engine. *)
Definition startEffect (q : Sequence) (s s' : State) : Prop :=
  forall t, In t (timers (host s')) ->
    (In t (timers (host s)) /\
     forall q', In q' (cancelledBy q) -> ~ In (tid t) (recordedTimers q' s)) \/
    ((nextTimerId (host s) <= tid t)%nat /\
     (sequenceOf (action t) = Some q \/ engineTimer t)).

(** The effect of a cancel prefix: no id is handed out, and a timer that
    is still pending was pending before and is on none of the records of
    the sequences [qs]. *)
Definition keepsUnrecorded (qs : list Sequence) (s s1 : State) : Prop :=
  nextTimerId (host s1) = nextTimerId (host s) /\
  forall t, In t (timers (host s1)) ->
    In t (timers (host s)) /\
    forall q', In q' qs -> ~ In (tid t) (recordedTimers q' s).

(** The effect of the scheduling part of a start method of [q]: the only
    timers added are fresh and are timers of [q] or of the engine. *)
Definition schedulesOwn (q : Sequence) (s s' : State) : Prop :=
  (nextTimerId (host s) <= nextTimerId (host s'))%nat /\
  forall t, In t (timers (host s')) ->
    In t (timers (host s)) \/
    ((nextTimerId (host s) <= tid t)%nat /\
     (sequenceOf (action t) = Some q \/ engineTimer t)).

Definition SchedulesOwn (q : Sequence) (c : State -> State) : Prop :=
  forall s, schedulesOwn q s (c s).

(** The states in which the commands of a script are issued, and the one
    its last command leaves. *)
Fixpoint playStates (fuel : nat) (script : list (Z * Command)) (s : State)
  : list State :=
  match script with
  | [] => [s]
  | (wait, c) :: rest =>
      s :: playStates fuel rest (perform c (runUntil fuel (now (host s) + wait) s))
  end.

(** A tour of the deck: forwards and backwards with a key press every
    150 ms (in the middle of the running sequences), jumps around the
    special slides, then the same walk at rest and with no delay at all. *)
Definition tour : list (Z * Command) :=
  map (fun c => (150, c))
      (repeat Next 12 ++ repeat Prev 12 ++
       [GoTo 9; GoTo 10; GoTo 9; GoTo 10; GoTo 11; GoTo 10; GoTo 11; Last;
        First; GoTo 2; GoTo 1; GoTo 2; GoTo 11; GoTo 10; GoTo 9; GoTo 3]) ++
  map (fun c => (3000, c)) (repeat Next 12 ++ repeat Prev 12) ++
  map (fun c => (0, c)) (repeat Next 12 ++ repeat Prev 12).

(** ** Views used by the navigation theorems *)

(** Slide [target] is shown and every other slide of the list is hidden. *)
Definition onlyVisible (target : Z) (s : State) : Prop :=
  forall j, 0 <= j < slideCount s -> hiddenFlag j s = negb (j =? target).

(** The state in which [SlideEngine.init()] runs: a fresh engine, before
    the animator is attached to it. *)
Definition beforeInit (cfg : Config) (a : LineAnimator) : State :=
  {| engine := newSlideEngine cfg; animator := a; host := newHost |}.

(** The timers [triggerSlideAnimations] sets for the animated children
    [els] of slide [i], the first of them being child number [n]: ids from
    [id] on, child [n] due [data-delay + n * staggerDelay] ms after
    [now]. *)
Fixpoint revealTimers (i stagger now : Z) (id n : nat) (els : list AnimatedElement)
  : list Timer :=
  match els with
  | [] => []
  | el :: rest =>
      {| tid := id; fireAt := now + Z.max 0 (dataDelay el + Z.of_nat n * stagger);
         action := RevealElement i n |}
        :: revealTimers i stagger now (S id) (S n) rest
  end.

(** The guards of the five special branches of [goToSlide], for an
    animated call: the pairs of slides joined by a choreography of the
    animator. *)
Definition specialPair (la : bool) (cur index : Z) : bool :=
  la && (((cur =? 1) && (index =? 2)) || ((cur =? 2) && (index =? 1)) ||
         ((cur =? 9) && (index =? 10)) || ((cur =? 11) && (index =? 10)) ||
         ((cur =? 10) && (index =? 11))).

(** What navigation reads of the engine: its fields and the hidden flag
    of every slide (not the classes of the animated children). *)
Definition navView (s : State) : Config * Z * bool * bool * list bool :=
  (config (engine s), currentSlide (engine s), isTransitioning (engine s),
   lineAnimatorAttached (engine s), hiddenFlags s).

(** A step that only repaints: navigation state, promises, events and
    clock are as before; timers may have been cleared, and every timer
    added is fresh and quiet. *)
Definition repaints (s s' : State) : Prop :=
  navView s' = navView s /\
  promises (host s') = promises (host s) /\
  events (host s') = events (host s) /\
  now (host s') = now (host s) /\
  (nextTimerId (host s) <= nextTimerId (host s'))%nat /\
  forall t, In t (timers (host s')) ->
    In t (timers (host s)) \/
    ((nextTimerId (host s) <= tid t < nextTimerId (host s'))%nat /\
     quiet (action t) = true).

Definition Repaints (c : State -> State) : Prop := forall s, repaints s (c s).

(** Every pending timer is quiet and carries an id that was handed
    out: the engine is between transitions and no choreography that calls
    back into it is under way. *)
Definition quietTable (s : State) : Prop :=
  forall t, In t (timers (host s)) ->
            quiet (action t) = true /\ (tid t < nextTimerId (host s))%nat.

(** [onlyVisible] as a test on the slide list. *)
Fixpoint flagsFrom (i target : Z) (l : list Slide) : bool :=
  match l with
  | [] => true
  | sl :: l' => Bool.eqb (slideHidden sl) (negb (i =? target)) && flagsFrom (i + 1) target l'
  end.

Definition onlyVisibleb (target : Z) (s : State) : bool :=
  flagsFrom 0 target (slides (engine s)).

(** The animated children of slide [i] (none if there is no such
    slide). *)
Definition childrenOf (i : Z) (s : State) : list AnimatedElement :=
  match getSlide i (slides (engine s)) with
  | Some sl => animatedElements sl
  | None => []
  end.

(** The table holds reveal timers of slide [i] only, with distinct ids,
    and every child of the slide is shown or has its timer pending. *)
Definition revealing (i : Z) (s : State) : Prop :=
  NoDup (map tid (timers (host s))) /\
  (forall t, In t (timers (host s)) -> exists n, action t = RevealElement i n) /\
  (forall n el, nth_error (childrenOf i s) n = Some el ->
                animateIn el = true \/
                exists t, In t (timers (host s)) /\ action t = RevealElement i n).

(** The interruption block at the head of [goToSlide]: what a request
    for another slide does first when it arrives during a transition. *)
Definition interrupt (index : Z) (s : State) : State :=
  setIsTransitioning false
    (forceResetStuckSlides index
       (when (lineAnimatorAttached (engine s)) cancelLineAnimations s)).


(** ** SlideScaler *)

(** What [updateSlideScale] writes to the wrapper: [style.transform]
    ([None] for ['none'], [Some k] for [scale(k)]) and [style.height]
    ([None] for ['auto'], [Some h] for [h] px). *)
Record WrapperStyle := {
  wrapperScale : option Q;
  wrapperHeight : option Z
}.

(** The variable [scale] of [updateSlideScale] once computed.  Heights
    are the integers the DOM reports ([scrollHeight], [innerHeight]); the
    quotient is taken exactly. *)
Definition slideScale (hasFooter : bool)
           (contentHeight viewportHeight slidePadding footerHeight : Z) : Q :=
  let reservedSpace := slidePadding + (if hasFooter then footerHeight else 0) in
  let availableHeight := viewportHeight - reservedSpace in
  if (contentHeight >? availableHeight) && (contentHeight >? 0)
  then Qmax (6 # 10) (inject_Z availableHeight / inject_Z contentHeight)
  else 1%Q.

(** [updateSlideScale(slide, wrapper, viewportHeight, slidePadding,
    footerHeight)], given whether the slide has a [.slide-footer] and the
    wrapper's [scrollHeight]. *)
Definition updateSlideScale (hasFooter : bool)
           (contentHeight viewportHeight slidePadding footerHeight : Z) : WrapperStyle :=
  let scale := slideScale hasFooter contentHeight viewportHeight slidePadding footerHeight in
  if Qlt_le_dec scale 1
  then {| wrapperScale := Some scale; wrapperHeight := Some contentHeight |}
  else {| wrapperScale := None; wrapperHeight := None |}.

(** ** ChartFactory: colours *)

(** [Math.min(...values)] and [Math.max(...values)]: [Infinity] and
    [-Infinity] for the empty array, [NaN] if an element is [NaN]. *)
Definition minOf (values : list Double) : Double :=
  fold_right mathMin PosInfinity values.
Definition maxOf (values : list Double) : Double :=
  fold_right mathMax NegInfinity values.

Section ChartColors.
Import Ascii String.
Local Open Scope string_scope.

(** [ChartFactory.theme]. *)
Definition themePrimary : string := "#E07A47".

Definition themeGradient : list string :=
  ["#5D6D7E"; "#7B8A8E"; "#A0856E"; "#C47A50"; "#D86835";
   "#E85A20"; "#F24A10"; "#FC3F00"].

Definition themeCategorical : list string :=
  ["#E07A47"; "#5D87A1"; "#2E7D32"; "#8B3A3A"; "#7B68EE";
   "#4A90E2"; "#FFA726"; "#26A69A"; "#AB47BC"; "#78909C"].

(** [gradient.length - 1]. *)
Definition gradientLast : Double :=
  numSub (ofZ (Z.of_nat (List.length themeGradient))) (Finite 1).

(** The [index] computed for [val] in the branch that colours by value,
    before it is capped. *)
Definition valueIndex (values : list Double) (val : Double) : Double :=
  let min := minOf values in
  let max := maxOf values in
  let range := numOr (numSub max min) (Finite 1) in
  let normalized := numDiv (numSub val min) range in
  mathRoundNum (numMul normalized gradientLast).

(** The [index] computed for position [i] in the branch that spreads the
    gradient over [count] colours. *)
Definition countIndex (count : nat) (i : nat) : Double :=
  let step := numDiv gradientLast (numSub (ofZ (Z.of_nat count)) (Finite 1)) in
  mathRoundNum (numMul (ofZ (Z.of_nat i)) step).

(** [generateColors(count, scheme, values)]; [values] is [None] for
    [null].  [count] is an array length at both call sites. *)
Definition generateColors (count : nat) (scheme : string)
           (values : option (list Double)) : list (option string) :=
  let gradient := themeGradient in
  match String.eqb scheme "gradient", values with
  | true, Some values =>
      (* Color based on value - higher values get more orange *)
      map (fun val => elementAt gradient (mathMin (valueIndex values val) gradientLast))
          values
  | true, None =>
      map (fun i => elementAt gradient (mathMin (countIndex count i) gradientLast))
          (seq 0 count)
  | false, _ =>
      if String.eqb scheme "categorical"
      then map Some (firstn count themeCategorical)
      else map Some (repeat themePrimary count)
  end.
End ChartColors.
(** ** InsightBoxInteraction: reordering a chart *)

(** [hoverOrder.map(idx => original[idx])]: [None] is the [undefined] of
    an index outside the array. *)
Definition reorderBy {A} (hoverOrder : list nat) (original : list A) : list (option A) :=
  map (fun idx => nth_error original idx) hoverOrder.

(** The object [indexMap] as a list of property writes, newest first. *)
Definition IndexMap := list (nat * nat).

(** [indexMap[key]]. *)
Fixpoint indexMapGet (m : IndexMap) (key : nat) : option nat :=
  match m with
  | [] => None
  | (k, v) :: m' => if Nat.eqb k key then Some v else indexMapGet m' key
  end.

(** [hoverOrder.forEach((oldIdx, newIdx) => { indexMap[oldIdx] = newIdx })],
    from position [newIdx] on. *)
Fixpoint buildIndexMap (hoverOrder : list nat) (newIdx : nat) (m : IndexMap) : IndexMap :=
  match hoverOrder with
  | [] => m
  | oldIdx :: rest => buildIndexMap rest (S newIdx) ((oldIdx, newIdx) :: m)
  end.

(** What [reorderChartData] rewrites of a bar chart: [data.labels] and,
    of the first dataset, [data], [backgroundColor], [borderColor] and
    [borderWidth]. *)
Record BarData (L V C W : Type) := {
  barLabels : list L;
  barValues : list V;
  barBackground : list C;
  barBorder : list C;
  barBorderWidth : W
}.

(** [reorderChartData(chartId, chart, hoverOrder, highlightIndices)]: the
    new chart arrays and the [indexMap] stored with the original data.
    [borderWidth] is an array ([inl]) or one number ([inr]); the redraw by
    [chart.update()] is outside the model. *)
Definition reorderChartData {L V C B} (original : BarData L V C (list B + B))
           (hoverOrder : list nat)
  : BarData (option L) (option V) (option C) (list (option B) + B) * IndexMap :=
  ({| barLabels := reorderBy hoverOrder (barLabels original);
      barValues := reorderBy hoverOrder (barValues original);
      barBackground := reorderBy hoverOrder (barBackground original);
      barBorder := reorderBy hoverOrder (barBorder original);
      barBorderWidth := match barBorderWidth original with
                        | inl widths => inl (reorderBy hoverOrder widths)
                        | inr width => inr width
                        end |},
   buildIndexMap hoverOrder 0 []).

(** [barIndices.map(oldIdx => original.indexMap[oldIdx]).filter(idx => idx
    !== undefined)] of [startPulseAnimation]. *)
Definition adjustedIndices (m : IndexMap) (barIndices : list nat) : list nat :=
  flat_map (fun oldIdx => match indexMapGet m oldIdx with
                          | Some idx => [idx]
                          | None => []
                          end) barIndices.

(** ** Timeline renderer *)

Section TimelineRenderer.
Import Ascii String.

(** An entry of [CHART_DATA.timeline]; a missing [isTarget] reads as
    false. *)
Record Milestone := {
  period : string;
  phase : string;
  items : list string;
  isTarget : bool
}.

(** The text of the circle: the star or the number. *)
Inductive CircleText := Star | Number (n : Z).

(** The markup [renderMilestone] returns: the text of [.circle], whether
    the class [milestone-target] is set, and the milestone shown in the
    content box. *)
Record RenderedMilestone := {
  circleText : CircleText;
  targetClass : bool;
  shown : Milestone
}.

(** [renderMilestone(milestone, number, isTarget)]. *)
Definition renderMilestone (milestone : Milestone) (number : Z) (isTargetArg : bool)
  : RenderedMilestone :=
  {| circleText := if isTargetArg then Star else Number number;
     targetClass := isTargetArg || isTarget milestone;
     shown := milestone |}.

(** [array.map((x, index) => f(x, index))]. *)
Fixpoint mapWithIndex {A B} (f : A -> Z -> B) (index : Z) (l : list A) : list B :=
  match l with
  | [] => []
  | x :: l' => f x index :: mapWithIndex f (index + 1) l'
  end.

(** [renderTimeline()] with the container present: the three rows of
    milestones written to it, or [None] when reading [timeline[6].isTarget]
    throws because there is no seventh entry. *)
Definition renderTimeline (timeline : list Milestone)
  : option (list (list RenderedMilestone)) :=
  let row1 := mapWithIndex (fun milestone index => renderMilestone milestone (3 - index) false)
                           0 (rev (firstn 3 timeline)) in
  let row2 := mapWithIndex (fun milestone index =>
                              renderMilestone milestone (index + 4) (isTarget milestone))
                           0 (firstn 3 (skipn 3 timeline)) in
  match nth_error timeline 6 with
  | Some m6 => Some [row1; row2; [renderMilestone m6 7 (isTarget m6)]]
  | None => None
  end.
End TimelineRenderer.

(** The [circleIndex] values of [drawSegments] in drawing order: the
    positions, among the milestone circles of the document, that the step
    reveal lights up one after the other. *)
Definition revealOrder : list nat :=
  flat_map (fun c => match c with Some i => [i] | None => [] end) drawSegments.


(** ** Input events *)

(** [e.key] of a [keydown] event, as far as [bindKeyboard] tells keys
    apart. *)
Inductive Key :=
| ArrowRight | ArrowDown | Space | PageDown
| ArrowLeft | ArrowUp | PageUp
| Home | End_
| KeyF
| OtherKey.

(** The [keydown] listener of [bindKeyboard]; [toggleFullscreen] touches
    nothing the model holds. *)
Definition onKeydown (key : Key) : State -> State :=
  match key with
  | ArrowRight | ArrowDown | Space | PageDown => next
  | ArrowLeft | ArrowUp | PageUp => prev
  | Home => first
  | End_ => last
  | KeyF => skip
  | OtherKey => skip
  end.

(** [handleSwipe()] with the two [screenX] values that [bindTouch]
    stored. *)
Definition handleSwipe (touchStartX touchEndX : Q) : State -> State :=
  let diff := (touchStartX - touchEndX)%Q in
  let threshold := 50%Q in
  if Qlt_le_dec threshold (Qabs diff)
  then (if Qlt_le_dec 0 diff then next else prev)
  else skip.

(** The [click] listener of [bindMouse]: [onInteractive] says whether the
    target is inside a link, button, input or [data-no-advance]
    element. *)
Definition onClick (onInteractive : bool) (clientX : Q) (innerWidth : Z) : State -> State :=
  if onInteractive then skip
  else
    let screenWidth := inject_Z innerWidth in
    if Qlt_le_dec (screenWidth / 2) clientX then next else prev.

Inductive EdgeControl := LeftControl | RightControl | TopControl.

(** The click handlers of [bindEdgeControls]. *)
Definition onEdgeControl (c : EdgeControl) : State -> State :=
  match c with
  | LeftControl => prev
  | RightControl => next
  | TopControl => first
  end.

(** The body of the timer set by [LineAnimator.handleResize]; on slide 10
    the path is placed in the next animation frame. *)
Definition onResizeSettled : State -> State :=
  cancelTimelineAnimation ;;
  (fun s =>
     if lineCurrentSlide (animator s) =? 9
     then setPath TransitionNone PathSlide10Timeline (showAllTimelineCircles s)
     else updatePath (lineCurrentSlide (animator s)) false s).

(** Whatever can happen to the loaded page: input of the user, a
    thumbnail of the carousel clicked, the window resized, the clock
    moving on, the next timer running. *)
Inductive Input :=
| Keydown (key : Key)
| Swipe (touchStartX touchEndX : Q)
| Click (onInteractive : bool) (clientX : Q) (innerWidth : Z)
| EdgeClick (c : EdgeControl)
| ThumbnailClick (index : nat)
| Resize
| Wait (ms : Z)
| TimerRuns.

Definition handle (i : Input) : State -> State :=
  match i with
  | Keydown key => onKeydown key
  | Swipe touchStartX touchEndX => handleSwipe touchStartX touchEndX
  | Click onInteractive clientX innerWidth => onClick onInteractive clientX innerWidth
  | EdgeClick c => onEdgeControl c
  | ThumbnailClick index => goToSlide (Z.of_nat index) true
  | Resize => onResizeSettled
  | Wait ms => fun s => setNow (now (host s) + Z.max 0 ms) s
  | TimerRuns => run 1
  end.

(** The page after a sequence of inputs. *)
Definition afterInputs (inputs : list Input) (s : State) : State :=
  fold_left (fun s i => handle i s) inputs s.

(** ** A sound state *)

Definition thenOk (n : Z) (k : Then) : Prop := 0 <= thenIndex k < n.

Definition callbackOk (n : Z) (cb : Callback) : Prop :=
  match cb with
  | OnSwap _ _ k => thenOk n k
  | OnSlideReady _ _ index => 0 <= index < n
  | OnContentReady _ => True
  end.

Definition actionOk (n : Z) (a : Action) : Prop :=
  match a with
  | Swoop10T1 cb | ReverseR1 cb | SwoopComplete cb | ReverseSwoopComplete cb =>
      callbackOk n cb
  | _ => True
  end.

(** A pending timer is in order: its id was handed out, the index its
    callback will store names a slide, it is on the record of its
    sequence if that sequence keeps one, and it is no timeline timer
    unless the timeline exists. *)
Definition timerOk (n : Z) (dom : bool) (s : State) (t : Timer) : Prop :=
  (tid t < nextTimerId (host s))%nat /\
  actionOk n (action t) /\
  (forall q, belongsTo q t = true -> recordsTimers q = true ->
             In (tid t) (recordedTimers q s)) /\
  (belongsTo TimelineReveal t = true -> dom = true).

(** The invariant of the running page, for a deck of [n] slides and a
    document with ([dom]) or without the timeline. *)
Definition Sound (n : Z) (dom : bool) (s : State) : Prop :=
  slideCount s = n /\
  0 <= currentSlide (engine s) < n /\
  (0 < nextTimerId (host s))%nat /\
  timelineDom (animator s) = dom /\
  (forall t, In t (timers (host s)) -> timerOk n dom s t) /\
  (forall pr, In pr (promises (host s)) -> thenOk n (reaction pr)) /\
  (forall cb, onContentReadyCallback (animator s) = Some cb -> callbackOk n cb).

Definition Keeps (n : Z) (dom : bool) (c : State -> State) : Prop :=
  forall s, Sound n dom s -> Sound n dom (c s).


(** ** SlideScaler: wrapping the content of a slide *)

Section SlideWrapping.
Import Ascii String.
Local Open Scope string_scope.

(** A DOM element as far as [wrapSlideContent] looks at it: which node it
    is, its class list and its element children in document order. *)
#[warnings="-register-all"]
Inductive Element := El (elId : nat) (classList : list string) (children : list Element).

Definition elId (e : Element) : nat := match e with El i _ _ => i end.
Definition classList (e : Element) : list string := match e with El _ c _ => c end.
Definition children (e : Element) : list Element := match e with El _ _ k => k end.

(** [el.classList.contains(c)]. *)
Definition classListContains (c : string) (e : Element) : bool :=
  existsb (String.eqb c) (classList e).

(** [el.querySelector('.' + c) !== null]: a descendant carries the class. *)
Fixpoint querySelectorClass (c : string) (e : Element) : bool :=
  match e with
  | El _ _ k => existsb (fun child => classListContains c child || querySelectorClass c child) k
  end.

(** The filter of [wrapSlideContent]: children that are not background,
    overlay, footer, header or contact footer. *)
Definition isContentElement (child : Element) : bool :=
  negb (classListContains "bg-image" child) &&
  negb (classListContains "bg-overlay" child) &&
  negb (classListContains "slide-footer" child) &&
  negb (classListContains "slide-header" child) &&
  negb (classListContains "contact-footer" child).

(** [parent.insertBefore(node, reference)] on the child list; the
    reference is a child wherever the method is called. *)
Fixpoint insertBefore (node : Element) (reference : nat) (l : list Element) : list Element :=
  match l with
  | [] => [node]
  | x :: l' => if Nat.eqb (elId x) reference then node :: x :: l'
               else x :: insertBefore node reference l'
  end.

(** [wrapper.appendChild(el)] for a child [el] of the slide and the
    wrapper, itself a child of the slide: [el] leaves the slide's list and
    becomes the wrapper's last child. *)
Definition appendChild (wrapper : nat) (el : Element) (l : list Element) : list Element :=
  map (fun x => if Nat.eqb (elId x) wrapper
                then El (elId x) (classList x) (children x ++ [el]) else x)
      (filter (fun x => negb (Nat.eqb (elId x) (elId el))) l).

(** [wrapSlideContent(slide)]: the slide afterwards and the id of the
    wrapper stored in [scaledSlides], if one was made.  [fresh] is the
    node that [document.createElement] returns. *)
Definition wrapSlideContent (fresh : nat) (slide : Element) : Element * option nat :=
  (* Skip if already wrapped *)
  if querySelectorClass "slide-content-wrapper" slide then (slide, None)
  else
    let contentElements := filter isContentElement (children slide) in
    match contentElements with
    | [] => (slide, None)
    | firstContentElement :: _ =>
        let wrapper :=
          El fresh
             ("slide-content-wrapper" ::
              (if classListContains "slide-title" slide
               then ["slide-content-wrapper--centered"] else []))
             [] in
        let kids := insertBefore wrapper (elId firstContentElement) (children slide) in
        let kids := fold_left (fun kids el => appendChild fresh el kids) contentElements kids in
        (El (elId slide) (classList slide) kids, Some fresh)
    end.
End SlideWrapping.

(** ** InsightBoxInteraction: highlighting bars from an insight box

    The class as it stores and restores chart data and keeps its timers.
    Redrawing ([chart.update]), the animation options and the re-creation
    of charts by [initSlideContent] are outside the model: a chart id
    names the same chart object throughout. *)

(** [array.map((x, i) => f(i, x))] from position [i]. *)
Fixpoint mapFrom {A B} (f : nat -> A -> B) (i : nat) (l : list A) : list B :=
  match l with
  | [] => []
  | x :: l' => f i x :: mapFrom f (S i) l'
  end.

(** An array element read where it may be missing: [undefined] either
    way. *)
Definition orUndefined {A} (x : option (option A)) : option A :=
  match x with
  | Some y => y
  | None => None
  end.

(** The truthiness of a stored timer or interval id. *)
Definition truthyId (id : option nat) : bool :=
  match id with
  | Some n => negb (Nat.eqb n 0)
  | None => false
  end.

Section InsightBoxes.
Import Ascii String.

(** Labels and values of the charts. *)
Variables L V : Type.

(** [adjustColorBrightness(color, 0.7 + pulse * 0.3)] at the tick numbered
    [phase]: the sine and the rounding of the channels are left
    uninterpreted. *)
Variable pulseColor : nat -> option string -> option string.

(** A bar chart as the class sees it: any array entry may be
    [undefined]. *)
Definition Chart : Type :=
  BarData (option L) (option V) (option string) (list (option Z) + option Z).

(** An entry of [originalData]: the copies taken at the first highlight
    and the [indexMap] of the last reordering (the [reordered...] copies
    stored beside it are read nowhere). *)
Record Original := {
  originalChart : Chart;
  indexMap : option IndexMap
}.

(** A [.content-box[data-highlight-bars]] element: [data-chart],
    [data-highlight-bars] (a list of bar numbers) and
    [data-reorder === 'true']. *)
Record Box := {
  boxId : nat;
  dataChart : option string;
  dataHighlightBars : list nat;
  dataReorder : bool
}.

(** The closures the class gives to [setTimeout] and [setInterval]. *)
Inductive Closure :=
| ReorderTimeout (box : Box) (chartId : string) (barIndices : list nat)
| PulseInterval (chartId : string) (adjustedIndices : list nat)
                (baseColors baseBorderColors : list (option string)) (phase : nat)
| FinalUpdate (chartId : string).

(** An entry of the browser's table of timeouts and intervals.  The table
    keeps no clock: any pending entry may be the next to run. *)
Record Scheduled := {
  scheduledId : nat;
  closure : Closure
}.

(** An object used as a dictionary keyed by chart id. *)
Definition Dict (A : Type) : Type := string -> option A.

Definition dictSet {A} (d : Dict A) (key : string) (v : A) : Dict A :=
  fun k => if String.eqb k key then Some v else d k.

Definition dictDelete {A} (d : Dict A) (key : string) : Dict A :=
  fun k => if String.eqb k key then None else d k.

(** The [InsightBoxInteraction] object, the class [highlight-active] of
    the boxes and the browser's table. *)
Record Insight := {
  chartInstances : Dict Chart;
  pulseIntervals : Dict nat;
  originalData : Dict Original;
  isReordered : Dict bool;
  highlightTimeouts : Dict nat;
  highlightActive : nat -> bool;
  scheduled : list Scheduled;
  nextScheduledId : nat
}.

Definition withChartInstances (v : Dict Chart) (s : Insight) : Insight :=
  {| chartInstances := v; pulseIntervals := pulseIntervals s;
     originalData := originalData s; isReordered := isReordered s;
     highlightTimeouts := highlightTimeouts s; highlightActive := highlightActive s;
     scheduled := scheduled s; nextScheduledId := nextScheduledId s |}.

Definition withPulseIntervals (v : Dict nat) (s : Insight) : Insight :=
  {| chartInstances := chartInstances s; pulseIntervals := v;
     originalData := originalData s; isReordered := isReordered s;
     highlightTimeouts := highlightTimeouts s; highlightActive := highlightActive s;
     scheduled := scheduled s; nextScheduledId := nextScheduledId s |}.

Definition withOriginalData (v : Dict Original) (s : Insight) : Insight :=
  {| chartInstances := chartInstances s; pulseIntervals := pulseIntervals s;
     originalData := v; isReordered := isReordered s;
     highlightTimeouts := highlightTimeouts s; highlightActive := highlightActive s;
     scheduled := scheduled s; nextScheduledId := nextScheduledId s |}.

Definition withIsReordered (v : Dict bool) (s : Insight) : Insight :=
  {| chartInstances := chartInstances s; pulseIntervals := pulseIntervals s;
     originalData := originalData s; isReordered := v;
     highlightTimeouts := highlightTimeouts s; highlightActive := highlightActive s;
     scheduled := scheduled s; nextScheduledId := nextScheduledId s |}.

Definition withHighlightTimeouts (v : Dict nat) (s : Insight) : Insight :=
  {| chartInstances := chartInstances s; pulseIntervals := pulseIntervals s;
     originalData := originalData s; isReordered := isReordered s;
     highlightTimeouts := v; highlightActive := highlightActive s;
     scheduled := scheduled s; nextScheduledId := nextScheduledId s |}.

Definition withHighlightActive (box : nat) (v : bool) (s : Insight) : Insight :=
  {| chartInstances := chartInstances s; pulseIntervals := pulseIntervals s;
     originalData := originalData s; isReordered := isReordered s;
     highlightTimeouts := highlightTimeouts s;
     highlightActive := fun b => if Nat.eqb b box then v else highlightActive s b;
     scheduled := scheduled s; nextScheduledId := nextScheduledId s |}.

Definition withScheduled (v : list Scheduled) (s : Insight) : Insight :=
  {| chartInstances := chartInstances s; pulseIntervals := pulseIntervals s;
     originalData := originalData s; isReordered := isReordered s;
     highlightTimeouts := highlightTimeouts s; highlightActive := highlightActive s;
     scheduled := v; nextScheduledId := nextScheduledId s |}.

(** [setTimeout(cb, ...)] and [setInterval(cb, ...)]: a fresh id and an
    entry in the table. *)
Definition setScheduled (cb : Closure) (s : Insight) : nat * Insight :=
  let id := nextScheduledId s in
  (id,
   {| chartInstances := chartInstances s; pulseIntervals := pulseIntervals s;
      originalData := originalData s; isReordered := isReordered s;
      highlightTimeouts := highlightTimeouts s; highlightActive := highlightActive s;
      scheduled := scheduled s ++ [{| scheduledId := id; closure := cb |}];
      nextScheduledId := S id |}).

(** [clearTimeout(id)] and [clearInterval(id)]. *)
Definition clearScheduled (id : nat) (s : Insight) : Insight :=
  withScheduled (filter (fun t => negb (Nat.eqb (scheduledId t) id)) (scheduled s)) s.

(** [this.isReordered[chartId]] as a condition. *)
Definition reorderedNow (chartId : string) (s : Insight) : bool :=
  match isReordered s chartId with
  | Some b => b
  | None => false
  end.

(** [if (this.pulseIntervals[chartId]) { clearInterval(...); delete ... }]. *)
Definition clearPulse (chartId : string) (s : Insight) : Insight :=
  match pulseIntervals s chartId with
  | Some id =>
      if truthyId (Some id)
      then withPulseIntervals (dictDelete (pulseIntervals s) chartId) (clearScheduled id s)
      else s
  | None => s
  end.

(** [CHART_DATA[dataKey].hoverOrder] for the two charts that have a
    [dataKey], as [data.js] gives them. *)
Definition hoverOrderOf (chartId : string) : option (list nat) :=
  if String.eqb chartId "chart-weather-severity"
  then Some [0; 2; 6; 3; 1; 4; 5]%nat
  else if String.eqb chartId "chart-weather-volume"
       then Some [0; 1; 2; 3; 4; 5; 6]%nat
       else None.

(** The chart arrays that [reorderChartData] writes, entries read
    outside the original arrays being [undefined]. *)
Definition reordered (original : Chart) (hoverOrder : list nat) : Chart :=
  let c := fst (reorderChartData original hoverOrder) in
  {| barLabels := map orUndefined (barLabels c);
     barValues := map orUndefined (barValues c);
     barBackground := map orUndefined (barBackground c);
     barBorder := map orUndefined (barBorder c);
     barBorderWidth := match barBorderWidth c with
                       | inl widths => inl (map orUndefined widths)
                       | inr width => inr width
                       end |}.

(** [startPulseAnimation(chartId, barIndices)].  With the chart marked
    reordered and no stored original JavaScript throws before anything is
    written; the class never calls it so. *)
Definition startPulseAnimation (chartId : string) (barIndices : list nat) (s : Insight)
  : Insight :=
  match chartInstances s chartId with
  | None => s
  | Some chart =>
      let start adjusted :=
        let baseColors := barBackground chart in
        let baseBorderColors := barBorder chart in
        let '(id, s) :=
          setScheduled (PulseInterval chartId adjusted baseColors baseBorderColors 0) s in
        withPulseIntervals (dictSet (pulseIntervals s) chartId id) s in
      if reorderedNow chartId s then
        match originalData s chartId with
        | Some original =>
            match indexMap original with
            | Some m => start (adjustedIndices m barIndices)
            | None => start barIndices
            end
        | None => s
        end
      else start barIndices
  end.

(** [startHighlight(box)]. *)
Definition startHighlight (box : Box) (s : Insight) : Insight :=
  (* an absent attribute reads as the key "undefined" *)
  let chartId := match dataChart box with Some c => c | None => "undefined"%string end in
  let barIndices := dataHighlightBars box in
  let shouldReorder := dataReorder box in
  match chartInstances s chartId with
  | None => s
  | Some chart =>
      (* Add active class to box *)
      let s := withHighlightActive (boxId box) true s in
      (* Store original data if not already stored *)
      let s := match originalData s chartId with
               | Some _ => s
               | None =>
                   withOriginalData
                     (dictSet (originalData s) chartId
                              {| originalChart := chart; indexMap := None |}) s
               end in
      (* Get hover order from CHART_DATA if available *)
      let hoverOrder := if shouldReorder then hoverOrderOf chartId else None in
      (* Clear any existing pulse animation first *)
      let s := clearPulse chartId s in
      match hoverOrder, originalData s chartId with
      | Some hoverOrder, Some original =>
          if negb (reorderedNow chartId s) then
            (* reorderChartData *)
            let s := withChartInstances
                       (dictSet (chartInstances s) chartId
                                (reordered (originalChart original) hoverOrder)) s in
            let s := withOriginalData
                       (dictSet (originalData s) chartId
                                {| originalChart := originalChart original;
                                   indexMap :=
                                     Some (snd (reorderChartData (originalChart original)
                                                                 hoverOrder)) |}) s in
            let s := withIsReordered (dictSet (isReordered s) chartId true) s in
            let '(reorderTimeout, s) :=
              setScheduled (ReorderTimeout box chartId barIndices) s in
            withHighlightTimeouts (dictSet (highlightTimeouts s) chartId reorderTimeout) s
          else startPulseAnimation chartId barIndices s
      | _, _ => startPulseAnimation chartId barIndices s
      end
  end.

(** The three assignments that put the original colours back. *)
Definition restoreColors (chartId : string) (s : Insight) : Insight :=
  match chartInstances s chartId, originalData s chartId with
  | Some chart, Some original =>
      withChartInstances
        (dictSet (chartInstances s) chartId
                 {| barLabels := barLabels chart;
                    barValues := barValues chart;
                    barBackground := barBackground (originalChart original);
                    barBorder := barBorder (originalChart original);
                    barBorderWidth := barBorderWidth (originalChart original) |}) s
  | _, _ => s
  end.

(** [stopHighlight(box)]. *)
Definition stopHighlight (box : Box) (s : Insight) : Insight :=
  match dataChart box with
  | None => s
  | Some chartId =>
      if String.eqb chartId "" then s
      else
        let s := withHighlightActive (boxId box) false s in
        (* Cancel any pending highlight timeouts *)
        let s := match highlightTimeouts s chartId with
                 | Some id =>
                     if truthyId (Some id)
                     then withHighlightTimeouts (dictDelete (highlightTimeouts s) chartId)
                                                (clearScheduled id s)
                     else s
                 | None => s
                 end in
        (* Stop pulse animation immediately *)
        let s := clearPulse chartId s in
        match chartInstances s chartId, originalData s chartId with
        | Some chart, Some original =>
            let s :=
              if reorderedNow chartId s then
                (* Restore original order and colors immediately *)
                withIsReordered (dictSet (isReordered s) chartId false)
                  (withChartInstances
                     (dictSet (chartInstances s) chartId (originalChart original)) s)
              else restoreColors chartId s in
            (* Force a final update to ensure state is clean *)
            snd (setScheduled (FinalUpdate chartId) s)
        | _, _ => s
        end
  end.

(** [array.includes(idx)]. *)
Definition includes (l : list nat) (idx : nat) : bool := existsb (Nat.eqb idx) l.

(** One run of the closure given to [setInterval], for the entry [id] of
    the table. *)
Definition pulseTick (id : nat) (chartId : string) (adjustedIndices : list nat)
           (baseColors baseBorderColors : list (option string)) (phase : nat)
           (s : Insight) : Insight :=
  let s :=
    match chartInstances s chartId with
    | Some chart =>
        withChartInstances
          (dictSet (chartInstances s) chartId
             {| barLabels := barLabels chart;
                barValues := barValues chart;
                barBackground :=
                  mapFrom (fun idx color =>
                             if includes adjustedIndices idx then pulseColor phase color
                             else Some "rgba(100, 100, 100, 0.4)"%string)
                          0 baseColors;
                barBorder :=
                  mapFrom (fun idx color =>
                             if includes adjustedIndices idx then Some "#FF8C42"%string
                             else Some "rgba(80, 80, 80, 0.3)"%string)
                          0 baseBorderColors;
                barBorderWidth :=
                  inl (mapFrom (fun i _ => Some (if includes adjustedIndices i then 3 else 1))
                               0 baseColors) |}) s
    | None => s
    end in
  (* phase++ *)
  withScheduled
    (map (fun t => if Nat.eqb (scheduledId t) id
                   then {| scheduledId := id;
                           closure := PulseInterval chartId adjustedIndices baseColors
                                                    baseBorderColors (S phase) |}
                   else t)
         (scheduled s)) s.

(** The browser runs the entry [id] of the table: a timeout leaves the
    table, an interval stays. *)
Definition runScheduled (id : nat) (s : Insight) : Insight :=
  match find (fun t => Nat.eqb (scheduledId t) id) (scheduled s) with
  | None => s
  | Some t =>
      match closure t with
      | ReorderTimeout box chartId barIndices =>
          let s := clearScheduled id s in
          (* Check if box is still active before starting pulse *)
          if negb (highlightActive s (boxId box)) then s
          else if truthyId (pulseIntervals s chartId) then s
               else startPulseAnimation chartId barIndices s
      | PulseInterval chartId adjustedIndices baseColors baseBorderColors phase =>
          pulseTick id chartId adjustedIndices baseColors baseBorderColors phase s
      | FinalUpdate chartId =>
          let s := clearScheduled id s in
          restoreColors chartId (clearPulse chartId s)
      end
  end.

(** The entries run one after the other, in the order given. *)
Definition runAll (ids : list nat) (s : Insight) : Insight :=
  fold_left (fun s id => runScheduled id s) ids s.

(** The chart a closure works on. *)
Definition closureChart (cl : Closure) : string :=
  match cl with
  | ReorderTimeout _ chartId _ => chartId
  | PulseInterval chartId _ _ _ _ => chartId
  | FinalUpdate chartId => chartId
  end.

(** The bookkeeping for chart [c] is in order: ids are positive and
    below the next one, a pending reorder timeout of the chart is the one
    stored in [highlightTimeouts], a running pulse of the chart the one
    stored in [pulseIntervals]. *)
Definition Booked (c : string) (s : Insight) : Prop :=
  (0 < nextScheduledId s)%nat /\
  (forall t, In t (scheduled s) -> (0 < scheduledId t < nextScheduledId s)%nat) /\
  (forall t, In t (scheduled s) -> closureChart (closure t) = c ->
             match closure t with
             | ReorderTimeout _ _ _ => highlightTimeouts s c = Some (scheduledId t)
             | PulseInterval _ _ _ _ _ => pulseIntervals s c = Some (scheduledId t)
             | FinalUpdate _ => True
             end).

(** Chart [c] shows [chart0], is not marked reordered, and nothing but
    final updates is pending for it; its original, if stored, is
    [chart0]. *)
Definition Idle (c : string) (chart0 : Chart) (s : Insight) : Prop :=
  Booked c s /\
  (originalData s c = None \/
   exists o, originalData s c = Some o /\ originalChart o = chart0) /\
  chartInstances s c = Some chart0 /\
  reorderedNow c s = false /\
  (forall t, In t (scheduled s) -> closureChart (closure t) = c ->
             closure t = FinalUpdate c).

(** Chart [c] is being highlighted: its original is [chart0], and unless
    it is marked reordered it has the labels and values of [chart0]. *)
Definition Highlighting (c : string) (chart0 : Chart) (s : Insight) : Prop :=
  Booked c s /\
  (exists o, originalData s c = Some o /\ originalChart o = chart0) /\
  exists chart, chartInstances s c = Some chart /\
                (reorderedNow c s = true \/
                 (barLabels chart = barLabels chart0 /\
                  barValues chart = barValues chart0)).
End InsightBoxes.

Section InsightSample.
Import Ascii String.

(** A chart of seven numbered bars and an [InsightBoxInteraction] that has
    just been created for it: nothing stored, nothing scheduled. *)
Definition sevenBars : Chart nat Z :=
  {| barLabels := map Some (seq 0 7);
     barValues := map (fun v => Some (Z.of_nat v)) (seq 10 7);
     barBackground := repeat (Some "#5D6D7E"%string) 7;
     barBorder := repeat (Some "#4A5A6B"%string) 7;
     barBorderWidth := inr (Some 1) |}.

Definition newInsight (chartId : string) (chart : Chart nat Z) : Insight nat Z :=
  {| chartInstances := dictSet (fun _ => None) chartId chart;
     pulseIntervals := fun _ => None;
     originalData := fun _ => None;
     isReordered := fun _ => None;
     highlightTimeouts := fun _ => None;
     highlightActive := fun _ => false;
     scheduled := [];
     nextScheduledId := 1 |}.
End InsightSample.


(** ** ChartFactory: adjustBrightness *)

(** [ToInt32]: what the operators [>>] and [&] make of a number. *)
Definition toInt32 (n : Z) : Z := (n + 2 ^ 31) mod 2 ^ 32 - 2 ^ 31.

Section Brightness.
Import Ascii String.

(** The value of a hexadecimal digit, upper or lower case. *)
Definition hexValue (ch : ascii) : option Z :=
  let n := Z.of_nat (nat_of_ascii ch) in
  if (48 <=? n) && (n <=? 57) then Some (n - 48)          (* 0-9 *)
  else if (97 <=? n) && (n <=? 102) then Some (n - 87)    (* a-f *)
  else if (65 <=? n) && (n <=? 70) then Some (n - 55)     (* A-F *)
  else None.

(** [parseInt(s, 16)] of a string of hexadecimal digits, continuing from
    [acc]; [None] where another character occurs. *)
Fixpoint parseHex (s : string) (acc : Z) : option Z :=
  match s with
  | EmptyString => Some acc
  | String ch rest =>
      match hexValue ch with
      | Some d => parseHex rest (16 * acc + d)
      | None => None
      end
  end.

(** The digit [toString(16)] writes for a value below 16. *)
Definition hexChar (d : Z) : ascii :=
  ascii_of_nat (Z.to_nat (if d <? 10 then 48 + d else 87 + d)).

(** [n.toString(16)] for a positive integer: digits from the most
    significant one, written in front of [tail]. *)
Fixpoint toHex (fuel : nat) (n : Z) (tail : string) : string :=
  match fuel with
  | O => tail
  | S fuel' =>
      let tail := String (hexChar (n mod 16)) tail in
      if n <? 16 then tail else toHex fuel' (n / 16) tail
  end.

(** [s.slice(1)]. *)
Definition slice1 (s : string) : string :=
  match s with
  | EmptyString => EmptyString
  | String _ rest => rest
  end.

(** [adjustBrightness(hex, percent)], with [amt] the integer that
    [Math.round(2.55 * percent)] gives.  The model covers the strings
    whose characters after the first are hexadecimal digits, at most
    thirteen of them (so that [parseInt] is exact); for the others it
    answers [None].  Without any digit [parseInt] gives [NaN], which the
    bit operators read as 0. *)
Definition adjustBrightness (hex : string) (amt : Z) : option string :=
  if (13 <? String.length (slice1 hex))%nat then None
  else
    match parseHex (slice1 hex) 0 with
    | None => None
    | Some num =>
        let R := Z.max (Z.min (Z.shiftr (toInt32 num) 16 + amt) 255) 0 in
        let G := Z.max (Z.min (Z.land (Z.shiftr (toInt32 num) 8) 255 + amt) 255) 0 in
        let B := Z.max (Z.min (Z.land (toInt32 num) 255 + amt) 255) 0 in
        Some (String "#"%char
                (slice1 (toHex 16 (16777216 + R * 65536 + G * 256 + B) EmptyString)))
    end.

(** Two hexadecimal digits, lower case, for a channel. *)
Definition channel (v : Z) : string :=
  String (hexChar (v / 16)) (String (hexChar (v mod 16)) EmptyString).

(** [Math.max(Math.min(v, 255), 0)]. *)
Definition clampChannel (v : Z) : Z := Z.max (Z.min v 255) 0.
End Brightness.


(** ** Statements and the properties they keep *)

(** The statement [c] keeps the property [Inv] of the page. *)
Definition Keeping (Inv : State -> Prop) (c : State -> State) : Prop :=
  forall u, Inv u -> Inv (c u).

(** [Inv] survives the clearing of timers whose ids are on a record and
    the shortening of records. *)
Definition KeptByClearing (Inv : State -> Prop) : Prop :=
  forall u u',
    now (host u') = now (host u) ->
    nextTimerId (host u') = nextTimerId (host u) ->
    promises (host u') = promises (host u) ->
    (forall q id, In id (recordedTimers q u') -> In id (recordedTimers q u)) ->
    (forall t, In t (timers (host u')) -> In t (timers (host u))) ->
    (forall t, In t (timers (host u)) ->
               In t (timers (host u')) \/ exists q, In (tid t) (recordedTimers q u)) ->
    Inv u -> Inv u'.

(** The promise a callback of [transition] resolves. *)
Definition promiseOf (a : Action) : option nat :=
  match a with
  | TransitionSafety p | TransitionDone _ _ _ p => Some p
  | _ => None
  end.

(** The [safetyTimeout] a completion callback clears. *)
Definition clearedBy (a : Action) : option nat :=
  match a with
  | TransitionDone _ _ safetyTimeout _ => Some safetyTimeout
  | _ => None
  end.

(** [Inv] survives [setTimeout] with a callback other than the two of
    [transition], the id going on the record of the callback's sequence
    or on none. *)
Definition KeptBySetTimeout (Inv : State -> Prop) : Prop :=
  forall a dl u u',
    promiseOf a = None ->
    now (host u') = now (host u) ->
    timers (host u') =
      timers (host u) ++ [{| tid := nextTimerId (host u);
                             fireAt := now (host u) + Z.max 0 dl; action := a |}] ->
    nextTimerId (host u') = S (nextTimerId (host u)) ->
    promises (host u') = promises (host u) ->
    (forall q id, In id (recordedTimers q u') ->
                  In id (recordedTimers q u) \/
                  (sequenceOf a = Some q /\ id = nextTimerId (host u))) ->
    Inv u -> Inv u'.

Definition KeptByTransition (Inv : State -> Prop) : Prop :=
  forall fromSlide toSlide k, Keeping Inv (transition fromSlide toSlide k).

(** Ids and promises are handed out in order and the records hold only
    ids of their own sequence: every pending timer and every recorded id
    is below the next id, a pending timer whose id is on a record belongs
    to that record's sequence, and the callbacks of [transition] name a
    promise that exists and a safety timer that was set. *)
Definition Orderly (s : State) : Prop :=
  (forall t, In t (timers (host s)) -> (tid t < nextTimerId (host s))%nat) /\
  (forall q id, In id (recordedTimers q s) -> (id < nextTimerId (host s))%nat) /\
  (forall q t, In t (timers (host s)) -> In (tid t) (recordedTimers q s) ->
               belongsTo q t = true) /\
  (forall t p, In t (timers (host s)) -> promiseOf (action t) = Some p ->
               (p < length (promises (host s)))%nat) /\
  (forall t n, In t (timers (host s)) -> clearedBy (action t) = Some n ->
               (n < nextTimerId (host s))%nat).

(** No pending timer is overdue: the event loop is on time. *)
Definition Punctual (s : State) : Prop :=
  forall t, In t (timers (host s)) -> now (host s) <= fireAt t.

(** The statement [c] clears no timer. *)
Definition Grows (c : State -> State) : Prop :=
  forall s t, In t (timers (host s)) -> In t (timers (host (c s))).


(** ** A transition in flight *)

Section TransitionInFlight.
Variables (fromSlide toSlide : Z) (k : Then) (p n0 : nat) (tdone tsafe : Z).

(** The two timers of one call of [transition]: the safety timeout, with
    id [n0], and the completion, with the next id; both resolve promise
    number [p]. *)
Definition safetyTimer : Timer :=
  {| tid := n0; fireAt := tsafe; action := TransitionSafety p |}.

Definition completionTimer : Timer :=
  {| tid := S n0; fireAt := tdone;
     action := TransitionDone fromSlide toSlide n0 p |}.

(** A callback that neither resolves promise [p] nor clears one of the
    two timers. *)
Definition foreign (a : Action) : Prop :=
  promiseOf a <> Some p /\ clearedBy a <> Some n0 /\ clearedBy a <> Some (S n0).

(** The transition is in flight: both timers pending, the promise not
    settled. *)
Definition InFlight (u : State) : Prop :=
  In safetyTimer (timers (host u)) /\
  In completionTimer (timers (host u)) /\
  nth_error (promises (host u)) p = Some {| settled := false; reaction := k |}.

(** The transition is over: neither timer pending, the promise
    settled. *)
Definition Completed (u : State) : Prop :=
  pending n0 u = false /\
  pending (S n0) u = false /\
  nth_error (promises (host u)) p = Some {| settled := true; reaction := k |}.

(** The rest of the page keeps clear of the transition: its two ids and
    its promise have been handed out, no record holds one of the ids, and
    every other pending timer has another id and a foreign callback. *)
Definition Apart (u : State) : Prop :=
  (S n0 < nextTimerId (host u))%nat /\
  (p < length (promises (host u)))%nat /\
  (forall q, ~ In n0 (recordedTimers q u) /\ ~ In (S n0) (recordedTimers q u)) /\
  (forall t, In t (timers (host u)) ->
             t = safetyTimer \/ t = completionTimer \/
             (tid t <> n0 /\ tid t <> S n0 /\ foreign (action t))).

(** The transition in one of its two phases, kept clear of. *)
Definition Tended (done : bool) (u : State) : Prop :=
  Apart u /\ (if done then Completed u else InFlight u).
End TransitionInFlight.

(** The phase does not go back: once over, over. *)
Definition noLess (done done' : bool) : Prop := done = true -> done' = true.

(** ** The work the pending timers stand for *)

(** The number of animated children of each slide. *)
Definition childCounts (s : State) : list nat :=
  map (fun sl => length (animatedElements sl)) (slides (engine s)).

Definition maxChildren (s : State) : nat := list_max (childCounts s).

(** A bound on the number of callbacks a timer stands for, itself and the
    timers its callback may set, in a deck whose slides have at most [m]
    animated children: a callback given to the animator sets at most [m]
    reveal timers and the two timers of [transition]; the first timer of
    the split sets four more, the third of which runs such a callback. *)
Definition weight (m : nat) (a : Action) : nat :=
  match a with
  | Swoop10T1 _ | ReverseR1 _ | SwoopComplete _ | ReverseSwoopComplete _
  | SplitT4 => (m + 3)%nat
  | SplitT0 => (m + 7)%nat
  | _ => 1%nat
  end.

Fixpoint workOf (m : nat) (l : list Timer) : nat :=
  match l with
  | [] => 0%nat
  | t :: l' => (weight m (action t) + workOf m l')%nat
  end.

Definition pendingWork (s : State) : nat :=
  workOf (maxChildren s) (timers (host s)).

(** On a deck with at most [m] children a slide, the statement [c]
    leaves the child counts alone and adds at most [b] to the pending
    work. *)
Definition Costs (m b : nat) (c : State -> State) : Prop :=
  forall v, (maxChildren v <= m)%nat ->
    childCounts (c v) = childCounts v /\
    (workOf m (timers (host (c v))) <= workOf m (timers (host v)) + b)%nat.

(** The states the event loop passes through on its way to time [t],
    one for each callback run (see [runUntil]). *)
Fixpoint runUntilStates (fuel : nat) (t : Z) (s : State) : list State :=
  match fuel with
  | O => [s]
  | S fuel' =>
      match nextTimer s with
      | None => [s]
      | Some tm =>
          if fireAt tm <=? t then s :: runUntilStates fuel' t (fire tm s)
          else [s]
      end
  end.

(** * Properties *)

(** ** Basic facts about indices and slides *)

Lemma boundsCheck_in_range (s : State) (i : Z) :
  0 <= i < slideCount s -> boundsCheck i s = i.
Proof.
  intros [H0 H1]. unfold boundsCheck.
  destruct (Z.ltb_spec i 0) as [Hneg | _]; [lia |].
  rewrite Z.geb_leb.
  destruct (Z.leb_spec (slideCount s) i) as [Hbig | _]; [lia | reflexivity].
Qed.

Lemma boundsCheck_past_end (s : State) (i : Z) :
  0 < slideCount s -> slideCount s <= i ->
  boundsCheck i s = if loop (config (engine s)) then 0 else slideCount s - 1.
Proof.
  intros Hpos Hbig. unfold boundsCheck.
  destruct (Z.ltb_spec i 0) as [Hneg | _]; [lia |].
  rewrite Z.geb_leb.
  destruct (Z.leb_spec (slideCount s) i) as [_ | Hsmall]; [reflexivity | lia].
Qed.

Lemma boundsCheck_before_start (s : State) (i : Z) :
  i < 0 ->
  boundsCheck i s = if loop (config (engine s)) then slideCount s - 1 else 0.
Proof.
  intros Hneg. unfold boundsCheck.
  destruct (Z.ltb_spec i 0) as [_ | Hpos]; [reflexivity | lia].
Qed.

Lemma mapAt_length {A} (f : A -> A) (l : list A) (n : nat) :
  length (mapAt n f l) = length l.
Proof.
  revert n. induction l as [| x l IH]; intros [| n]; cbn; auto.
Qed.

Lemma nth_error_mapAt_same {A} (f : A -> A) (l : list A) (n : nat) (x : A) :
  nth_error l n = Some x -> nth_error (mapAt n f l) n = Some (f x).
Proof.
  revert n. induction l as [| y l IH]; intros [| n]; cbn; try discriminate.
  - intros [= ->]. reflexivity.
  - apply IH.
Qed.

Lemma nth_error_mapAt_other {A} (f : A -> A) (l : list A) (n m : nat) :
  n <> m -> nth_error (mapAt n f l) m = nth_error l m.
Proof.
  revert n m.
  induction l as [| y l IH]; intros [| n] [| m] Hne; cbn;
    try reflexivity; try contradiction.
  apply IH. congruence.
Qed.

Lemma updateSlide_length (i : Z) (f : Slide -> Slide) (l : list Slide) :
  length (updateSlide i f l) = length l.
Proof.
  unfold updateSlide. destruct (i <? 0); [reflexivity | apply mapAt_length].
Qed.

Lemma getSlide_in_range (i : Z) (l : list Slide) :
  0 <= i < Z.of_nat (length l) -> exists sl, getSlide i l = Some sl.
Proof.
  intros [H0 H1]. unfold getSlide.
  destruct (Z.ltb_spec i 0) as [Hneg | _]; [lia |].
  destruct (nth_error l (Z.to_nat i)) as [sl |] eqn:E; [eauto |].
  apply nth_error_None in E. lia.
Qed.

Lemma getSlide_updateSlide_same (i : Z) (f : Slide -> Slide) (l : list Slide) (sl : Slide) :
  getSlide i l = Some sl -> getSlide i (updateSlide i f l) = Some (f sl).
Proof.
  unfold getSlide, updateSlide. destruct (i <? 0); [discriminate |].
  apply nth_error_mapAt_same.
Qed.

Lemma getSlide_updateSlide_other (i j : Z) (f : Slide -> Slide) (l : list Slide) :
  i <> j -> getSlide j (updateSlide i f l) = getSlide j l.
Proof.
  intros Hne. unfold getSlide, updateSlide.
  destruct (Z.ltb_spec j 0) as [Hj | Hj]; [reflexivity |].
  destruct (Z.ltb_spec i 0) as [Hi | Hi]; [reflexivity |].
  apply nth_error_mapAt_other. lia.
Qed.

(** ** C7: jumping to the current slide while idle *)

(** C7.  While the engine is idle, [goToSlide(currentSlide)] (animated, as
    every navigation binding calls it) returns the state it was given:
    no hidden flag changes, no timer is set, no [slidechange] event is
    dispatched. *)
Theorem goToSlide_current_idle_noop (s : State) :
  isTransitioning (engine s) = false ->
  0 <= currentSlide (engine s) < slideCount s ->
  goToSlide (currentSlide (engine s)) true s = s.
Proof.
  intros Hidle Hrange. unfold goToSlide.
  rewrite Hidle. cbn [andb].
  rewrite (boundsCheck_in_range s Hrange), Z.eqb_refl.
  reflexivity.
Qed.

Lemma goToSlide_current_idle_noop_witness :
  goToSlide (currentSlide (engine (restingAt appConfig 4))) true
            (restingAt appConfig 4) = restingAt appConfig 4.
Proof.
  apply (goToSlide_current_idle_noop (restingAt appConfig 4)).
  - vm_compute. reflexivity.
  - vm_compute. split; [discriminate | reflexivity].
Defined.

(** ** The timer table under [clearTimeout] *)

Lemma setTimers_self (s : State) : setTimers (timers (host s)) s = s.
Proof. destruct s as [e a [n t i p ev]]. reflexivity. Qed.

Lemma setTimers_setTimers (l l' : list Timer) (s : State) :
  setTimers l (setTimers l' s) = setTimers l s.
Proof. reflexivity. Qed.

Lemma filter_filter {A} (f g : A -> bool) (l : list A) :
  filter f (filter g l) = filter (fun x => g x && f x) l.
Proof.
  induction l as [| x l IH]; cbn; [reflexivity |].
  destruct (g x); cbn; [destruct (f x) |]; rewrite IH; reflexivity.
Qed.

(** Clearing a list of ids removes exactly the timers carrying one of
    them and touches nothing else. *)
Lemma clearTimeouts_eq (ids : list nat) (s : State) :
  clearTimeouts ids s = setTimers (filter (keptAfterClearing ids) (timers (host s))) s.
Proof.
  revert s. induction ids as [| id ids IH]; intros s.
  - cbn. unfold keptAfterClearing. cbn.
    rewrite forallb_filter_id.
    + symmetry. apply setTimers_self.
    + apply forallb_forall. reflexivity.
  - cbn [clearTimeouts fold_left]. fold (clearTimeouts ids (clearTimeout id s)).
    rewrite IH. unfold clearTimeout. cbn.
    rewrite filter_filter.
    rewrite (filter_ext _ (keptAfterClearing (id :: ids))); [reflexivity |].
    intros t. unfold keptAfterClearing. cbn.
    destruct (Nat.eqb (tid t) id); reflexivity.
Qed.

Lemma clearTimeout_eq (id : nat) (s : State) :
  clearTimeout id s = setTimers (filter (keptAfterClearing [id]) (timers (host s))) s.
Proof.
  unfold clearTimeout.
  rewrite (filter_ext _ (keptAfterClearing [id])); [reflexivity |].
  intros t. unfold keptAfterClearing. cbn. rewrite orb_false_r. reflexivity.
Qed.

Lemma keptAfterClearing_false (ids : list nat) (t : Timer) :
  In (tid t) ids -> keptAfterClearing ids t = false.
Proof.
  intros Hin. unfold keptAfterClearing.
  apply negb_false_iff, existsb_exists.
  exists (tid t). split; [assumption | apply Nat.eqb_refl].
Qed.
(** ** C10: the non-animated call on the current slide *)

Ltac split_ifs :=
  repeat match goal with
         | |- context [if ?b then _ else _] => destruct b eqn:?
         | |- context [match ?o with Some _ => _ | None => _ end] => destruct o eqn:?
         end.

Lemma updatePath_not_animated (i : Z) (s : State) :
  engine (updatePath i false s) = engine s /\
  events (host (updatePath i false s)) = events (host s) /\
  promises (host (updatePath i false s)) = promises (host s) /\
  lineCurrentSlide (animator (updatePath i false s)) = i /\
  (forall p, getPathForSlide i = Some p ->
             path (animator (updatePath i false s)) =
               {| dAttr := p; pathTransition := TransitionNone |}).
Proof.
  unfold updatePath, cancelSlide12Split, cancelTimelineAnimation, andThen, whenS.
  rewrite !andb_false_r.
  destruct (getPathForSlide i) as [p |] eqn:Hp.
  - destruct s as [e a h]. cbn.
    repeat rewrite clearTimeouts_eq; cbn.
    split_ifs; cbn; repeat rewrite clearTimeouts_eq; cbn;
      repeat split; try reflexivity; intros p' [= <-]; reflexivity.
  - destruct s as [e a h]. cbn.
    split_ifs; cbn; repeat rewrite clearTimeouts_eq; cbn;
      repeat split; try reflexivity; intros p' [=].
Qed.
Lemma scheduleReveals_frame (i stagger : Z) (els : list AnimatedElement) (n : nat) (s : State) :
  let s' := scheduleReveals i stagger n els s in
  engine s' = engine s /\ animator s' = animator s /\
  events (host s') = events (host s) /\ promises (host s') = promises (host s) /\
  now (host s') = now (host s).
Proof.
  revert n s. induction els as [| el rest IH]; intros n s; cbv zeta;
    cbn [scheduleReveals].
  - repeat split.
  - destruct (IH (S n) (snd (setTimeout (RevealElement i n)
                                        (dataDelay el + Z.of_nat n * stagger) s)))
      as (He & Ha & Hev & Hp & Hn).
    cbv zeta in *. rewrite He, Ha, Hev, Hp, Hn. repeat split.
Qed.

Lemma triggerSlideAnimations_frame (i : Z) (s : State) :
  let s' := triggerSlideAnimations i s in
  engine s' = engine s /\ animator s' = animator s /\
  events (host s') = events (host s) /\ promises (host s') = promises (host s) /\
  now (host s') = now (host s).
Proof.
  unfold triggerSlideAnimations.
  destruct (getSlide i (slides (engine s))); [apply scheduleReveals_frame | repeat split].
Qed.

Lemma afterSlideChange_spec (index : Z) (already : bool) (s : State) :
  let s' := afterSlideChange index already s in
  currentSlide (engine s') = index /\
  slides (engine s') = slides (engine s) /\
  isTransitioning (engine s') = isTransitioning (engine s) /\
  config (engine s') = config (engine s) /\
  lineAnimatorAttached (engine s') = lineAnimatorAttached (engine s) /\
  animator s' = animator s /\
  events (host s') = events (host s) ++ [index] /\
  promises (host s') = promises (host s) /\
  now (host s') = now (host s).
Proof.
  unfold afterSlideChange, andThen, whenS, dispatchSlideChange.
  match goal with |- context [if ?b then _ else _] => destruct b end.
  - destruct (triggerSlideAnimations_frame index (setCurrentSlide index s))
      as (He & Ha & Hev & Hp & Hn).
    cbn. rewrite He, Ha, Hev, Hp, Hn. cbn. repeat split.
  - cbn. repeat split.
Qed.

Lemma hiddenFlag_showSlide_same (i : Z) (s : State) :
  0 <= i < slideCount s -> hiddenFlag i (showSlide i s) = false.
Proof.
  intros Hr. unfold hiddenFlag, showSlide. cbn.
  destruct (getSlide_in_range (slides (engine s)) Hr) as [sl Hsl].
  rewrite (getSlide_updateSlide_same _ _ _ Hsl). reflexivity.
Qed.

Lemma hiddenFlag_showSlide_other (i j : Z) (s : State) :
  i <> j -> hiddenFlag j (showSlide i s) = hiddenFlag j s.
Proof.
  intros Hne. unfold hiddenFlag, showSlide. cbn.
  rewrite getSlide_updateSlide_other by assumption. reflexivity.
Qed.

Lemma hiddenFlag_by_slides (j : Z) (s s' : State) :
  slides (engine s') = slides (engine s) -> hiddenFlag j s' = hiddenFlag j s.
Proof. unfold hiddenFlag. intros ->. reflexivity. Qed.

(** What the non-animated call on the current slide amounts to: show
    the slide, place the path, run [afterSlideChange]; the general branch
    then stores the index once more. *)
Lemma nonanimated_current_call_unfolds (s : State) (i : Z) :
  isTransitioning (engine s) = false ->
  i = currentSlide (engine s) ->
  0 <= i < slideCount s ->
  let s1 := afterSlideChange i false
              (when (lineAnimatorAttached (engine s)) (updatePath i false)
                    (showSlide i s)) in
  goToSlide i false s = s1 \/ goToSlide i false s = setCurrentSlide i s1.
Proof.
  intros Hidle Hcur Hrange. unfold goToSlide.
  rewrite Hidle. cbn [andb].
  rewrite (boundsCheck_in_range s Hrange), <- Hcur, Z.eqb_refl.
  cbn [andb negb]. rewrite andb_true_r, andb_diag.
  destruct (Z.eqb_spec i 0) as [-> | Hnz].
  - left. reflexivity.
  - right. reflexivity.
Qed.

(** The progress path after [updatePath(i, false)]: placed with its
    transition switched off where [getPathForSlide] knows the slide, left
    as it is otherwise. *)
Lemma updatePath_not_animated_path (i : Z) (s : State) :
  path (animator (updatePath i false s)) =
    match getPathForSlide i with
    | Some p => {| dAttr := p; pathTransition := TransitionNone |}
    | None => path (animator s)
    end.
Proof.
  unfold updatePath, cancelSlide12Split, cancelTimelineAnimation, andThen, whenS.
  rewrite !andb_false_r.
  destruct (getPathForSlide i) as [p |] eqn:Hp.
  - destruct s as [e a h]. cbn.
    repeat rewrite clearTimeouts_eq; cbn.
    split_ifs; cbn; repeat rewrite clearTimeouts_eq; cbn; reflexivity.
  - destruct s as [e a h]. cbn.
    split_ifs; cbn; repeat rewrite clearTimeouts_eq; cbn; reflexivity.
Qed.

(** [getPathForSlide] knows the twelve indices 0..11 and no other. *)
Lemma getPathForSlide_defined (i : Z) :
  (0 <= i < 12 -> exists p, getPathForSlide i = Some p) /\
  (12 <= i -> getPathForSlide i = None).
Proof.
  unfold getPathForSlide. split; intros H.
  - repeat match goal with
           | |- context [if ?b then _ else _] => destruct b eqn:?
           end; try (eexists; reflexivity).
    exfalso.
    repeat match goal with
           | H : (_ =? _) = false |- _ => apply Z.eqb_neq in H
           | H : (_ && _) = false |- _ => apply andb_false_iff in H
           end.
    destruct Heqb1 as [E | E]; [apply Z.leb_gt in E | apply Z.leb_gt in E]; lia.
  - repeat match goal with
           | |- context [?a =? ?b] => destruct (Z.eqb_spec a b); [lia |]
           end.
    destruct (Z.leb_spec i 8); [lia |]. rewrite andb_false_r. reflexivity.
Qed.

(** The claim as stated fails where there is no path to place.  The call
    [goToSlide(0, false)] on an engine to which no animator is attached
    (the state [init] leaves, in which its own call was made) shows slide 0
    and dispatches the event but touches nothing of the animator: the
    path is still unset.  With an animator attached but on index 12 of a
    deck of thirteen slides, for which [getPathForSlide] answers [null],
    the path stays the one placed for slide 0. *)
Lemma current_call_can_leave_path_alone :
  (let s := init (deck 12) (beforeInit appConfig (newLineAnimator true true true)) in
   let s' := goToSlide 0 false s in
   isTransitioning (engine s) = false /\
   currentSlide (engine s) = 0 /\
   slideCount s = 12 /\
   lineAnimatorAttached (engine s) = false /\
   getPathForSlide 0 = Some PathSlide1 /\
   hiddenFlag 0 s' = false /\
   events (host s') = events (host s) ++ [0] /\
   animator s' = animator s /\
   path (animator s') = {| dAttr := PathUnset; pathTransition := TransitionUnset |}) /\
  (let s := run 100 (goToSlide 12 true
                       (run 100 (boot appConfig (deck 13)
                                      (newLineAnimator true true true)))) in
   let s' := goToSlide 12 false s in
   isSettled s = true /\
   currentSlide (engine s) = 12 /\
   slideCount s = 13 /\
   lineAnimatorAttached (engine s) = true /\
   hiddenFlag 12 s' = false /\
   events (host s') = events (host s) ++ [12] /\
   path (animator s') = path (animator s) /\
   path (animator s') = {| dAttr := PathSlide1; pathTransition := TransitionNone |}).
Proof. vm_compute. repeat split; reflexivity. Qed.

(** C10.  With [animate = false] the call on the current slide of an idle
    engine does not return early: the slide's hidden flag is cleared (and
    no other slide's flag changes) and a [slidechange] event carrying the
    index is dispatched.  The progress path is placed for that slide, with
    its transition switched off, exactly when an animator is attached and
    [getPathForSlide] knows the index, which it does for 0..11 only;
    otherwise the path is left as it is, and without an animator the whole
    animator is. *)
Theorem goToSlide_current_not_animated (s : State) (i : Z) :
  isTransitioning (engine s) = false ->
  i = currentSlide (engine s) ->
  0 <= i < slideCount s ->
  let s' := goToSlide i false s in
  hiddenFlag i s' = false /\
  (forall j, j <> i -> hiddenFlag j s' = hiddenFlag j s) /\
  events (host s') = events (host s) ++ [i] /\
  currentSlide (engine s') = i /\
  path (animator s') =
    (if lineAnimatorAttached (engine s)
     then match getPathForSlide i with
          | Some p => {| dAttr := p; pathTransition := TransitionNone |}
          | None => path (animator s)
          end
     else path (animator s)) /\
  (lineAnimatorAttached (engine s) = true -> lineCurrentSlide (animator s') = i) /\
  (lineAnimatorAttached (engine s) = false -> animator s' = animator s) /\
  (i < 12 -> exists p, getPathForSlide i = Some p) /\
  (12 <= i -> getPathForSlide i = None).
Proof.
  intros Hidle Hcur Hrange.
  pose proof (nonanimated_current_call_unfolds s Hidle Hcur Hrange) as Heq.
  cbv zeta in *.
  set (s0 := when (lineAnimatorAttached (engine s)) (updatePath i false)
                  (showSlide i s)) in *.
  assert (H0 : slides (engine s0) = slides (engine (showSlide i s)) /\
               events (host s0) = events (host s) /\
               path (animator s0) =
                 (if lineAnimatorAttached (engine s)
                  then match getPathForSlide i with
                       | Some p => {| dAttr := p; pathTransition := TransitionNone |}
                       | None => path (animator s)
                       end
                  else path (animator s)) /\
               (lineAnimatorAttached (engine s) = true ->
                lineCurrentSlide (animator s0) = i) /\
               (lineAnimatorAttached (engine s) = false -> animator s0 = animator s)).
  { subst s0. destruct (lineAnimatorAttached (engine s)); cbn [when].
    - destruct (updatePath_not_animated i (showSlide i s)) as (He & Hev & _ & Hl & _).
      rewrite He, Hev, updatePath_not_animated_path.
      repeat split; auto; discriminate.
    - repeat split; discriminate. }
  destruct H0 as (Hsl & Hev & Hpath & Hla & Hno).
  destruct (afterSlideChange_spec i false s0)
    as (Hc & Hs & _ & _ & _ & Ha & He & _).
  cbv zeta in *.
  assert (Hflag : forall j, hiddenFlag j (afterSlideChange i false s0) =
                            hiddenFlag j (showSlide i s)).
  { intros j. rewrite (hiddenFlag_by_slides j _ _ Hs).
    apply hiddenFlag_by_slides. assumption. }
  assert (Hview : forall s',
             s' = afterSlideChange i false s0 \/
             s' = setCurrentSlide i (afterSlideChange i false s0) ->
             (forall j, hiddenFlag j s' = hiddenFlag j (showSlide i s)) /\
             events (host s') = events (host s) ++ [i] /\
             currentSlide (engine s') = i /\
             animator s' = animator s0).
  { intros s' [-> | ->].
    - repeat split; auto. rewrite He, Hev. reflexivity.
    - split; [| split; [| split]].
      + intros j. rewrite <- Hflag. apply hiddenFlag_by_slides. reflexivity.
      + cbn. cbn in He. rewrite He, Hev. reflexivity.
      + reflexivity.
      + exact Ha. }
  destruct (Hview _ Heq) as (Vf & Ve & Vc & Va).
  rewrite Va.
  split; [rewrite Vf; apply hiddenFlag_showSlide_same; assumption |].
  split; [intros j Hj; rewrite Vf; apply hiddenFlag_showSlide_other; congruence |].
  split; [exact Ve |]. split; [exact Vc |]. split; [exact Hpath |].
  split; [exact Hla |]. split; [exact Hno |].
  destruct (getPathForSlide_defined i) as (Hd & Hn).
  split; [intros Hi; apply Hd; lia | exact Hn].
Qed.

(** At rest on index 4 the path carries the 400 ms transition of the
    animated jump that led there; the non-animated call switches it off. *)
Lemma goToSlide_current_not_animated_witness :
  let s := restingAt appConfig 4 in
  let s' := goToSlide 4 false s in
  path (animator s) =
    {| dAttr := PathHeaderUnderline 4; pathTransition := TransitionD 400 EaseOut |} /\
  hiddenFlag 4 s' = false /\
  events (host s') = events (host s) ++ [4] /\
  currentSlide (engine s') = 4 /\
  path (animator s') =
    {| dAttr := PathHeaderUnderline 4; pathTransition := TransitionNone |}.
Proof.
  destruct (@goToSlide_current_not_animated (restingAt appConfig 4) 4)
    as (H1 & _ & H3 & H4 & H5 & _).
  - vm_compute. reflexivity.
  - vm_compute. reflexivity.
  - vm_compute. split; [discriminate | reflexivity].
  - split; [vm_compute; reflexivity |].
    split; [exact H1 |]. split; [exact H3 |]. split; [exact H4 |].
    rewrite H5. vm_compute. reflexivity.
Defined.
(** ** C1: one visible slide at rest *)

(** C1.  The engine does not keep the invariant under rapid input.  From
    the loaded presentation (twelve slides, slide 0 shown, at rest),
    [next()] followed at once by [prev()] starts two fades whose completion
    timers both run: the first hides slide 0 after the second call has
    made it the destination, the second hides slide 1.  Once everything
    has settled no slide has its hidden flag cleared. *)
Theorem rapid_next_prev_hides_every_slide :
  let s0 := loaded appConfig in
  let s := run 100 (play 100 [(0, Next); (0, Prev)] s0) in
  (isSettled s0 = true /\ visibleCount s0 = 1%nat /\ slideCount s0 = 12) /\
  isSettled s = true /\
  currentSlide (engine s) = 0 /\
  visibleCount s = 0%nat /\
  hiddenFlags s = repeat true 12.
Proof. vm_compute. repeat split; reflexivity. Qed.

(** Navigation that waits for the engine to settle keeps exactly one
    slide shown, the current one: every jump from every resting slide of
    the loaded presentation. *)
Lemma settled_jumps_show_one_slide :
  forallb (fun a =>
    forallb (fun b =>
      let s := run 100 (goToSlide b true (restingAt appConfig a)) in
      isSettled s && Nat.eqb (visibleCount s) 1 && negb (hiddenFlag b s)
      && (currentSlide (engine s) =? b))
      [0; 1; 2; 3; 4; 5; 6; 7; 8; 9; 10; 11])
    [0; 1; 2; 3; 4; 5; 6; 7; 8; 9; 10; 11] = true.
Proof. vm_compute. reflexivity. Qed.

(** ** C5: duplicate requests *)

(** The guard at the head of [goToSlide]: a request for [currentSlide]
    while a transition is in flight returns at once. *)
Lemma goToSlide_transitioning_same_ignored (s : State) (animate : bool) :
  isTransitioning (engine s) = true ->
  goToSlide (currentSlide (engine s)) animate s = s.
Proof.
  intros Ht. unfold goToSlide. rewrite Ht, Z.eqb_refl. reflexivity.
Qed.

(** C5.  On the split branch (slide 11 to slide 12, indices 10 to 11) the
    duplicate is not ignored.  [currentSlide] still holds 10 while the
    first request is in flight, so the second [goToSlide(11)] passes the
    guard, starts a second transition, and after settling two
    [slidechange] events for index 11 have been dispatched. *)
Theorem double_goTo_split_notifies_twice :
  let s0 := restingAt appConfig 10 in
  let s1 := goToSlide 11 true s0 in
  let s2 := goToSlide 11 true s1 in
  let s := run 100 s2 in
  (isSettled s0 = true /\ currentSlide (engine s0) = 10) /\
  (isTransitioning (engine s1) = true /\ currentSlide (engine s1) = 10) /\
  length (promises (host s2)) = S (length (promises (host s1))) /\
  isSettled s = true /\
  events (host s) = events (host s0) ++ [11; 11].
Proof. vm_compute. repeat split; reflexivity. Qed.

(** On the branches that store the index at once (here the generic fade
    and the swoop from slide 2 to slide 3) the duplicate is ignored and one
    event is dispatched. *)
Lemma double_goTo_eager_notifies_once :
  forallb (fun ab : Z * Z =>
    let s0 := restingAt appConfig (fst ab) in
    let s1 := goToSlide (snd ab) true s0 in
    let s2 := goToSlide (snd ab) true s1 in
    let s := run 100 s2 in
    isTransitioning (engine s1) && isSettled s &&
    (length (events (host s)) =? S (length (events (host s0))))%nat &&
    (List.last (events (host s)) 0 =? snd ab))
    [(0, 5); (1, 2); (2, 1); (9, 10); (11, 10); (4, 11); (3, 9)] = true.
Proof. vm_compute. reflexivity. Qed.

(** ** C6: stepping through the deck *)

(** The claim's count is one short: eleven [next()] calls from slide 0
    do not end on index 10. *)
Lemma eleven_nexts_do_not_end_at_10 :
  slideCount (loaded appConfig) = 12 /\
  currentSlide (engine (loaded appConfig)) = 0 /\
  loop (config (engine (loaded appConfig))) = false /\
  currentSlide (engine (afterNexts appConfig 11)) <> 10.
Proof. vm_compute. repeat split; discriminate. Qed.

(** At the last slide of a deck that does not loop, [next()] changes
    nothing. *)
Lemma next_at_last_slide_noop (s : State) :
  isTransitioning (engine s) = false ->
  loop (config (engine s)) = false ->
  0 < slideCount s ->
  currentSlide (engine s) = slideCount s - 1 ->
  next s = s.
Proof.
  intros Hidle Hloop Hpos Hlast. unfold next, goToSlide.
  rewrite Hidle. cbn [andb].
  rewrite boundsCheck_past_end by lia.
  rewrite Hloop, Hlast, Z.eqb_refl. reflexivity.
Qed.

(** C6.  Twelve slides, index 0, [loop = false]: each of eleven
    [next()] calls, issued once the engine has settled, advances by one, so
    the run passes 1, 2, ..., and ends settled on index 11, the last slide,
    the only one shown.  A twelfth [next()] leaves the state as it is.
    With [loop] enabled the twelfth call wraps to index 0. *)
Theorem eleven_nexts_reach_last_slide :
  slideCount (loaded appConfig) = 12 /\
  map (fun k => currentSlide (engine (afterNexts appConfig k))) (seq 0 12) =
    [0; 1; 2; 3; 4; 5; 6; 7; 8; 9; 10; 11] /\
  forallb (fun k => isSettled (afterNexts appConfig k)) (seq 0 13) = true /\
  visibleCount (afterNexts appConfig 11) = 1%nat /\
  hiddenFlag 11 (afterNexts appConfig 11) = false /\
  afterNexts appConfig 12 = afterNexts appConfig 11 /\
  currentSlide (engine (afterNexts appConfigLoop 11)) = 11 /\
  currentSlide (engine (afterNexts appConfigLoop 12)) = 0 /\
  isSettled (afterNexts appConfigLoop 12) = true /\
  hiddenFlag 0 (afterNexts appConfigLoop 12) = false.
Proof. vm_compute. repeat split; reflexivity. Qed.

(** ** C9: when the index is stored *)

(** On the swoop branch the index is stored before any callback has run,
    for every idle state that takes the branch. *)
Lemma goToSlide_swoop_stores_index_at_once (s : State) :
  isTransitioning (engine s) = false ->
  lineAnimatorAttached (engine s) = true ->
  currentSlide (engine s) = 1 ->
  2 < slideCount s ->
  currentSlide (engine (goToSlide 2 true s)) = 2.
Proof.
  intros Hidle Hla Hcur Hlen. unfold goToSlide.
  rewrite Hidle. cbn [andb].
  rewrite boundsCheck_in_range by lia.
  rewrite Hcur, Hla. reflexivity.
Qed.

(** C9.  Both disciplines occur.  Eager: from rest on index 1,
    [goToSlide(2)] returns with [currentSlide = 2] while the engine is
    transitioning, slide 2 is still hidden and [transition] has not been
    called (no promise exists yet).  Deferred: from rest on index 10,
    [goToSlide(11)] returns with [currentSlide] still 10; it stays 10 until
    the completion timer of the fade resolves the promise, [duration] ms
    later, and the reaction stores 11. *)
Theorem eager_and_deferred_index_updates :
  (exists s target,
      isSettled s = true /\ currentSlide (engine s) <> target /\
      let s' := goToSlide target true s in
      currentSlide (engine s') = target /\
      isTransitioning (engine s') = true /\
      hiddenFlag target s' = true /\
      promises (host s') = promises (host s)) /\
  (exists s target,
      isSettled s = true /\
      let s' := goToSlide target true s in
      let D := duration (config (engine s)) in
      isTransitioning (engine s') = true /\
      currentSlide (engine s') <> target /\
      map settled (promises (host s')) = map settled (promises (host s)) ++ [false] /\
      (let early := runUntil 100 (now (host s') + D - 1) s' in
       currentSlide (engine early) <> target /\
       isTransitioning (engine early) = true) /\
      (let done := runUntil 100 (now (host s') + D) s' in
       currentSlide (engine done) = target /\
       isTransitioning (engine done) = false /\
       map settled (promises (host done)) = map settled (promises (host s)) ++ [true])).
Proof.
  split.
  - exists (restingAt appConfig 1), 2. vm_compute.
    repeat split; try reflexivity; discriminate.
  - exists (restingAt appConfig 10), 11. vm_compute.
    repeat split; try reflexivity; discriminate.
Qed.
(** ** Slides, promises and the event loop *)

Lemma hiddenFlag_updateSlide_keeps (i j : Z) (f : Slide -> Slide) (s : State) :
  (forall sl, slideHidden (f sl) = slideHidden sl) ->
  hiddenFlag j (setSlides (updateSlide i f (slides (engine s))) s) = hiddenFlag j s.
Proof.
  intros Hf. unfold hiddenFlag. cbn.
  destruct (Z.eq_dec i j) as [-> | Hne].
  - destruct (getSlide j (slides (engine s))) as [sl |] eqn:E.
    + rewrite (getSlide_updateSlide_same _ _ _ E). apply Hf.
    + unfold getSlide, updateSlide in *.
      destruct (j <? 0); [reflexivity |].
      apply nth_error_None in E.
      rewrite (proj2 (nth_error_None _ _)); [reflexivity |].
      rewrite mapAt_length. assumption.
  - rewrite getSlide_updateSlide_other by assumption. reflexivity.
Qed.

Lemma slideCount_setSlides_updateSlide (i : Z) (f : Slide -> Slide) (s : State) :
  slideCount (setSlides (updateSlide i f (slides (engine s))) s) = slideCount s.
Proof. unfold slideCount. cbn. rewrite updateSlide_length. reflexivity. Qed.

(** What a quiet callback leaves untouched. *)
Lemma quiet_frame (a : Action) (s : State) :
  quiet a = true ->
  host (runAction a s) = host s /\
  (forall j, hiddenFlag j (runAction a s) = hiddenFlag j s) /\
  slideCount (runAction a s) = slideCount s /\
  isTransitioning (engine (runAction a s)) = isTransitioning (engine s) /\
  config (engine (runAction a s)) = config (engine s).
Proof.
  destruct a; cbn [quiet]; try discriminate; intros _;
    cbn [runAction]; unfold guardAnimating, whenS, andThen, skip, revealElement;
    try match goal with
        | |- context [if isAnimating _ then _ else _] =>
            destruct (isAnimating (animator s))
        end;
    try (repeat split; reflexivity).
  repeat split; try reflexivity.
  - intros j. apply hiddenFlag_updateSlide_keeps. reflexivity.
  - apply slideCount_setSlides_updateSlide.
Qed.

Lemma runThen_frame (k : Then) (s : State) :
  timers (host (runThen k s)) = timers (host s) /\
  nextTimerId (host (runThen k s)) = nextTimerId (host s) /\
  promises (host (runThen k s)) = promises (host s) /\
  now (host (runThen k s)) = now (host s) /\
  events (host (runThen k s)) = events (host s) ++ [thenIndex k] /\
  slides (engine (runThen k s)) = slides (engine s) /\
  config (engine (runThen k s)) = config (engine s) /\
  isTransitioning (engine (runThen k s)) = false.
Proof.
  destruct k; cbn [runThen thenIndex]; unfold afterSlideChange, whenS, andThen;
    cbn [negb]; rewrite andb_false_r; cbn; repeat split; reflexivity.
Qed.

Lemma nth_error_settleAt_same (p : nat) (l : list Promise) (pr : Promise) :
  nth_error l p = Some pr ->
  nth_error (settleAt p l) p = Some {| settled := true; reaction := reaction pr |}.
Proof.
  revert p. induction l as [| x l IH]; intros [| p]; cbn; try discriminate.
  - intros [= ->]. reflexivity.
  - apply IH.
Qed.

(** A second [resolve()] does nothing: the promise is settled. *)
Lemma resolve_settled (p : nat) (s : State) :
  isSettledPromise p s = true -> resolve p s = s.
Proof.
  unfold isSettledPromise, resolve.
  destruct (nth_error (promises (host s)) p) as [pr |]; [| reflexivity].
  intros ->. reflexivity.
Qed.

Lemma resolve_settles (p : nat) (s : State) :
  (p < length (promises (host s)))%nat -> isSettledPromise p (resolve p s) = true.
Proof.
  intros Hp. unfold resolve.
  destruct (nth_error (promises (host s)) p) as [pr |] eqn:E.
  - destruct (settled pr) eqn:Hs.
    + unfold isSettledPromise. rewrite E. assumption.
    + unfold isSettledPromise.
      destruct (runThen_frame (reaction pr)
                  (setPromises (settleAt p (promises (host s))) s))
        as (_ & _ & Hpr & _).
      rewrite Hpr. cbn. rewrite (nth_error_settleAt_same _ _ E). reflexivity.
  - apply nth_error_None in E. lia.
Qed.

(** Whichever of the two timers calls [resolve()] first, the other call
    has no effect on the promise or its reaction. *)
Lemma resolve_idempotent (p : nat) (s : State) :
  resolve p (resolve p s) = resolve p s.
Proof.
  destruct (Nat.lt_ge_cases p (length (promises (host s)))) as [Hlt | Hge].
  - apply resolve_settled, resolve_settles. assumption.
  - unfold resolve at 2.
    rewrite (proj2 (nth_error_None _ _) Hge).
    unfold resolve. rewrite (proj2 (nth_error_None _ _) Hge). reflexivity.
Qed.
(** *** The event loop's choice *)

Lemma earliest_in (b : Timer) (l : list Timer) : In (earliest b l) (b :: l).
Proof.
  revert b. induction l as [| t l IH]; intros b; cbn [earliest].
  - left. reflexivity.
  - destruct (IH (if fireAt t <? fireAt b then t else b)) as [H | H].
    + destruct (fireAt t <? fireAt b); rewrite <- H; cbn; auto.
    + right. right. assumption.
Qed.

Lemma earliest_le (b : Timer) (l : list Timer) :
  forall t, In t (b :: l) -> fireAt (earliest b l) <= fireAt t.
Proof.
  revert b. induction l as [| x l IH]; intros b t Hin; cbn [earliest].
  - destruct Hin as [<- | []]. lia.
  - assert (Hb : fireAt (earliest (if fireAt x <? fireAt b then x else b) l)
                 <= fireAt (if fireAt x <? fireAt b then x else b))
      by (apply IH; left; reflexivity).
    destruct Hin as [<- | [<- | Hin]].
    + destruct (Z.ltb_spec (fireAt x) (fireAt b)); lia.
    + destruct (Z.ltb_spec (fireAt x) (fireAt b)); lia.
    + apply IH. right. assumption.
Qed.

Lemma nextTimer_spec (s : State) (tm : Timer) :
  nextTimer s = Some tm ->
  In tm (timers (host s)) /\
  forall t, In t (timers (host s)) -> fireAt tm <= fireAt t.
Proof.
  unfold nextTimer. destruct (timers (host s)) as [| b l]; [discriminate |].
  intros [= <-]. split; [apply earliest_in | apply earliest_le].
Qed.

Lemma nextTimer_none (s : State) :
  nextTimer s = None -> timers (host s) = [].
Proof.
  unfold nextTimer. destruct (timers (host s)); [reflexivity | discriminate].
Qed.

Lemma filter_length_lt {A} (f : A -> bool) (l : list A) (x : A) :
  In x l -> f x = false -> (length (filter f l) < length l)%nat.
Proof.
  induction l as [| y l IH]; cbn; [contradiction |].
  intros [-> | Hin] Hf.
  - rewrite Hf. pose proof (filter_length_le f l). lia.
  - specialize (IH Hin Hf). destruct (f y); cbn; lia.
Qed.

Lemma keptAfterClearing_self (t : Timer) : keptAfterClearing [tid t] t = false.
Proof. apply keptAfterClearing_false. left. reflexivity. Qed.

Lemma keptAfterClearing_other (id : nat) (t : Timer) :
  tid t <> id -> keptAfterClearing [id] t = true.
Proof.
  intros Hne. unfold keptAfterClearing. cbn.
  rewrite orb_false_r. apply negb_true_iff, Nat.eqb_neq. assumption.
Qed.

Lemma pending_false (id : nat) (s : State) :
  (forall t, In t (timers (host s)) -> tid t <> id) -> pending id s = false.
Proof.
  intros H. unfold pending.
  destruct (existsb (fun t => Nat.eqb (tid t) id) (timers (host s))) eqn:E;
    [| reflexivity].
  apply existsb_exists in E. destruct E as (t & Hin & Heq).
  apply Nat.eqb_eq in Heq. exfalso. exact (H t Hin Heq).
Qed.

(** Firing a quiet timer: it leaves the table, the clock moves, nothing
    else that navigation reads is touched. *)
Lemma fire_quiet (tm : Timer) (s : State) :
  quiet (action tm) = true ->
  timers (host (fire tm s)) = filter (keptAfterClearing [tid tm]) (timers (host s)) /\
  now (host (fire tm s)) = Z.max (now (host s)) (fireAt tm) /\
  promises (host (fire tm s)) = promises (host s) /\
  events (host (fire tm s)) = events (host s) /\
  (forall j, hiddenFlag j (fire tm s) = hiddenFlag j s) /\
  slideCount (fire tm s) = slideCount s /\
  isTransitioning (engine (fire tm s)) = isTransitioning (engine s).
Proof.
  intros Hq. unfold fire.
  destruct (quiet_frame (action tm)
              (clearTimeout (tid tm)
                 (setNow (Z.max (now (host s)) (fireAt tm)) s)) Hq)
    as (Hh & Hf & Hc & Ht & _).
  rewrite Hh, Hc, Ht.
  repeat split; try reflexivity.
  - rewrite clearTimeout_eq. reflexivity.
  - intros j. rewrite Hf. reflexivity.
Qed.

(** Running a table of quiet timers up to time [T]. *)
Lemma runUntil_quiet (fuel : nat) (T : Z) (s : State) :
  (forall t, In t (timers (host s)) -> quiet (action t) = true) ->
  (length (timers (host s)) < fuel)%nat ->
  (forall j, hiddenFlag j (runUntil fuel T s) = hiddenFlag j s) /\
  promises (host (runUntil fuel T s)) = promises (host s) /\
  events (host (runUntil fuel T s)) = events (host s) /\
  isTransitioning (engine (runUntil fuel T s)) = isTransitioning (engine s) /\
  now (host (runUntil fuel T s)) = Z.max (now (host s)) T /\
  (forall t, In t (timers (host (runUntil fuel T s))) -> In t (timers (host s))).
Proof.
  revert s. induction fuel as [| fuel IH]; intros s Hq Hlen; [lia |].
  cbn [runUntil].
  destruct (nextTimer s) as [tm |] eqn:Hnext.
  - destruct (nextTimer_spec s Hnext) as (Hin & _).
    destruct (Z.leb_spec (fireAt tm) T) as [Hdue | Hlater].
    + destruct (fire_quiet tm s (Hq tm Hin)) as (Ht & Hn & Hp & He & Hf & _ & Htr).
      assert (Hsub : forall t, In t (timers (host (fire tm s))) ->
                               In t (timers (host s))).
      { intros t. rewrite Ht. intros H. apply filter_In in H. tauto. }
      destruct (IH (fire tm s)) as (Hf' & Hp' & He' & Htr' & Hn' & Hsub').
      * intros t H. apply Hq, Hsub, H.
      * rewrite Ht.
        pose proof (filter_length_lt (keptAfterClearing [tid tm]) _ _ Hin
                      (keptAfterClearing_self tm)).
        lia.
      * repeat split.
        -- intros j. rewrite Hf', Hf. reflexivity.
        -- congruence.
        -- congruence.
        -- congruence.
        -- rewrite Hn', Hn. lia.
        -- intros t H. apply Hsub, Hsub', H.
    + cbn. repeat split; auto.
  - cbn. repeat split; auto.
Qed.
Lemma filter_all_kept {A} (f : A -> bool) (l : list A) :
  (forall x, In x l -> f x = true) -> filter f l = l.
Proof.
  intros H. apply forallb_filter_id, forallb_forall. assumption.
Qed.

Lemma hiddenFlag_hideSlide_same (i : Z) (s : State) :
  0 <= i < slideCount s -> hiddenFlag i (hideSlide i s) = true.
Proof.
  intros Hr. unfold hiddenFlag, hideSlide. cbn.
  destruct (getSlide_in_range (slides (engine s)) Hr) as [sl Hsl].
  rewrite (getSlide_updateSlide_same _ _ _ Hsl). reflexivity.
Qed.

Lemma hiddenFlag_hideSlide_other (i j : Z) (s : State) :
  i <> j -> hiddenFlag j (hideSlide i s) = hiddenFlag j s.
Proof.
  intros Hne. unfold hiddenFlag, hideSlide. cbn.
  rewrite getSlide_updateSlide_other by assumption. reflexivity.
Qed.


(** ** C3, C4: what starting a sequence cancels *)

Lemma sequenceEqb_eq (a b : Sequence) : sequenceEqb a b = true <-> a = b.
Proof. destruct a, b; cbn; split; intros H; try reflexivity; discriminate. Qed.

Lemma belongsTo_spec (q : Sequence) (t : Timer) :
  belongsTo q t = true <-> sequenceOf (action t) = Some q.
Proof.
  unfold belongsTo. destruct (sequenceOf (action t)) as [q' |].
  - rewrite sequenceEqb_eq. split; intros H; congruence.
  - split; discriminate.
Qed.

Lemma liveTimers_In (q : Sequence) (s : State) (id : nat) :
  In id (liveTimers q s) <->
  exists t, In t (timers (host s)) /\ belongsTo q t = true /\ tid t = id.
Proof.
  unfold liveTimers. rewrite in_map_iff. split.
  - intros (t & Hid & Hin). apply filter_In in Hin. exists t. tauto.
  - intros (t & Hin & Hb & Hid). exists t. split; [assumption |].
    apply filter_In. tauto.
Qed.

Lemma liveTimers_nil (q : Sequence) (s : State) :
  (forall t, In t (timers (host s)) -> belongsTo q t = false) ->
  liveTimers q s = [].
Proof.
  intros H. destruct (liveTimers q s) as [| id l] eqn:E; [reflexivity |].
  assert (Hin : In id (liveTimers q s)) by (rewrite E; left; reflexivity).
  apply liveTimers_In in Hin. destruct Hin as (t & Hin & Hb & _).
  rewrite (H t Hin) in Hb. discriminate.
Qed.

Lemma keptAfterClearing_true (ids : list nat) (t : Timer) :
  keptAfterClearing ids t = true -> ~ In (tid t) ids.
Proof.
  intros Hk Hin. rewrite (keptAfterClearing_false _ _ Hin) in Hk. discriminate.
Qed.

(** The test decides the invariant. *)
Lemma trackedb_sound (s : State) : trackedb s = true -> Tracked s.
Proof.
  unfold trackedb, Tracked. intros H.
  apply andb_prop in H. destruct H as [H H4].
  apply andb_prop in H. destruct H as [H H3].
  apply andb_prop in H. destruct H as [H1 H2].
  rewrite forallb_forall in H1, H3.
  repeat split.
  - intros t Hin. apply Nat.ltb_lt, H1, Hin.
  - apply Nat.ltb_lt, H2.
  - intros q t Hin Hb Hf Hbk. specialize (H3 t Hin).
    apply belongsTo_spec in Hb. rewrite Hb in H3.
    apply orb_prop in H3. destruct H3 as [H3 | H3].
    + destruct q; cbn in H3; try discriminate; contradiction.
    + apply existsb_exists in H3. destruct H3 as (id & Hid & Heq).
      apply Nat.eqb_eq in Heq. rewrite Heq. assumption.
  - intros Hdom. rewrite Hdom in H4. cbn in H4.
    rewrite forallb_forall in H4.
    apply liveTimers_nil. intros t Hin. specialize (H4 t Hin).
    apply negb_true_iff in H4. assumption.
Qed.

(** *** Timers added by the engine's callbacks *)

Lemma addsEngineTimers_refl (s : State) : addsEngineTimers s s.
Proof. repeat split; auto. Qed.

Lemma addsEngineTimers_trans (s1 s2 s3 : State) :
  addsEngineTimers s1 s2 -> addsEngineTimers s2 s3 -> addsEngineTimers s1 s3.
Proof.
  intros (Ha & Hn & Ht) (Ha' & Hn' & Ht'). repeat split.
  - congruence.
  - lia.
  - intros t Hin. destruct (Ht' t Hin) as [H | (Hid & He)].
    + apply Ht. assumption.
    + right. split; [lia | assumption].
Qed.

Lemma setTimeout_addsEngineTimers (a : Action) (dl : Z) (s : State) :
  sequenceOf a = None -> addsEngineTimers s (snd (setTimeout a dl s)).
Proof.
  intros Ha. repeat split; cbn.
  - lia.
  - intros t Hin. apply in_app_or in Hin. destruct Hin as [H | [<- | []]].
    + left. assumption.
    + right. split; [cbn; lia | exact Ha].
Qed.

Lemma scheduleReveals_addsEngineTimers (i stagger : Z) (els : list AnimatedElement) :
  forall (n : nat) (s : State),
    addsEngineTimers s (scheduleReveals i stagger n els s).
Proof.
  induction els as [| el rest IH]; intros n s; cbn [scheduleReveals].
  - apply addsEngineTimers_refl.
  - eapply addsEngineTimers_trans; [| apply IH].
    apply setTimeout_addsEngineTimers. reflexivity.
Qed.

Lemma triggerSlideAnimations_addsEngineTimers (i : Z) (s : State) :
  addsEngineTimers s (triggerSlideAnimations i s).
Proof.
  unfold triggerSlideAnimations. destruct (getSlide i (slides (engine s))).
  - apply scheduleReveals_addsEngineTimers.
  - apply addsEngineTimers_refl.
Qed.

Lemma transition_addsEngineTimers (a b : Z) (k : Then) (s : State) :
  addsEngineTimers s (transition a b k s).
Proof.
  unfold transition. cbn. repeat split; cbn.
  - lia.
  - intros t Hin.
    apply in_app_or in Hin. destruct Hin as [Hin | [<- | []]].
    + apply in_app_or in Hin. destruct Hin as [Hin | [<- | []]].
      * left. assumption.
      * right. split; [cbn; lia | reflexivity].
    + right. split; [cbn; lia | reflexivity].
Qed.

Lemma runCallback_addsEngineTimers (cb : Callback) (s : State) :
  addsEngineTimers s (runCallback cb s).
Proof.
  destruct cb; cbn [runCallback]; unfold andThen, whenS.
  - destruct (animationsEnabled (config (engine s))).
    + eapply addsEngineTimers_trans;
        [apply triggerSlideAnimations_addsEngineTimers
        | apply transition_addsEngineTimers].
    + apply transition_addsEngineTimers.
  - destruct (currentSlide (engine s) =? index).
    + repeat split; auto.
    + apply transition_addsEngineTimers.
  - destruct (animationsEnabled (config (engine s))).
    + apply triggerSlideAnimations_addsEngineTimers.
    + apply addsEngineTimers_refl.
Qed.

Unset Implicit Arguments.

(** *** What the cancel methods do to the timer table *)

Lemma cancelSlide10To11Swoop_effect (s : State) :
  let s' := cancelSlide10To11Swoop s in
  nextTimerId (host s') = nextTimerId (host s) /\
  timers (host s') =
    filter (keptAfterClearing (slide10To11Timeouts (animator s))) (timers (host s)) /\
  slide12SplitTimeouts (animator s') = slide12SplitTimeouts (animator s) /\
  slide12ReverseTimeouts (animator s') = slide12ReverseTimeouts (animator s) /\
  slide12ExpansionTimeout (animator s') = slide12ExpansionTimeout (animator s).
Proof.
  unfold cancelSlide10To11Swoop, andThen. rewrite clearTimeouts_eq.
  repeat split; reflexivity.
Qed.

Lemma cancelSlide12Split_effect (s : State) :
  let s' := cancelSlide12Split s in
  nextTimerId (host s') = nextTimerId (host s) /\
  timers (host s') =
    filter (keptAfterClearing (slide12ReverseTimeouts (animator s)))
      (filter (keptAfterClearing (slide12SplitTimeouts (animator s)))
              (timers (host s))) /\
  slide12ExpansionTimeout (animator s') = slide12ExpansionTimeout (animator s).
Proof.
  unfold cancelSlide12Split, andThen, whenS. rewrite !clearTimeouts_eq.
  cbn. destruct (negb (lineCurrentSlide (animator s) =? 11));
    repeat split; reflexivity.
Qed.

Lemma cancelSlide12Expansion_effect (s : State) :
  let s' := cancelSlide12Expansion s in
  nextTimerId (host s') = nextTimerId (host s) /\
  now (host s') = now (host s) /\
  timers (host s') =
    filter (keptAfterClearing (recordedTimers Expansion s)) (timers (host s)) /\
  slide12SplitTimeouts (animator s') = slide12SplitTimeouts (animator s) /\
  slide12ReverseTimeouts (animator s') = slide12ReverseTimeouts (animator s).
Proof.
  unfold cancelSlide12Expansion, recordedTimers.
  destruct (slide12ExpansionTimeout (animator s)) as [id |];
    [destruct (Nat.eqb id 0) |]; rewrite ?clearTimeout_eq; cbn;
    repeat split; try reflexivity;
    symmetry; apply filter_all_kept; reflexivity.
Qed.

(** What the three cancel calls at the head of the split leave in the
    timer table. *)
Lemma split_prefix (s : State) :
  keepsUnrecorded (cancelledBy Split) s
    (cancelSlide12Expansion (cancelSlide12Split (cancelSlide10To11Swoop s))).
Proof.
  destruct (cancelSlide10To11Swoop_effect s) as (An & At & Ast & Art & Aet).
  destruct (cancelSlide12Split_effect (cancelSlide10To11Swoop s)) as (Bn & Bt & Bet).
  destruct (cancelSlide12Expansion_effect
              (cancelSlide12Split (cancelSlide10To11Swoop s)))
    as (Cn & _ & Ct & _).
  cbv zeta in *. split; [congruence |].
  intros t Hin. rewrite Ct, Bt, At, Ast, Art in Hin.
  assert (Hrec : recordedTimers Expansion (cancelSlide12Split (cancelSlide10To11Swoop s))
                 = recordedTimers Expansion s).
  { unfold recordedTimers. rewrite Bet, Aet. reflexivity. }
  rewrite Hrec in Hin.
  repeat (let K := fresh "K" in apply filter_In in Hin; destruct Hin as [Hin K]).
  split; [exact Hin |].
  intros q' Hq'. cbn in Hq'.
  repeat (destruct Hq' as [Hq' | Hq']; [subst q' |]); try contradiction;
    apply keptAfterClearing_true; assumption.
Qed.

(** *** Composing the effects of statements *)

Lemma schedulesOwn_refl (q : Sequence) (s : State) : schedulesOwn q s s.
Proof. split; [lia | auto]. Qed.

Lemma schedulesOwn_trans (q : Sequence) (s1 s2 s3 : State) :
  schedulesOwn q s1 s2 -> schedulesOwn q s2 s3 -> schedulesOwn q s1 s3.
Proof.
  intros (Hn & Ht) (Hn' & Ht'). split; [lia |].
  intros t Hin. destruct (Ht' t Hin) as [H | (Hid & Hq)].
  - apply Ht. assumption.
  - right. split; [lia | assumption].
Qed.

Lemma SchedulesOwn_andThen (q : Sequence) (c1 c2 : State -> State) :
  SchedulesOwn q c1 -> SchedulesOwn q c2 -> SchedulesOwn q (c1 ;; c2).
Proof.
  intros H1 H2 s. unfold andThen.
  eapply schedulesOwn_trans; [apply H1 | apply H2].
Qed.

Lemma SchedulesOwn_skip (q : Sequence) : SchedulesOwn q (fun s => s).
Proof. intros s. apply schedulesOwn_refl. Qed.

Lemma SchedulesOwn_whenS (q : Sequence) (b : State -> bool) (c : State -> State) :
  SchedulesOwn q c -> SchedulesOwn q (whenS b c).
Proof.
  intros H s. unfold whenS. destruct (b s); [apply H | apply schedulesOwn_refl].
Qed.

Lemma SchedulesOwn_onAnimator (q : Sequence) (f : LineAnimator -> LineAnimator) :
  SchedulesOwn q (onAnimator f).
Proof. intros s. split; cbn; [lia | auto]. Qed.

Lemma SchedulesOwn_onEngine (q : Sequence) (f : SlideEngine -> SlideEngine) :
  SchedulesOwn q (onEngine f).
Proof. intros s. split; cbn; [lia | auto]. Qed.

Lemma schedulesOwn_setTimeout (q : Sequence) (a : Action) (dl : Z) (s : State) :
  sequenceOf a = Some q \/ sequenceOf a = None ->
  schedulesOwn q s (snd (setTimeout a dl s)).
Proof.
  intros Ha. split; cbn; [lia |].
  intros t Hin. apply in_app_or in Hin. destruct Hin as [H | [<- | []]].
  - left. assumption.
  - right. split; [cbn; lia | exact Ha].
Qed.

Lemma SchedulesOwn_schedule (q : Sequence) (a : Action) (dl : Z)
      (record : nat -> State -> State) :
  sequenceOf a = Some q \/ sequenceOf a = None ->
  (forall id, SchedulesOwn q (record id)) ->
  SchedulesOwn q (schedule a dl record).
Proof.
  intros Ha Hr s. unfold schedule.
  destruct (setTimeout a dl s) as [id s'] eqn:E.
  assert (Hs' : s' = snd (setTimeout a dl s)) by (rewrite E; reflexivity).
  eapply schedulesOwn_trans; [| apply Hr].
  rewrite Hs'. apply schedulesOwn_setTimeout. exact Ha.
Qed.

Lemma SchedulesOwn_scheduleUntracked (q : Sequence) (a : Action) (dl : Z) :
  sequenceOf a = Some q \/ sequenceOf a = None ->
  SchedulesOwn q (scheduleUntracked a dl).
Proof.
  intros Ha s. unfold scheduleUntracked. apply schedulesOwn_setTimeout. exact Ha.
Qed.

Lemma SchedulesOwn_runCallback (q : Sequence) (cb : Callback) :
  SchedulesOwn q (runCallback cb).
Proof.
  intros s. destruct (runCallback_addsEngineTimers cb s) as (_ & Hn & Ht).
  split; [exact Hn |].
  intros t Hin. destruct (Ht t Hin) as [H | (Hid & He)]; [left; exact H |].
  right. split; [exact Hid | right; exact He].
Qed.

Ltac schedules_own :=
  unfold setIsAnimating, setPath, setPathSecondary, mapOverlays,
    setLineCurrentSlide, pushSlide10To11Timeout, pushSlide12SplitTimeout,
    pushSlide12ReverseTimeout, pushTimelineTimeout;
  repeat match goal with
         | |- SchedulesOwn _ (andThen _ _) => apply SchedulesOwn_andThen
         | |- SchedulesOwn _ (whenS _ _) => apply SchedulesOwn_whenS
         | |- SchedulesOwn _ (onAnimator _) => apply SchedulesOwn_onAnimator
         | |- SchedulesOwn _ (onEngine _) => apply SchedulesOwn_onEngine
         | |- SchedulesOwn _ (runCallback _) => apply SchedulesOwn_runCallback
         | |- SchedulesOwn _ (scheduleUntracked _ _) =>
             apply SchedulesOwn_scheduleUntracked; left; reflexivity
         | |- SchedulesOwn _ (schedule _ _ _) =>
             apply SchedulesOwn_schedule; [left; reflexivity | intros ?]
         end.

Lemma scheduleSegments_schedulesOwn (segs : list (option nat)) :
  forall (i : nat) (dl : Z) (s : State),
    schedulesOwn TimelineReveal s (snd (scheduleSegments segs i dl s)).
Proof.
  induction segs as [| c rest IH]; intros i dl s; cbn [scheduleSegments].
  - apply schedulesOwn_refl.
  - destruct (setTimeout (TimelineDraw i) dl s) as [id1 s1] eqn:E1.
    assert (H1 : schedulesOwn TimelineReveal s s1).
    { replace s1 with (snd (setTimeout (TimelineDraw i) dl s))
        by (rewrite E1; reflexivity).
      apply schedulesOwn_setTimeout. left. reflexivity. }
    assert (H2 : schedulesOwn TimelineReveal s (pushTimelineTimeout id1 s1)).
    { eapply schedulesOwn_trans; [exact H1 | apply SchedulesOwn_onAnimator]. }
    destruct c as [ci |].
    + destruct (setTimeout (TimelineCircle ci) (dl + 800)
                           (pushTimelineTimeout id1 s1)) as [id2 s2] eqn:E2.
      eapply schedulesOwn_trans; [| apply IH].
      eapply schedulesOwn_trans; [exact H2 |].
      eapply schedulesOwn_trans; [| apply SchedulesOwn_onAnimator].
      replace s2 with (snd (setTimeout (TimelineCircle ci) (dl + 800)
                                       (pushTimelineTimeout id1 s1)))
        by (rewrite E2; reflexivity).
      apply schedulesOwn_setTimeout. left. reflexivity.
    + eapply schedulesOwn_trans; [exact H2 | apply IH].
Qed.

(** A cancel prefix followed by scheduling gives the start effect. *)
Lemma startEffect_compose (q : Sequence) (s s1 s' : State) :
  keepsUnrecorded (cancelledBy q) s s1 ->
  schedulesOwn q s1 s' ->
  startEffect q s s'.
Proof.
  intros (Hn & Hk) (_ & Ht) t Hin.
  destruct (Ht t Hin) as [H | (Hid & Hq)].
  - left. apply Hk. exact H.
  - right. split; [lia | exact Hq].
Qed.

Lemma keepsUnrecorded_nothing (s : State) : keepsUnrecorded [] s s.
Proof. split; [reflexivity |]. intros t Hin. split; [exact Hin | intros q' []]. Qed.
Lemma andThen_apply (c1 c2 : State -> State) (s : State) :
  (c1 ;; c2) s = c2 (c1 s).
Proof. reflexivity. Qed.

Lemma SchedulesOwn_apply (q : Sequence) (c : State -> State) (s : State) :
  SchedulesOwn q c -> schedulesOwn q s (c s).
Proof. intros H. apply H. Qed.

Lemma clearSplitTimeouts_effect (s : State) :
  let s' := clearSplitTimeouts s in
  nextTimerId (host s') = nextTimerId (host s) /\
  timers (host s') =
    filter (keptAfterClearing (slide12SplitTimeouts (animator s))) (timers (host s)) /\
  slide12ReverseTimeouts (animator s') = slide12ReverseTimeouts (animator s).
Proof.
  unfold clearSplitTimeouts, andThen. rewrite clearTimeouts_eq.
  repeat split; reflexivity.
Qed.

Lemma clearReverseTimeouts_effect (s : State) :
  let s' := clearReverseTimeouts s in
  nextTimerId (host s') = nextTimerId (host s) /\
  timers (host s') =
    filter (keptAfterClearing (slide12ReverseTimeouts (animator s))) (timers (host s)).
Proof.
  unfold clearReverseTimeouts, andThen. rewrite clearTimeouts_eq.
  repeat split; reflexivity.
Qed.

Lemma cancelTimelineAnimation_effect (s : State) :
  let s' := cancelTimelineAnimation s in
  nextTimerId (host s') = nextTimerId (host s) /\
  timers (host s') =
    filter (keptAfterClearing (timelineTimeouts (animator s))) (timers (host s)).
Proof.
  unfold cancelTimelineAnimation, andThen. rewrite clearTimeouts_eq.
  repeat split; reflexivity.
Qed.

Ltac unrecorded H :=
  repeat (let K := fresh "K" in apply filter_In in H; destruct H as [H K]);
  split; [exact H |];
  let q' := fresh "q'" in
  let Hq' := fresh "Hq'" in
  intros q' Hq'; cbn in Hq';
  repeat (destruct Hq' as [Hq' | Hq']; [subst q' |]); try contradiction;
  apply keptAfterClearing_true; assumption.

Lemma start_effect_swoop (cb : Callback) (s : State) :
  startEffect SwoopForward s (animateSwoopTransition cb s).
Proof.
  apply startEffect_compose with (s1 := s); [apply keepsUnrecorded_nothing |].
  unfold animateSwoopTransition.
  destruct (isAnimating (animator s)); [apply schedulesOwn_refl |].
  apply SchedulesOwn_apply. schedules_own.
Qed.

Lemma start_effect_reverse_swoop (cb : Callback) (s : State) :
  startEffect SwoopBack s (animateReverseSwoopTransition cb s).
Proof.
  apply startEffect_compose with (s1 := s); [apply keepsUnrecorded_nothing |].
  unfold animateReverseSwoopTransition.
  destruct (isAnimating (animator s)); [apply schedulesOwn_refl |].
  apply SchedulesOwn_apply. schedules_own.
Qed.

Lemma start_effect_timeline (s : State) :
  timelineDom (animator s) = true ->
  startEffect TimelineReveal s (animateTimelineStepByStep s).
Proof.
  intros Hdom. unfold animateTimelineStepByStep, andThen.
  change (timelineDom (animator (hideTimelineCircles s)))
    with (timelineDom (animator s)).
  rewrite Hdom. cbn [negb]. unfold drawTimeline. rewrite andThen_apply.
  apply startEffect_compose
    with (s1 := cancelTimelineAnimation (hideTimelineCircles s)).
  - destruct (cancelTimelineAnimation_effect (hideTimelineCircles s)) as (Hn & Ht).
    cbv zeta in *. split; [exact Hn |].
    intros t Hin. rewrite Ht in Hin.
    change (timers (host (hideTimelineCircles s))) with (timers (host s)) in Hin.
    change (timelineTimeouts (animator (hideTimelineCircles s)))
      with (timelineTimeouts (animator s)) in Hin.
    unrecorded Hin.
  - apply SchedulesOwn_apply. schedules_own.
    intros s0.
    destruct (scheduleSegments drawSegments 0 50 s0) as [dl s1] eqn:E.
    apply schedulesOwn_trans with (s2 := s1).
    + pose proof (scheduleSegments_schedulesOwn drawSegments 0 50 s0) as H.
      rewrite E in H. exact H.
    + apply SchedulesOwn_apply. schedules_own.
Qed.

Lemma start_effect_swoop10 (cb : Callback) (s : State) :
  startEffect Swoop10To11 s (animateSlide10To11Swoop cb s).
Proof.
  unfold animateSlide10To11Swoop. rewrite andThen_apply.
  apply startEffect_compose with (s1 := cancelSlide10To11Swoop s).
  - destruct (cancelSlide10To11Swoop_effect s) as (Hn & Ht & _).
    cbv zeta in *. split; [exact Hn |].
    intros t Hin. rewrite Ht in Hin. unrecorded Hin.
  - apply SchedulesOwn_apply. schedules_own.
Qed.

Lemma start_effect_expansion (s : State) :
  startEffect Expansion s (animateSlide12Expansion s).
Proof.
  unfold animateSlide12Expansion. rewrite andThen_apply.
  apply startEffect_compose with (s1 := cancelSlide12Expansion s).
  - destruct (cancelSlide12Expansion_effect s) as (Hn & _ & Ht & _).
    cbv zeta in *. split; [exact Hn |].
    intros t Hin. rewrite Ht in Hin. unrecorded Hin.
  - apply SchedulesOwn_apply. schedules_own.
Qed.

Lemma start_effect_reverse (cb : Callback) (s : State) :
  startEffect ReverseSplit s (animateSlide12To11Reverse cb s).
Proof.
  unfold animateSlide12To11Reverse. rewrite 3 andThen_apply.
  apply startEffect_compose
    with (s1 := clearReverseTimeouts (clearSplitTimeouts (cancelSlide12Expansion s))).
  - destruct (cancelSlide12Expansion_effect s) as (An & _ & At & Ast & Art).
    destruct (clearSplitTimeouts_effect (cancelSlide12Expansion s)) as (Bn & Bt & Brt).
    destruct (clearReverseTimeouts_effect
                (clearSplitTimeouts (cancelSlide12Expansion s))) as (Cn & Ct).
    cbv zeta in *. split; [congruence |].
    intros t Hin. rewrite Ct, Bt, At, Brt, Ast, Art in Hin. unrecorded Hin.
  - apply SchedulesOwn_apply. schedules_own.
Qed.

Lemma start_effect_split (cb1 cb2 : Callback) (s : State) :
  startEffect Split s (animateSlide11To12Split cb1 cb2 s).
Proof.
  unfold animateSlide11To12Split. rewrite 3 andThen_apply.
  apply startEffect_compose
    with (s1 := cancelSlide12Expansion (cancelSlide12Split (cancelSlide10To11Swoop s))).
  - apply split_prefix.
  - apply SchedulesOwn_apply. schedules_own.
    intros s0.
    destruct (overlayTop (animator s0)), (overlayBottom (animator s0)),
      (pathSecondary (animator s0));
      apply SchedulesOwn_apply; schedules_own.
Qed.

(** Each start method clears the records listed in [cancelledBy] and
    only then sets timers, all of them fresh. *)
Lemma start_effect (q : Sequence) (cb1 cb2 : Callback) (s : State) :
  (q = TimelineReveal -> timelineDom (animator s) = true) ->
  startEffect q s (startSequence q cb1 cb2 s).
Proof.
  intros Hdom. destruct q; cbn [startSequence].
  - apply start_effect_swoop.
  - apply start_effect_reverse_swoop.
  - apply start_effect_timeline. apply Hdom. reflexivity.
  - apply start_effect_swoop10.
  - apply start_effect_expansion.
  - apply start_effect_split.
  - apply start_effect_reverse.
Qed.
Lemma animateTimelineStepByStep_without_dom (s : State) :
  timelineDom (animator s) = false ->
  timers (host (animateTimelineStepByStep s)) = timers (host s).
Proof.
  intros Hdom. unfold animateTimelineStepByStep. rewrite andThen_apply.
  change (timelineDom (animator (hideTimelineCircles s)))
    with (timelineDom (animator s)).
  rewrite Hdom. reflexivity.
Qed.

Lemma cancelledBy_self (q : Sequence) :
  recordsTimers q = true -> In q (cancelledBy q).
Proof. destruct q; cbn; intros H; try discriminate; auto. Qed.

Lemma cancelledBy_records (q q' : Sequence) :
  In q' (cancelledBy q) -> q' <> SwoopForward /\ q' <> SwoopBack.
Proof.
  destruct q; cbn; intros H;
    repeat (destruct H as [<- | H]); try contradiction;
    split; discriminate.
Qed.

Lemma recordsTimers_not_swoop (q : Sequence) :
  recordsTimers q = true -> q <> SwoopForward /\ q <> SwoopBack.
Proof. destruct q; cbn; intros H; try discriminate; split; discriminate. Qed.

(** The bookkeeping is sound in the states the engine goes through: it
    holds before and after each of the 88 commands of the tour. *)
Lemma tracked_along_tour (s : State) :
  In s (playStates 200 tour (loaded appConfig)) -> Tracked s.
Proof.
  intros Hin. apply trackedb_sound. revert s Hin. apply forallb_forall.
  vm_compute. reflexivity.
Qed.

(** ** C3: cancelling the other sequences *)

(** The claim fails for the swoops of slides 2 and 3, whose timers are on
    no record.  From rest on index 1, [goToSlide(2)] starts the forward
    swoop (timers 7 and 8); [goToSlide(1)], issued at once, starts the
    reverse swoop while both timers of the forward swoop stay pending.  It
    fails as well between recording sequences: 600 ms after the swoop from
    slide 10 to 11 has started, going back to index 9 starts the timeline
    reveal while two timers of that swoop are still pending. *)
Lemma starting_a_sequence_leaves_other_timers :
  (let s0 := restingAt appConfig 1 in
   let s1 := goToSlide 2 true s0 in
   let s2 := goToSlide 1 true s1 in
   liveSequences s0 = [] /\
   liveTimers SwoopForward s1 = [7; 8]%nat /\
   liveTimers SwoopForward s2 = [7; 8]%nat /\
   liveTimers SwoopBack s2 = [9; 10]%nat /\
   liveSequences s2 = [SwoopForward; SwoopBack]) /\
  (let s0 := restingAt appConfig 9 in
   let s1 := goToSlide 10 true s0 in
   let s2 := runUntil 100 (now (host s1) + 600) s1 in
   let s3 := goToSlide 9 true s2 in
   liveSequences s1 = [Swoop10To11] /\
   isTransitioning (engine s2) = false /\
   liveTimers Swoop10To11 s2 = [26; 27]%nat /\
   liveTimers Swoop10To11 s3 = [26; 27]%nat /\
   liveSequences s3 = [TimelineReveal; Swoop10To11]).
Proof. vm_compute. repeat split; reflexivity. Qed.

(** ** C4: cancelling the previous generation *)

(** The claim fails for the forward swoop.  Three calls 10 ms apart from
    rest on index 1, [goToSlide(2)], [goToSlide(1)], [goToSlide(2)], start
    the forward swoop twice: timers 7 and 8 of the first generation are
    still pending next to timers 11 and 12 of the second.  Timer 7 is then
    the next to run, and running it calls [transition]: a promise is
    created and slide 2 is shown by a callback of the abandoned
    generation. *)
Lemma swoop_restart_keeps_first_generation :
  let s0 := restingAt appConfig 1 in
  let s1 := goToSlide 2 true s0 in
  let s3 := play 100 [(10, GoTo 1); (10, GoTo 2)] s1 in
  liveTimers SwoopForward s1 = [7; 8]%nat /\
  liveTimers SwoopForward s3 = [7; 8; 11; 12]%nat /\
  option_map tid (nextTimer s3) = Some 7%nat /\
  hiddenFlag 2 s3 = true /\
  hiddenFlag 2 (run 1 s3) = false /\
  length (promises (host (run 1 s3))) = S (length (promises (host s3))).
Proof. vm_compute. repeat split; reflexivity. Qed.

(** C4.  For the five sequences that record their timers
    (timeline step-reveal, slide-10-to-11 swoop, expansion, split, reverse
    split), in a state whose records are sound, every timer of the
    sequence that is pending after its start method has run carries an id
    handed out by that run: nothing of an earlier generation is left. *)
Theorem restart_cancels_own_timers
        (q : Sequence) (cb1 cb2 : Callback) (s : State) :
  recordsTimers q = true ->
  Tracked s ->
  forall id, In id (liveTimers q (startSequence q cb1 cb2 s)) ->
             (nextTimerId (host s) <= id)%nat.
Proof.
  intros Hq (_ & _ & Hrec & Hdomless) id Hid.
  apply liveTimers_In in Hid. destruct Hid as (t & Hin & Hb & <-).
  destruct (recordsTimers_not_swoop q Hq) as (Hf & Hbk).
  assert (Hcase : (q = TimelineReveal /\ timelineDom (animator s) = false) \/
                  (q = TimelineReveal -> timelineDom (animator s) = true)).
  { destruct (timelineDom (animator s)); [right; reflexivity |].
    destruct q; try (right; discriminate). left. split; reflexivity. }
  destruct Hcase as [(-> & Hdom) | Hdom].
  - exfalso. cbn [startSequence] in Hin.
    rewrite (animateTimelineStepByStep_without_dom s Hdom) in Hin.
    assert (Hlive : In (tid t) (liveTimers TimelineReveal s)).
    { apply liveTimers_In. exists t. repeat split; assumption. }
    rewrite (Hdomless Hdom) in Hlive. exact Hlive.
  - destruct (start_effect q cb1 cb2 s Hdom t Hin) as [(Hold & Hun) | (Hfresh & _)].
    + exfalso. apply (Hun q (cancelledBy_self q Hq)). apply Hrec; assumption.
    + exact Hfresh.
Qed.

Lemma restart_cancels_own_timers_witness :
  let s := runUntil 100 (now (host (restingAt appConfig 10)) + 100)
                    (goToSlide 11 true (restingAt appConfig 10)) in
  liveTimers Split s = [10; 11; 12; 13]%nat /\
  nextTimerId (host s) = 14%nat /\
  forall id,
    In id (liveTimers Split
             (startSequence Split (OnSlideReady 10 11 11) (OnContentReady 11) s)) ->
    (nextTimerId (host s) <= id)%nat.
Proof.
  split; [vm_compute; reflexivity |].
  split; [vm_compute; reflexivity |].
  apply restart_cancels_own_timers.
  - reflexivity.
  - apply trackedb_sound. vm_compute. reflexivity.
Defined.
(** * Rational arithmetic *)

Open Scope Q_scope.

Lemma Qdiv_le_mono (T x y : Q) : 0 < T -> x <= y -> x / T <= y / T.
Proof.
  intros HT Hxy. unfold Qdiv. apply Qmult_le_compat_r; [exact Hxy |].
  apply Qinv_le_0_compat. apply Qlt_le_weak. exact HT.
Qed.

Close Scope Q_scope.

(** * Rounding to binary64 *)

Open Scope Q_scope.

Lemma pow2_pos (k : Z) : 0 < pow2 k.
Proof. unfold pow2. apply Qpower_0_lt. reflexivity. Qed.

Lemma pow2_add (a b : Z) : pow2 (a + b) == pow2 a * pow2 b.
Proof. unfold pow2. apply Qpower_plus. discriminate. Qed.

Lemma pow2_le (a b : Z) : (a <= b)%Z -> pow2 a <= pow2 b.
Proof. intros H. unfold pow2. apply Qpower_le_compat_l; [exact H | discriminate]. Qed.

Lemma pow2_lt_inv (a b : Z) : pow2 a < pow2 b -> (a < b)%Z.
Proof. intros H. apply (Qpower_lt_compat_l_inv 2); [exact H | reflexivity]. Qed.

Lemma pow2_Z (k : Z) : (0 <= k)%Z -> pow2 k == inject_Z (2 ^ k).
Proof. intros H. unfold pow2. rewrite Zpower_Qpower by exact H. reflexivity. Qed.

Lemma pow2_split (k j : Z) :
  (k <= j)%Z -> pow2 j == inject_Z (2 ^ (j - k)) * pow2 k.
Proof.
  intros H. rewrite <- pow2_Z by lia. rewrite <- pow2_add.
  replace (j - k + k)%Z with j by lia. reflexivity.
Qed.

(** ** The nearest integer *)

Lemma Qfloor_bounds (x : Q) : inject_Z (Qfloor x) <= x < inject_Z (Qfloor x) + 1.
Proof.
  split; [apply Qfloor_le |].
  pose proof (Qlt_floor x) as H. rewrite inject_Z_plus in H. exact H.
Qed.

Lemma roundNE_cases (x : Q) :
  (roundNE x = Qfloor x /\ x - inject_Z (Qfloor x) <= 1 # 2) \/
  (roundNE x = (Qfloor x + 1)%Z /\ 1 # 2 <= x - inject_Z (Qfloor x)).
Proof.
  unfold roundNE.
  destruct (Qcompare_spec (x - inject_Z (Qfloor x)) (1 # 2)) as [E | E | E].
  - destruct (Z.even (Qfloor x)); [left | right];
      (split; [reflexivity | rewrite E; apply Qle_refl]).
  - left. split; [reflexivity | apply Qlt_le_weak, E].
  - right. split; [reflexivity | apply Qlt_le_weak, E].
Qed.

Lemma roundNE_Z (z : Z) : roundNE (inject_Z z) = z.
Proof.
  unfold roundNE. rewrite Qfloor_Z.
  assert (H : inject_Z z - inject_Z z == 0) by ring.
  destruct (Qcompare_spec (inject_Z z - inject_Z z) (1 # 2)) as [E | E | E];
    [exfalso | reflexivity | exfalso]; rewrite H in E; discriminate E.
Qed.

Lemma roundNE_mono (x y : Q) : x <= y -> (roundNE x <= roundNE y)%Z.
Proof.
  intros H.
  pose proof (Qfloor_resp_le _ _ H) as Hf.
  destruct (Z.eq_dec (Qfloor x) (Qfloor y)) as [E | Hne].
  - unfold roundNE. rewrite <- E.
    destruct (Qcompare_spec (x - inject_Z (Qfloor x)) (1 # 2)) as [Ex | Ex | Ex];
      destruct (Qcompare_spec (y - inject_Z (Qfloor x)) (1 # 2)) as [Ey | Ey | Ey];
      try (destruct (Z.even (Qfloor x))); try lia; exfalso; lra.
  - destruct (roundNE_cases x) as [(-> & _) | (-> & _)];
      destruct (roundNE_cases y) as [(-> & _) | (-> & _)]; lia.
Qed.

Lemma roundNE_comp (x y : Q) : x == y -> roundNE x = roundNE y.
Proof.
  intros H. apply Z.le_antisymm; apply roundNE_mono; rewrite H; apply Qle_refl.
Qed.

Lemma roundNE_close (x : Q) :
  x - (1 # 2) <= inject_Z (roundNE x) <= x + (1 # 2).
Proof.
  pose proof (Qfloor_bounds x) as (H1 & H2).
  destruct (roundNE_cases x) as [(-> & H) | (-> & H)].
  - split; lra.
  - rewrite inject_Z_plus. change (inject_Z 1) with 1. split; lra.
Qed.

(** ** The nearest multiple of a power of two *)

Lemma roundAt_eq (k : Z) (x : Q) :
  roundAt k x == inject_Z (roundNE (x / pow2 k)) * pow2 k.
Proof. unfold roundAt. apply Qred_correct. Qed.

Lemma roundAt_mono (k : Z) (x y : Q) : x <= y -> roundAt k x <= roundAt k y.
Proof.
  intros H. rewrite !roundAt_eq. pose proof (pow2_pos k) as Hk.
  apply Qmult_le_compat_r; [| apply Qlt_le_weak, Hk].
  rewrite <- Zle_Qle. apply roundNE_mono.
  apply Qmult_le_compat_r; [exact H |].
  apply Qlt_le_weak, Qinv_lt_0_compat, Hk.
Qed.

Lemma roundAt_grid (k n : Z) (x : Q) :
  x == inject_Z n * pow2 k -> roundAt k x == x.
Proof.
  intros H. rewrite roundAt_eq. pose proof (pow2_pos k) as Hk.
  assert (E : x / pow2 k == inject_Z n).
  { rewrite H. field. intros E. rewrite E in Hk. discriminate Hk. }
  rewrite (roundNE_comp _ _ E), roundNE_Z. symmetry. exact H.
Qed.

Lemma roundAt_pow2 (k j : Z) : (k <= j)%Z -> roundAt k (pow2 j) == pow2 j.
Proof. intros H. apply (roundAt_grid k (2 ^ (j - k))). apply pow2_split, H. Qed.

Lemma roundAt_0 (k : Z) : roundAt k 0 == 0.
Proof. apply (roundAt_grid k 0). ring. Qed.

Lemma roundAt_close (k : Z) (x : Q) :
  x - pow2 k * (1 # 2) <= roundAt k x <= x + pow2 k * (1 # 2).
Proof.
  rewrite roundAt_eq. pose proof (pow2_pos k) as Hk.
  pose proof (roundNE_close (x / pow2 k)) as (H1 & H2).
  assert (E : x == x / pow2 k * pow2 k).
  { field. intros E. rewrite E in Hk. discriminate Hk. }
  split.
  - apply (Qmult_le_compat_r _ _ (pow2 k)) in H1; [| apply Qlt_le_weak, Hk].
    rewrite E at 1. lra.
  - apply (Qmult_le_compat_r _ _ (pow2 k)) in H2; [| apply Qlt_le_weak, Hk].
    rewrite E at 2. lra.
Qed.

(** ** The binade *)

Lemma binade_spec (x : Q) :
  0 < x -> pow2 (binade x) <= x < pow2 (binade x + 1).
Proof.
  intros Hx. destruct x as [n d].
  assert (Hn : (0 < n)%Z) by (unfold Qlt in Hx; cbn in Hx; lia).
  unfold binade. cbn [Qnum Qden]. rewrite (Z.abs_eq n) by lia.
  rewrite (Qabs_pos (n # d)) by (apply Qlt_le_weak, Hx).
  set (la := Z.log2 n). set (ld := Z.log2 (Z.pos d)).
  pose proof (Z.log2_nonneg n) as Hla0. fold la in Hla0.
  pose proof (Z.log2_nonneg (Z.pos d)) as Hld0. fold ld in Hld0.
  destruct (Z.log2_spec n Hn) as (Hn1 & Hn2). fold la in Hn1, Hn2.
  destruct (Z.log2_spec (Z.pos d) eq_refl) as (Hd1 & Hd2). fold ld in Hd1, Hd2.
  rewrite Z.pow_succ_r in Hn2, Hd2 by assumption.
  assert (HA : 0 < inject_Z (2 ^ la))
    by (rewrite <- pow2_Z by assumption; apply pow2_pos).
  assert (HD : 0 < inject_Z (2 ^ ld))
    by (rewrite <- pow2_Z by assumption; apply pow2_pos).
  assert (Hx' : n # d == inject_Z n / inject_Z (Z.pos d)) by apply Qmake_Qdiv.
  assert (Hd0 : 0 < inject_Z (Z.pos d)) by reflexivity.
  rewrite Zle_Qle in Hn1, Hd1. rewrite Zlt_Qlt in Hn2, Hd2.
  rewrite inject_Z_mult in Hn2, Hd2. change (inject_Z 2) with 2 in Hn2, Hd2.
  assert (Hn0 : 0 < inject_Z n) by (change 0 with (inject_Z 0); rewrite <- Zlt_Qlt; exact Hn).
  set (N := inject_Z n) in *. set (D := inject_Z (Z.pos d)) in *.
  set (A := inject_Z (2 ^ la)) in *. set (B := inject_Z (2 ^ ld)) in *.
  assert (E0 : pow2 (la - ld) == A / B).
  { unfold pow2. rewrite Qpower_minus by discriminate.
    fold (pow2 la). fold (pow2 ld). rewrite !pow2_Z by assumption. reflexivity. }
  assert (E1 : pow2 (la - ld + 1) == 2 * A / B).
  { rewrite pow2_add, E0. change (pow2 1) with 2. field.
    intros E. rewrite E in HD. discriminate HD. }
  assert (E2 : pow2 (la - ld - 1) == A / (2 * B)).
  { assert (E : pow2 (la - ld) == pow2 (la - ld - 1) * 2).
    { rewrite <- (pow2_add (la - ld - 1) 1).
      replace (la - ld - 1 + 1)%Z with (la - ld)%Z by lia. reflexivity. }
    rewrite E0 in E.
    assert (E' : pow2 (la - ld - 1) == A / B / 2) by (rewrite E; field).
    rewrite E'. field. intros E3. rewrite E3 in HD. discriminate HD. }
  destruct (Qle_bool (pow2 (la - ld)) (n # d)) eqn:Hb.
  - apply Qle_bool_iff in Hb. split; [exact Hb |].
    rewrite E1, Hx'. apply Qlt_shift_div_l; [exact HD |].
    assert (E : N / D * B == N * B / D)
      by (field; intros E3; rewrite E3 in Hd0; discriminate Hd0).
    rewrite E. apply Qlt_shift_div_r; [exact Hd0 |]. nra.
  - assert (Hlt : n # d < pow2 (la - ld)).
    { apply Qnot_le_lt. intros H. apply Qle_bool_iff in H. congruence. }
    replace (la - ld - 1 + 1)%Z with (la - ld)%Z by lia.
    split; [| exact Hlt].
    rewrite E2, Hx'. apply Qle_shift_div_r; [lra |].
    assert (E : N / D * (2 * B) == N * (2 * B) / D)
      by (field; intros E3; rewrite E3 in Hd0; discriminate Hd0).
    rewrite E. apply Qle_shift_div_l; [exact Hd0 |]. nra.
Qed.

Lemma binade_mono (x y : Q) : 0 < x -> x <= y -> (binade x <= binade y)%Z.
Proof.
  intros Hx Hxy.
  destruct (binade_spec x Hx) as (H1 & _).
  destruct (binade_spec y) as (_ & H2); [lra |].
  assert (H : pow2 (binade x) < pow2 (binade y + 1)) by lra.
  apply pow2_lt_inv in H. lia.
Qed.

Lemma binade_unique (x : Q) (e : Z) :
  pow2 e <= x < pow2 (e + 1) -> binade x = e.
Proof.
  intros (H1 & H2). pose proof (pow2_pos e) as He.
  destruct (binade_spec x) as (G1 & G2); [lra |].
  assert (K1 : pow2 e < pow2 (binade x + 1)) by lra.
  assert (K2 : pow2 (binade x) < pow2 (e + 1)) by lra.
  apply pow2_lt_inv in K1, K2. lia.
Qed.

(** ** Rounding *)

Lemma fl_0 : fl 0 = 0.
Proof. reflexivity. Qed.

Lemma fl_pos (x : Q) : 0 < x -> fl x = roundAt (ulpExp x) x.
Proof.
  intros H. unfold fl. destruct (Qeq_bool x 0) eqn:E; [| reflexivity].
  apply Qeq_bool_iff in E. lra.
Qed.

Lemma fl_zero (x : Q) : x == 0 -> fl x = 0.
Proof. intros H. unfold fl. apply Qeq_bool_iff in H. rewrite H. reflexivity. Qed.

Lemma ulpExp_le_binade (x : Q) : 0 < x -> pow2 (-1022) <= x -> (ulpExp x <= binade x)%Z.
Proof.
  intros Hx Hn. unfold ulpExp.
  destruct (binade_spec x Hx) as (_ & H2).
  assert (H : pow2 (-1022) < pow2 (binade x + 1)) by lra.
  apply pow2_lt_inv in H. lia.
Qed.

Theorem fl_mono (x y : Q) : 0 <= x -> x <= y -> fl x <= fl y.
Proof.
  intros Hx Hxy.
  destruct (Qeq_dec x 0) as [E | Hx0].
  - rewrite (fl_zero x E).
    destruct (Qeq_dec y 0) as [Ey | Hy0]; [rewrite (fl_zero y Ey); apply Qle_refl |].
    rewrite fl_pos by lra. rewrite <- (roundAt_0 (ulpExp y)).
    apply roundAt_mono. lra.
  - assert (Hx1 : 0 < x) by lra. assert (Hy1 : 0 < y) by lra.
    rewrite !fl_pos by assumption.
    pose proof (binade_mono x y Hx1 Hxy) as Hb.
    destruct (Z.eq_dec (ulpExp x) (ulpExp y)) as [E | Hne].
    + rewrite E. apply roundAt_mono, Hxy.
    + assert (Hk : (ulpExp x < ulpExp y)%Z) by (unfold ulpExp in *; lia).
      assert (Hb' : (binade x + 1 <= binade y)%Z) by (unfold ulpExp in *; lia).
      assert (Hky : (ulpExp y <= binade y)%Z) by (unfold ulpExp in *; lia).
      destruct (binade_spec x Hx1) as (_ & X2).
      destruct (binade_spec y Hy1) as (Y1 & _).
      pose proof (pow2_le _ _ Hb') as Hp.
      apply Qle_trans with (pow2 (binade y)).
      * rewrite <- (roundAt_pow2 (ulpExp x) (binade y)) by lia.
        apply roundAt_mono. lra.
      * rewrite <- (roundAt_pow2 (ulpExp y) (binade y)) at 1 by lia.
        apply roundAt_mono, Y1.
Qed.

Lemma fl_nonneg (x : Q) : 0 <= x -> 0 <= fl x.
Proof. intros H. rewrite <- fl_0. apply fl_mono; [apply Qle_refl | exact H]. Qed.

Lemma fl_canonical (x : Q) : Qred (fl x) = fl x.
Proof.
  unfold fl. destruct (Qeq_bool x 0); [reflexivity |].
  unfold roundAt. apply Qred_complete, Qred_correct.
Qed.

Lemma fl_comp (x y : Q) : 0 <= x -> x == y -> fl x = fl y.
Proof.
  intros Hx E. rewrite <- (fl_canonical x), <- (fl_canonical y).
  apply Qred_complete. apply Qle_antisym; apply fl_mono; lra.
Qed.

(** A number with at most 53 significant bits is its own rounding. *)
Lemma fl_representable (x : Q) (n : Z) :
  0 < x -> x == inject_Z n * pow2 (ulpExp x) -> fl x == x.
Proof. intros Hx H. rewrite fl_pos by exact Hx. apply (roundAt_grid _ n), H. Qed.

Lemma fl_pow2 (j : Z) : (-1074 <= j)%Z -> fl (pow2 j) == pow2 j.
Proof.
  intros Hj. pose proof (pow2_pos j) as Hp. rewrite fl_pos by exact Hp.
  apply roundAt_pow2.
  assert (E : binade (pow2 j) = j).
  { apply binade_unique. split; [apply Qle_refl |].
    unfold pow2. apply Qpower_lt_compat_l; [lia | reflexivity]. }
  unfold ulpExp. rewrite E. lia.
Qed.

Lemma fl_Z_pos (z : Z) : (0 < z <= 2 ^ 53)%Z -> fl (inject_Z z) == inject_Z z.
Proof.
  intros (H0 & H53).
  assert (Hz : 0 < inject_Z z) by (change 0 with (inject_Z 0); rewrite <- Zlt_Qlt; exact H0).
  destruct (Z.eq_dec z (2 ^ 53)) as [-> | Hne].
  - rewrite (fl_comp (inject_Z (2 ^ 53)) (pow2 53));
      [| apply Qlt_le_weak, Hz | symmetry; apply pow2_Z; lia].
    rewrite fl_pow2 by lia. apply pow2_Z. lia.
  - destruct (binade_spec (inject_Z z) Hz) as (B1 & B2).
    set (b := binade (inject_Z z)) in *.
    assert (Hb : (b < 53)%Z).
    { apply pow2_lt_inv. apply Qle_lt_trans with (inject_Z z); [exact B1 |].
      rewrite pow2_Z by lia. rewrite <- Zlt_Qlt. lia. }
    assert (Hb0 : (0 <= b)%Z).
    { assert (H : pow2 0 < pow2 (b + 1)).
      { apply Qle_lt_trans with (inject_Z z); [| exact B2].
        change (pow2 0) with (inject_Z 1). rewrite <- Zle_Qle. lia. }
      apply pow2_lt_inv in H. lia. }
    apply (fl_representable _ (z * 2 ^ (52 - b))); [exact Hz |].
    assert (Hk : ulpExp (inject_Z z) = (b - 52)%Z) by (unfold ulpExp; fold b; lia).
    rewrite Hk, inject_Z_mult, <- pow2_Z by lia.
    rewrite <- Qmult_assoc, <- pow2_add.
    replace (52 - b + (b - 52))%Z with 0%Z by lia. change (pow2 0) with 1. ring.
Qed.

Lemma Qred_inject_Z (z : Z) : Qred (inject_Z z) = inject_Z z.
Proof.
  unfold Qred, inject_Z.
  pose proof (Z.ggcd_correct_divisors z 1) as H.
  pose proof (Z.ggcd_gcd z 1) as Hg. rewrite Z.gcd_1_r in Hg.
  destruct (Z.ggcd z 1) as (g & aa & bb). cbn in Hg. subst g.
  destruct H as (H1 & H2). rewrite !Z.mul_1_l in H1, H2. subst aa bb. reflexivity.
Qed.

Lemma fl_Z (z : Z) : (0 <= z <= 2 ^ 53)%Z -> fl (inject_Z z) = inject_Z z.
Proof.
  intros (H0 & H53).
  assert (E : fl (inject_Z z) == inject_Z z).
  { destruct (Z.eq_dec z 0) as [-> | Hne]; [reflexivity |]. apply fl_Z_pos. lia. }
  rewrite <- (fl_canonical (inject_Z z)).
  rewrite (Qred_complete _ _ E). apply Qred_inject_Z.
Qed.

(** The relative error of rounding a normal number is at most [2^-53]. *)
Lemma fl_close (x : Q) :
  pow2 (-1022) <= x ->
  x - x * pow2 (-53) <= fl x <= x + x * pow2 (-53).
Proof.
  intros Hn. pose proof (pow2_pos (-1022)) as Hp.
  assert (Hx : 0 < x) by lra.
  rewrite fl_pos by exact Hx.
  destruct (binade_spec x Hx) as (B1 & B2).
  assert (Hb : (-1022 <= binade x)%Z).
  { assert (H : pow2 (-1022) < pow2 (binade x + 1)) by lra.
    apply pow2_lt_inv in H. lia. }
  assert (Hk : ulpExp x = (binade x - 52)%Z) by (unfold ulpExp; lia).
  pose proof (roundAt_close (ulpExp x) x) as (H1 & H2).
  assert (E : pow2 (ulpExp x) * (1 # 2) == pow2 (binade x) * pow2 (-53)).
  { rewrite Hk.
    replace (binade x - 52)%Z with (binade x + -53 + 1)%Z by lia.
    rewrite !pow2_add. change (pow2 1) with 2. field. }
  rewrite E in H1, H2.
  pose proof (pow2_pos (-53)) as Hp53.
  assert (Hm : pow2 (binade x) * pow2 (-53) <= x * pow2 (-53))
    by (apply Qmult_le_compat_r; [exact B1 | apply Qlt_le_weak, Hp53]).
  split; lra.
Qed.

Close Scope Q_scope.

(** ** C8: count-up numbers *)

Open Scope Q_scope.

Lemma one_lt_pow2_1024 : 1 < pow2 1024.
Proof.
  change 1 with (pow2 0). unfold pow2.
  apply Qpower_lt_compat_l; [lia | reflexivity].
Qed.

Lemma pow2_53_lt_pow2_1024 : inject_Z (2 ^ 53) < pow2 1024.
Proof.
  rewrite <- pow2_Z by lia. unfold pow2.
  apply Qpower_lt_compat_l; [lia | reflexivity].
Qed.

(** A result below the overflow threshold is finite. *)
Lemma toDouble_below (x : Q) :
  0 <= x -> fl x < pow2 1024 -> toDouble x = Finite (fl x).
Proof.
  intros Hx Hlt. unfold toDouble.
  pose proof (fl_nonneg x Hx) as H0. pose proof one_lt_pow2_1024 as H1.
  destruct (Qle_bool (pow2 1024) (fl x)) eqn:E1; [apply Qle_bool_iff in E1; lra |].
  destruct (Qle_bool (fl x) (- pow2 1024)) eqn:E2; [apply Qle_bool_iff in E2; lra |].
  reflexivity.
Qed.

(** A result that is not negative is finite or [+Infinity]. *)
Lemma toDouble_nonneg (x : Q) :
  0 <= x ->
  (toDouble x = Finite (fl x) /\ fl x < pow2 1024) \/
  (toDouble x = PosInfinity /\ pow2 1024 <= fl x).
Proof.
  intros Hx. destruct (Qlt_le_dec (fl x) (pow2 1024)) as [Hlt | Hge].
  - left. split; [apply toDouble_below; assumption | exact Hlt].
  - right. split; [| exact Hge]. unfold toDouble.
    apply Qle_bool_iff in Hge. rewrite Hge. reflexivity.
Qed.

Lemma toDouble_bounded (x : Q) (n : Z) :
  (0 <= n <= 2 ^ 53)%Z -> 0 <= x -> x <= inject_Z n ->
  toDouble x = Finite (fl x) /\ 0 <= fl x <= inject_Z n.
Proof.
  intros Hn Hx Hxn.
  assert (Hle : fl x <= inject_Z n).
  { rewrite <- (fl_Z n Hn). apply fl_mono; assumption. }
  assert (Hn53 : inject_Z n <= inject_Z (2 ^ 53)) by (rewrite <- Zle_Qle; lia).
  pose proof pow2_53_lt_pow2_1024.
  split; [apply toDouble_below; [exact Hx | lra] |].
  split; [apply fl_nonneg, Hx | exact Hle].
Qed.

Lemma toDouble_unit (x : Q) :
  0 <= x -> x <= 1 -> toDouble x = Finite (fl x) /\ 0 <= fl x <= 1.
Proof. intros H0 H1. apply (toDouble_bounded x 1); [lia | exact H0 | exact H1]. Qed.

Lemma ofZ_exact (z : Z) : (0 <= z <= 2 ^ 53)%Z -> ofZ z = Finite (inject_Z z).
Proof.
  intros Hz. unfold ofZ.
  assert (H0 : 0 <= inject_Z z)
    by (change 0 with (inject_Z 0); rewrite <- Zle_Qle; lia).
  destruct (toDouble_bounded (inject_Z z) z Hz H0 (Qle_refl _)) as (E & _).
  rewrite E, (fl_Z z Hz). reflexivity.
Qed.




Section CountUpFacts.
Variable cube : Q -> Q.
Variables (cfg : Config) (V : Z) (s : Q).
Hypothesis cube_unit : forall x, 0 <= x <= 1 -> 0 <= cube x <= 1.
Hypothesis cube_mono : forall x y, 0 <= x -> x <= y -> y <= 1 -> cube x <= cube y.
Hypothesis cube_0 : cube 0 == 0.
Hypothesis cube_1 : cube 1 == 1.
Hypothesis HT : (0 < countUpDuration cfg <= 2 ^ 53)%Z.
Hypothesis HV : (0 <= V <= 2 ^ 53)%Z.

Let T : Q := inject_Z (countUpDuration cfg).

(** The frame's number as a function of the progress [p], every
    operation rounded. *)
Let shown (p : Q) : Q :=
  fl (0 + fl (inject_Z V * fl (1 - fl (cube (fl (1 - p)))))).
















End CountUpFacts.

Close Scope Q_scope.

Open Scope Q_scope.

Lemma numLe_whole (v w : Z) :
  (v <= w)%Z -> numLe (Finite (inject_Z v)) (Finite (inject_Z w)) = true.
Proof. intros H. cbn [numLe]. apply Qle_bool_iff. rewrite <- Zle_Qle. exact H. Qed.






Close Scope Q_scope.
(** * More of the engine: start-up, navigation from rest, interruption *)


(** ** Lists of slides *)

Lemma mapIndexed_length {A} (f : Z -> A -> A) (l : list A) :
  forall i, length (mapIndexed f i l) = length l.
Proof.
  induction l as [| x l IH]; intros i; cbn; [reflexivity |].
  rewrite IH. reflexivity.
Qed.

Lemma nth_error_mapIndexed {A} (f : Z -> A -> A) (l : list A) :
  forall i n, nth_error (mapIndexed f i l) n =
              option_map (f (i + Z.of_nat n)) (nth_error l n).
Proof.
  induction l as [| x l IH]; intros i n.
  - destruct n; reflexivity.
  - destruct n as [| n]; cbn [mapIndexed nth_error option_map].
    + rewrite Z.add_0_r. reflexivity.
    + rewrite IH. do 2 f_equal. lia.
Qed.

Lemma filter_none {A} (f : A -> bool) (l : list A) :
  (forall x, In x l -> f x = false) -> filter f l = [].
Proof.
  induction l as [| x l IH]; intros H; cbn; [reflexivity |].
  rewrite (H x (or_introl eq_refl)). apply IH.
  intros y Hy. apply H. right. exact Hy.
Qed.

(** A list in which the slide at position [t], and no other, is shown has
    one visible slide. *)
Lemma one_shown (l : list Slide) :
  forall t, (t < length l)%nat ->
    (forall j sl, nth_error l j = Some sl -> slideHidden sl = negb (Nat.eqb j t)) ->
    length (filter (fun sl => negb (slideHidden sl)) l) = 1%nat.
Proof.
  induction l as [| x l IH]; intros t Ht H; [cbn in Ht; lia |].
  cbn [filter]. destruct t as [| t].
  - rewrite (H 0%nat x eq_refl). cbn.
    rewrite filter_none; [reflexivity |].
    intros y Hy. apply In_nth_error in Hy. destruct Hy as [j Hj].
    rewrite (H (S j) y Hj). reflexivity.
  - rewrite (H 0%nat x eq_refl). cbn.
    apply (IH t); [cbn in Ht; lia |].
    intros j sl Hj. apply (H (S j) sl Hj).
Qed.

Lemma hiddenFlag_nth (j : Z) (s : State) (sl : Slide) :
  0 <= j -> nth_error (slides (engine s)) (Z.to_nat j) = Some sl ->
  hiddenFlag j s = slideHidden sl.
Proof.
  intros Hj E. unfold hiddenFlag, getSlide.
  destruct (Z.ltb_spec j 0); [lia |]. rewrite E. reflexivity.
Qed.

Lemma visibleCount_onlyVisible (t : Z) (s : State) :
  0 <= t < slideCount s -> onlyVisible t s -> visibleCount s = 1%nat.
Proof.
  intros Ht H. unfold visibleCount. unfold slideCount in Ht.
  apply (one_shown _ (Z.to_nat t)); [lia |].
  intros j sl Hj.
  assert (Hlen : (j < length (slides (engine s)))%nat).
  { apply nth_error_Some. rewrite Hj. discriminate. }
  specialize (H (Z.of_nat j)). unfold slideCount in H.
  rewrite (hiddenFlag_nth (Z.of_nat j) s sl) in H; [| lia | rewrite Nat2Z.id; exact Hj].
  rewrite H by lia.
  f_equal. destruct (Z.eqb_spec (Z.of_nat j) t), (Nat.eqb_spec j (Z.to_nat t));
    try reflexivity; lia.
Qed.

(** ** Reveal timers *)

Lemma scheduleReveals_timers (i stagger : Z) (els : list AnimatedElement) :
  forall n s,
    let s' := scheduleReveals i stagger n els s in
    timers (host s') =
      timers (host s) ++
      revealTimers i stagger (now (host s)) (nextTimerId (host s)) n els /\
    nextTimerId (host s') = (nextTimerId (host s) + length els)%nat.
Proof.
  induction els as [| el rest IH]; intros n s; cbv zeta; cbn [scheduleReveals revealTimers].
  - rewrite app_nil_r, Nat.add_0_r. split; reflexivity.
  - destruct (IH (S n) (snd (setTimeout (RevealElement i n)
                                        (dataDelay el + Z.of_nat n * stagger) s)))
      as (Ht & Hn).
    cbv zeta in Ht, Hn. rewrite Ht, Hn. cbn. rewrite <- app_assoc. cbn.
    split; [reflexivity | lia].
Qed.

Lemma revealTimers_In (i stagger now : Z) (els : list AnimatedElement) :
  forall id n t, In t (revealTimers i stagger now id n els) ->
    exists k, (k < length els)%nat /\ action t = RevealElement i (n + k) /\
              tid t = (id + k)%nat.
Proof.
  induction els as [| el rest IH]; intros id n t Hin; [destruct Hin |].
  destruct Hin as [<- | Hin].
  - exists 0%nat. cbn. rewrite !Nat.add_0_r. repeat split. lia.
  - destruct (IH _ _ _ Hin) as (k & Hk & Ha & Hid).
    exists (S k). cbn [length]. rewrite Ha, Hid. repeat split; try lia.
    f_equal. lia.
Qed.

(** The timer table after [afterSlideChange]: reveal timers of the slide
    are added, unless animations are off or were triggered already. *)
Lemma afterSlideChange_timers (index : Z) (already : bool) (s : State) (t : Timer) :
  In t (timers (host (afterSlideChange index already s))) ->
  In t (timers (host s)) \/
  ((nextTimerId (host s) <= tid t)%nat /\
   animationsEnabled (config (engine s)) = true /\ already = false /\
   exists n, action t = RevealElement index n).
Proof.
  unfold afterSlideChange, andThen, whenS, dispatchSlideChange.
  change (config (engine (setCurrentSlide index s))) with (config (engine s)).
  destruct (animationsEnabled (config (engine s))); cbn [andb];
    [destruct already; cbn [negb] |]; try (intros H; left; exact H).
  unfold triggerSlideAnimations.
  destruct (getSlide index (slides (engine (setCurrentSlide index s)))) as [sl |];
    [| intros H; left; exact H].
  intros H.
  change (In t (timers (host (scheduleReveals index
             (staggerDelay (config (engine s))) 0 (animatedElements sl)
             (setCurrentSlide index s))))) in H.
  destruct (scheduleReveals_timers index (staggerDelay (config (engine s)))
              (animatedElements sl) 0 (setCurrentSlide index s)) as (Ht & _).
  cbv zeta in Ht. rewrite Ht in H. apply in_app_or in H.
  destruct H as [H | H]; [left; exact H | right].
  apply revealTimers_In in H. destruct H as (k & _ & Ha & Hid).
  change (nextTimerId (host (setCurrentSlide index s))) with (nextTimerId (host s)) in Hid.
  repeat split; try lia. exists (0 + k)%nat. exact Ha.
Qed.

(** ** Start-up *)

(** The slide list as [init()] leaves it before it calls [goToSlide]. *)
Lemma init_unfolds (cfg : Config) (a : LineAnimator) (d : Slide) (rest : list Slide) :
  exists marked,
    length marked = length (d :: rest) /\
    (forall n sl, nth_error marked n = Some sl ->
                  (slideHidden sl = true \/ n = 0%nat) /\
                  ariaHidden sl = negb (Nat.eqb n 0) /\
                  forall el, In el (animatedElements sl) -> animateIn el = false) /\
    init (d :: rest) (beforeInit cfg a) =
      afterSlideChange 0 false (showSlide 0 (setSlides marked (beforeInit cfg a))).
Proof.
  unfold init.
  match goal with |- context [setSlides ?m _] => set (marked := m) end.
  exists marked. split; [apply mapIndexed_length |]. split.
  - intros n sl Hn. subst marked. rewrite nth_error_mapIndexed in Hn.
    destruct (nth_error (d :: rest) n) as [sl0 |]; [| discriminate].
    injection Hn as <-. cbn [slideHidden ariaHidden animatedElements].
    rewrite ?Z.add_0_l.
    repeat split.
    + destruct (Z.eqb_spec (Z.of_nat n) 0); [right; lia | left; reflexivity].
    + f_equal. destruct (Z.eqb_spec (Z.of_nat n) 0), (Nat.eqb_spec n 0);
        try reflexivity; lia.
    + intros el Hel. apply in_map_iff in Hel. destruct Hel as (el0 & <- & _).
      reflexivity.
  - unfold goToSlide.
    change (isTransitioning (engine (setSlides marked (beforeInit cfg a)))) with false.
    cbn [andb negb].
    rewrite boundsCheck_in_range.
    + reflexivity.
    + unfold slideCount. cbn. lia.
Qed.

(** X1.  [init()] on a document with at least one slide: the slide list
    is the document's, the first slide is shown and every other slide is
    hidden (one visible slide), [aria-hidden] agrees with the hidden flag
    on every slide, every animated child starts hidden, the engine is idle
    on index 0 and one [slidechange] event for index 0 has been
    dispatched.  The only timers pending are the reveals of the first
    slide's children, none if animations are disabled. *)
Theorem init_shows_first_slide_only
        (cfg : Config) (a : LineAnimator) (dom : list Slide) :
  dom <> [] ->
  let s := init dom (beforeInit cfg a) in
  slideCount s = Z.of_nat (length dom) /\
  currentSlide (engine s) = 0 /\
  isTransitioning (engine s) = false /\
  onlyVisible 0 s /\
  visibleCount s = 1%nat /\
  (forall sl, In sl (slides (engine s)) -> ariaHidden sl = slideHidden sl) /\
  (forall sl el, In sl (slides (engine s)) -> In el (animatedElements sl) ->
                 animateIn el = false) /\
  events (host s) = [0] /\
  promises (host s) = [] /\
  (forall t, In t (timers (host s)) ->
             exists n, action t = RevealElement 0 n /\
                       animationsEnabled cfg = true).
Proof.
  intros Hdom s. subst s.
  destruct dom as [| d rest]; [contradiction |]. clear Hdom.
  destruct (init_unfolds cfg a d rest) as (marked & Hlen & Hmarked & ->).
  set (s1 := showSlide 0 (setSlides marked (beforeInit cfg a))).
  destruct (afterSlideChange_spec 0 false s1)
    as (Hcur & Hsl & Htr & Hcfg & _ & _ & Hev & Hpr & _).
  cbv zeta in *.
  assert (Hs1 : slides (engine s1) = updateSlide 0 show marked) by reflexivity.
  assert (Hn : slideCount (afterSlideChange 0 false s1) = Z.of_nat (length (d :: rest))).
  { unfold slideCount. rewrite Hsl, Hs1, updateSlide_length, Hlen. reflexivity. }
  assert (Hnth : forall n sl, nth_error (slides (engine s1)) n = Some sl ->
             slideHidden sl = negb (Nat.eqb n 0) /\
             ariaHidden sl = slideHidden sl /\
             forall el, In el (animatedElements sl) -> animateIn el = false).
  { intros n sl. rewrite Hs1. unfold updateSlide. cbn [Z.ltb Z.compare Z.to_nat].
    destruct n as [| n].
    - destruct marked as [| m0 marked']; [discriminate |].
      cbn [mapAt nth_error]. intros [= <-]. cbn.
      repeat split. apply (Hmarked 0%nat m0 eq_refl).
    - rewrite nth_error_mapAt_other by discriminate. intros Hsl'.
      destruct (Hmarked (S n) sl Hsl') as ([Hh | Hh] & Ha & He); [| discriminate].
      rewrite Ha, Hh. repeat split. exact He. }
  assert (Hvis : onlyVisible 0 (afterSlideChange 0 false s1)).
  { intros j Hj. rewrite Hn in Hj.
    destruct (nth_error (slides (engine s1)) (Z.to_nat j)) as [sl |] eqn:E.
    - rewrite (hiddenFlag_nth j _ sl) by (try lia; rewrite Hsl; exact E).
      destruct (Hnth _ _ E) as (-> & _). f_equal.
      destruct (Nat.eqb_spec (Z.to_nat j) 0), (Z.eqb_spec j 0); try reflexivity; lia.
    - apply nth_error_None in E. rewrite Hs1, updateSlide_length, Hlen in E. lia. }
  split; [exact Hn |]. split; [exact Hcur |]. split; [rewrite Htr; reflexivity |].
  split; [exact Hvis |].
  split; [apply (visibleCount_onlyVisible 0); [rewrite Hn; cbn [length]; lia | exact Hvis] |].
  split.
  { intros sl Hin. rewrite Hsl in Hin. apply In_nth_error in Hin.
    destruct Hin as [n Hin]. apply (Hnth n sl Hin). }
  split.
  { intros sl el Hin. rewrite Hsl in Hin. apply In_nth_error in Hin.
    destruct Hin as [n Hin]. apply (Hnth n sl Hin). }
  split; [rewrite Hev; reflexivity |]. split; [rewrite Hpr; reflexivity |].
  intros t Ht. apply afterSlideChange_timers in Ht.
  destruct Ht as [[] | (_ & Hen & _ & n & Ha)].
  exists n. split; [exact Ha | exact Hen].
Qed.

Lemma init_shows_first_slide_only_witness :
  let s := init (deck 3) (beforeInit appConfig (newLineAnimator true true true)) in
  visibleCount s = 1%nat /\ events (host s) = [0].
Proof.
  pose proof (init_shows_first_slide_only appConfig (newLineAnimator true true true)
                                          (deck 3)) as H.
  cbv zeta in H. destruct H as (_ & _ & _ & _ & H5 & _ & _ & H8 & _).
  - discriminate.
  - cbv zeta. split; [exact H5 | exact H8].
Defined.

(** ** Steps that only repaint *)

Lemma repaints_refl (s : State) : repaints s s.
Proof. repeat split; try reflexivity. auto. Qed.

Lemma repaints_trans (s1 s2 s3 : State) :
  repaints s1 s2 -> repaints s2 s3 -> repaints s1 s3.
Proof.
  intros (Hv & Hp & He & Hn & Hi & Ht) (Hv' & Hp' & He' & Hn' & Hi' & Ht').
  repeat split; try congruence; try lia.
  intros t Hin. destruct (Ht' t Hin) as [H | (Hid & Hq)].
  - destruct (Ht t H) as [H0 | (Hid & Hq)]; [left; exact H0 | right].
    split; [lia | exact Hq].
  - right. split; [lia | exact Hq].
Qed.

Lemma repaints_apply (c : State -> State) (s0 s : State) :
  Repaints c -> repaints s0 s -> repaints s0 (c s).
Proof. intros Hc H. eapply repaints_trans; [exact H | apply Hc]. Qed.

Lemma Repaints_andThen (c1 c2 : State -> State) :
  Repaints c1 -> Repaints c2 -> Repaints (c1 ;; c2).
Proof.
  intros H1 H2 s. unfold andThen. eapply repaints_trans; [apply H1 | apply H2].
Qed.

Lemma Repaints_whenS (b : State -> bool) (c : State -> State) :
  Repaints c -> Repaints (whenS b c).
Proof. intros H s. unfold whenS. destruct (b s); [apply H | apply repaints_refl]. Qed.

Lemma Repaints_when (b : bool) (c : State -> State) :
  Repaints c -> Repaints (when b c).
Proof. intros H s. unfold when. destruct b; [apply H | apply repaints_refl]. Qed.

Lemma Repaints_onAnimator (f : LineAnimator -> LineAnimator) :
  Repaints (onAnimator f).
Proof. intros s. repeat split; auto. Qed.

Lemma Repaints_clearing (ids : State -> list nat) :
  Repaints (fun s => clearTimeouts (ids s) s).
Proof.
  intros s. rewrite clearTimeouts_eq. repeat split; auto.
  intros t Hin. left. cbn in Hin. apply filter_In in Hin. tauto.
Qed.

Lemma repaints_setTimeout (a : Action) (dl : Z) (s : State) :
  quiet a = true -> repaints s (snd (setTimeout a dl s)).
Proof.
  intros Ha. repeat split; cbn; try lia.
  intros t Hin. apply in_app_or in Hin. destruct Hin as [H | [<- | []]].
  - left. exact H.
  - right. cbn. split; [lia | exact Ha].
Qed.

Lemma Repaints_schedule (a : Action) (dl : Z) (record : nat -> State -> State) :
  quiet a = true -> (forall id, Repaints (record id)) ->
  Repaints (schedule a dl record).
Proof.
  intros Ha Hr s. unfold schedule.
  destruct (setTimeout a dl s) as [id s'] eqn:E.
  assert (Hs' : s' = snd (setTimeout a dl s)) by (rewrite E; reflexivity).
  eapply repaints_trans; [| apply Hr].
  rewrite Hs'. apply repaints_setTimeout. exact Ha.
Qed.

Ltac repaints_auto :=
  unfold setIsAnimating, setPath, setPathSecondary, mapOverlays, resetOverlays,
    setLineCurrentSlide, pushSlide10To11Timeout, pushSlide12SplitTimeout,
    pushSlide12ReverseTimeout, pushTimelineTimeout, showAllTimelineCircles,
    hideTimelineCircles;
  repeat match goal with
         | |- Repaints (andThen _ _) => apply Repaints_andThen
         | |- Repaints (whenS _ _) => apply Repaints_whenS
         | |- Repaints (when _ _) => apply Repaints_when
         | |- Repaints (onAnimator _) => apply Repaints_onAnimator
         | |- Repaints (fun s => clearTimeouts _ s) => apply Repaints_clearing
         | |- Repaints (schedule _ _ _) =>
             apply Repaints_schedule; [reflexivity | intros ?]
         end.

Lemma Repaints_cancelTimelineAnimation : Repaints cancelTimelineAnimation.
Proof. unfold cancelTimelineAnimation. repaints_auto. Qed.

Lemma Repaints_cancelSlide10To11Swoop : Repaints cancelSlide10To11Swoop.
Proof. unfold cancelSlide10To11Swoop. repaints_auto. Qed.

Lemma Repaints_cancelSlide12Split : Repaints cancelSlide12Split.
Proof. unfold cancelSlide12Split. repaints_auto. Qed.

Lemma Repaints_cancelSlide12Expansion : Repaints cancelSlide12Expansion.
Proof.
  intros s. unfold cancelSlide12Expansion.
  destruct (slide12ExpansionTimeout (animator s)) as [id |]; [| apply repaints_refl].
  destruct (Nat.eqb id 0); [apply repaints_refl |].
  rewrite clearTimeout_eq. repeat split; auto.
  intros t Hin. left. cbn in Hin. apply filter_In in Hin. tauto.
Qed.

Lemma Repaints_showAllTimelineCircles : Repaints showAllTimelineCircles.
Proof. repaints_auto. Qed.

Lemma Repaints_animateSlide12Expansion : Repaints animateSlide12Expansion.
Proof.
  unfold animateSlide12Expansion.
  apply Repaints_andThen; [apply Repaints_cancelSlide12Expansion |].
  repaints_auto.
Qed.

Lemma scheduleSegments_repaints (segs : list (option nat)) :
  forall (i : nat) (dl : Z) (s : State),
    repaints s (snd (scheduleSegments segs i dl s)).
Proof.
  induction segs as [| c rest IH]; intros i dl s; cbn [scheduleSegments].
  - apply repaints_refl.
  - destruct (setTimeout (TimelineDraw i) dl s) as [id1 s1] eqn:E1.
    assert (H1 : repaints s s1).
    { replace s1 with (snd (setTimeout (TimelineDraw i) dl s))
        by (rewrite E1; reflexivity).
      apply repaints_setTimeout. reflexivity. }
    assert (H2 : repaints s (pushTimelineTimeout id1 s1)).
    { eapply repaints_trans; [exact H1 | apply Repaints_onAnimator]. }
    destruct c as [ci |].
    + destruct (setTimeout (TimelineCircle ci) (dl + 800)
                           (pushTimelineTimeout id1 s1)) as [id2 s2] eqn:E2.
      eapply repaints_trans; [| apply IH].
      eapply repaints_trans; [exact H2 |].
      eapply repaints_trans; [| apply Repaints_onAnimator].
      replace s2 with (snd (setTimeout (TimelineCircle ci) (dl + 800)
                                       (pushTimelineTimeout id1 s1)))
        by (rewrite E2; reflexivity).
      apply repaints_setTimeout. reflexivity.
    + eapply repaints_trans; [exact H2 | apply IH].
Qed.

Lemma Repaints_drawTimeline : Repaints drawTimeline.
Proof.
  unfold drawTimeline.
  apply Repaints_andThen; [apply Repaints_cancelTimelineAnimation |].
  apply Repaints_andThen; [apply Repaints_onAnimator |].
  apply Repaints_andThen; [unfold setPath; apply Repaints_onAnimator |].
  intros s.
  destruct (scheduleSegments drawSegments 0 50 s) as [cd s1] eqn:E.
  apply repaints_trans with (s2 := s1).
  - replace s1 with (snd (scheduleSegments drawSegments 0 50 s))
      by (rewrite E; reflexivity).
    apply scheduleSegments_repaints.
  - apply (Repaints_schedule TimelineFinal (cd + 100) pushTimelineTimeout);
      [reflexivity |].
    intros id. unfold pushTimelineTimeout. apply Repaints_onAnimator.
Qed.

Lemma Repaints_animateTimelineStepByStep : Repaints animateTimelineStepByStep.
Proof.
  unfold animateTimelineStepByStep.
  apply Repaints_andThen; [unfold hideTimelineCircles; apply Repaints_onAnimator |].
  intros s. destruct (negb (timelineDom (animator s))).
  - apply repaints_apply; [apply Repaints_showAllTimelineCircles |].
    unfold setPath. apply Repaints_onAnimator.
  - apply Repaints_drawTimeline.
Qed.

Ltac repaints_chain :=
  repeat match goal with
         | |- repaints ?s ?s => apply repaints_refl
         | |- repaints _ (showAllTimelineCircles _) =>
             apply repaints_apply; [apply Repaints_showAllTimelineCircles |]
         | |- repaints _ (cancelTimelineAnimation _) =>
             apply repaints_apply; [apply Repaints_cancelTimelineAnimation |]
         | |- repaints _ (cancelSlide12Split _) =>
             apply repaints_apply; [apply Repaints_cancelSlide12Split |]
         | |- repaints _ (cancelSlide12Expansion _) =>
             apply repaints_apply; [apply Repaints_cancelSlide12Expansion |]
         | |- repaints _ (animateSlide12Expansion _) =>
             apply repaints_apply; [apply Repaints_animateSlide12Expansion |]
         | |- repaints _ (animateTimelineStepByStep _) =>
             apply repaints_apply; [apply Repaints_animateTimelineStepByStep |]
         | |- repaints _ (setLineCurrentSlide _ _) =>
             apply repaints_apply;
               [unfold setLineCurrentSlide; apply Repaints_onAnimator |]
         | |- repaints _ (setPath _ _ _) =>
             apply repaints_apply; [unfold setPath; apply Repaints_onAnimator |]
         | |- repaints _ (setPathSecondary _ _ _) =>
             apply repaints_apply;
               [unfold setPathSecondary; apply Repaints_onAnimator |]
         | |- repaints _ (resetOverlays _) =>
             apply repaints_apply; [unfold resetOverlays; apply Repaints_onAnimator |]
         end.

Lemma Repaints_updatePath (slideIndex : Z) (animate : bool) :
  Repaints (updatePath slideIndex animate).
Proof.
  intros s. unfold updatePath. cbv zeta.
  repeat match goal with
         | |- context [if ?b then _ else _] => destruct b
         | |- context [match ?o with Some _ => _ | None => _ end] => destruct o
         end; repaints_chain.
Qed.

(** ** Running the event loop to the end of a generic transition *)

Lemma map_mapAt_keeps {A B} (g : A -> B) (f : A -> A) (l : list A) :
  (forall x, g (f x) = g x) -> forall n, map g (mapAt n f l) = map g l.
Proof.
  intros H. induction l as [| x l IH]; intros n; [destruct n; reflexivity |].
  destruct n as [| n]; cbn [mapAt map]; [rewrite H | rewrite IH]; reflexivity.
Qed.

Lemma hiddenFlags_updateSlide_keeps (i : Z) (f : Slide -> Slide) (s : State) :
  (forall sl, slideHidden (f sl) = slideHidden sl) ->
  hiddenFlags (setSlides (updateSlide i f (slides (engine s))) s) = hiddenFlags s.
Proof.
  intros H. unfold hiddenFlags, updateSlide. cbn.
  destruct (i <? 0); [reflexivity |]. apply map_mapAt_keeps. exact H.
Qed.

Lemma hiddenFlag_by_flags (j : Z) (s s' : State) :
  hiddenFlags s' = hiddenFlags s -> hiddenFlag j s' = hiddenFlag j s.
Proof.
  unfold hiddenFlags, hiddenFlag, getSlide. intros H.
  destruct (j <? 0); [reflexivity |].
  assert (E : nth_error (map slideHidden (slides (engine s'))) (Z.to_nat j) =
              nth_error (map slideHidden (slides (engine s))) (Z.to_nat j))
    by (rewrite H; reflexivity).
  rewrite !nth_error_map in E.
  destruct (nth_error (slides (engine s')) (Z.to_nat j)),
           (nth_error (slides (engine s)) (Z.to_nat j)); cbn in E;
    congruence.
Qed.

Lemma slideCount_by_flags (s s' : State) :
  hiddenFlags s' = hiddenFlags s -> slideCount s' = slideCount s.
Proof.
  unfold hiddenFlags, slideCount. intros H.
  apply (f_equal (@length bool)) in H. rewrite !length_map in H. lia.
Qed.

(** What equal views give. *)
Lemma navView_eq (s s' : State) :
  navView s' = navView s ->
  config (engine s') = config (engine s) /\
  currentSlide (engine s') = currentSlide (engine s) /\
  isTransitioning (engine s') = isTransitioning (engine s) /\
  lineAnimatorAttached (engine s') = lineAnimatorAttached (engine s) /\
  slideCount s' = slideCount s /\
  forall j, hiddenFlag j s' = hiddenFlag j s.
Proof.
  unfold navView. intros [= Hc Hi Ht Hl Hf].
  repeat split; try assumption.
  - apply slideCount_by_flags, Hf.
  - intros j. apply hiddenFlag_by_flags, Hf.
Qed.

Lemma Repaints_resetSlideAnimations (i : Z) : Repaints (resetSlideAnimations i).
Proof.
  intros s. unfold resetSlideAnimations. repeat split; auto.
  unfold navView. rewrite hiddenFlags_updateSlide_keeps by reflexivity.
  reflexivity.
Qed.

Lemma Repaints_triggerSlideAnimations (i : Z) : Repaints (triggerSlideAnimations i).
Proof.
  intros s. unfold triggerSlideAnimations.
  destruct (getSlide i (slides (engine s))) as [sl |]; [| apply repaints_refl].
  destruct (scheduleReveals_frame i (staggerDelay (config (engine s))) (animatedElements sl)
              0 s) as (He & _ & Hev & Hp & Hn).
  destruct (scheduleReveals_timers i (staggerDelay (config (engine s)))
              (animatedElements sl) 0 s) as (Ht & Hid).
  cbv zeta in *.
  repeat split; try assumption.
  - unfold navView, hiddenFlags. rewrite He. reflexivity.
  - lia.
  - intros t Hin. rewrite Ht in Hin. apply in_app_or in Hin.
    destruct Hin as [H | H]; [left; exact H | right].
    apply revealTimers_In in H. destruct H as (k & Hk & Ha & Hi).
    rewrite Ha, Hi, Hid. split; [lia | reflexivity].
Qed.

(** A quiet callback repaints. *)
Lemma quiet_view (a : Action) (s : State) :
  quiet a = true ->
  host (runAction a s) = host s /\ navView (runAction a s) = navView s.
Proof.
  destruct a; cbn [quiet]; try discriminate; intros _;
    cbn [runAction]; unfold guardAnimating, whenS, andThen, skip, revealElement;
    try match goal with
        | |- context [if isAnimating _ then _ else _] =>
            destruct (isAnimating (animator s))
        end;
    try (split; reflexivity).
  split; [reflexivity |].
  unfold navView. rewrite hiddenFlags_updateSlide_keeps by reflexivity.
  reflexivity.
Qed.

Lemma fire_quiet_view (tm : Timer) (s : State) :
  quiet (action tm) = true ->
  timers (host (fire tm s)) = filter (keptAfterClearing [tid tm]) (timers (host s)) /\
  promises (host (fire tm s)) = promises (host s) /\
  events (host (fire tm s)) = events (host s) /\
  nextTimerId (host (fire tm s)) = nextTimerId (host s) /\
  navView (fire tm s) = navView s.
Proof.
  intros Hq. unfold fire.
  destruct (quiet_view (action tm)
              (clearTimeout (tid tm)
                 (setNow (Z.max (now (host s)) (fireAt tm)) s)) Hq)
    as (Hh & Hv).
  rewrite Hh, Hv. repeat split; try reflexivity.
  rewrite clearTimeout_eq. reflexivity.
Qed.

(** A table of quiet timers runs empty and changes nothing navigation
    reads. *)
Lemma run_quiet (fuel : nat) :
  forall s,
    (forall t, In t (timers (host s)) -> quiet (action t) = true) ->
    (length (timers (host s)) <= fuel)%nat ->
    timers (host (run fuel s)) = [] /\
    navView (run fuel s) = navView s /\
    promises (host (run fuel s)) = promises (host s) /\
    events (host (run fuel s)) = events (host s) /\
    nextTimerId (host (run fuel s)) = nextTimerId (host s).
Proof.
  induction fuel as [| fuel IH]; intros s Hq Hlen.
  - cbn [run]. destruct (timers (host s)); [repeat split | cbn in Hlen; lia].
  - cbn [run]. destruct (nextTimer s) as [tm |] eqn:Hnext.
    + destruct (nextTimer_spec s Hnext) as (Hin & _).
      destruct (fire_quiet_view tm s (Hq tm Hin)) as (Ht & Hp & He & Hi & Hv).
      destruct (IH (fire tm s)) as (Gt & Gv & Gp & Ge & Gi).
      * intros t H. rewrite Ht in H. apply filter_In in H. apply Hq. tauto.
      * rewrite Ht.
        pose proof (filter_length_lt (keptAfterClearing [tid tm]) _ _ Hin
                      (keptAfterClearing_self tm)).
        lia.
      * repeat split; congruence.
    + apply nextTimer_none in Hnext. repeat split. exact Hnext.
Qed.

Lemma runThen_view (k : Then) (s : State) :
  currentSlide (engine (runThen k s)) = thenIndex k /\
  lineAnimatorAttached (engine (runThen k s)) = lineAnimatorAttached (engine s).
Proof.
  destruct k; cbn [runThen thenIndex]; unfold afterSlideChange, whenS, andThen;
    cbn [negb]; rewrite andb_false_r; cbn; split; reflexivity.
Qed.

Section GenericNavigation.
Variables (fromSlide toSlide : Z) (k : Then) (p n0 : nat) (td ts : Z).

Let safetyT : Timer :=
  {| tid := n0; fireAt := ts; action := TransitionSafety p |}.
Let doneT : Timer :=
  {| tid := S n0; fireAt := td;
     action := TransitionDone fromSlide toSlide n0 p |}.

Hypothesis Horder : td < ts.

(** The completion callback: the source is hidden, no other flag moves,
    and the reaction stores its index. *)
Lemma fire_done_view (s : State) (ql : list Timer) :
  timers (host s) = ql ++ [safetyT; doneT] ->
  (forall t, In t ql -> quiet (action t) = true /\ (tid t < n0)%nat) ->
  nth_error (promises (host s)) p = Some {| settled := false; reaction := k |} ->
  0 <= fromSlide < slideCount s ->
  let s1 := fire doneT s in
  timers (host s1) = ql /\
  events (host s1) = events (host s) ++ [thenIndex k] /\
  isTransitioning (engine s1) = false /\
  currentSlide (engine s1) = thenIndex k /\
  config (engine s1) = config (engine s) /\
  lineAnimatorAttached (engine s1) = lineAnimatorAttached (engine s) /\
  slideCount s1 = slideCount s /\
  (forall j, hiddenFlag j s1 = if j =? fromSlide then true else hiddenFlag j s).
Proof.
  intros Ht Hql Hp Hr s1. subst s1.
  unfold fire. cbn [action tid fireAt doneT runAction]. unfold andThen.
  set (s0 := setNow (Z.max (now (host s)) td) s).
  set (sa := hideSlide fromSlide (clearTimeout n0 (clearTimeout (S n0) s0))).
  assert (Hpa : promises (host sa) = promises (host s)) by reflexivity.
  assert (Hta : timers (host sa) = ql).
  { assert (K1 : keptAfterClearing [S n0] safetyT = true)
      by (apply keptAfterClearing_other; cbn; lia).
    assert (K2 : keptAfterClearing [S n0] doneT = false)
      by (apply (keptAfterClearing_self doneT)).
    assert (K3 : keptAfterClearing [n0] safetyT = false)
      by (apply (keptAfterClearing_self safetyT)).
    subst sa s0. rewrite !clearTimeout_eq. cbn [hideSlide setSlides onEngine host].
    cbn [setTimers onHost host timers setNow].
    rewrite Ht, filter_app. cbn [filter]. rewrite K1, K2.
    rewrite filter_app. cbn [filter]. rewrite K3, app_nil_r.
    rewrite (filter_all_kept (keptAfterClearing [S n0]) ql).
    - apply filter_all_kept. intros t Hin. apply keptAfterClearing_other.
      destruct (Hql t Hin). lia.
    - intros t Hin. apply keptAfterClearing_other.
      destruct (Hql t Hin). lia. }
  unfold resolve. rewrite Hpa, Hp. cbn [settled reaction].
  set (sb := setPromises (settleAt p (promises (host s))) sa).
  destruct (runThen_frame k sb) as (Htm & _ & Hpr & Hnow & Hev & Hsl & Hcfg & Htr).
  destruct (runThen_view k sb) as (Hcur & Hla).
  rewrite Htm, Hev, Htr, Hcur, Hcfg, Hla.
  repeat split; try assumption; try reflexivity.
  - unfold slideCount. rewrite Hsl. subst sb sa. cbn.
    rewrite updateSlide_length. reflexivity.
  - intros j. rewrite (hiddenFlag_by_slides j _ _ Hsl).
    change (hiddenFlag j sa = if j =? fromSlide then true else hiddenFlag j s).
    subst sa. destruct (Z.eqb_spec j fromSlide) as [-> | Hne].
    + apply hiddenFlag_hideSlide_same. exact Hr.
    + rewrite hiddenFlag_hideSlide_other by congruence. reflexivity.
Qed.

(** The loop run to the end with the two transition timers pending among
    quiet ones. *)
Lemma run_completes (fuel : nat) :
  forall (s : State) (ql : list Timer),
    timers (host s) = ql ++ [safetyT; doneT] ->
    (forall t, In t ql -> quiet (action t) = true /\ (tid t < n0)%nat) ->
    nth_error (promises (host s)) p = Some {| settled := false; reaction := k |} ->
    0 <= fromSlide < slideCount s ->
    (length ql + 1 <= fuel)%nat ->
    let s' := run fuel s in
    timers (host s') = [] /\
    events (host s') = events (host s) ++ [thenIndex k] /\
    isTransitioning (engine s') = false /\
    currentSlide (engine s') = thenIndex k /\
    config (engine s') = config (engine s) /\
    lineAnimatorAttached (engine s') = lineAnimatorAttached (engine s) /\
    slideCount s' = slideCount s /\
    (forall j, hiddenFlag j s' = if j =? fromSlide then true else hiddenFlag j s).
Proof.
  induction fuel as [| fuel IH]; intros s ql Ht Hql Hp Hr Hlen; [lia |].
  cbn [run].
  destruct (nextTimer s) as [tm |] eqn:Hnext.
  2:{ apply nextTimer_none in Hnext. rewrite Ht in Hnext.
      destruct ql; discriminate. }
  destruct (nextTimer_spec s Hnext) as (Hin & Hmin).
  assert (Hdone_in : In doneT (timers (host s))).
  { rewrite Ht. apply in_or_app. right. right. left. reflexivity. }
  rewrite Ht in Hin. apply in_app_or in Hin.
  destruct Hin as [Hin | [Heq | [Heq | []]]].
  - (* a quiet timer *)
    destruct (Hql tm Hin) as (Hq & Hid).
    destruct (fire_quiet_view tm s Hq) as (Ht1 & Hp1 & He1 & _ & Hv1).
    apply navView_eq in Hv1. destruct Hv1 as (Hc1 & _ & _ & Hl1 & Hn1 & Hf1).
    assert (Ht1' : timers (host (fire tm s)) =
                   filter (keptAfterClearing [tid tm]) ql ++ [safetyT; doneT]).
    { rewrite Ht1, Ht, filter_app. f_equal. cbn.
      rewrite !keptAfterClearing_other by (cbn; lia). reflexivity. }
    destruct (IH (fire tm s) (filter (keptAfterClearing [tid tm]) ql))
      as (G1 & G2 & G3 & G4 & G5 & G6 & G7 & G8).
    + exact Ht1'.
    + intros t H. apply filter_In in H. apply Hql. tauto.
    + rewrite Hp1. exact Hp.
    + rewrite Hn1. exact Hr.
    + pose proof (filter_length_lt (keptAfterClearing [tid tm]) ql tm Hin
                    (keptAfterClearing_self tm)).
      lia.
    + cbv zeta. repeat split; try congruence.
      intros j. rewrite G8, Hf1. reflexivity.
  - (* the safety timer cannot be the earliest *)
    exfalso. specialize (Hmin doneT Hdone_in). rewrite <- Heq in Hmin.
    cbn in Hmin. lia.
  - (* the completion timer *)
    subst tm.
    destruct (fire_done_view s ql Ht Hql Hp Hr)
      as (Ht1 & He1 & Htr1 & Hc1 & Hcf1 & Hl1 & Hn1 & Hf1).
    cbv zeta in *.
    destruct (run_quiet fuel (fire doneT s)) as (Gt & Gv & _ & Ge & _).
    + intros t H. rewrite Ht1 in H. apply Hql. exact H.
    + rewrite Ht1. lia.
    + apply navView_eq in Gv. destruct Gv as (Gc & Gi & Gtr & Gl & Gn & Gf).
      repeat split; try congruence.
      intros j. rewrite Gf. apply Hf1.
Qed.
End GenericNavigation.

(** ** Generic navigation from rest *)

Lemma specialPair_guards (la : bool) (cur index : Z) :
  specialPair la cur index = false ->
  la && (cur =? 1) && (index =? 2) = false /\
  la && (cur =? 2) && (index =? 1) = false /\
  la && (cur =? 9) && (index =? 10) = false /\
  la && (cur =? 11) && (index =? 10) = false /\
  la && (cur =? 10) && (index =? 11) = false.
Proof.
  unfold specialPair. destruct la; cbn [andb]; [| repeat split; reflexivity].
  intros H. repeat (apply orb_false_elim in H; destruct H as [H ?]).
  repeat split; assumption.
Qed.

Lemma boundsCheck_range (index : Z) (s : State) :
  0 < slideCount s -> 0 <= boundsCheck index s < slideCount s.
Proof.
  intros Hn. unfold boundsCheck. rewrite Z.geb_leb.
  destruct (Z.ltb_spec index 0), (Z.leb_spec (slideCount s) index),
    (loop (config (engine s))); lia.
Qed.

Lemma repaints_quietTable (s s' : State) :
  repaints s s' -> quietTable s -> quietTable s'.
Proof.
  intros (_ & _ & _ & _ & Hn & Ht) Hq t Hin.
  destruct (Ht t Hin) as [H | (Hid & Hqt)].
  - destruct (Hq t H). split; [assumption | lia].
  - split; [assumption | lia].
Qed.

(** What [transition] does at once. *)
Lemma transition_spec (fromSlide toSlide : Z) (k : Then) (s : State) :
  0 <= duration (config (engine s)) ->
  let s1 := transition fromSlide toSlide k s in
  let n0 := nextTimerId (host s) in
  let p := length (promises (host s)) in
  timers (host s1) =
    timers (host s) ++
    [ {| tid := n0; fireAt := now (host s) + duration (config (engine s)) + 500;
         action := TransitionSafety p |};
      {| tid := S n0; fireAt := now (host s) + duration (config (engine s));
         action := TransitionDone fromSlide toSlide n0 p |} ] /\
  nth_error (promises (host s1)) p = Some {| settled := false; reaction := k |} /\
  events (host s1) = events (host s) /\
  config (engine s1) = config (engine s) /\
  currentSlide (engine s1) = currentSlide (engine s) /\
  isTransitioning (engine s1) = isTransitioning (engine s) /\
  lineAnimatorAttached (engine s1) = lineAnimatorAttached (engine s) /\
  slideCount s1 = slideCount s /\
  (forall j, hiddenFlag j s1 =
             if (j =? toSlide) && (0 <=? j) && (j <? slideCount s) then false
             else hiddenFlag j s).
Proof.
  intros HD s1 n0 p. subst s1.
  repeat split; try reflexivity.
  - unfold transition. cbn. fold n0 p. rewrite !Z.max_r by lia.
    rewrite <- app_assoc, Z.add_assoc. reflexivity.
  - unfold transition. cbn.
    rewrite nth_error_app2 by (subst p; lia).
    subst p. rewrite Nat.sub_diag. reflexivity.
  - unfold transition, slideCount. cbn. rewrite updateSlide_length. reflexivity.
  - intros j.
    change (hiddenFlag j (showSlide toSlide s) =
            if (j =? toSlide) && (0 <=? j) && (j <? slideCount s) then false
            else hiddenFlag j s).
    destruct (Z.eqb_spec j toSlide) as [-> | Hne]; cbn [andb].
    + destruct (Z.leb_spec 0 toSlide), (Z.ltb_spec toSlide (slideCount s)); cbn [andb].
      * apply hiddenFlag_showSlide_same. lia.
      * unfold hiddenFlag, showSlide, getSlide, updateSlide. cbn.
        destruct (toSlide <? 0); [reflexivity |].
        unfold slideCount in *.
        rewrite !(proj2 (nth_error_None _ _)); [reflexivity | lia |].
        rewrite mapAt_length. lia.
      * unfold hiddenFlag, showSlide, getSlide, updateSlide.
        destruct (Z.ltb_spec toSlide 0); [reflexivity | lia].
      * unfold hiddenFlag, showSlide, getSlide, updateSlide.
        destruct (Z.ltb_spec toSlide 0); [reflexivity | lia].
    + apply hiddenFlag_showSlide_other. congruence.
Qed.

(** The state in which the generic branch calls [transition]. *)
Lemma goToSlide_generic_unfolds (s : State) (index : Z) :
  isTransitioning (engine s) = false ->
  boundsCheck index s <> currentSlide (engine s) ->
  specialPair (lineAnimatorAttached (engine s)) (currentSlide (engine s))
              (boundsCheck index s) = false ->
  transitionType (config (engine s)) <> NoTransition ->
  exists s0 s3,
    repaints s s0 /\ repaints (setIsTransitioning true s0) s3 /\
    goToSlide index true s =
      setCurrentSlide (boundsCheck index s)
        (transition (currentSlide (engine s)) (boundsCheck index s)
                    (ThenSettle (boundsCheck index s)) s3).
Proof.
  intros Hidle Hne Hsp Hty.
  destruct (specialPair_guards _ _ _ Hsp) as (G1 & G2 & G3 & G4 & G5).
  unfold goToSlide. rewrite Hidle. cbn [andb].
  destruct (Z.eqb_spec (boundsCheck index s) (currentSlide (engine s))) as [E | _];
    [contradiction |].
  destruct (Z.eqb_spec (currentSlide (engine s)) (boundsCheck index s)) as [E | _];
    [symmetry in E; contradiction |].
  cbn [andb negb]. rewrite !andb_false_r.
  rewrite G1, G2, G3, G4, G5.
  match goal with
  | |- context [setIsTransitioning true ?x] => set (s0 := x)
  end.
  assert (H0 : repaints s s0).
  { subst s0.
    destruct ((currentSlide (engine s) =? 11) && lineAnimatorAttached (engine s)).
    - apply repaints_apply; [apply Repaints_cancelSlide12Expansion |].
      apply repaints_apply; [apply Repaints_cancelSlide12Split |].
      apply Repaints_resetSlideAnimations.
    - apply Repaints_resetSlideAnimations. }
  assert (Hcfg : config (engine s0) = config (engine s)).
  { destruct H0 as (Hv & _). apply navView_eq in Hv. tauto. }
  rewrite Hcfg.
  match goal with
  | |- context [when ?b (triggerSlideAnimations ?i) ?x] =>
      set (s3 := when b (triggerSlideAnimations i) x)
  end.
  exists s0, s3. split; [exact H0 |]. split.
  - subst s3.
    apply repaints_apply; [apply Repaints_when, Repaints_triggerSlideAnimations |].
    apply Repaints_when, Repaints_updatePath.
  - destruct (transitionType (config (engine s))); try reflexivity.
    contradiction.
Qed.

(** The generic branch from an idle engine, run to the end. *)
Lemma generic_navigation (s : State) (index : Z) (fuel : nat) :
  let cur := currentSlide (engine s) in
  let target := boundsCheck index s in
  let s1 := goToSlide index true s in
  let s' := run fuel s1 in
  isTransitioning (engine s) = false ->
  quietTable s ->
  0 <= cur < slideCount s ->
  target <> cur ->
  specialPair (lineAnimatorAttached (engine s)) cur target = false ->
  transitionType (config (engine s)) <> NoTransition ->
  0 <= duration (config (engine s)) ->
  (length (timers (host s1)) <= fuel)%nat ->
  (isTransitioning (engine s1) = true /\
   currentSlide (engine s1) = target /\
   (forall j, hiddenFlag j s1 = if j =? target then false else hiddenFlag j s) /\
   events (host s1) = events (host s)) /\
  (timers (host s') = [] /\
   isTransitioning (engine s') = false /\
   currentSlide (engine s') = target /\
   slideCount s' = slideCount s /\
   (forall j, hiddenFlag j s' =
              if j =? cur then true
              else if j =? target then false else hiddenFlag j s) /\
   events (host s') = events (host s) ++ [target]).
Proof.
  intros cur target s1 s' Hidle Hq Hcur Hne Hsp Hty HD Hfuel.
  assert (Htarget : 0 <= target < slideCount s)
    by (apply boundsCheck_range; lia).
  destruct (goToSlide_generic_unfolds s index Hidle Hne Hsp Hty)
    as (s0 & s3 & H0 & H3 & Hgo).
  fold cur target in Hgo. fold s1 in Hgo.
  set (s4 := transition cur target (ThenSettle target) s3) in Hgo.
  (* the state handed to [transition] *)
  assert (Hq3 : quietTable s3).
  { apply (repaints_quietTable _ _ H3). apply (repaints_quietTable _ _ H0 Hq). }
  destruct H0 as (Hv0 & Hp0 & He0 & Hn0 & _).
  destruct H3 as (Hv3 & Hp3 & He3 & Hn3 & _).
  apply navView_eq in Hv0. destruct Hv0 as (Hc0 & Hi0 & _ & Hl0 & Hsc0 & Hf0).
  apply navView_eq in Hv3. destruct Hv3 as (Hc3 & Hi3 & Ht3 & Hl3 & Hsc3 & Hf3).
  change (config (engine (setIsTransitioning true s0))) with (config (engine s0)) in Hc3.
  change (currentSlide (engine (setIsTransitioning true s0)))
    with (currentSlide (engine s0)) in Hi3.
  change (isTransitioning (engine (setIsTransitioning true s0))) with true in Ht3.
  change (lineAnimatorAttached (engine (setIsTransitioning true s0)))
    with (lineAnimatorAttached (engine s0)) in Hl3.
  change (slideCount (setIsTransitioning true s0)) with (slideCount s0) in Hsc3.
  assert (Hf3' : forall j, hiddenFlag j s3 = hiddenFlag j s).
  { intros j. rewrite Hf3. rewrite <- Hf0. reflexivity. }
  assert (HD3 : 0 <= duration (config (engine s3))) by (rewrite Hc3, Hc0; exact HD).
  destruct (transition_spec cur target (ThenSettle target) s3 HD3)
    as (Tt & Tp & Te & Tc & Ti & Ttr & Tl & Tsc & Tf).
  fold s4 in Tt, Tp, Te, Tc, Ti, Ttr, Tl, Tsc, Tf.
  assert (Tf' : forall j, hiddenFlag j s4 =
                          if j =? target then false else hiddenFlag j s).
  { intros j. rewrite Tf, Hf3'. rewrite Hsc3, Hsc0.
    destruct (Z.eqb_spec j target) as [-> | _]; [| reflexivity].
    destruct (Z.leb_spec 0 target), (Z.ltb_spec target (slideCount s)); try lia.
    reflexivity. }
  split.
  { rewrite Hgo. repeat split.
    - change (isTransitioning (engine s4) = true). rewrite Ttr. exact Ht3.
    - intros j. rewrite <- Tf'. apply hiddenFlag_by_slides. reflexivity.
    - change (events (host s4) = events (host s)). rewrite Te, He3.
      change (events (host s0) = events (host s)). exact He0. }
  (* the loop *)
  assert (Hlen : (length (timers (host s3)) + 1 <= fuel)%nat).
  { rewrite Hgo in Hfuel.
    change (timers (host (setCurrentSlide target s4))) with (timers (host s4)) in Hfuel.
    rewrite Tt, length_app in Hfuel. cbn [length] in Hfuel. lia. }
  destruct (run_completes cur target (ThenSettle target)
              (length (promises (host s3))) (nextTimerId (host s3))
              (now (host s3) + duration (config (engine s3)))
              (now (host s3) + duration (config (engine s3)) + 500)
              ltac:(lia) fuel s1 (timers (host s3)))
    as (R1 & R2 & R3 & R4 & R5 & R6 & R7 & R8).
  - rewrite Hgo. exact Tt.
  - exact Hq3.
  - rewrite Hgo. exact Tp.
  - rewrite Hgo.
    change (slideCount (setCurrentSlide target s4)) with (slideCount s4).
    rewrite Tsc, Hsc3, Hsc0. exact Hcur.
  - exact Hlen.
  - fold s' in R1, R2, R3, R4, R5, R6, R7, R8. cbn [thenIndex] in R2, R4.
    repeat split; try assumption.
    + rewrite R7, Hgo.
      change (slideCount (setCurrentSlide target s4)) with (slideCount s4).
      rewrite Tsc, Hsc3. exact Hsc0.
    + intros j. rewrite R8. destruct (j =? cur); [reflexivity |].
      rewrite Hgo. rewrite <- Tf'. apply hiddenFlag_by_slides. reflexivity.
    + rewrite R2, Hgo.
      change (events (host (setCurrentSlide target s4))) with (events (host s4)).
      rewrite Te, He3.
      change (events (host (setIsTransitioning true s0))) with (events (host s0)).
      rewrite He0. reflexivity.
Qed.

Lemma flagsFrom_sound (target : Z) (l : list Slide) :
  forall i, flagsFrom i target l = true ->
    forall n sl, nth_error l n = Some sl ->
                 slideHidden sl = negb (i + Z.of_nat n =? target).
Proof.
  induction l as [| x l IH]; intros i H n sl Hn; [destruct n; discriminate |].
  cbn [flagsFrom] in H. apply andb_prop in H. destruct H as (Hx & Hl).
  destruct n as [| n]; cbn [nth_error] in Hn.
  - injection Hn as <-. rewrite Z.add_0_r. apply Bool.eqb_prop. exact Hx.
  - rewrite (IH (i + 1) Hl n sl Hn). do 2 f_equal. lia.
Qed.

Lemma onlyVisibleb_sound (target : Z) (s : State) :
  onlyVisibleb target s = true -> onlyVisible target s.
Proof.
  intros H j Hj. unfold slideCount in Hj.
  destruct (nth_error (slides (engine s)) (Z.to_nat j)) as [sl |] eqn:E.
  - rewrite (hiddenFlag_nth j s sl) by (try lia; exact E).
    rewrite (flagsFrom_sound target _ 0 H _ _ E). do 2 f_equal. lia.
  - apply nth_error_None in E. lia.
Qed.

(** Hiding the source and showing the target moves the one visible
    slide. *)
Lemma onlyVisible_moves (cur target : Z) (s s' : State) :
  slideCount s' = slideCount s ->
  cur <> target ->
  onlyVisible cur s ->
  (forall j, hiddenFlag j s' =
             if j =? cur then true
             else if j =? target then false else hiddenFlag j s) ->
  onlyVisible target s'.
Proof.
  intros Hn Hne Hvis H j Hj. rewrite Hn in Hj. rewrite H.
  destruct (Z.eqb_spec j cur) as [-> | Hjc].
  - destruct (Z.eqb_spec cur target); [congruence | reflexivity].
  - destruct (Z.eqb_spec j target); [reflexivity |].
    rewrite (Hvis j Hj). destruct (Z.eqb_spec j cur); [contradiction | reflexivity].
Qed.

(** X2.  A generic transition from an idle engine, for every deck, every
    configuration with a transition effect and every requested index
    (clamped or wrapped by the bounds check): at once the engine is
    transitioning with the target as current index and the target shown
    next to the source; when the timers have run, the engine is settled on
    the target, the target is the one visible slide and one [slidechange]
    event for it has been dispatched. *)
Theorem generic_navigation_settles (s : State) (index : Z) (fuel : nat) :
  let cur := currentSlide (engine s) in
  let target := boundsCheck index s in
  let s1 := goToSlide index true s in
  let s' := run fuel s1 in
  isTransitioning (engine s) = false ->
  quietTable s ->
  0 <= cur < slideCount s ->
  onlyVisible cur s ->
  target <> cur ->
  specialPair (lineAnimatorAttached (engine s)) cur target = false ->
  transitionType (config (engine s)) <> NoTransition ->
  0 <= duration (config (engine s)) ->
  (length (timers (host s1)) <= fuel)%nat ->
  (isTransitioning (engine s1) = true /\
   currentSlide (engine s1) = target /\
   hiddenFlag cur s1 = false /\ hiddenFlag target s1 = false) /\
  (isSettled s' = true /\
   currentSlide (engine s') = target /\
   onlyVisible target s' /\
   visibleCount s' = 1%nat /\
   events (host s') = events (host s) ++ [target]).
Proof.
  intros cur target s1 s' Hidle Hq Hcur Hvis Hne Hsp Hty HD Hfuel.
  assert (Htarget : 0 <= target < slideCount s)
    by (apply boundsCheck_range; lia).
  destruct (generic_navigation s index fuel Hidle Hq Hcur Hne Hsp Hty HD Hfuel)
    as ((A1 & A2 & A3 & _) & (B1 & B2 & B3 & B4 & B5 & B6)).
  fold cur target s1 in A1, A2, A3. fold cur target s1 s' in B1, B2, B3, B4, B5, B6.
  assert (Hvis' : onlyVisible target s')
    by (apply (onlyVisible_moves cur target s s'); auto).
  split.
  - repeat split; try assumption.
    + rewrite A3. destruct (Z.eqb_spec cur target); [reflexivity |].
      rewrite (Hvis cur Hcur), Z.eqb_refl. reflexivity.
    + rewrite A3, Z.eqb_refl. reflexivity.
  - repeat split; try assumption.
    + unfold isSettled. rewrite B1, B2. reflexivity.
    + apply (visibleCount_onlyVisible target); [rewrite B4; exact Htarget | exact Hvis'].
Qed.

Lemma generic_navigation_settles_witness :
  let s' := run 10 (goToSlide 7 true (restingAt appConfig 4)) in
  isSettled s' = true /\ currentSlide (engine s') = 7 /\ visibleCount s' = 1%nat.
Proof.
  assert (E : boundsCheck 7 (restingAt appConfig 4) = 7) by (vm_compute; reflexivity).
  pose proof (generic_navigation_settles (restingAt appConfig 4) 7 10) as H.
  cbv zeta in H. rewrite E in H. destruct H as (_ & H1 & H2 & _ & H4 & _).
  - vm_compute. reflexivity.
  - intros t Hin. vm_compute in Hin. destruct Hin.
  - vm_compute. split; [discriminate | reflexivity].
  - apply onlyVisibleb_sound. vm_compute. reflexivity.
  - vm_compute. discriminate.
  - vm_compute. reflexivity.
  - vm_compute. discriminate.
  - vm_compute. discriminate.
  - vm_compute. lia.
  - cbv zeta. split; [exact H1 |]. split; [exact H2 | exact H4].
Defined.

(** X3.  With [loop] enabled the deck is a ring.  From an idle engine on
    the last slide [next()] leads to the first slide, and from the first
    slide [prev()] leads to the last: when the timers have run the engine
    is settled there and that slide is the only one shown.  Neither pair
    of slides is joined by a choreography, so this holds with and without
    the animator. *)
Theorem loop_wraps_at_the_ends (s : State) (fuel : nat) :
  let cur := currentSlide (engine s) in
  let n := slideCount s in
  loop (config (engine s)) = true ->
  isTransitioning (engine s) = false ->
  quietTable s ->
  1 < n ->
  onlyVisible cur s ->
  transitionType (config (engine s)) <> NoTransition ->
  0 <= duration (config (engine s)) ->
  (cur = n - 1 ->
   (length (timers (host (next s))) <= fuel)%nat ->
   let s' := run fuel (next s) in
   isSettled s' = true /\ currentSlide (engine s') = 0 /\ onlyVisible 0 s') /\
  (cur = 0 ->
   (length (timers (host (prev s))) <= fuel)%nat ->
   let s' := run fuel (prev s) in
   isSettled s' = true /\ currentSlide (engine s') = n - 1 /\ onlyVisible (n - 1) s').
Proof.
  intros cur n Hloop Hidle Hq Hn Hvis Hty HD. split.
  - intros Hlast Hfuel s'. subst s'. unfold next in *.
    assert (Hb : boundsCheck (currentSlide (engine s) + 1) s = 0).
    { rewrite boundsCheck_past_end by (fold cur n; lia). rewrite Hloop. reflexivity. }
    destruct (generic_navigation s (currentSlide (engine s) + 1) fuel)
      as (_ & B1 & B2 & B3 & B4 & B5 & _); try assumption.
    + fold cur n. lia.
    + rewrite Hb. fold cur. lia.
    + rewrite Hb. unfold specialPair. cbn [Z.eqb]. rewrite !andb_false_r.
      reflexivity.
    + rewrite Hb in B3, B5. fold cur in B5.
      split; [unfold isSettled; rewrite B1, B2; reflexivity |].
      split; [exact B3 |].
      apply (onlyVisible_moves cur 0 s); auto. lia.
  - intros Hfirst Hfuel s'. subst s'. unfold prev in *.
    assert (Hb : boundsCheck (currentSlide (engine s) - 1) s = n - 1).
    { unfold boundsCheck. fold cur n. rewrite Hfirst, Hloop. reflexivity. }
    destruct (generic_navigation s (currentSlide (engine s) - 1) fuel)
      as (_ & B1 & B2 & B3 & B4 & B5 & _); try assumption.
    + fold cur n. lia.
    + rewrite Hb. fold cur. lia.
    + rewrite Hb. fold cur. rewrite Hfirst. unfold specialPair. cbn [Z.eqb andb orb].
      rewrite ?andb_false_r. reflexivity.
    + rewrite Hb in B3, B5. fold cur in B5.
      split; [unfold isSettled; rewrite B1, B2; reflexivity |].
      split; [exact B3 |].
      apply (onlyVisible_moves cur (n - 1) s); auto. lia.
Qed.

Lemma loop_wraps_at_the_ends_witness :
  let s := restingAt appConfigLoop 11 in
  let s' := run 10 (next s) in
  isSettled s' = true /\ currentSlide (engine s') = 0 /\ onlyVisible 0 s'.
Proof.
  pose proof (loop_wraps_at_the_ends (restingAt appConfigLoop 11) 10) as H.
  cbv zeta in H. destruct H as (H & _).
  - vm_compute. reflexivity.
  - vm_compute. reflexivity.
  - intros t Hin. vm_compute in Hin. destruct Hin.
  - vm_compute. reflexivity.
  - apply onlyVisibleb_sound. vm_compute. reflexivity.
  - vm_compute. discriminate.
  - vm_compute. discriminate.
  - cbv zeta. apply H.
    + vm_compute. reflexivity.
    + vm_compute. lia.
Defined.

(** ** Navigation without a transition *)

(** The branch of [goToSlide] that swaps the slides at once. *)
Lemma goToSlide_direct_unfolds (s : State) (index : Z) (animate : bool) :
  isTransitioning (engine s) = false ->
  boundsCheck index s <> currentSlide (engine s) ->
  animate = false \/
  (transitionType (config (engine s)) = NoTransition /\
   specialPair (lineAnimatorAttached (engine s)) (currentSlide (engine s))
               (boundsCheck index s) = false) ->
  exists s0 sc,
    repaints s s0 /\
    repaints (showSlide (boundsCheck index s)
                (hideSlide (currentSlide (engine s)) s0)) sc /\
    goToSlide index animate s =
      setCurrentSlide (boundsCheck index s)
        (afterSlideChange (boundsCheck index s) false sc).
Proof.
  intros Hidle Hne Hwhy.
  unfold goToSlide. rewrite Hidle. cbn [andb].
  destruct (Z.eqb_spec (boundsCheck index s) (currentSlide (engine s))) as [E | _];
    [contradiction |].
  destruct (Z.eqb_spec (currentSlide (engine s)) (boundsCheck index s)) as [E | _];
    [symmetry in E; contradiction |].
  cbn [andb negb].
  assert (Hz : (boundsCheck index s =? 0) && (currentSlide (engine s) =? 0) = false).
  { destruct (Z.eqb_spec (boundsCheck index s) 0), (Z.eqb_spec (currentSlide (engine s)) 0);
      try reflexivity; congruence. }
  rewrite Hz. cbn [andb].
  assert (Hleave : forall la, repaints s
            (if (currentSlide (engine s) =? 11) && la
             then cancelSlide12Expansion
                    (cancelSlide12Split
                       (resetSlideAnimations (currentSlide (engine s)) s))
             else resetSlideAnimations (currentSlide (engine s)) s)).
  { intros la. destruct ((currentSlide (engine s) =? 11) && la).
    - apply repaints_apply; [apply Repaints_cancelSlide12Expansion |].
      apply repaints_apply; [apply Repaints_cancelSlide12Split |].
      apply Repaints_resetSlideAnimations.
    - apply Repaints_resetSlideAnimations. }
  assert (Hfin : forall s0 : State,
            repaints s s0 ->
            exists s0' sc,
              repaints s s0' /\
              repaints (showSlide (boundsCheck index s)
                          (hideSlide (currentSlide (engine s)) s0')) sc /\
              setCurrentSlide (boundsCheck index s)
                (afterSlideChange (boundsCheck index s) false
                   (when (lineAnimatorAttached (engine s))
                      (updatePath (boundsCheck index s) false)
                      (showSlide (boundsCheck index s)
                         (when true (hideSlide (currentSlide (engine s))) s0)))) =
              setCurrentSlide (boundsCheck index s)
                (afterSlideChange (boundsCheck index s) false sc)).
  { intros s0 H0. exists s0. eexists. split; [exact H0 |]. split; [| reflexivity].
    unfold when. destruct (lineAnimatorAttached (engine s));
      [apply Repaints_updatePath | apply repaints_refl]. }
  destruct Hwhy as [-> | (Hty & Hsp)].
  - cbn [andb]. apply Hfin, Hleave.
  - destruct (specialPair_guards _ _ _ Hsp) as (G1 & G2 & G3 & G4 & G5).
    destruct animate; cbn [andb].
    + rewrite G1, G2, G3, G4, G5.
      match goal with
      | |- context [when true _ ?x] => set (s0 := x)
      end.
      assert (H0 : repaints s s0) by apply Hleave.
      assert (Hcfg : config (engine s0) = config (engine s)).
      { destruct H0 as (Hv & _). apply navView_eq in Hv. tauto. }
      rewrite Hcfg, Hty. apply Hfin, H0.
    + apply Hfin, Hleave.
Qed.

(** X4.  A jump without a transition: [goToSlide(index, false)], or an
    animated call when [transitions.type] is ['none'] and the two slides
    are not joined by a choreography.  From an idle engine the swap is
    done when the call returns: the source is hidden and the target shown,
    the other flags are untouched, the engine is idle on the target, one
    [slidechange] event has been dispatched, and no promise or transition
    timer has been created (timers added are quiet ones).  If the source
    was the one visible slide, the target now is. *)
Theorem goToSlide_without_transition (s : State) (index : Z) (animate : bool) :
  let cur := currentSlide (engine s) in
  let target := boundsCheck index s in
  let s' := goToSlide index animate s in
  isTransitioning (engine s) = false ->
  0 <= cur < slideCount s ->
  target <> cur ->
  animate = false \/
  (transitionType (config (engine s)) = NoTransition /\
   specialPair (lineAnimatorAttached (engine s)) cur target = false) ->
  isTransitioning (engine s') = false /\
  currentSlide (engine s') = target /\
  slideCount s' = slideCount s /\
  (forall j, hiddenFlag j s' =
             if j =? target then false
             else if j =? cur then true else hiddenFlag j s) /\
  events (host s') = events (host s) ++ [target] /\
  promises (host s') = promises (host s) /\
  (forall t, In t (timers (host s')) ->
             In t (timers (host s)) \/ quiet (action t) = true) /\
  (onlyVisible cur s -> onlyVisible target s' /\ visibleCount s' = 1%nat).
Proof.
  intros cur target s' Hidle Hcur Hne Hwhy.
  assert (Htarget : 0 <= target < slideCount s)
    by (apply boundsCheck_range; lia).
  destruct (goToSlide_direct_unfolds s index animate Hidle Hne Hwhy)
    as (s0 & sc & H0 & Hc & Hgo).
  fold cur target in Hc, Hgo. fold s' in Hgo.
  set (sb := showSlide target (hideSlide cur s0)) in Hc.
  destruct H0 as (Hv0 & Hp0 & He0 & _ & _ & Ht0).
  destruct Hc as (Hvc & Hpc & Hec & _ & _ & Htc).
  apply navView_eq in Hv0. destruct Hv0 as (_ & _ & Htr0 & _ & Hsc0 & Hf0).
  apply navView_eq in Hvc. destruct Hvc as (_ & _ & Htrc & _ & Hscc & Hfc).
  destruct (afterSlideChange_spec target false sc)
    as (Ac & Asl & Atr & _ & _ & _ & Aev & Apr & _).
  cbv zeta in Ac, Asl, Atr, Aev, Apr.
  assert (Hsb : slideCount sb = slideCount s).
  { subst sb. unfold showSlide, hideSlide, slideCount. cbn.
    rewrite !updateSlide_length. exact Hsc0. }
  assert (Hfb : forall j, hiddenFlag j sb =
                          if j =? target then false
                          else if j =? cur then true else hiddenFlag j s).
  { intros j. subst sb.
    destruct (Z.eqb_spec j target) as [-> | Hjt].
    - apply hiddenFlag_showSlide_same.
      unfold hideSlide, slideCount. cbn. rewrite updateSlide_length.
      fold (slideCount s0). rewrite Hsc0. exact Htarget.
    - rewrite hiddenFlag_showSlide_other by congruence.
      destruct (Z.eqb_spec j cur) as [-> | Hjc].
      + apply hiddenFlag_hideSlide_same. rewrite Hsc0. exact Hcur.
      + rewrite hiddenFlag_hideSlide_other by congruence. apply Hf0. }
  assert (Hn' : slideCount s' = slideCount s).
  { rewrite Hgo. unfold slideCount. cbn [setCurrentSlide onEngine engine slides].
    rewrite Asl. fold (slideCount sc). rewrite Hscc. exact Hsb. }
  assert (Hf' : forall j, hiddenFlag j s' =
                          if j =? target then false
                          else if j =? cur then true else hiddenFlag j s).
  { intros j. rewrite <- Hfb, <- Hfc, Hgo.
    apply hiddenFlag_by_slides. exact Asl. }
  repeat split.
  - rewrite Hgo. change (isTransitioning (engine (afterSlideChange target false sc)) = false).
    rewrite Atr, Htrc. subst sb. cbn. rewrite Htr0. exact Hidle.
  - rewrite Hgo. reflexivity.
  - exact Hn'.
  - exact Hf'.
  - rewrite Hgo. change (events (host (afterSlideChange target false sc)) =
                         events (host s) ++ [target]).
    rewrite Aev, Hec. subst sb. cbn. rewrite He0. reflexivity.
  - rewrite Hgo. change (promises (host (afterSlideChange target false sc)) =
                         promises (host s)).
    rewrite Apr, Hpc. subst sb. cbn. exact Hp0.
  - intros t Hin. rewrite Hgo in Hin.
    change (In t (timers (host (afterSlideChange target false sc)))) in Hin.
    apply afterSlideChange_timers in Hin.
    destruct Hin as [Hin | (_ & _ & _ & n & Ha)]; [| right; rewrite Ha; reflexivity].
    destruct (Htc t Hin) as [Hb | (_ & Hq)]; [| right; exact Hq].
    change (In t (timers (host s0))) in Hb.
    destruct (Ht0 t Hb) as [Hs | (_ & Hq)]; [left; exact Hs | right; exact Hq].
  - apply (onlyVisible_moves cur target s s'); auto.
    intros j. rewrite Hf'.
    destruct (Z.eqb_spec j target) as [-> | _].
    + destruct (Z.eqb_spec target cur); [contradiction | reflexivity].
    + reflexivity.
  - apply (visibleCount_onlyVisible target); [rewrite Hn'; exact Htarget |].
    apply (onlyVisible_moves cur target s s'); auto.
    intros j. rewrite Hf'.
    destruct (Z.eqb_spec j target) as [-> | _].
    + destruct (Z.eqb_spec target cur); [contradiction | reflexivity].
    + reflexivity.
Qed.

Lemma goToSlide_without_transition_witness :
  let s' := goToSlide 9 false (restingAt appConfig 4) in
  isTransitioning (engine s') = false /\ currentSlide (engine s') = 9 /\
  events (host s') = events (host (restingAt appConfig 4)) ++ [9].
Proof.
  assert (E : boundsCheck 9 (restingAt appConfig 4) = 9) by (vm_compute; reflexivity).
  pose proof (goToSlide_without_transition (restingAt appConfig 4) 9 false) as H.
  cbv zeta in H. rewrite E in H. destruct H as (H1 & H2 & _ & _ & H5 & _).
  - vm_compute. reflexivity.
  - vm_compute. split; [discriminate | reflexivity].
  - vm_compute. discriminate.
  - left. reflexivity.
  - cbv zeta. split; [exact H1 |]. split; [exact H2 | exact H5].
Defined.

(** ** Revealing the animated children of a slide *)

Lemma revealTimers_ids (i stagger now : Z) (els : list AnimatedElement) :
  forall id n, map tid (revealTimers i stagger now id n els) = seq id (length els).
Proof.
  induction els as [| el rest IH]; intros id n; cbn; [reflexivity |].
  rewrite IH. reflexivity.
Qed.

Lemma revealTimers_nth (i stagger now : Z) (els : list AnimatedElement) :
  forall id n k, (k < length els)%nat ->
    exists t, In t (revealTimers i stagger now id n els) /\
              action t = RevealElement i (n + k).
Proof.
  induction els as [| el rest IH]; intros id n k Hk; [cbn in Hk; lia |].
  destruct k as [| k].
  - eexists. split; [left; reflexivity |]. cbn. rewrite Nat.add_0_r. reflexivity.
  - destruct (IH (S id) (S n) k) as (t & Hin & Ha); [cbn in Hk; lia |].
    exists t. split; [right; exact Hin |]. rewrite Ha. f_equal. lia.
Qed.

Lemma childrenOf_revealElement (i : Z) (n : nat) (s : State) :
  childrenOf i (revealElement i n s) =
    mapAt n (fun el => {| dataDelay := dataDelay el; animateIn := true |})
          (childrenOf i s).
Proof.
  unfold childrenOf, revealElement. cbn [setSlides onEngine engine slides].
  destruct (getSlide i (slides (engine s))) as [sl |] eqn:E.
  - rewrite (getSlide_updateSlide_same _ _ _ E). reflexivity.
  - unfold getSlide, updateSlide in *. destruct (i <? 0); [destruct n; reflexivity |].
    apply nth_error_None in E.
    rewrite (proj2 (nth_error_None _ _)); [destruct n; reflexivity |].
    rewrite mapAt_length. exact E.
Qed.

Lemma NoDup_map_filter {A B} (g : A -> B) (f : A -> bool) (l : list A) :
  NoDup (map g l) -> NoDup (map g (filter f l)).
Proof.
  induction l as [| x l IH]; cbn; intros H; [constructor |].
  inversion H as [| ? ? Hx Hl]; subst.
  destruct (f x); cbn; [| apply IH; exact Hl].
  constructor; [| apply IH; exact Hl].
  intros K. apply in_map_iff in K. destruct K as (y & Hy & Hin).
  apply filter_In in Hin. apply Hx. apply in_map_iff. exists y. tauto.
Qed.

Lemma NoDup_map_inj {A B} (g : A -> B) (l : list A) (x y : A) :
  NoDup (map g l) -> In x l -> In y l -> g x = g y -> x = y.
Proof.
  induction l as [| z l IH]; intros H Hx Hy E; [destruct Hx |].
  inversion H as [| ? ? Hz Hl]; subst.
  destruct Hx as [-> | Hx], Hy as [-> | Hy]; try reflexivity.
  - exfalso. apply Hz. rewrite E. apply in_map. exact Hy.
  - exfalso. apply Hz. rewrite <- E. apply in_map. exact Hx.
  - apply IH; assumption.
Qed.

Lemma nth_error_mapAt {A} (f : A -> A) (l : list A) :
  forall n m, nth_error (mapAt n f l) m =
              if Nat.eqb m n then option_map f (nth_error l m) else nth_error l m.
Proof.
  induction l as [| x l IH]; intros n m.
  - destruct n, m; cbn; try reflexivity. destruct (Nat.eqb m n); reflexivity.
  - destruct n as [| n], m as [| m]; cbn [mapAt nth_error Nat.eqb option_map];
      try reflexivity.
    apply IH.
Qed.

(** Firing a reveal timer keeps the table in that shape. *)
Lemma fire_revealing (i : Z) (tm : Timer) (s : State) :
  revealing i s -> In tm (timers (host s)) -> revealing i (fire tm s).
Proof.
  intros (Hnd & Hact & Hall) Hin.
  destruct (Hact tm Hin) as (n & Ha).
  assert (Ht : timers (host (fire tm s)) =
               filter (keptAfterClearing [tid tm]) (timers (host s))).
  { apply fire_quiet_view. rewrite Ha. reflexivity. }
  assert (Hch : childrenOf i (fire tm s) =
                mapAt n (fun el => {| dataDelay := dataDelay el; animateIn := true |})
                      (childrenOf i s)).
  { unfold fire. rewrite Ha. cbn [runAction].
    rewrite childrenOf_revealElement. reflexivity. }
  split; [| split].
  - rewrite Ht. apply NoDup_map_filter. exact Hnd.
  - intros t H. rewrite Ht in H. apply filter_In in H. apply Hact. tauto.
  - intros m el Hm. rewrite Hch, nth_error_mapAt in Hm.
    destruct (Nat.eqb_spec m n) as [-> | Hmn].
    + destruct (nth_error (childrenOf i s) n); [| discriminate].
      injection Hm as <-. left. reflexivity.
    + destruct (Hall m el Hm) as [Hs | (t & Htin & Hta)]; [left; exact Hs |].
      right. exists t. split; [| exact Hta].
      rewrite Ht. apply filter_In. split; [exact Htin |].
      apply keptAfterClearing_other. intros E.
      assert (t = tm) by (apply (NoDup_map_inj tid (timers (host s))); assumption).
      subst t. rewrite Ha in Hta. injection Hta as ->. contradiction.
Qed.

Lemma run_revealing (i : Z) (fuel : nat) :
  forall s, revealing i s ->
            revealing i (run fuel s) /\
            map dataDelay (childrenOf i (run fuel s)) = map dataDelay (childrenOf i s).
Proof.
  induction fuel as [| fuel IH]; intros s Hr; [split; [exact Hr | reflexivity] |].
  cbn [run]. destruct (nextTimer s) as [tm |] eqn:Hnext;
    [| split; [exact Hr | reflexivity]].
  destruct (nextTimer_spec s Hnext) as (Hin & _).
  destruct (IH (fire tm s) (fire_revealing i tm s Hr Hin)) as (H1 & H2).
  split; [exact H1 |]. rewrite H2.
  destruct Hr as (_ & Hact & _). destruct (Hact tm Hin) as (n & Ha).
  unfold fire. rewrite Ha. cbn [runAction].
  rewrite childrenOf_revealElement. apply map_mapAt_keeps. reflexivity.
Qed.

(** X5.  [triggerSlideAnimations(slide)] called with no timer pending sets
    one timer per animated child, child [n] due [data-delay + n *
    staggerDelay] ms later (at once if that is negative), in document
    order.  When these timers have run, whatever their order, every
    animated child of the slide is shown, no timer is left, and the hidden
    flags, the current index, the events and the promises are as they
    were. *)
Theorem reveal_timers_show_every_child (s : State) (i : Z) (fuel : nat) :
  let s1 := triggerSlideAnimations i s in
  let s' := run fuel s1 in
  timers (host s) = [] ->
  (length (childrenOf i s) <= fuel)%nat ->
  timers (host s1) =
    revealTimers i (staggerDelay (config (engine s))) (now (host s))
                 (nextTimerId (host s)) 0 (childrenOf i s) /\
  timers (host s') = [] /\
  (forall el, In el (childrenOf i s') -> animateIn el = true) /\
  map dataDelay (childrenOf i s') = map dataDelay (childrenOf i s) /\
  navView s' = navView s /\
  events (host s') = events (host s) /\
  promises (host s') = promises (host s).
Proof.
  intros s1 s' Hempty Hfuel.
  assert (Hch1 : childrenOf i s1 = childrenOf i s).
  { destruct (triggerSlideAnimations_frame i s) as (He & _).
    unfold childrenOf. fold s1 in He. rewrite He. reflexivity. }
  assert (Ht1 : timers (host s1) =
                revealTimers i (staggerDelay (config (engine s))) (now (host s))
                             (nextTimerId (host s)) 0 (childrenOf i s)).
  { subst s1. unfold triggerSlideAnimations, childrenOf.
    destruct (getSlide i (slides (engine s))) as [sl |]; [| exact Hempty].
    destruct (scheduleReveals_timers i (staggerDelay (config (engine s)))
                (animatedElements sl) 0 s) as (Ht & _).
    cbv zeta in Ht. rewrite Ht, Hempty. reflexivity. }
  assert (Hr1 : revealing i s1).
  { split; [| split].
    - rewrite Ht1, revealTimers_ids. apply seq_NoDup.
    - intros t Hin. rewrite Ht1 in Hin. apply revealTimers_In in Hin.
      destruct Hin as (k & _ & Ha & _). exists (0 + k)%nat. exact Ha.
    - intros n el Hn. right. rewrite Hch1 in Hn.
      assert (Hlt : (n < length (childrenOf i s))%nat)
        by (apply nth_error_Some; rewrite Hn; discriminate).
      destruct (revealTimers_nth i (staggerDelay (config (engine s))) (now (host s))
                  (childrenOf i s) (nextTimerId (host s)) 0 n Hlt) as (t & Hin & Ha).
      exists t. rewrite Ht1. split; [exact Hin | exact Ha]. }
  assert (Hlen1 : (length (timers (host s1)) <= fuel)%nat).
  { rewrite Ht1, <- (length_map tid), revealTimers_ids, length_seq. exact Hfuel. }
  destruct (run_quiet fuel s1) as (Gt & Gv & Gp & Ge & _).
  { intros t Hin. destruct Hr1 as (_ & Hact & _).
    destruct (Hact t Hin) as (n & ->). reflexivity. }
  { exact Hlen1. }
  fold s' in Gt, Gv, Gp, Ge.
  destruct (run_revealing i fuel s1 Hr1) as ((_ & _ & Hall) & Hdd).
  fold s' in Hall, Hdd.
  destruct (Repaints_triggerSlideAnimations i s) as (Hv1 & Hp1 & He1 & _).
  fold s1 in Hv1, Hp1, He1.
  repeat split; try congruence.
  - intros el Hin. apply In_nth_error in Hin. destruct Hin as (n & Hn).
    destruct (Hall n el Hn) as [H | (t & Hin & _)]; [exact H |].
    rewrite Gt in Hin. destruct Hin.
Qed.

Lemma reveal_timers_show_every_child_witness :
  let s := restingAt appConfig 4 in
  let s' := run 2 (triggerSlideAnimations 6 s) in
  timers (host s') = [] /\
  forall el, In el (childrenOf 6 s') -> animateIn el = true.
Proof.
  pose proof (reveal_timers_show_every_child (restingAt appConfig 4) 6 2) as H.
  cbv zeta in H. destruct H as (_ & H2 & H3 & _).
  - vm_compute. reflexivity.
  - vm_compute. lia.
  - cbv zeta. split; [exact H2 | exact H3].
Defined.

(** ** Requests beyond the ends of the deck *)

Lemma boundsCheck_idempotent (index : Z) (s : State) :
  0 < slideCount s -> boundsCheck (boundsCheck index s) s = boundsCheck index s.
Proof.
  intros Hn. apply boundsCheck_in_range. apply boundsCheck_range. exact Hn.
Qed.

(** X6.  On an idle engine with at least one slide, a request for an index
    outside the deck is the request for the index the bounds check maps it
    to: the last or first slide, or with [loop] the opposite end.  So,
    without [loop], [prev()] on the first slide and [next()] on the last
    change nothing, and neither does [first()] on the first slide or
    [last()] on the last, with or without [loop]. *)
Theorem goToSlide_clamps_index (s : State) (index : Z) (animate : bool) :
  let n := slideCount s in
  let cur := currentSlide (engine s) in
  isTransitioning (engine s) = false ->
  0 < n ->
  goToSlide index animate s = goToSlide (boundsCheck index s) animate s /\
  (loop (config (engine s)) = false -> cur = 0 -> prev s = s) /\
  (loop (config (engine s)) = false -> cur = n - 1 -> next s = s) /\
  (cur = 0 -> first s = s) /\
  (cur = n - 1 -> last s = s).
Proof.
  intros n cur Hidle Hn.
  assert (Hsame : forall i, boundsCheck i s = cur -> goToSlide i true s = s).
  { intros i Hi. unfold goToSlide. rewrite Hidle. cbn [andb].
    rewrite Hi. fold cur. rewrite Z.eqb_refl. reflexivity. }
  split; [| repeat split].
  - unfold goToSlide. rewrite Hidle. cbn [andb].
    rewrite boundsCheck_idempotent by exact Hn. reflexivity.
  - intros Hloop Hcur. unfold prev. apply Hsame.
    unfold boundsCheck. fold cur. rewrite Hcur, Hloop. reflexivity.
  - intros Hloop Hcur. unfold next. apply Hsame.
    rewrite boundsCheck_past_end by (fold cur n; lia).
    rewrite Hloop. fold n. lia.
  - intros Hcur. unfold first. apply Hsame.
    rewrite boundsCheck_in_range by (fold n; lia). lia.
  - intros Hcur. unfold last. apply Hsame.
    rewrite boundsCheck_in_range by (fold n; lia). fold n. lia.
Qed.

Lemma goToSlide_clamps_index_witness :
  let s := restingAt appConfig 11 in
  goToSlide 40 true s = goToSlide (boundsCheck 40 s) true s /\ last s = s.
Proof.
  pose proof (goToSlide_clamps_index (restingAt appConfig 11) 40 true) as H.
  cbv zeta in H. destruct H as (H1 & _ & _ & _ & H5).
  - vm_compute. reflexivity.
  - vm_compute. reflexivity.
  - cbv zeta. split; [exact H1 |]. apply H5. vm_compute. reflexivity.
Defined.

(** ** The interruption block of [goToSlide] *)

Lemma cancelTimelineAnimation_records (s : State) :
  let s' := cancelTimelineAnimation s in
  timers (host s') =
    filter (keptAfterClearing (timelineTimeouts (animator s))) (timers (host s)) /\
  (nextTimerId (host s') = nextTimerId (host s) /\ engine s' = engine s /\
   promises (host s') = promises (host s) /\ events (host s') = events (host s)) /\
  timelineDom (animator s') = timelineDom (animator s) /\
  timelineTimeouts (animator s') = [] /\
  slide10To11Timeouts (animator s') = slide10To11Timeouts (animator s) /\
  slide12SplitTimeouts (animator s') = slide12SplitTimeouts (animator s) /\
  slide12ReverseTimeouts (animator s') = slide12ReverseTimeouts (animator s) /\
  slide12ExpansionTimeout (animator s') = slide12ExpansionTimeout (animator s).
Proof.
  unfold cancelTimelineAnimation, andThen. rewrite clearTimeouts_eq.
  repeat split; reflexivity.
Qed.

Lemma cancelSlide10To11Swoop_records (s : State) :
  let s' := cancelSlide10To11Swoop s in
  timers (host s') =
    filter (keptAfterClearing (slide10To11Timeouts (animator s))) (timers (host s)) /\
  (nextTimerId (host s') = nextTimerId (host s) /\ engine s' = engine s /\
   promises (host s') = promises (host s) /\ events (host s') = events (host s)) /\
  timelineDom (animator s') = timelineDom (animator s) /\
  timelineTimeouts (animator s') = timelineTimeouts (animator s) /\
  slide10To11Timeouts (animator s') = [] /\
  slide12SplitTimeouts (animator s') = slide12SplitTimeouts (animator s) /\
  slide12ReverseTimeouts (animator s') = slide12ReverseTimeouts (animator s) /\
  slide12ExpansionTimeout (animator s') = slide12ExpansionTimeout (animator s).
Proof.
  unfold cancelSlide10To11Swoop, andThen. rewrite clearTimeouts_eq.
  repeat split; reflexivity.
Qed.

Lemma cancelSlide12Split_records (s : State) :
  let s' := cancelSlide12Split s in
  timers (host s') =
    filter (keptAfterClearing (slide12ReverseTimeouts (animator s)))
      (filter (keptAfterClearing (slide12SplitTimeouts (animator s)))
              (timers (host s))) /\
  (nextTimerId (host s') = nextTimerId (host s) /\ engine s' = engine s /\
   promises (host s') = promises (host s) /\ events (host s') = events (host s)) /\
  timelineDom (animator s') = timelineDom (animator s) /\
  timelineTimeouts (animator s') = timelineTimeouts (animator s) /\
  slide10To11Timeouts (animator s') = slide10To11Timeouts (animator s) /\
  slide12SplitTimeouts (animator s') = [] /\
  slide12ReverseTimeouts (animator s') = [] /\
  slide12ExpansionTimeout (animator s') = slide12ExpansionTimeout (animator s) /\
  isAnimating (animator s') = false.
Proof.
  unfold cancelSlide12Split, andThen, whenS. rewrite !clearTimeouts_eq.
  match goal with
  | |- context [if ?b then _ else _] => destruct b
  end; repeat split; reflexivity.
Qed.

Lemma cancelSlide12Expansion_records (s : State) :
  let s' := cancelSlide12Expansion s in
  timers (host s') =
    filter (keptAfterClearing (recordedTimers Expansion s)) (timers (host s)) /\
  (nextTimerId (host s') = nextTimerId (host s) /\ engine s' = engine s /\
   promises (host s') = promises (host s) /\ events (host s') = events (host s)) /\
  timelineDom (animator s') = timelineDom (animator s) /\
  timelineTimeouts (animator s') = timelineTimeouts (animator s) /\
  slide10To11Timeouts (animator s') = slide10To11Timeouts (animator s) /\
  slide12SplitTimeouts (animator s') = slide12SplitTimeouts (animator s) /\
  slide12ReverseTimeouts (animator s') = slide12ReverseTimeouts (animator s) /\
  recordedTimers Expansion s' = [] /\
  isAnimating (animator s') = isAnimating (animator s).
Proof.
  unfold cancelSlide12Expansion, recordedTimers.
  destruct (slide12ExpansionTimeout (animator s)) as [id |] eqn:Ex;
    [destruct (Nat.eqb id 0) eqn:E0 |]; rewrite ?clearTimeout_eq, ?Ex, ?E0;
    repeat split; try reflexivity;
    symmetry; apply filter_all_kept; reflexivity.
Qed.

Lemma cancelLineAnimations_effect (s : State) :
  let s' := cancelLineAnimations s in
  timers (host s') =
    filter (keptAfterClearing (recordedTimers Expansion s))
      (filter (keptAfterClearing (slide12ReverseTimeouts (animator s)))
         (filter (keptAfterClearing (slide12SplitTimeouts (animator s)))
            (filter (keptAfterClearing (slide10To11Timeouts (animator s)))
               (filter (keptAfterClearing (timelineTimeouts (animator s)))
                  (timers (host s)))))) /\
  (nextTimerId (host s') = nextTimerId (host s) /\ engine s' = engine s /\
   promises (host s') = promises (host s) /\ events (host s') = events (host s)) /\
  isAnimating (animator s') = false /\
  timelineDom (animator s') = timelineDom (animator s) /\
  forall q, recordsTimers q = true -> recordedTimers q s' = [].
Proof.
  unfold cancelLineAnimations. rewrite !andThen_apply.
  set (s1 := cancelTimelineAnimation s).
  set (s2 := cancelSlide10To11Swoop s1).
  set (s3 := cancelSlide12Split s2).
  destruct (cancelTimelineAnimation_records s)
    as (A1 & (A2 & A3 & A4 & A5) & A6 & A7 & A8 & A9 & A10 & A11).
  destruct (cancelSlide10To11Swoop_records s1)
    as (B1 & (B2 & B3 & B4 & B5) & B6 & B7 & B8 & B9 & B10 & B11).
  destruct (cancelSlide12Split_records s2)
    as (C1 & (C2 & C3 & C4 & C5) & C6 & C7 & C8 & C9 & C10 & C11 & C12).
  destruct (cancelSlide12Expansion_records s3)
    as (D1 & (D2 & D3 & D4 & D5) & D6 & D7 & D8 & D9 & D10 & D11 & D12).
  cbv zeta in *. fold s1 in A1, A2, A3, A4, A5, A6, A7, A8, A9, A10, A11.
  fold s2 in B1, B2, B3, B4, B5, B6, B7, B8, B9, B10, B11.
  fold s3 in C1, C2, C3, C4, C5, C6, C7, C8, C9, C10, C11, C12.
  assert (R3 : recordedTimers Expansion s3 = recordedTimers Expansion s).
  { unfold recordedTimers. rewrite C11, B11, A11. reflexivity. }
  split.
  { rewrite D1, R3, C1, B10, B9, A10, A9, B1, A8, A1. reflexivity. }
  repeat split; try congruence.
  intros q Hq. destruct q; try discriminate Hq; try exact D11;
    cbn [recordedTimers]; congruence.
Qed.

Lemma forceReset_visible (a b : Z) (l : list Slide) :
  forall i0,
    (length (filter (fun sl => negb (slideHidden sl))
               (mapIndexed (fun i sl => if (negb (i =? a) && negb (i =? b))%Z
                                        then hide sl else sl) i0 l))
     <= (if (i0 <=? a)%Z then 1 else 0) + (if (i0 <=? b)%Z then 1 else 0))%nat.
Proof.
  induction l as [| x l IH]; intros i0; cbn [mapIndexed filter length]; [lia |].
  specialize (IH (i0 + 1)).
  destruct (Z.eqb_spec i0 a) as [Ha | Ha], (Z.eqb_spec i0 b) as [Hb | Hb];
    cbn [negb andb hide slideHidden];
    try destruct (negb (slideHidden x)); cbn [length];
    destruct (Z.leb_spec i0 a), (Z.leb_spec i0 b),
      (Z.leb_spec (i0 + 1) a), (Z.leb_spec (i0 + 1) b); lia.
Qed.

Lemma hiddenFlag_forceReset (index j : Z) (s : State) :
  0 <= j < slideCount s ->
  hiddenFlag j (forceResetStuckSlides index s) =
    if negb (j =? currentSlide (engine s)) && negb (j =? index) then true
    else hiddenFlag j s.
Proof.
  intros Hj. unfold hiddenFlag, forceResetStuckSlides, getSlide.
  cbn [setSlides onEngine engine slides].
  destruct (Z.ltb_spec j 0); [lia |].
  rewrite nth_error_mapIndexed. rewrite Z.add_0_l, Z2Nat.id by lia.
  unfold slideCount in Hj.
  destruct (nth_error (slides (engine s)) (Z.to_nat j)) as [sl |] eqn:E.
  - cbn [option_map].
    destruct (negb (j =? currentSlide (engine s)) && negb (j =? index)); reflexivity.
  - apply nth_error_None in E. lia.
Qed.

Lemma keptAfterClearing_intro (ids : list nat) (t : Timer) :
  ~ In (tid t) ids -> keptAfterClearing ids t = true.
Proof.
  intros H. unfold keptAfterClearing. apply negb_true_iff.
  destruct (existsb (Nat.eqb (tid t)) ids) eqn:E; [| reflexivity].
  exfalso. apply H. apply existsb_exists in E. destruct E as (id & Hin & Heq).
  apply Nat.eqb_eq in Heq. rewrite Heq. exact Hin.
Qed.

(** X7.  A request for another slide that arrives during a transition is
    the interruption block followed by the same request on an idle
    engine.  The block leaves the current index alone, hides every slide
    but the current one and the requested one (at most two stay visible),
    and, with the animator attached, clears every timer the animator has on
    record, so no recording choreography has a live timer.  It settles no
    promise and clears no timer whose id is on no record: the two timers of
    the transition under way stay pending. *)
Theorem goToSlide_interrupts (s : State) (index : Z) (animate : bool) :
  let cur := currentSlide (engine s) in
  let s0 := interrupt index s in
  isTransitioning (engine s) = true ->
  index <> cur ->
  Tracked s ->
  goToSlide index animate s = goToSlide index animate s0 /\
  isTransitioning (engine s0) = false /\
  currentSlide (engine s0) = cur /\
  promises (host s0) = promises (host s) /\
  (forall j, 0 <= j < slideCount s ->
             hiddenFlag j s0 =
             if negb (j =? cur) && negb (j =? index) then true else hiddenFlag j s) /\
  (visibleCount s0 <= 2)%nat /\
  (forall t, In t (timers (host s0)) -> In t (timers (host s))) /\
  (forall t, In t (timers (host s)) ->
             (forall q, ~ In (tid t) (recordedTimers q s)) ->
             In t (timers (host s0))) /\
  (lineAnimatorAttached (engine s) = true ->
   forall q, recordsTimers q = true -> liveTimers q s0 = []).
Proof.
  intros cur s0 Htr Hne (_ & _ & Hrec & _).
  set (sc := when (lineAnimatorAttached (engine s)) cancelLineAnimations s).
  assert (Hsc : engine sc = engine s /\ promises (host sc) = promises (host s)).
  { subst sc. unfold when. destruct (lineAnimatorAttached (engine s)); [| split; reflexivity].
    destruct (cancelLineAnimations_effect s) as (_ & (_ & He & Hp & _) & _).
    split; assumption. }
  destruct Hsc as (Hec & Hpc).
  assert (Ht0 : timers (host s0) = timers (host sc)) by reflexivity.
  split; [| repeat split].
  - unfold goToSlide at 1. rewrite Htr. cbn [andb].
    destruct (Z.eqb_spec index (currentSlide (engine s))) as [E | _]; [contradiction |].
    unfold goToSlide.
    change (isTransitioning (engine s0)) with false. cbn [andb]. reflexivity.
  - subst s0. unfold interrupt. fold sc. cbn. rewrite Hec. reflexivity.
  - exact Hpc.
  - intros j Hj. subst s0. unfold interrupt. fold sc.
    change (hiddenFlag j (forceResetStuckSlides index sc) =
            if negb (j =? cur) && negb (j =? index) then true else hiddenFlag j s).
    rewrite hiddenFlag_forceReset by (unfold slideCount; rewrite Hec; exact Hj).
    rewrite Hec. fold cur.
    rewrite (hiddenFlag_by_slides j s sc) by (rewrite Hec; reflexivity).
    reflexivity.
  - subst s0. unfold interrupt, visibleCount, forceResetStuckSlides. fold sc. cbn.
    eapply Nat.le_trans; [apply forceReset_visible |].
    destruct (0 <=? currentSlide (engine sc)), (0 <=? index); lia.
  - intros t Hin. rewrite Ht0 in Hin. subst sc. unfold when in Hin.
    destruct (lineAnimatorAttached (engine s)); [| exact Hin].
    destruct (cancelLineAnimations_effect s) as (Ht & _). cbv zeta in Ht.
    rewrite Ht in Hin.
    repeat (apply filter_In in Hin; destruct Hin as [Hin _]). exact Hin.
  - intros t Hin Hfree. rewrite Ht0. subst sc. unfold when.
    destruct (lineAnimatorAttached (engine s)); [| exact Hin].
    destruct (cancelLineAnimations_effect s) as (Ht & _). cbv zeta in Ht.
    rewrite Ht.
    repeat (apply filter_In; split);
      [exact Hin | apply keptAfterClearing_intro, (Hfree TimelineReveal)
                 | apply keptAfterClearing_intro, (Hfree Swoop10To11)
                 | apply keptAfterClearing_intro, (Hfree Split)
                 | apply keptAfterClearing_intro, (Hfree ReverseSplit)
                 | apply keptAfterClearing_intro, (Hfree Expansion)].
  - intros Hla q Hq. apply liveTimers_nil. intros t Hin.
    rewrite Ht0 in Hin. subst sc. unfold when in Hin. rewrite Hla in Hin.
    destruct (cancelLineAnimations_effect s) as (Ht & _). cbv zeta in Ht.
    rewrite Ht in Hin.
    destruct (belongsTo q t) eqn:Hb; [exfalso | reflexivity].
    destruct (recordsTimers_not_swoop q Hq) as (Hf & Hbk).
    apply filter_In in Hin. destruct Hin as [Hin Kex].
    apply filter_In in Hin. destruct Hin as [Hin Krv].
    apply filter_In in Hin. destruct Hin as [Hin Ksp].
    apply filter_In in Hin. destruct Hin as [Hin Ksw].
    apply filter_In in Hin. destruct Hin as [Hin Ktl].
    pose proof (Hrec q t Hin Hb Hf Hbk) as Hid.
    apply keptAfterClearing_false in Hid.
    destruct q; try discriminate Hq; try congruence;
      cbn [recordedTimers] in Hid; congruence.
Qed.

Lemma goToSlide_interrupts_witness :
  let s := goToSlide 10 true (restingAt appConfig 9) in
  liveTimers Swoop10To11 s = [25; 26; 27]%nat /\
  goToSlide 3 true s = goToSlide 3 true (interrupt 3 s) /\
  liveTimers Swoop10To11 (interrupt 3 s) = [].
Proof.
  pose proof (goToSlide_interrupts (goToSlide 10 true (restingAt appConfig 9)) 3 true)
    as H.
  cbv zeta in H. destruct H as (H1 & _ & _ & _ & _ & _ & _ & _ & H9).
  - vm_compute. reflexivity.
  - vm_compute. discriminate.
  - apply trackedb_sound. vm_compute. reflexivity.
  - cbv zeta. split; [vm_compute; reflexivity |]. split; [exact H1 |].
    apply H9; vm_compute; reflexivity.
Defined.

(** * Beside the engine: scaling, chart colours, chart reordering, the timeline *)


(** * SlideScaler *)

Lemma slideScale_cases (hasFooter : bool) (c v p f : Z) :
  let avail := v - (p + (if hasFooter then f else 0)) in
  (c <= avail \/ c <= 0) /\ slideScale hasFooter c v p f = 1%Q \/
  (avail < c /\ 0 < c) /\
  slideScale hasFooter c v p f = Qmax (6 # 10) (inject_Z avail / inject_Z c).
Proof.
  intros avail. unfold slideScale. fold avail.
  destruct (Z.gtb_spec c avail), (Z.gtb_spec c 0); cbn [andb];
    [right | left | left | left]; (split; [lia | reflexivity]).
Qed.

Lemma Qdiv_lt_1 (a c : Z) : (a < c)%Z -> (0 < c)%Z -> (inject_Z a / inject_Z c < 1)%Q.
Proof.
  intros Hac Hc. apply Qlt_shift_div_r.
  - change 0%Q with (inject_Z 0). rewrite <- Zlt_Qlt. exact Hc.
  - rewrite Qmult_1_l. rewrite <- Zlt_Qlt. exact Hac.
Qed.

(** X8.  [updateSlideScale] never enlarges and never shrinks below 0.6:
    the scale lies between 0.6 and 1.  Content that fits the height left by
    padding and footer (or has no height) is left unscaled, with
    [transform: none] and [height: auto]; otherwise the wrapper is scaled
    and its height pinned to the content height.  When the content is at
    most 1/0.6 times the available height the scaled content fills the
    available height exactly; beyond that the scale stays at 0.6 and the
    scaled content is still taller than the space available.  A taller
    viewport never gives a smaller scale. *)
Theorem slide_scale_fits_or_bottoms_out (hasFooter : bool) (c v p f : Z) :
  let avail := v - (p + (if hasFooter then f else 0)) in
  let k := slideScale hasFooter c v p f in
  ((6 # 10) <= k <= 1)%Q /\
  ((c <= avail \/ c <= 0) ->
   updateSlideScale hasFooter c v p f =
     {| wrapperScale := None; wrapperHeight := None |}) /\
  (avail < c -> 0 < c ->
   updateSlideScale hasFooter c v p f =
     {| wrapperScale := Some k; wrapperHeight := Some c |} /\ (k < 1)%Q) /\
  (avail < c -> 6 * c <= 10 * avail -> (k * inject_Z c == inject_Z avail)%Q) /\
  (0 < c -> 10 * avail < 6 * c ->
   (k == 6 # 10)%Q /\ (inject_Z avail < k * inject_Z c)%Q) /\
  (forall v', v <= v' -> (k <= slideScale hasFooter c v' p f)%Q).
Proof.
  intros avail k.
  assert (Hk : ((6 # 10) <= k <= 1)%Q).
  { subst k. destruct (slideScale_cases hasFooter c v p f) as [(_ & ->) | ((Ha & Hc) & ->)].
    - split; [discriminate | apply Qle_refl].
    - fold avail. split; [apply Q.le_max_l |].
      apply Q.max_lub; [discriminate |].
      apply Qlt_le_weak, Qdiv_lt_1; assumption. }
  split; [exact Hk |]. split; [| split; [| split; [| split]]].
  - intros Hfit. unfold updateSlideScale. fold k.
    destruct (slideScale_cases hasFooter c v p f) as [(_ & E) | ((Ha & Hc) & _)];
      [| fold avail in Ha; lia].
    fold k in E. destruct (Qlt_le_dec k 1) as [Hlt | _]; [| reflexivity].
    rewrite E in Hlt. discriminate Hlt.
  - intros Ha Hc. unfold updateSlideScale. fold k.
    assert (Hlt : (k < 1)%Q).
    { subst k. destruct (slideScale_cases hasFooter c v p f) as [(Hfit & _) | (_ & ->)];
        [fold avail in Hfit; lia |].
      fold avail. apply Q.max_lub_lt; [reflexivity | apply Qdiv_lt_1; assumption]. }
    split; [| exact Hlt].
    destruct (Qlt_le_dec k 1) as [_ | Hge]; [reflexivity |].
    exfalso. apply (Qlt_not_le _ _ Hlt Hge).
  - intros Ha Hfill.
    assert (Hc : 0 < c) by lia.
    subst k. destruct (slideScale_cases hasFooter c v p f) as [(Hfit & _) | (_ & ->)];
      [fold avail in Hfit; lia |].
    fold avail.
    assert (Hcq : (0 < inject_Z c)%Q)
      by (change 0%Q with (inject_Z 0); rewrite <- Zlt_Qlt; exact Hc).
    rewrite Q.max_r.
    + field. intros E. rewrite E in Hcq. discriminate Hcq.
    + apply Qle_shift_div_l; [exact Hcq |].
      unfold Qle, Qmult, inject_Z. cbn -[Z.mul]. lia.
  - intros Hc Hover.
    assert (Hcq : (0 < inject_Z c)%Q)
      by (change 0%Q with (inject_Z 0); rewrite <- Zlt_Qlt; exact Hc).
    assert (Ha : avail < c) by lia.
    subst k. destruct (slideScale_cases hasFooter c v p f) as [(Hfit & _) | (_ & ->)];
      [fold avail in Hfit; lia |].
    fold avail.
    assert (Hsmall : (inject_Z avail / inject_Z c <= 6 # 10)%Q).
    { apply Qle_shift_div_r; [exact Hcq |].
      unfold Qle, Qmult, inject_Z. cbn -[Z.mul]. lia. }
    rewrite (Q.max_l _ _ Hsmall). split; [reflexivity |].
    unfold Qlt, Qmult, inject_Z. cbn -[Z.mul]. lia.
  - intros v' Hv. subst k. unfold slideScale.
    set (a := v - (p + (if hasFooter then f else 0))).
    set (a' := v' - (p + (if hasFooter then f else 0))).
    assert (Haa : a <= a') by (subst a a'; lia).
    destruct (Z.gtb_spec c a), (Z.gtb_spec c a'), (Z.gtb_spec c 0); cbn [andb];
      try apply Qle_refl; try lia.
    + apply Q.max_lub; [apply Q.le_max_l |].
      eapply Qle_trans; [| apply Q.le_max_r].
      assert (Hcq : (0 < inject_Z c)%Q)
        by (change 0%Q with (inject_Z 0); rewrite <- Zlt_Qlt; assumption).
      apply Qdiv_le_mono; [exact Hcq |].
      rewrite <- Zle_Qle. exact Haa.
    + apply Q.max_lub; [discriminate |].
      apply Qlt_le_weak, Qdiv_lt_1; assumption.
Qed.

Lemma slide_scale_fits_or_bottoms_out_witness :
  updateSlideScale true 1000 800 60 40 =
    {| wrapperScale := Some (slideScale true 1000 800 60 40);
       wrapperHeight := Some 1000 |} /\
  (slideScale true 1000 800 60 40 * inject_Z 1000 == inject_Z 700)%Q.
Proof.
  pose proof (slide_scale_fits_or_bottoms_out true 1000 800 60 40) as H.
  cbv zeta in H. destruct H as (_ & _ & H3 & H4 & _).
  split.
  - apply H3; reflexivity.
  - apply H4; [reflexivity | discriminate].
Defined.



(** * ChartFactory *)

Open Scope Q_scope.

Lemma nonempty_In {A} (l : list A) : l <> [] -> exists x, In x l.
Proof. destruct l as [| x l]; [congruence | intros _; exists x; left; reflexivity]. Qed.

Lemma toDouble_Finite_inv (x r : Q) :
  0 <= x -> toDouble x = Finite r -> r = fl x /\ fl x < pow2 1024.
Proof.
  intros Hx E. destruct (toDouble_nonneg x Hx) as [(E' & Hlt) | (E' & _)];
    rewrite E' in E; [| discriminate E].
  injection E as <-. split; [reflexivity | exact Hlt].
Qed.

Lemma minOf_finite (values : list Q) :
  values <> [] ->
  exists m, minOf (map Finite values) = Finite m /\ In m values /\
            forall v, In v values -> m <= v.
Proof.
  induction values as [| x rest IH]; [congruence |]. intros _.
  destruct rest as [| y rest'].
  - exists x. cbn. split; [reflexivity |]. split; [left; reflexivity |].
    intros v [<- | []]. apply Qle_refl.
  - destruct IH as (m & E & Hin & Hmin); [discriminate |].
    cbn [map minOf fold_right] in *. unfold minOf in E. rewrite E.
    unfold mathMin, numLt. destruct (Qle_bool x m) eqn:Ec; cbn [negb].
    + apply Qle_bool_iff in Ec. exists x. split; [reflexivity |].
      split; [left; reflexivity |].
      intros v [<- | Hv]; [apply Qle_refl |]. specialize (Hmin v Hv). lra.
    + assert (Hlt : m < x).
      { apply Qnot_le_lt. intros H. apply Qle_bool_iff in H. congruence. }
      exists m. split; [reflexivity |]. split; [right; exact Hin |].
      intros v [<- | Hv]; [lra | apply Hmin, Hv].
Qed.

Lemma maxOf_finite (values : list Q) :
  values <> [] ->
  exists m, maxOf (map Finite values) = Finite m /\ In m values /\
            forall v, In v values -> v <= m.
Proof.
  induction values as [| x rest IH]; [congruence |]. intros _.
  destruct rest as [| y rest'].
  - exists x. cbn. split; [reflexivity |]. split; [left; reflexivity |].
    intros v [<- | []]. apply Qle_refl.
  - destruct IH as (m & E & Hin & Hmax); [discriminate |].
    cbn [map maxOf fold_right] in *. unfold maxOf in E. rewrite E.
    unfold mathMax, numLt. destruct (Qle_bool m x) eqn:Ec; cbn [negb].
    + apply Qle_bool_iff in Ec. exists x. split; [reflexivity |].
      split; [left; reflexivity |].
      intros v [<- | Hv]; [apply Qle_refl |]. specialize (Hmax v Hv). lra.
    + assert (Hlt : x < m).
      { apply Qnot_le_lt. intros H. apply Qle_bool_iff in H. congruence. }
      exists m. split; [reflexivity |]. split; [right; exact Hin |].
      intros v [<- | Hv]; [lra | apply Hmax, Hv].
Qed.

Lemma gradientLast_eq : gradientLast = Finite 7.
Proof. vm_compute. reflexivity. Qed.

Lemma mathRoundNum_whole (x : Q) (n : Z) :
  (0 <= n)%Z -> 0 <= x <= inject_Z n ->
  (0 <= Qfloor (x + (1 # 2)) <= n)%Z.
Proof.
  intros Hn (H0 & H1). split.
  - change 0%Z with (Qfloor 0). apply Qfloor_resp_le. lra.
  - apply Z.lt_succ_r. rewrite Zlt_Qlt.
    apply Qle_lt_trans with (x + (1 # 2)); [apply Qfloor_le |].
    unfold Z.succ. rewrite inject_Z_plus. change (inject_Z 1) with 1. lra.
Qed.

Lemma elementAt_gradient (k : Z) :
  (0 <= k <= 7)%Z ->
  elementAt themeGradient (mathMin (Finite (inject_Z k)) gradientLast) =
    nth_error themeGradient (Z.to_nat k) /\
  exists col, nth_error themeGradient (Z.to_nat k) = Some col /\ In col themeGradient.
Proof.
  intros Hk. rewrite gradientLast_eq. unfold mathMin, numLt.
  assert (H7 : Qle_bool (inject_Z k) 7 = true)
    by (apply Qle_bool_iff; change 7 with (inject_Z 7); rewrite <- Zle_Qle; lia).
  rewrite H7. cbn [negb elementAt]. rewrite Qfloor_Z.
  assert (Hq : Qeq_bool (inject_Z k) (inject_Z k) = true)
    by (apply Qeq_bool_iff; reflexivity).
  rewrite Hq. destruct (Z.leb_spec 0 k) as [_ | H]; [| lia]. cbn [andb].
  split; [reflexivity |].
  destruct (nth_error themeGradient (Z.to_nat k)) as [col |] eqn:E.
  - exists col. split; [reflexivity |]. apply nth_error_In in E. exact E.
  - apply nth_error_None in E. cbn in E. lia.
Qed.

Section ColoursByValue.
Variables (values : list Q) (r : Q).
Let nums := map Finite values.
Hypothesis Hrange : numSub (maxOf nums) (minOf nums) = Finite r.

Let range : Q := if Qeq_bool r 0 then 1 else r.

(** The index of [v], every operation rounded. *)
Let indexQ (mn v : Q) : Q := fl (fl (fl (v - mn) / range) * 7).

Lemma values_nonempty : values <> [].
Proof. intros E. subst nums. rewrite E in Hrange. discriminate Hrange. Qed.

Lemma extremes :
  exists mn mx, minOf nums = Finite mn /\ maxOf nums = Finite mx /\
    In mn values /\ In mx values /\
    (forall v, In v values -> mn <= v <= mx) /\
    r = fl (mx - mn) /\ fl (mx - mn) < pow2 1024 /\ 0 <= r.
Proof.
  destruct (minOf_finite values values_nonempty) as (mn & Emn & Hmn & Hmin).
  destruct (maxOf_finite values values_nonempty) as (mx & Emx & Hmx & Hmax).
  exists mn, mx. fold nums in Emn, Emx.
  pose proof Hrange as E. rewrite Emn, Emx in E. cbn [numSub] in E.
  assert (Hd : 0 <= mx - mn) by (specialize (Hmin mx Hmx); lra).
  destruct (toDouble_Finite_inv _ _ Hd E) as (Er & Hlt).
  repeat split; try assumption; try (apply Hmin; assumption);
    try (apply Hmax; assumption).
  rewrite Er. apply fl_nonneg, Hd.
Qed.

Lemma range_pos : 0 < range.
Proof.
  destruct extremes as (_ & _ & _ & _ & _ & _ & _ & _ & _ & Hr).
  subst range. destruct (Qeq_bool r 0) eqn:E; [reflexivity |].
  apply Qeq_bool_neq in E. lra.
Qed.

Lemma index_steps (mn mx v : Q) :
  minOf nums = Finite mn -> maxOf nums = Finite mx ->
  (forall w, In w values -> mn <= w <= mx) ->
  r = fl (mx - mn) -> fl (mx - mn) < pow2 1024 ->
  In v values ->
  0 <= fl (v - mn) /\ fl (v - mn) <= r /\ fl (v - mn) < pow2 1024 /\
  0 <= fl (v - mn) / range <= 1 /\
  0 <= fl (fl (v - mn) / range) <= 1 /\
  0 <= indexQ mn v <= 7.
Proof.
  intros Emn Emx Hb Er Hlt Hv. pose proof range_pos as Hr.
  destruct (Hb v Hv) as (B1 & B2).
  assert (H0 : 0 <= fl (v - mn)) by (apply fl_nonneg; lra).
  assert (H1 : fl (v - mn) <= r) by (rewrite Er; apply fl_mono; lra).
  assert (H2 : fl (v - mn) < pow2 1024) by (rewrite Er in H1; lra).
  assert (H3 : 0 <= fl (v - mn) / range <= 1).
  { split; [apply Qle_shift_div_l; [exact Hr | lra] |].
    apply Qle_shift_div_r; [exact Hr |].
    subst range. destruct (Qeq_bool r 0) eqn:E.
    - apply Qeq_bool_iff in E. lra.
    - lra. }
  destruct (toDouble_unit _ (proj1 H3) (proj2 H3)) as (_ & H4).
  destruct (toDouble_bounded (fl (fl (v - mn) / range) * 7) 7) as (_ & H5);
    [lia | lra | change (inject_Z 7) with 7; lra |].
  repeat split; try assumption; try apply H3; try apply H4; apply H5.
Qed.

Lemma valueIndex_eq (mn mx v : Q) :
  minOf nums = Finite mn -> maxOf nums = Finite mx ->
  (forall w, In w values -> mn <= w <= mx) ->
  r = fl (mx - mn) -> fl (mx - mn) < pow2 1024 ->
  In v values ->
  valueIndex nums (Finite v) =
  Finite (inject_Z (Qfloor (indexQ mn v + (1 # 2)))).
Proof.
  intros Emn Emx Hb Er Hlt Hv. pose proof range_pos as Hr.
  destruct (index_steps mn mx v Emn Emx Hb Er Hlt Hv) as (H0 & H1 & H2 & H3 & H4 & H5).
  destruct (Hb v Hv) as (B1 & B2).
  unfold valueIndex. rewrite Hrange, Emn. cbn [numSub].
  rewrite (toDouble_below (v - mn)) by (lra || assumption).
  cbn [numOr]. fold range.
  assert (Erange : (if Qeq_bool r 0 then Finite 1 else Finite r) = Finite range)
    by (subst range; destruct (Qeq_bool r 0); reflexivity).
  rewrite Erange. cbn [numDiv].
  destruct (Qeq_bool range 0) eqn:E0; [apply Qeq_bool_iff in E0; lra |].
  destruct (toDouble_unit _ (proj1 H3) (proj2 H3)) as (-> & _).
  rewrite gradientLast_eq. cbn [numMul].
  destruct (toDouble_bounded (fl (fl (v - mn) / range) * 7) 7) as (-> & _);
    [lia | lra | change (inject_Z 7) with 7; lra |].
  reflexivity.
Qed.

Lemma indexQ_mono (mn mx v w : Q) :
  minOf nums = Finite mn -> maxOf nums = Finite mx ->
  (forall w, In w values -> mn <= w <= mx) ->
  r = fl (mx - mn) -> fl (mx - mn) < pow2 1024 ->
  In v values -> In w values -> v <= w -> indexQ mn v <= indexQ mn w.
Proof.
  intros Emn Emx Hb Er Hlt Hv Hw Hvw. pose proof range_pos as Hr.
  destruct (index_steps mn mx v Emn Emx Hb Er Hlt Hv) as (V0 & _ & _ & V3 & V4 & _).
  destruct (index_steps mn mx w Emn Emx Hb Er Hlt Hw) as (W0 & _ & _ & W3 & W4 & _).
  destruct (Hb v Hv) as (B1 & B2).
  assert (H1 : fl (v - mn) <= fl (w - mn)) by (apply fl_mono; lra).
  assert (H2 : fl (v - mn) / range <= fl (w - mn) / range).
  { unfold Qdiv. apply Qmult_le_compat_r; [exact H1 |].
    apply Qlt_le_weak, Qinv_lt_0_compat, Hr. }
  assert (H3 : fl (fl (v - mn) / range) <= fl (fl (w - mn) / range))
    by (apply fl_mono; [apply V3 | exact H2]).
  unfold indexQ. apply fl_mono; lra.
Qed.
End ColoursByValue.

Section GenerateColors.
Import Ascii String.
Local Open Scope string_scope.

(** X9.  [generateColors] colouring by value (the only way the two chart
    builders call it), in binary64, for finite values whose spread
    [max - min] does not overflow: one colour per value, always one of
    the eight gradient colours ([count] is ignored); the index never
    decreases with the value; a smallest value gets the first colour; a
    largest value gets the last colour unless the rounded spread is zero,
    in which case every value gets the first colour. *)
Theorem generateColors_by_value (count : nat) (values : list Q) (r : Q) :
  let nums := map Finite values in
  numSub (maxOf nums) (minOf nums) = Finite r ->
  let colors := generateColors count "gradient" (Some nums) in
  let index v := valueIndex nums (Finite v) in
  List.length colors = List.length values /\
  (forall i v, nth_error values i = Some v ->
     exists k : Z, (0 <= k <= 7)%Z /\ index v = Finite (inject_Z k) /\
       nth_error colors i = Some (nth_error themeGradient (Z.to_nat k)) /\
       exists col, nth_error themeGradient (Z.to_nat k) = Some col) /\
  (forall v w, In v values -> In w values -> (v <= w)%Q ->
               numLe (index v) (index w) = true) /\
  (forall v, In v values -> (forall w, In w values -> (v <= w)%Q) ->
             index v = Finite 0) /\
  (forall v, In v values -> (forall w, In w values -> (w <= v)%Q) ->
             ~ (r == 0)%Q -> index v = Finite 7) /\
  ((r == 0)%Q -> forall v, In v values -> index v = Finite 0).
Proof.
  intros nums Hrange colors index.
  destruct (extremes values r Hrange)
    as (mn & mx & Emn & Emx & Hmn & Hmx & Hb & Er & Hlt & Hr0).
  pose proof (range_pos values r Hrange) as Hrp.
  set (range := if Qeq_bool r 0 then 1%Q else r) in *.
  assert (Hidx : forall v, In v values ->
            index v = Finite (inject_Z (Qfloor
                        (fl (fl (fl (v - mn) / range) * 7) + (1 # 2)))) /\
            (0 <= Qfloor (fl (fl (fl (v - mn) / range) * 7) + (1 # 2)) <= 7)%Z).
  { intros v Hv. split.
    - apply (valueIndex_eq values r Hrange mn mx v Emn Emx Hb Er Hlt Hv).
    - destruct (index_steps values r Hrange mn mx v Emn Emx Hb Er Hlt Hv)
        as (_ & _ & _ & _ & _ & H).
      apply (mathRoundNum_whole _ 7); [lia | exact H]. }
  assert (Hzero : forall v, In v values -> (fl (v - mn) == 0)%Q -> index v = Finite 0).
  { intros v Hv E. destruct (Hidx v Hv) as (-> & _). do 2 f_equal.
    rewrite (fl_zero (fl (v - mn) / range)) by (rewrite E; unfold Qdiv; ring).
    rewrite (fl_zero (0 * 7)) by ring. reflexivity. }
  split; [| split; [| split; [| split; [| split]]]].
  - subst colors. unfold generateColors. cbn [String.eqb Ascii.eqb Bool.eqb].
    subst nums. rewrite !length_map. reflexivity.
  - intros i v Hi. pose proof (nth_error_In _ _ Hi) as Hv.
    destruct (Hidx v Hv) as (E & Hk).
    eexists. split; [exact Hk |]. split; [exact E |].
    destruct (elementAt_gradient _ Hk) as (Eel & col & Ecol & _).
    split; [| exists col; exact Ecol].
    subst colors. unfold generateColors. cbn [String.eqb Ascii.eqb Bool.eqb].
    subst nums. rewrite nth_error_map, nth_error_map, Hi. cbn [option_map].
    f_equal. fold (index v). rewrite E. exact Eel.
  - intros v w Hv Hw Hvw.
    destruct (Hidx v Hv) as (-> & _). destruct (Hidx w Hw) as (-> & _).
    apply numLe_whole, Qfloor_resp_le.
    pose proof (indexQ_mono values r Hrange mn mx v w Emn Emx Hb Er Hlt Hv Hw Hvw) as H.
    cbv beta zeta in H. fold range in H. lra.
  - intros v Hv Hmin. apply (Hzero v Hv).
    assert (E : (v == mn)%Q)
      by (apply Qle_antisym; [apply Hmin, Hmn | apply Hb, Hv]).
    rewrite (fl_zero (v - mn)) by (rewrite E; ring). reflexivity.
  - intros v Hv Hmax Hne. destruct (Hidx v Hv) as (-> & _). do 2 f_equal.
    assert (E : (v == mx)%Q)
      by (apply Qle_antisym; [apply Hb, Hv | apply Hmax, Hmx]).
    assert (Erange : range = r).
    { subst range. destruct (Qeq_bool r 0) eqn:E0; [| reflexivity].
      apply Qeq_bool_iff in E0. contradiction. }
    assert (Hd : (0 <= mx - mn)%Q) by (destruct (Hb mx Hmx); lra).
    assert (E1 : fl (v - mn) = r).
    { rewrite Er. apply fl_comp; [destruct (Hb v Hv); lra | rewrite E; reflexivity]. }
    rewrite E1, Erange.
    rewrite (fl_comp (r / r) (inject_Z 1))
      by (try (apply Qle_shift_div_l; lra); field; exact Hne).
    rewrite (fl_Z 1) by lia.
    rewrite (fl_comp (inject_Z 1 * 7) (inject_Z 7)) by (try discriminate; reflexivity).
    rewrite (fl_Z 7) by lia. reflexivity.
  - intros E0 v Hv. apply (Hzero v Hv).
    destruct (index_steps values r Hrange mn mx v Emn Emx Hb Er Hlt Hv)
      as (H0 & H1 & _).
    lra.
Qed.

Lemma generateColors_by_value_witness :
  let nums := map Finite [5; 1; 9]%Q in
  nth_error (generateColors 3 "gradient" (Some nums)) 2 = Some (Some "#FC3F00") /\
  nth_error (generateColors 3 "gradient" (Some nums)) 1 = Some (Some "#5D6D7E") /\
  valueIndex nums (Finite 5) = Finite 4.
Proof.
  pose proof (generateColors_by_value 3 [5; 1; 9]%Q 8) as H. cbv zeta in H.
  destruct H as (_ & H2 & _ & H4 & H5 & _); [vm_compute; reflexivity |].
  split; [| split; [| vm_compute; reflexivity]].
  - destruct (H2 2%nat 9%Q eq_refl) as (k & Hk & Ek & Ec & _).
    rewrite (H5 9%Q) in Ek.
    + injection Ek as Ek. assert (k = 7%Z) by (vm_compute in Ek; lia). subst k.
      exact Ec.
    + right; right; left; reflexivity.
    + intros w [<- | [<- | [<- | []]]]; unfold Qle; cbn; lia.
    + discriminate.
  - destruct (H2 1%nat 1%Q eq_refl) as (k & Hk & Ek & Ec & _).
    rewrite (H4 1%Q) in Ek.
    + injection Ek as Ek. assert (k = 0%Z) by (vm_compute in Ek; lia). subst k.
      exact Ec.
    + right; left; reflexivity.
    + intros w [<- | [<- | [<- | []]]]; unfold Qle; cbn; lia.
Defined.
End GenerateColors.

Section GenerateColorsByCount.
Import Ascii String.
Local Open Scope string_scope.

(** The spread [max - min] of finite values can overflow; a colour is
    then [undefined]. *)
Example generateColors_spread_overflow :
  let big := toDouble (17 * 10 ^ 307) in
  let values := [numNeg big; big] in
  numSub (maxOf values) (minOf values) = PosInfinity /\
  generateColors 2 "gradient" (Some values) =
    [Some "#5D6D7E"; None].
Proof. vm_compute. split; reflexivity. Qed.

Lemma Finite_whole_inj (k k' : Z) :
  Finite (inject_Z k) = Finite (inject_Z k') -> k = k'.
Proof. unfold inject_Z. intros H. injection H as H. exact H. Qed.

Lemma inject_Z_minus (a b : Z) : inject_Z (a - b) == inject_Z a - inject_Z b.
Proof.
  change (a - b)%Z with (a + - b)%Z. rewrite inject_Z_plus, inject_Z_opp. reflexivity.
Qed.

Lemma pow2_m53_small : pow2 (-53) <= 1 # 1000.
Proof. vm_compute. discriminate. Qed.

Section Spread.
Variable count : nat.
Hypothesis Hcount : (2 <= count)%nat.
Hypothesis Hmax : (Z.of_nat count <= 2 ^ 53)%Z.

Let n : Q := inject_Z (Z.of_nat count - 1).
Let st : Q := fl (7 / n).

Lemma n_bounds : 1 <= n /\ n <= pow2 53.
Proof.
  subst n. split.
  - change 1 with (inject_Z 1). rewrite <- Zle_Qle. lia.
  - rewrite pow2_Z by lia. rewrite <- Zle_Qle. lia.
Qed.

Lemma step_normal : pow2 (-1022) <= 7 / n.
Proof.
  destruct n_bounds as (H1 & H2).
  apply Qle_shift_div_l; [lra |].
  assert (H : pow2 (-1022) * pow2 53 <= 1).
  { rewrite <- pow2_add. change 1 with (pow2 0). apply pow2_le. lia. }
  pose proof (pow2_pos (-1022)). nra.
Qed.

Lemma step_bounds : 0 < st /\ st <= 7 /\
  7 - 7 * pow2 (-53) <= n * st <= 7 + 7 * pow2 (-53).
Proof.
  destruct n_bounds as (H1 & H2). pose proof pow2_m53_small as He.
  pose proof (pow2_pos (-53)) as He0.
  destruct (fl_close (7 / n) step_normal) as (C1 & C2). fold st in C1, C2.
  assert (Hq : n * (7 / n) == 7) by (field; lra).
  assert (Hq7 : 7 / n <= 7) by (apply Qle_shift_div_r; lra).
  assert (Hq0 : 0 < 7 / n) by (apply Qlt_shift_div_l; lra).
  set (q := 7 / n) in *.
  assert (K1 : n * (q - q * pow2 (-53)) <= n * st) by nra.
  assert (K2 : n * st <= n * (q + q * pow2 (-53))) by nra.
  assert (E1 : n * (q - q * pow2 (-53)) == 7 - 7 * pow2 (-53))
    by (rewrite <- Hq; ring).
  assert (E2 : n * (q + q * pow2 (-53)) == 7 + 7 * pow2 (-53))
    by (rewrite <- Hq; ring).
  rewrite E1 in K1. rewrite E2 in K2.
  split; [nra |]. split; [| split; assumption].
  subst st. apply Qle_trans with (fl (inject_Z 7));
    [apply fl_mono; [lra | exact Hq7] | rewrite (fl_Z 7) by lia; apply Qle_refl].
Qed.

Lemma last_product : 13 # 2 <= fl (n * st) /\ fl (n * st) < 15 # 2.
Proof.
  destruct step_bounds as (S0 & S7 & B1 & B2). pose proof pow2_m53_small as He.
  pose proof (pow2_pos (-53)) as He0.
  assert (Hn : pow2 (-1022) <= n * st).
  { assert (pow2 (-1022) <= 1) by (change 1 with (pow2 0); apply pow2_le; lia).
    lra. }
  destruct (fl_close (n * st) Hn) as (C1 & C2).
  set (a := n * st) in *. set (e := pow2 (-53)) in *.
  assert (a * e <= 8 * e) by nra.
  split; lra.
Qed.

Lemma countIndex_eq (i : nat) :
  (i < count)%nat ->
  countIndex count i =
    Finite (inject_Z (Qfloor (fl (inject_Z (Z.of_nat i) * st) + (1 # 2)))) /\
  0 <= fl (inject_Z (Z.of_nat i) * st) <= fl (n * st).
Proof.
  intros Hi. destruct n_bounds as (H1 & H2).
  destruct step_bounds as (S0 & S7 & B1 & B2). destruct last_product as (L1 & L2).
  pose proof pow2_m53_small as He. pose proof (pow2_pos (-53)) as He0.
  assert (Hi0 : 0 <= inject_Z (Z.of_nat i))
    by (change 0 with (inject_Z 0); rewrite <- Zle_Qle; lia).
  assert (Hin : inject_Z (Z.of_nat i) <= n)
    by (subst n; rewrite <- Zle_Qle; lia).
  assert (Hp : inject_Z (Z.of_nat i) * st <= n * st) by nra.
  assert (Hp0 : 0 <= inject_Z (Z.of_nat i) * st) by nra.
  assert (Hf : fl (inject_Z (Z.of_nat i) * st) <= fl (n * st))
    by (apply fl_mono; assumption).
  split; [| split; [apply fl_nonneg, Hp0 | exact Hf]].
  unfold countIndex. rewrite gradientLast_eq.
  rewrite (ofZ_exact (Z.of_nat count)) by lia. cbn [numSub].
  assert (Hc1 : 0 <= inject_Z (Z.of_nat count) - 1).
  { assert (1 <= inject_Z (Z.of_nat count))
      by (change 1 with (inject_Z 1); rewrite <- Zle_Qle; lia). lra. }
  destruct (toDouble_bounded (inject_Z (Z.of_nat count) - 1) (Z.of_nat count - 1))
    as (-> & _); [lia | exact Hc1 | |].
  { rewrite inject_Z_minus. change (inject_Z 1) with 1. apply Qle_refl. }
  rewrite (fl_comp (inject_Z (Z.of_nat count) - 1) (inject_Z (Z.of_nat count - 1)))
    by (try exact Hc1; rewrite inject_Z_minus; reflexivity).
  rewrite (fl_Z (Z.of_nat count - 1)) by lia. fold n.
  cbn [numDiv].
  destruct (Qeq_bool n 0) eqn:E0; [apply Qeq_bool_iff in E0; lra |].
  destruct (toDouble_bounded (7 / n) 7) as (-> & _);
    [lia | apply Qle_shift_div_l; lra | change (inject_Z 7) with 7;
     apply Qle_shift_div_r; lra |].
  fold st. rewrite (ofZ_exact (Z.of_nat i)) by lia. cbn [numMul].
  rewrite (toDouble_below (inject_Z (Z.of_nat i) * st)); [reflexivity | exact Hp0 |].
  pose proof one_lt_pow2_1024 as H1024.
  assert (8 <= pow2 1024).
  { change 8 with (pow2 3). apply pow2_le. lia. }
  lra.
Qed.

Lemma countIndex_last :
  Qfloor (fl (n * st) + (1 # 2)) = 7%Z.
Proof.
  destruct last_product as (L1 & L2).
  apply Z.le_antisymm.
  - apply Z.lt_succ_r. rewrite Zlt_Qlt.
    apply Qle_lt_trans with (fl (n * st) + (1 # 2)); [apply Qfloor_le |].
    change (inject_Z (Z.succ 7)) with 8. lra.
  - change 7%Z with (Qfloor 7). apply Qfloor_resp_le. lra.
Qed.
End Spread.

(** X10.  [generateColors] when it is not colouring by value.  The
    categorical scheme returns the first [count] colours of a palette of
    ten, so never more than ten; ['single'] and any unknown scheme return
    [count] copies of the primary colour.  The gradient scheme without
    values, computed in binary64, spreads the gradient over [count]
    colours for [2 <= count <= 2^53]: from its first to its last colour,
    the index never decreasing, every colour one of the eight; for
    [count = 1] the step is [7 / 0 = Infinity], the index [0 * Infinity]
    is [NaN] and the one colour returned is [undefined]. *)
Theorem generateColors_by_count (count : nat) :
  (forall values,
     generateColors count "categorical" values = map Some (firstn count themeCategorical) /\
     List.length (generateColors count "categorical" values) = Nat.min count 10) /\
  (forall scheme values,
     scheme <> "gradient" -> scheme <> "categorical" ->
     generateColors count scheme values = map Some (repeat themePrimary count)) /\
  (generateColors 1 "gradient" None = [None] /\ countIndex 1 0 = NaN) /\
  ((2 <= count)%nat -> (Z.of_nat count <= 2 ^ 53)%Z ->
   let colors := generateColors count "gradient" None in
   List.length colors = count /\
   nth_error colors 0 = Some (Some "#5D6D7E") /\
   nth_error colors (count - 1) = Some (Some "#FC3F00") /\
   (forall c, In c colors -> exists col, c = Some col /\ In col themeGradient) /\
   (forall i j, (i <= j)%nat -> (j < count)%nat ->
                numLe (countIndex count i) (countIndex count j) = true)).
Proof.
  split; [| split; [| split]].
  - intros values. split; [reflexivity |].
    change (generateColors count "categorical" values)
      with (map Some (firstn count themeCategorical)).
    rewrite length_map, length_firstn. reflexivity.
  - intros scheme values Hg Hc. unfold generateColors.
    apply String.eqb_neq in Hg. apply String.eqb_neq in Hc. rewrite Hg, Hc.
    reflexivity.
  - split; vm_compute; reflexivity.
  - intros Hc Hmax colors.
    set (st := fl (7 / inject_Z (Z.of_nat count - 1))).
    assert (Hidx : forall i, (i < count)%nat ->
              exists k : Z, countIndex count i = Finite (inject_Z k) /\
                (0 <= k <= 7)%Z /\
                k = Qfloor (fl (inject_Z (Z.of_nat i) * st) + (1 # 2))).
    { intros i Hi. destruct (countIndex_eq count Hc Hmax i Hi) as (E & B0 & B1).
      fold st in E, B0, B1.
      eexists. split; [exact E |]. split; [| reflexivity].
      pose proof (countIndex_last count Hc Hmax) as L. fold st in L. split.
      - change 0%Z with (Qfloor 0). apply Qfloor_resp_le. lra.
      - rewrite <- L. apply Qfloor_resp_le. lra. }
    assert (Hcol : forall i, (i < count)%nat ->
              exists k : Z, countIndex count i = Finite (inject_Z k) /\
                (0 <= k <= 7)%Z /\
                nth_error colors i = Some (nth_error themeGradient (Z.to_nat k))).
    { intros i Hi. destruct (Hidx i Hi) as (k & E & Hk & _).
      exists k. split; [exact E |]. split; [exact Hk |].
      subst colors. unfold generateColors. cbn [String.eqb Ascii.eqb Bool.eqb].
      rewrite nth_error_map.
      rewrite (nth_error_nth' (seq 0 count) 0%nat) by (rewrite length_seq; exact Hi).
      rewrite seq_nth by exact Hi. cbn [option_map Nat.add]. f_equal.
      rewrite E. apply elementAt_gradient, Hk. }
    split; [| split; [| split; [| split]]].
    + subst colors. unfold generateColors. cbn [String.eqb Ascii.eqb Bool.eqb].
      rewrite length_map, length_seq. reflexivity.
    + destruct (Hcol 0%nat) as (k & E & Hk & ->); [lia |].
      destruct (Hidx 0%nat) as (k' & E' & _ & Ek'); [lia |].
      rewrite E in E'. apply Finite_whole_inj in E'. subst k'. rewrite Ek'.
      rewrite (fl_zero (inject_Z (Z.of_nat 0) * st)) by (cbn; ring). reflexivity.
    + destruct (Hcol (count - 1)%nat) as (k & E & Hk & ->); [lia |].
      destruct (Hidx (count - 1)%nat) as (k' & E' & _ & Ek'); [lia |].
      rewrite E in E'. apply Finite_whole_inj in E'. subst k'. rewrite Ek'.
      replace (Z.of_nat (count - 1)) with (Z.of_nat count - 1)%Z by lia.
      pose proof (countIndex_last count Hc Hmax) as L. fold st in L.
      rewrite L. reflexivity.
    + intros c Hin. apply In_nth_error in Hin. destruct Hin as (i & Hi).
      assert (Hlt : (i < count)%nat).
      { assert (H : (i < List.length colors)%nat)
          by (apply nth_error_Some; rewrite Hi; discriminate).
        subst colors. unfold generateColors in H.
        cbn [String.eqb Ascii.eqb Bool.eqb] in H.
        rewrite length_map, length_seq in H. exact H. }
      destruct (Hcol i Hlt) as (k & _ & Hk & Ec). rewrite Hi in Ec.
      injection Ec as ->.
      destruct (elementAt_gradient k Hk) as (_ & col & Ecol & Hincol).
      exists col. split; assumption.
    + intros i j Hij Hj.
      destruct (Hidx i) as (ki & -> & _ & ->); [lia |].
      destruct (Hidx j Hj) as (kj & -> & _ & ->).
      apply numLe_whole, Qfloor_resp_le.
      destruct (step_bounds count Hc Hmax) as (S0 & _). fold st in S0.
      assert (H : fl (inject_Z (Z.of_nat i) * st) <= fl (inject_Z (Z.of_nat j) * st)).
      { assert (Hi0 : 0 <= inject_Z (Z.of_nat i))
          by (change 0 with (inject_Z 0); rewrite <- Zle_Qle; lia).
        assert (Hle : inject_Z (Z.of_nat i) <= inject_Z (Z.of_nat j))
          by (rewrite <- Zle_Qle; lia).
        apply fl_mono; nra. }
      lra.
Qed.

Lemma generateColors_by_count_witness :
  nth_error (generateColors 3 "gradient" None) 2 = Some (Some "#FC3F00").
Proof.
  pose proof (generateColors_by_count 3) as H.
  destruct H as (_ & _ & _ & H). cbv zeta in H.
  apply H; [lia | cbn; lia].
Defined.
End GenerateColorsByCount.

Close Scope Q_scope.
(** * InsightBoxInteraction *)

Lemma buildIndexMap_get (hoverOrder : list nat) :
  forall newIdx m key,
    indexMapGet (buildIndexMap hoverOrder newIdx m) key =
    match indexMapGet (buildIndexMap hoverOrder newIdx []) key with
    | Some v => Some v
    | None => indexMapGet m key
    end.
Proof.
  induction hoverOrder as [| o rest IH]; intros newIdx m key; cbn [buildIndexMap].
  - reflexivity.
  - rewrite (IH (S newIdx) ((o, newIdx) :: m)), (IH (S newIdx) [(o, newIdx)]).
    destruct (indexMapGet (buildIndexMap rest (S newIdx) []) key); [reflexivity |].
    cbn [indexMapGet]. destruct (Nat.eqb o key); reflexivity.
Qed.

Lemma buildIndexMap_sound (hoverOrder : list nat) :
  forall newIdx key v,
    indexMapGet (buildIndexMap hoverOrder newIdx []) key = Some v ->
    (newIdx <= v)%nat /\ nth_error hoverOrder (v - newIdx) = Some key.
Proof.
  induction hoverOrder as [| o rest IH]; intros newIdx key v H; cbn [buildIndexMap] in H.
  - discriminate H.
  - rewrite buildIndexMap_get in H.
    destruct (indexMapGet (buildIndexMap rest (S newIdx) []) key) as [w |] eqn:E.
    + injection H as <-. destruct (IH _ _ _ E) as (Hle & Hn).
      split; [lia |].
      replace (w - newIdx)%nat with (S (w - S newIdx)) by lia. exact Hn.
    + cbn [indexMapGet] in H. destruct (Nat.eqb_spec o key) as [-> | _]; [| discriminate H].
      injection H as <-. split; [lia |]. rewrite Nat.sub_diag. reflexivity.
Qed.

Lemma buildIndexMap_complete (hoverOrder : list nat) :
  forall newIdx key,
    In key hoverOrder ->
    exists v, indexMapGet (buildIndexMap hoverOrder newIdx []) key = Some v.
Proof.
  induction hoverOrder as [| o rest IH]; intros newIdx key Hin; [destruct Hin |].
  cbn [buildIndexMap]. rewrite buildIndexMap_get.
  destruct (indexMapGet (buildIndexMap rest (S newIdx) []) key) as [w |] eqn:E.
  - exists w. reflexivity.
  - destruct Hin as [-> | Hin].
    + exists newIdx. cbn [indexMapGet]. rewrite Nat.eqb_refl. reflexivity.
    + destruct (IH (S newIdx) key Hin) as (v & Hv). congruence.
Qed.

(** X11.  [reorderChartData] keeps every bar together with its data: if
    [indexMap] sends the old position [oldIdx] to [newIdx], then
    [hoverOrder[newIdx]] is [oldIdx] and label, value and both colours at
    [newIdx] are those the bar had at [oldIdx] (and its border width, where widths are an
    array).  An old position has an
    entry in [indexMap] exactly when it occurs in [hoverOrder]; positions
    that do not occur are dropped from the highlight by
    [startPulseAnimation], and those that occur point at their own bar.
    All four arrays get the length of [hoverOrder]. *)
Theorem reorder_keeps_bars_with_their_data
        {L V C B} (original : BarData L V C (list B + B)) (hoverOrder : list nat) :
  let chart := fst (reorderChartData original hoverOrder) in
  let indexMap := snd (reorderChartData original hoverOrder) in
  (length (barLabels chart) = length hoverOrder /\
   length (barValues chart) = length hoverOrder /\
   length (barBackground chart) = length hoverOrder /\
   length (barBorder chart) = length hoverOrder) /\
  (forall oldIdx newIdx,
     indexMapGet indexMap oldIdx = Some newIdx ->
     nth_error hoverOrder newIdx = Some oldIdx /\
     nth_error (barLabels chart) newIdx = Some (nth_error (barLabels original) oldIdx) /\
     nth_error (barValues chart) newIdx = Some (nth_error (barValues original) oldIdx) /\
     nth_error (barBackground chart) newIdx =
       Some (nth_error (barBackground original) oldIdx) /\
     nth_error (barBorder chart) newIdx = Some (nth_error (barBorder original) oldIdx) /\
     match barBorderWidth original, barBorderWidth chart with
     | inl widths, inl widths' => nth_error widths' newIdx = Some (nth_error widths oldIdx)
     | inr width, inr width' => width' = width
     | _, _ => False
     end) /\
  (forall oldIdx, indexMapGet indexMap oldIdx = None <-> ~ In oldIdx hoverOrder) /\
  (forall barIndices newIdx,
     In newIdx (adjustedIndices indexMap barIndices) ->
     exists oldIdx, In oldIdx barIndices /\ nth_error hoverOrder newIdx = Some oldIdx) /\
  (forall barIndices oldIdx,
     In oldIdx barIndices -> In oldIdx hoverOrder ->
     exists newIdx, In newIdx (adjustedIndices indexMap barIndices) /\
                    nth_error hoverOrder newIdx = Some oldIdx).
Proof.
  intros chart indexMap.
  assert (Hsound : forall oldIdx newIdx,
             indexMapGet indexMap oldIdx = Some newIdx ->
             nth_error hoverOrder newIdx = Some oldIdx).
  { intros o n H. subst indexMap. cbn [snd reorderChartData] in H.
    apply buildIndexMap_sound in H. rewrite Nat.sub_0_r in H. apply H. }
  split; [| split; [| split; [| split]]].
  - subst chart. cbn. unfold reorderBy. rewrite !length_map. repeat split.
  - intros o n H. pose proof (Hsound o n H) as Hn.
    subst chart. cbn. unfold reorderBy. rewrite !nth_error_map, Hn.
    repeat split.
    destruct (barBorderWidth original); [| reflexivity].
    rewrite nth_error_map, Hn. reflexivity.
  - intros o. split.
    + intros Hnone Hin. subst indexMap. cbn [snd reorderChartData] in Hnone.
      destruct (buildIndexMap_complete hoverOrder 0 o Hin) as (v & Hv). congruence.
    + intros Hnot. destruct (indexMapGet indexMap o) as [n |] eqn:E; [| reflexivity].
      exfalso. apply Hnot. apply Hsound in E. apply nth_error_In in E. exact E.
  - intros bars n Hin. unfold adjustedIndices in Hin. apply in_flat_map in Hin.
    destruct Hin as (o & Ho & Hn).
    destruct (indexMapGet indexMap o) as [m |] eqn:E; [| destruct Hn].
    destruct Hn as [<- | []]. exists o. split; [exact Ho | apply Hsound, E].
  - intros bars o Ho Hin. subst indexMap. cbn [snd reorderChartData] in *.
    destruct (buildIndexMap_complete hoverOrder 0 o Hin) as (v & Hv).
    exists v. split; [| apply Hsound, Hv].
    unfold adjustedIndices. apply in_flat_map. exists o. split; [exact Ho |].
    rewrite Hv. left. reflexivity.
Qed.


(** * Timeline renderer *)

(** X12.  [renderTimeline] needs seven milestones: with fewer it throws
    (nothing is rendered), with more the rest is ignored.  With seven it
    writes three rows, the first holding milestones 3, 2, 1 from left to
    right, the second 4, 5, 6, the third 7; milestone [k + 1] of the data
    carries the number [k + 1], replaced by a star only in rows two and
    three when the milestone is a target (in row one a target keeps its
    number and gets the target class only).  The step reveal of the
    animator lights the circles at document positions 2, 1, 0, 3, 4, 5, 6:
    the milestones appear in the order of the data. *)
Theorem renderTimeline_order (timeline : list Milestone) :
  (renderTimeline timeline = None <-> (length timeline < 7)%nat) /\
  forall rows,
    renderTimeline timeline = Some rows ->
    renderTimeline (firstn 7 timeline) = Some rows /\
    map (length (A := RenderedMilestone)) rows = [3; 3; 1]%nat /\
    map (fun ci => option_map shown (nth_error (concat rows) ci)) revealOrder =
      map Some (firstn 7 timeline) /\
    map (fun ci => option_map circleText (nth_error (concat rows) ci)) revealOrder =
      map (fun '(k, m) => Some (if isTarget m && (3 <=? k) then Star else Number (k + 1)))
          (combine [0; 1; 2; 3; 4; 5; 6] (firstn 7 timeline)) /\
    map (fun ci => option_map targetClass (nth_error (concat rows) ci)) revealOrder =
      map (fun m => Some (isTarget m)) (firstn 7 timeline).
Proof.
  split.
  - unfold renderTimeline. split.
    + intros H. destruct (nth_error timeline 6) eqn:E; [discriminate |].
      apply nth_error_None in E. lia.
    + intros H. rewrite (proj2 (nth_error_None timeline 6)) by lia. reflexivity.
  - intros rows H.
    destruct timeline as [| m0 [| m1 [| m2 [| m3 [| m4 [| m5 [| m6 rest]]]]]]];
      try discriminate H.
    cbn in H. injection H as <-.
    repeat split; cbn; try reflexivity.
    + destruct (isTarget m0), (isTarget m1), (isTarget m2), (isTarget m3),
        (isTarget m4), (isTarget m5), (isTarget m6); reflexivity.
    + destruct (isTarget m0), (isTarget m1), (isTarget m2), (isTarget m3),
        (isTarget m4), (isTarget m5), (isTarget m6); reflexivity.
Qed.


(** * A swoop asked for while the animator is still busy *)

(** [goToSlide] between slides 1 and 2 (either way) on an idle engine
    whose animator is still animating: the swoop method returns at once,
    so the request only resets the source slide's children, sets the
    flag and stores the index. *)
Lemma goToSlide_swoop_refused (s : State) (index : Z) :
  lineAnimatorAttached (engine s) = true ->
  isTransitioning (engine s) = false ->
  isAnimating (animator s) = true ->
  (currentSlide (engine s) = 1 /\ index = 2) \/
  (currentSlide (engine s) = 2 /\ index = 1) ->
  2 < slideCount s ->
  goToSlide index true s =
    setCurrentSlide index
      (setIsTransitioning true (resetSlideAnimations (currentSlide (engine s)) s)).
Proof.
  intros Hla Hidle Han Hdir Hn.
  unfold goToSlide. rewrite Hidle. cbn [andb].
  rewrite boundsCheck_in_range by (destruct Hdir as [(_ & ->) | (_ & ->)]; lia).
  rewrite Hla.
  unfold animateSwoopTransition, animateReverseSwoopTransition.
  assert (Hbusy : forall i, isAnimating (animator (setIsTransitioning true
                                 (resetSlideAnimations i s))) = true)
    by (intros i; exact Han).
  destruct Hdir as [(Hc & ->) | (Hc & ->)]; rewrite Hc; cbn [Z.eqb Pos.eqb andb negb];
    rewrite Hbusy; reflexivity.
Qed.

Lemma run_idle (s : State) (fuel : nat) : timers (host s) = [] -> run fuel s = s.
Proof.
  intros H. destruct fuel; [reflexivity |]. cbn [run]. unfold nextTimer. rewrite H.
  reflexivity.
Qed.

(** X13.  The two swoops between slides 2 and 3 refuse to start while the
    animator's [isAnimating] flag is up, and [goToSlide] does not notice:
    asked on an idle engine, in that state, to go from one of the two
    slides to the other, it stores the new index and raises
    [isTransitioning], but sets no timer, creates no promise, dispatches
    no event and shows or hides no slide.  When the pending timers only
    repaint, running them lowers nothing: the table empties with the engine
    still transitioning, so it never settles; the same request again is
    ignored. *)
Theorem refused_swoop_stalls_engine (s : State) (index : Z) (fuel : nat) :
  lineAnimatorAttached (engine s) = true ->
  isTransitioning (engine s) = false ->
  isAnimating (animator s) = true ->
  (currentSlide (engine s) = 1 /\ index = 2) \/
  (currentSlide (engine s) = 2 /\ index = 1) ->
  2 < slideCount s ->
  (forall t, In t (timers (host s)) -> quiet (action t) = true) ->
  (length (timers (host s)) <= fuel)%nat ->
  let s1 := goToSlide index true s in
  let s2 := run fuel s1 in
  (host s1 = host s /\ hiddenFlags s1 = hiddenFlags s /\
   isTransitioning (engine s1) = true /\ currentSlide (engine s1) = index) /\
  (timers (host s2) = [] /\ promises (host s2) = promises (host s) /\
   events (host s2) = events (host s) /\ hiddenFlags s2 = hiddenFlags s /\
   isTransitioning (engine s2) = true /\ currentSlide (engine s2) = index) /\
  isSettled s2 = false /\
  (forall fuel', run fuel' s2 = s2) /\
  goToSlide index true s2 = s2.
Proof.
  intros Hla Hidle Han Hdir Hn Hq Hlen s1 s2.
  assert (E1 : s1 = setCurrentSlide index
                      (setIsTransitioning true
                         (resetSlideAnimations (currentSlide (engine s)) s)))
    by (apply goToSlide_swoop_refused; assumption).
  assert (H1 : host s1 = host s /\ hiddenFlags s1 = hiddenFlags s /\
               isTransitioning (engine s1) = true /\ currentSlide (engine s1) = index).
  { rewrite E1. split; [reflexivity |]. split; [| split; reflexivity].
    apply (hiddenFlags_updateSlide_keeps (currentSlide (engine s))). reflexivity. }
  destruct H1 as (Hh & Hf & Ht & Hc).
  destruct (run_quiet fuel s1) as (R1 & R2 & R3 & R4 & _).
  { rewrite Hh. exact Hq. }
  { rewrite Hh. exact Hlen. }
  fold s2 in R1, R2, R3, R4.
  assert (V : hiddenFlags s2 = hiddenFlags s1 /\
              isTransitioning (engine s2) = isTransitioning (engine s1) /\
              currentSlide (engine s2) = currentSlide (engine s1)).
  { unfold navView in R2. injection R2 as _ Hi Htr _ Hfl. repeat split; assumption. }
  destruct V as (V1 & V2 & V3).
  split; [repeat split; assumption |].
  split; [repeat split; congruence |].
  split; [| split].
  - unfold isSettled. rewrite V2, Ht. reflexivity.
  - intros fuel'. apply run_idle, R1.
  - unfold goToSlide. rewrite V2, Ht, V3, Hc, Z.eqb_refl. reflexivity.
Qed.

Lemma refused_swoop_stalls_engine_witness :
  isSettled
    (run 5 (goToSlide 1 true
              (runUntil 100 1230 (goToSlide 2 true (restingAt appConfig 1)))))
  = false /\
  hiddenFlags
    (run 5 (goToSlide 1 true
              (runUntil 100 1230 (goToSlide 2 true (restingAt appConfig 1)))))
  = hiddenFlags (restingAt appConfig 2).
Proof.
  pose proof (refused_swoop_stalls_engine
                (runUntil 100 1230 (goToSlide 2 true (restingAt appConfig 1)))
                1 5) as H.
  assert (E : timers (host (runUntil 100 1230
                              (goToSlide 2 true (restingAt appConfig 1)))) =
              [{| tid := 8%nat; fireAt := 1300; action := SwoopCleanup |}])
    by (vm_compute; reflexivity).
  assert (F : hiddenFlags (runUntil 100 1230
                             (goToSlide 2 true (restingAt appConfig 1))) =
              hiddenFlags (restingAt appConfig 2))
    by (vm_compute; reflexivity).
  cbv zeta in H. rewrite E, F in H.
  destruct H as (_ & (_ & _ & _ & H2 & _) & H3 & _).
  - vm_compute. reflexivity.
  - vm_compute. reflexivity.
  - vm_compute. reflexivity.
  - right. split; [vm_compute; reflexivity | reflexivity].
  - vm_compute. reflexivity.
  - intros t [<- | []]. reflexivity.
  - cbn. lia.
  - split; [exact H3 | exact H2].
Defined.

(** * Every state the loaded page can reach *)

(** * The invariant of the running page *)

Lemma Sound_shrink (n : Z) (dom : bool) (s s' : State) :
  Sound n dom s ->
  slideCount s' = slideCount s ->
  currentSlide (engine s') = currentSlide (engine s) ->
  (nextTimerId (host s) <= nextTimerId (host s'))%nat ->
  timelineDom (animator s') = timelineDom (animator s) ->
  promises (host s') = promises (host s) ->
  onContentReadyCallback (animator s') = onContentReadyCallback (animator s) ->
  (forall t, In t (timers (host s')) ->
     In t (timers (host s)) /\
     forall q, belongsTo q t = true -> recordsTimers q = true ->
               In (tid t) (recordedTimers q s) -> In (tid t) (recordedTimers q s')) ->
  Sound n dom s'.
Proof.
  intros (S1 & S2 & S3 & S4 & S5 & S6 & S7) Hn Hc Hi Hd Hp Hcb Ht.
  split; [congruence |]. split; [rewrite Hc; exact S2 |]. split; [lia |].
  split; [congruence |]. split; [| split].
  - intros t H. destruct (Ht t H) as (Hin & Hrec).
    destruct (S5 t Hin) as (K1 & K2 & K3 & K4).
    split; [lia |]. split; [exact K2 |]. split; [| exact K4].
    intros q Hb Hq. apply Hrec; try assumption. apply K3; assumption.
  - intros pr Hin. rewrite Hp in Hin. apply (S6 pr Hin).
  - intros cb Hcb'. rewrite Hcb in Hcb'. apply (S7 cb Hcb').
Qed.

(** A timer that no record has to know: set by the engine or by one of
    the two swoops. *)
Lemma Sound_setTimeout (n : Z) (dom : bool) (a : Action) (dl : Z) (s : State) :
  actionOk n a ->
  (forall q, sequenceOf a = Some q -> recordsTimers q = false) ->
  Sound n dom s -> Sound n dom (snd (setTimeout a dl s)).
Proof.
  intros Ha Hq (S1 & S2 & S3 & S4 & S5 & S6 & S7).
  split; [exact S1 |]. split; [exact S2 |]. split; [cbn; lia |].
  split; [exact S4 |]. split; [| split; [exact S6 | exact S7]].
  intros t H. cbn in H. apply in_app_or in H. destruct H as [H | [<- | []]].
  - destruct (S5 t H) as (K1 & K2 & K3 & K4).
    split; [cbn; lia |]. split; [exact K2 |]. split; [exact K3 | exact K4].
  - assert (Hno : forall q, belongsTo q {| tid := nextTimerId (host s);
                                           fireAt := now (host s) + Z.max 0 dl;
                                           action := a |} = true ->
                            recordsTimers q = false).
    { intros q Hb. unfold belongsTo in Hb. cbn [action] in Hb.
      destruct (sequenceOf a) as [q' |] eqn:E; [| discriminate Hb].
      apply sequenceEqb_eq in Hb. subst q'. apply Hq. reflexivity. }
    split; [cbn; lia |]. split; [exact Ha |]. split.
    + intros q Hb Hr. rewrite (Hno q Hb) in Hr. discriminate Hr.
    + intros Hb. specialize (Hno _ Hb). discriminate Hno.
Qed.

(** A timer whose id is put on the record of its sequence. *)
Lemma Sound_schedule (n : Z) (dom : bool) (q : Sequence) (a : Action) (dl : Z)
      (record : nat -> LineAnimator -> LineAnimator) (s : State) :
  sequenceOf a = Some q ->
  actionOk n a ->
  (q = TimelineReveal -> dom = true) ->
  (forall id an, timelineDom (record id an) = timelineDom an /\
                 onContentReadyCallback (record id an) = onContentReadyCallback an) ->
  (forall id q' id', In id' (recordedTimers q' s) ->
                     In id' (recordedTimers q' (onAnimator (record id) s))) ->
  (forall id, (0 < id)%nat -> In id (recordedTimers q (onAnimator (record id) s))) ->
  Sound n dom s ->
  Sound n dom (schedule a dl (fun id => onAnimator (record id)) s).
Proof.
  intros Hseq Ha Hdom Hkeep Hgrow Hrec (S1 & S2 & S3 & S4 & S5 & S6 & S7).
  unfold schedule, setTimeout. cbv zeta.
  set (id := nextTimerId (host s)).
  match goal with |- Sound _ _ (onAnimator _ ?x) => set (s1 := x) end.
  split; [exact S1 |]. split; [exact S2 |]. split; [cbn; lia |].
  split; [cbn; rewrite (proj1 (Hkeep id (animator s))); exact S4 |].
  split; [| split; [exact S6 |]].
  - intros t H. cbn in H. apply in_app_or in H. destruct H as [H | [<- | []]].
    + destruct (S5 t H) as (K1 & K2 & K3 & K4).
      split; [cbn; fold id; lia |]. split; [exact K2 |]. split; [| exact K4].
      intros q' Hb Hr.
      change (recordedTimers q' (onAnimator (record id) s1))
        with (recordedTimers q' (onAnimator (record id) s)).
      apply (Hgrow id q' (tid t)). apply K3; assumption.
    + split; [cbn; fold id; lia |]. split; [exact Ha |]. split.
      * intros q' Hb Hr. cbn [tid]. unfold belongsTo in Hb. cbn [action] in Hb.
        rewrite Hseq in Hb. apply sequenceEqb_eq in Hb. subst q'.
        change (recordedTimers q (onAnimator (record id) s1))
          with (recordedTimers q (onAnimator (record id) s)).
        apply Hrec. exact S3.
      * intros Hb. unfold belongsTo in Hb. cbn [action] in Hb. rewrite Hseq in Hb.
        apply sequenceEqb_eq in Hb. apply Hdom. congruence.
  - intros cb Hcb. cbn in Hcb. rewrite (proj2 (Hkeep id (animator s))) in Hcb.
    apply (S7 cb Hcb).
Qed.

(** ** Statements that keep the invariant *)

Lemma Keeps_skip (n : Z) (dom : bool) : Keeps n dom skip.
Proof. intros s HS. exact HS. Qed.

Lemma Keeps_andThen (n : Z) (dom : bool) (c1 c2 : State -> State) :
  Keeps n dom c1 -> Keeps n dom c2 -> Keeps n dom (c1 ;; c2).
Proof. intros H1 H2 s HS. apply H2, H1, HS. Qed.

Lemma Keeps_when (n : Z) (dom : bool) (b : bool) (c : State -> State) :
  Keeps n dom c -> Keeps n dom (when b c).
Proof. intros H s HS. unfold when. destruct b; [apply H, HS | exact HS]. Qed.

Lemma Keeps_whenS (n : Z) (dom : bool) (b : State -> bool) (c : State -> State) :
  Keeps n dom c -> Keeps n dom (whenS b c).
Proof. intros H s HS. unfold whenS. destruct (b s); [apply H, HS | exact HS]. Qed.

Lemma Keeps_onAnimator (n : Z) (dom : bool) (f : LineAnimator -> LineAnimator) :
  (forall a, timelineDom (f a) = timelineDom a) ->
  (forall a, onContentReadyCallback (f a) = onContentReadyCallback a) ->
  (forall q s, recordedTimers q (onAnimator f s) = recordedTimers q s) ->
  Keeps n dom (onAnimator f).
Proof.
  intros Hd Hc Hr s HS.
  apply (Sound_shrink n dom s); try reflexivity; try exact HS.
  - apply Hd.
  - apply Hc.
  - intros t Ht. split; [exact Ht |]. intros q _ _ Hin. rewrite Hr. exact Hin.
Qed.

Ltac keeps_animator :=
  apply Keeps_onAnimator; [intros; reflexivity | intros; reflexivity |
                           intros [] ?; reflexivity].

Lemma Keeps_onEngine (n : Z) (dom : bool) (f : SlideEngine -> SlideEngine) :
  (forall e, length (slides (f e)) = length (slides e)) ->
  (forall e, currentSlide (f e) = currentSlide e) ->
  Keeps n dom (onEngine f).
Proof.
  intros Hl Hc s HS.
  apply (Sound_shrink n dom s); try reflexivity; try exact HS.
  - unfold slideCount. cbn. rewrite Hl. reflexivity.
  - apply Hc.
  - intros t Ht. split; [exact Ht |]. intros q _ _ Hin. exact Hin.
Qed.

Lemma Keeps_setIsTransitioning (n : Z) (dom : bool) (b : bool) :
  Keeps n dom (setIsTransitioning b).
Proof. apply Keeps_onEngine; reflexivity. Qed.

Lemma Sound_setSlides (n : Z) (dom : bool) (l : list Slide) (s : State) :
  length l = length (slides (engine s)) -> Sound n dom s -> Sound n dom (setSlides l s).
Proof.
  intros Hl HS.
  apply (Sound_shrink n dom s); try reflexivity; try exact HS.
  - unfold slideCount. cbn. rewrite Hl. reflexivity.
  - intros t Ht. split; [exact Ht |]. intros q _ _ Hin. exact Hin.
Qed.

Lemma Keeps_hideSlide (n : Z) (dom : bool) (i : Z) : Keeps n dom (hideSlide i).
Proof. intros s HS. apply Sound_setSlides; [apply updateSlide_length | exact HS]. Qed.

Lemma Keeps_showSlide (n : Z) (dom : bool) (i : Z) : Keeps n dom (showSlide i).
Proof. intros s HS. apply Sound_setSlides; [apply updateSlide_length | exact HS]. Qed.

Lemma Keeps_resetSlideAnimations (n : Z) (dom : bool) (i : Z) :
  Keeps n dom (resetSlideAnimations i).
Proof. intros s HS. apply Sound_setSlides; [apply updateSlide_length | exact HS]. Qed.

Lemma Keeps_revealElement (n : Z) (dom : bool) (i : Z) (el : nat) :
  Keeps n dom (revealElement i el).
Proof. intros s HS. apply Sound_setSlides; [apply updateSlide_length | exact HS]. Qed.

Lemma Keeps_forceResetStuckSlides (n : Z) (dom : bool) (index : Z) :
  Keeps n dom (forceResetStuckSlides index).
Proof. intros s HS. apply Sound_setSlides; [apply mapIndexed_length | exact HS]. Qed.

Lemma Keeps_setNow (n : Z) (dom : bool) (t : Z) : Keeps n dom (setNow t).
Proof.
  intros s HS. apply (Sound_shrink n dom s); try reflexivity; try exact HS.
  intros t0 Ht. split; [exact Ht |]. intros q _ _ Hin. exact Hin.
Qed.

Lemma Keeps_dispatchSlideChange (n : Z) (dom : bool) (index : Z) :
  Keeps n dom (dispatchSlideChange index).
Proof.
  intros s HS. apply (Sound_shrink n dom s); try reflexivity; try exact HS.
  intros t0 Ht. split; [exact Ht |]. intros q _ _ Hin. exact Hin.
Qed.

Lemma Keeps_setCurrentSlide (n : Z) (dom : bool) (i : Z) :
  0 <= i < n -> Keeps n dom (setCurrentSlide i).
Proof.
  intros Hi s (S1 & S2 & S3 & S4 & S5 & S6 & S7).
  split; [exact S1 |]. split; [exact Hi |]. split; [exact S3 |].
  split; [exact S4 |]. split; [exact S5 |]. split; [exact S6 | exact S7].
Qed.

Lemma Keeps_scheduleUntracked (n : Z) (dom : bool) (a : Action) (dl : Z) :
  actionOk n a ->
  (forall q, sequenceOf a = Some q -> recordsTimers q = false) ->
  Keeps n dom (scheduleUntracked a dl).
Proof. intros Ha Hq s HS. apply Sound_setTimeout; assumption. Qed.

(** The four lists of timer ids. *)
Lemma Keeps_pushTimelineTimeout (n : Z) (a : Action) (dl : Z) :
  sequenceOf a = Some TimelineReveal -> actionOk n a ->
  Keeps n true (schedule a dl pushTimelineTimeout).
Proof.
  intros Hq Ha s HS.
  apply (Sound_schedule n true TimelineReveal a dl
           (fun id an => withTimelineTimeouts an (timelineTimeouts an ++ [id])));
    try assumption; try reflexivity.
  - intros id an. split; reflexivity.
  - intros id [] id' Hin; cbn in *; try exact Hin. apply in_or_app. left. exact Hin.
  - intros id _. cbn. apply in_or_app. right. left. reflexivity.
Qed.

Lemma Keeps_pushSlide10To11Timeout (n : Z) (dom : bool) (a : Action) (dl : Z) :
  sequenceOf a = Some Swoop10To11 -> actionOk n a ->
  Keeps n dom (schedule a dl pushSlide10To11Timeout).
Proof.
  intros Hq Ha s HS.
  apply (Sound_schedule n dom Swoop10To11 a dl
           (fun id an => withSlide10To11Timeouts an (slide10To11Timeouts an ++ [id])));
    try assumption; try discriminate.
  - intros id an. split; reflexivity.
  - intros id [] id' Hin; cbn in *; try exact Hin. apply in_or_app. left. exact Hin.
  - intros id _. cbn. apply in_or_app. right. left. reflexivity.
Qed.

Lemma Keeps_pushSlide12SplitTimeout (n : Z) (dom : bool) (a : Action) (dl : Z) :
  sequenceOf a = Some Split -> actionOk n a ->
  Keeps n dom (schedule a dl pushSlide12SplitTimeout).
Proof.
  intros Hq Ha s HS.
  apply (Sound_schedule n dom Split a dl
           (fun id an => withSlide12SplitTimeouts an (slide12SplitTimeouts an ++ [id])));
    try assumption; try discriminate.
  - intros id an. split; reflexivity.
  - intros id [] id' Hin; cbn in *; try exact Hin. apply in_or_app. left. exact Hin.
  - intros id _. cbn. apply in_or_app. right. left. reflexivity.
Qed.

Lemma Keeps_pushSlide12ReverseTimeout (n : Z) (dom : bool) (a : Action) (dl : Z) :
  sequenceOf a = Some ReverseSplit -> actionOk n a ->
  Keeps n dom (schedule a dl pushSlide12ReverseTimeout).
Proof.
  intros Hq Ha s HS.
  apply (Sound_schedule n dom ReverseSplit a dl
           (fun id an => withSlide12ReverseTimeouts an (slide12ReverseTimeouts an ++ [id])));
    try assumption; try discriminate.
  - intros id an. split; reflexivity.
  - intros id [] id' Hin; cbn in *; try exact Hin. apply in_or_app. left. exact Hin.
  - intros id _. cbn. apply in_or_app. right. left. reflexivity.
Qed.

(** Clearing timers. *)
Lemma Keeps_clearTimeouts (n : Z) (dom : bool) (ids : State -> list nat) :
  Keeps n dom (fun s => clearTimeouts (ids s) s).
Proof.
  intros s HS. rewrite clearTimeouts_eq.
  apply (Sound_shrink n dom s); try reflexivity; try exact HS.
  intros t Ht. cbn in Ht. apply filter_In in Ht. split; [apply Ht |].
  intros q _ _ Hin. exact Hin.
Qed.

Lemma Keeps_clearTimeout (n : Z) (dom : bool) (id : nat) :
  Keeps n dom (clearTimeout id).
Proof.
  intros s HS. rewrite clearTimeout_eq.
  apply (Sound_shrink n dom s); try reflexivity; try exact HS.
  intros t Ht. cbn in Ht. apply filter_In in Ht. split; [apply Ht |].
  intros q _ _ Hin. exact Hin.
Qed.

(** Once the timers on the record of [q] are cleared, no timer of [q] is
    pending. *)
Lemma cleared_noLive (n : Z) (dom : bool) (q : Sequence) (s : State) :
  Sound n dom s -> recordsTimers q = true ->
  forall t, In t (timers (host (clearTimeouts (recordedTimers q s) s))) ->
            belongsTo q t = false.
Proof.
  intros (_ & _ & _ & _ & S5 & _) Hq t Ht.
  rewrite clearTimeouts_eq in Ht. cbn in Ht. apply filter_In in Ht.
  destruct Ht as (Hin & Hk). apply keptAfterClearing_true in Hk.
  destruct (belongsTo q t) eqn:E; [| reflexivity].
  exfalso. apply Hk. apply (S5 t Hin); assumption.
Qed.

(** A record may be emptied when no timer of its sequence is pending. *)
Lemma Sound_reset (n : Z) (dom : bool) (q : Sequence)
      (f : LineAnimator -> LineAnimator) (s : State) :
  Sound n dom s ->
  (forall t, In t (timers (host s)) -> belongsTo q t = false) ->
  (forall a, timelineDom (f a) = timelineDom a) ->
  (forall a, onContentReadyCallback (f a) = onContentReadyCallback a) ->
  (forall q' s0, q' <> q -> recordedTimers q' (onAnimator f s0) = recordedTimers q' s0) ->
  Sound n dom (onAnimator f s).
Proof.
  intros HS Hno Hd Hc Hr.
  apply (Sound_shrink n dom s); try reflexivity; try exact HS.
  - apply Hd.
  - apply Hc.
  - intros t Ht. split; [exact Ht |]. intros q' Hb _ Hin.
    rewrite Hr; [exact Hin |]. intros ->. rewrite (Hno t Ht) in Hb. discriminate Hb.
Qed.

(** ** The animator keeps the invariant *)

Lemma Keeps_setPath (n : Z) (dom : bool) (tr : PathTransition) (dv : PathD) :
  Keeps n dom (setPath tr dv).
Proof. keeps_animator. Qed.

Lemma Keeps_setPathSecondary (n : Z) (dom : bool) (tr : PathTransition) (dv : PathD) :
  Keeps n dom (setPathSecondary tr dv).
Proof. keeps_animator. Qed.

Lemma Keeps_setIsAnimating (n : Z) (dom : bool) (b : bool) : Keeps n dom (setIsAnimating b).
Proof. keeps_animator. Qed.

Lemma Keeps_setLineCurrentSlide (n : Z) (dom : bool) (i : Z) :
  Keeps n dom (setLineCurrentSlide i).
Proof. keeps_animator. Qed.

Lemma Keeps_hideTimelineCircles (n : Z) (dom : bool) : Keeps n dom hideTimelineCircles.
Proof. keeps_animator. Qed.

Lemma Keeps_showAllTimelineCircles (n : Z) (dom : bool) : Keeps n dom showAllTimelineCircles.
Proof. keeps_animator. Qed.

Lemma Keeps_resetOverlays (n : Z) (dom : bool) : Keeps n dom resetOverlays.
Proof. keeps_animator. Qed.

Lemma Keeps_mapOverlays (n : Z) (dom : bool) (f : Overlay -> Overlay) :
  Keeps n dom (mapOverlays f).
Proof. keeps_animator. Qed.

Ltac resets_only :=
  first [ intros; reflexivity
        | let q := fresh in let s := fresh in let H := fresh in
          intros q s H; destruct q; try reflexivity; exfalso; apply H; reflexivity ].

Lemma Keeps_cancelTimelineAnimation (n : Z) (dom : bool) :
  Keeps n dom cancelTimelineAnimation.
Proof.
  intros s HS. unfold cancelTimelineAnimation, andThen.
  apply (Keeps_onAnimator n dom (fun a => withTimelineSvg a false));
    [intros; reflexivity | intros; reflexivity | intros [] ?; reflexivity |].
  apply (Sound_reset n dom TimelineReveal); try resets_only.
  - apply (Keeps_clearTimeouts n dom (fun s => timelineTimeouts (animator s))), HS.
  - apply (cleared_noLive n dom TimelineReveal s HS eq_refl).
Qed.

Lemma Keeps_cancelSlide10To11Swoop (n : Z) (dom : bool) :
  Keeps n dom cancelSlide10To11Swoop.
Proof.
  intros s HS. unfold cancelSlide10To11Swoop, andThen.
  apply Keeps_setIsAnimating.
  apply (Sound_reset n dom Swoop10To11); try resets_only.
  - apply (Keeps_clearTimeouts n dom (fun s => slide10To11Timeouts (animator s))), HS.
  - apply (cleared_noLive n dom Swoop10To11 s HS eq_refl).
Qed.

Lemma Keeps_clearSplitTimeouts (n : Z) (dom : bool) : Keeps n dom clearSplitTimeouts.
Proof.
  intros s HS. unfold clearSplitTimeouts, andThen.
  apply (Sound_reset n dom Split); try resets_only.
  - apply (Keeps_clearTimeouts n dom (fun s => slide12SplitTimeouts (animator s))), HS.
  - apply (cleared_noLive n dom Split s HS eq_refl).
Qed.

Lemma Keeps_clearReverseTimeouts (n : Z) (dom : bool) : Keeps n dom clearReverseTimeouts.
Proof.
  intros s HS. unfold clearReverseTimeouts, andThen.
  apply (Sound_reset n dom ReverseSplit); try resets_only.
  - apply (Keeps_clearTimeouts n dom (fun s => slide12ReverseTimeouts (animator s))), HS.
  - apply (cleared_noLive n dom ReverseSplit s HS eq_refl).
Qed.

Lemma Keeps_cancelSlide12Split (n : Z) (dom : bool) : Keeps n dom cancelSlide12Split.
Proof.
  intros s HS.
  change (cancelSlide12Split s)
    with ((whenS (fun s => negb (lineCurrentSlide (animator s) =? 11)) resetOverlays ;;
           setPathSecondary TransitionNone PathZero ;;
           setIsAnimating false)
            (clearReverseTimeouts (clearSplitTimeouts s))).
  apply Keeps_andThen; [apply Keeps_whenS, Keeps_resetOverlays |
                        apply Keeps_andThen;
                        [apply Keeps_setPathSecondary | apply Keeps_setIsAnimating] |].
  apply Keeps_clearReverseTimeouts, Keeps_clearSplitTimeouts, HS.
Qed.

Lemma Keeps_cancelSlide12Expansion (n : Z) (dom : bool) :
  Keeps n dom cancelSlide12Expansion.
Proof.
  intros s HS. unfold cancelSlide12Expansion.
  destruct (slide12ExpansionTimeout (animator s)) as [id |] eqn:Ex; [| exact HS].
  destruct (Nat.eqb id 0) eqn:E0; [exact HS |].
  apply (Sound_reset n dom Expansion); try resets_only.
  - apply Keeps_clearTimeout, HS.
  - pose proof (cleared_noLive n dom Expansion s HS eq_refl) as H.
    unfold recordedTimers in H. rewrite Ex, E0 in H. exact H.
Qed.

Lemma animateSlide12Expansion_Sound (n : Z) (dom : bool) :
  Keeps n dom animateSlide12Expansion.
Proof.
  intros s HS. unfold animateSlide12Expansion, andThen.
  pose proof (Keeps_cancelSlide12Expansion n dom s HS) as H1.
  destruct (cancelSlide12Expansion_records s) as (_ & _ & _ & _ & _ & _ & _ & Hrec & _).
  set (s1 := cancelSlide12Expansion s) in *.
  pose proof (Keeps_setPath n dom (TransitionD 800 EaseOut) (PathSlide12 false) s1 H1)
    as H2.
  assert (Hrec2 : recordedTimers Expansion
                    (setPath (TransitionD 800 EaseOut) (PathSlide12 false) s1) = [])
    by exact Hrec.
  set (s2 := setPath (TransitionD 800 EaseOut) (PathSlide12 false) s1) in *.
  apply (Sound_schedule n dom Expansion ExpansionExpand 1200
           (fun id an => withSlide12ExpansionTimeout an (Some id)));
    try assumption; try reflexivity; try discriminate; try exact I.
  - intros id an. split; reflexivity.
  - intros id [] id' Hin; try exact Hin. rewrite Hrec2 in Hin. destruct Hin.
  - intros id Hid. cbn. destruct id; [lia |]. left. reflexivity.
Qed.

Lemma scheduleSegments_Sound (n : Z) (segs : list (option nat)) :
  forall i cd s, Sound n true s -> Sound n true (snd (scheduleSegments segs i cd s)).
Proof.
  induction segs as [| c rest IH]; intros i cd s HS; [exact HS |].
  cbn [scheduleSegments].
  pose proof (Keeps_pushTimelineTimeout n (TimelineDraw i) cd eq_refl I s HS) as H1.
  unfold schedule in H1.
  destruct (setTimeout (TimelineDraw i) cd s) as (id1, s1).
  destruct c as [ci |].
  - pose proof (Keeps_pushTimelineTimeout n (TimelineCircle ci) (cd + 800) eq_refl I _ H1)
      as H2.
    unfold schedule in H2.
    destruct (setTimeout (TimelineCircle ci) (cd + 800) (pushTimelineTimeout id1 s1))
      as (id2, s2).
    apply IH, H2.
  - apply IH, H1.
Qed.

Lemma Keeps_drawTimeline (n : Z) : Keeps n true drawTimeline.
Proof.
  intros s HS. unfold drawTimeline, andThen.
  pose proof (Keeps_setPath n true TransitionNone PathTimelineHeader _
                (Keeps_onAnimator n true (fun a => withTimelineSvg a true)
                   ltac:(intros; reflexivity) ltac:(intros; reflexivity)
                   ltac:(intros [] ?; reflexivity) _
                   (Keeps_cancelTimelineAnimation n true s HS))) as H1.
  match type of H1 with Sound _ _ ?x => set (s1 := x) in * end.
  pose proof (scheduleSegments_Sound n drawSegments 0 50 s1 H1) as H2.
  destruct (scheduleSegments drawSegments 0 50 s1) as (cd, s2).
  apply Keeps_pushTimelineTimeout; [reflexivity | exact I | exact H2].
Qed.

Lemma Keeps_animateTimelineStepByStep (n : Z) (dom : bool) :
  Keeps n dom animateTimelineStepByStep.
Proof.
  intros s HS. unfold animateTimelineStepByStep, andThen.
  pose proof (Keeps_hideTimelineCircles n dom s HS) as H1.
  set (s1 := hideTimelineCircles s) in *.
  destruct (timelineDom (animator s1)) eqn:E; cbn [negb].
  - assert (dom = true) as ->.
    { destruct H1 as (_ & _ & _ & Hd & _). congruence. }
    apply Keeps_drawTimeline, H1.
  - apply Keeps_showAllTimelineCircles, Keeps_setPath, H1.
Qed.

(** ** The engine's helpers keep the invariant *)

Lemma scheduleReveals_Sound (n : Z) (dom : bool) (i stagger : Z)
      (els : list AnimatedElement) :
  forall k s, Sound n dom s -> Sound n dom (scheduleReveals i stagger k els s).
Proof.
  induction els as [| el rest IH]; intros k s HS; [exact HS |].
  cbn [scheduleReveals]. apply IH. apply Sound_setTimeout; [exact I | | exact HS].
  intros q H. discriminate H.
Qed.

Lemma Keeps_triggerSlideAnimations (n : Z) (dom : bool) (i : Z) :
  Keeps n dom (triggerSlideAnimations i).
Proof.
  intros s HS. unfold triggerSlideAnimations.
  destruct (getSlide i (slides (engine s))); [| exact HS].
  apply scheduleReveals_Sound, HS.
Qed.

Lemma Keeps_afterSlideChange (n : Z) (dom : bool) (index : Z) (b : bool) :
  0 <= index < n -> Keeps n dom (afterSlideChange index b).
Proof.
  intros Hi. unfold afterSlideChange.
  apply Keeps_andThen; [apply Keeps_setCurrentSlide, Hi |].
  apply Keeps_andThen; [apply Keeps_whenS, Keeps_triggerSlideAnimations |].
  apply Keeps_dispatchSlideChange.
Qed.

Lemma Sound_addPromise (n : Z) (dom : bool) (k : Then) (s : State) :
  thenOk n k -> Sound n dom s ->
  Sound n dom (setPromises (promises (host s) ++ [{| settled := false; reaction := k |}]) s).
Proof.
  intros Hk (S1 & S2 & S3 & S4 & S5 & S6 & S7).
  split; [exact S1 |]. split; [exact S2 |]. split; [exact S3 |].
  split; [exact S4 |]. split; [exact S5 |]. split; [| exact S7].
  intros pr Hin. cbn in Hin. apply in_app_or in Hin.
  destruct Hin as [Hin | [<- | []]]; [apply (S6 pr Hin) | exact Hk].
Qed.

Lemma In_settleAt (l : list Promise) :
  forall p pr, In pr (settleAt p l) -> exists pr0, In pr0 l /\ reaction pr = reaction pr0.
Proof.
  induction l as [| x l IH]; intros p pr Hin; [destruct p; destruct Hin |].
  destruct p as [| p]; cbn in Hin.
  - destruct Hin as [<- | Hin].
    + exists x. split; [left; reflexivity | reflexivity].
    + exists pr. split; [right; exact Hin | reflexivity].
  - destruct Hin as [<- | Hin].
    + exists x. split; [left; reflexivity | reflexivity].
    + destruct (IH p pr Hin) as (pr0 & H0 & E). exists pr0. split; [right; exact H0 | exact E].
Qed.

Lemma Sound_settle (n : Z) (dom : bool) (p : nat) (s : State) :
  Sound n dom s -> Sound n dom (setPromises (settleAt p (promises (host s))) s).
Proof.
  intros (S1 & S2 & S3 & S4 & S5 & S6 & S7).
  split; [exact S1 |]. split; [exact S2 |]. split; [exact S3 |].
  split; [exact S4 |]. split; [exact S5 |]. split; [| exact S7].
  intros pr Hin. cbn in Hin. apply In_settleAt in Hin.
  destruct Hin as (pr0 & H0 & E). unfold thenOk. rewrite E. apply (S6 pr0 H0).
Qed.

Lemma Keeps_transition (n : Z) (dom : bool) (fromSlide toSlide : Z) (k : Then) :
  thenOk n k -> Keeps n dom (transition fromSlide toSlide k).
Proof.
  intros Hk s HS. unfold transition. cbv zeta.
  pose proof (Keeps_showSlide n dom toSlide _ (Sound_addPromise n dom k s Hk HS)) as H1.
  match type of H1 with Sound _ _ ?x => set (s1 := x) in * end.
  pose proof (Sound_setTimeout n dom (TransitionSafety (length (promises (host s))))
                (duration (config (engine s)) + 500) s1 I
                ltac:(intros q H; discriminate H) H1) as H2.
  destruct (setTimeout (TransitionSafety (length (promises (host s))))
                       (duration (config (engine s)) + 500) s1) as (id, s2).
  cbn [snd] in H2.
  apply Sound_setTimeout; [exact I | intros q H; discriminate H | exact H2].
Qed.

Lemma Keeps_runThen (n : Z) (dom : bool) (k : Then) :
  thenOk n k -> Keeps n dom (runThen k).
Proof.
  intros Hk. destruct k as [index | index | index]; cbn [runThen];
    unfold thenOk in Hk; cbn [thenIndex] in Hk.
  - apply Keeps_andThen; [apply Keeps_setIsTransitioning |].
    apply Keeps_afterSlideChange, Hk.
  - apply Keeps_andThen; [apply Keeps_setIsTransitioning |].
    apply Keeps_andThen; [apply Keeps_resetOverlays |].
    apply Keeps_afterSlideChange, Hk.
  - apply Keeps_andThen; [apply Keeps_setIsTransitioning |].
    apply Keeps_andThen; [apply Keeps_setCurrentSlide, Hk |].
    apply Keeps_afterSlideChange, Hk.
Qed.

Lemma Keeps_resolve (n : Z) (dom : bool) (p : nat) : Keeps n dom (resolve p).
Proof.
  intros s HS. unfold resolve.
  destruct (nth_error (promises (host s)) p) as [pr |] eqn:E; [| exact HS].
  destruct (settled pr); [exact HS |].
  apply Keeps_runThen.
  - destruct HS as (_ & _ & _ & _ & _ & S6 & _). apply S6.
    apply nth_error_In in E. exact E.
  - apply Sound_settle, HS.
Qed.

Lemma Keeps_runCallback (n : Z) (dom : bool) (cb : Callback) :
  callbackOk n cb -> Keeps n dom (runCallback cb).
Proof.
  intros Hcb. destruct cb as [prev next k | prev next index | next]; cbn [runCallback].
  - apply Keeps_andThen; [apply Keeps_whenS, Keeps_triggerSlideAnimations |].
    apply Keeps_transition, Hcb.
  - intros s HS. destruct (currentSlide (engine s) =? index).
    + apply Keeps_setIsTransitioning, HS.
    + apply Keeps_transition; [exact Hcb | exact HS].
  - apply Keeps_whenS, Keeps_triggerSlideAnimations.
Qed.

(** ** Choreographies, navigation and timer callbacks *)

Lemma Keeps_apply (n : Z) (dom : bool) (c : State -> State) (s : State) :
  Keeps n dom c -> Sound n dom s -> Sound n dom (c s).
Proof. intros K HS. apply K, HS. Qed.

Lemma Sound_ite (n : Z) (dom : bool) (b : bool) (s1 s2 : State) :
  Sound n dom s1 -> Sound n dom s2 -> Sound n dom (if b then s1 else s2).
Proof. intros H1 H2. destruct b; assumption. Qed.

Ltac untracked_side :=
  let q := fresh in let H := fresh in intros q H; injection H as <-; reflexivity.

Ltac keeps_step :=
  lazymatch goal with
  | |- Keeps _ _ skip => apply Keeps_skip
  | |- Keeps _ _ (_ ;; _) => apply Keeps_andThen
  | |- Keeps _ _ (when _ _) => apply Keeps_when
  | |- Keeps _ _ (whenS _ _) => apply Keeps_whenS
  | |- Keeps _ _ (guardAnimating _) => apply Keeps_whenS
  | |- Keeps _ _ (setIsTransitioning _) => apply Keeps_setIsTransitioning
  | |- Keeps _ _ (hideSlide _) => apply Keeps_hideSlide
  | |- Keeps _ _ (showSlide _) => apply Keeps_showSlide
  | |- Keeps _ _ (resetSlideAnimations _) => apply Keeps_resetSlideAnimations
  | |- Keeps _ _ (revealElement _ _) => apply Keeps_revealElement
  | |- Keeps _ _ (forceResetStuckSlides _) => apply Keeps_forceResetStuckSlides
  | |- Keeps _ _ (dispatchSlideChange _) => apply Keeps_dispatchSlideChange
  | |- Keeps _ _ (setPath _ _) => apply Keeps_setPath
  | |- Keeps _ _ (setPathSecondary _ _) => apply Keeps_setPathSecondary
  | |- Keeps _ _ (setIsAnimating _) => apply Keeps_setIsAnimating
  | |- Keeps _ _ (setLineCurrentSlide _) => apply Keeps_setLineCurrentSlide
  | |- Keeps _ _ hideTimelineCircles => apply Keeps_hideTimelineCircles
  | |- Keeps _ _ showAllTimelineCircles => apply Keeps_showAllTimelineCircles
  | |- Keeps _ _ resetOverlays => apply Keeps_resetOverlays
  | |- Keeps _ _ (mapOverlays _) => apply Keeps_mapOverlays
  | |- Keeps _ _ cancelTimelineAnimation => apply Keeps_cancelTimelineAnimation
  | |- Keeps _ _ cancelSlide10To11Swoop => apply Keeps_cancelSlide10To11Swoop
  | |- Keeps _ _ clearSplitTimeouts => apply Keeps_clearSplitTimeouts
  | |- Keeps _ _ clearReverseTimeouts => apply Keeps_clearReverseTimeouts
  | |- Keeps _ _ cancelSlide12Split => apply Keeps_cancelSlide12Split
  | |- Keeps _ _ cancelSlide12Expansion => apply Keeps_cancelSlide12Expansion
  | |- Keeps _ _ animateSlide12Expansion => apply animateSlide12Expansion_Sound
  | |- Keeps _ _ animateTimelineStepByStep => apply Keeps_animateTimelineStepByStep
  | |- Keeps _ _ (triggerSlideAnimations _) => apply Keeps_triggerSlideAnimations
  | |- Keeps _ _ (resolve _) => apply Keeps_resolve
  | |- Keeps _ _ (clearTimeout _) => apply Keeps_clearTimeout
  | |- Keeps _ _ (afterSlideChange _ _) => apply Keeps_afterSlideChange
  | |- Keeps _ _ (transition _ _ _) => apply Keeps_transition
  | |- Keeps _ _ (runCallback _) => apply Keeps_runCallback
  | |- Keeps _ _ (setCurrentSlide _) => apply Keeps_setCurrentSlide
  | |- Keeps _ _ (schedule _ _ pushSlide10To11Timeout) =>
      apply Keeps_pushSlide10To11Timeout; [reflexivity |]
  | |- Keeps _ _ (schedule _ _ pushSlide12SplitTimeout) =>
      apply Keeps_pushSlide12SplitTimeout; [reflexivity |]
  | |- Keeps _ _ (schedule _ _ pushSlide12ReverseTimeout) =>
      apply Keeps_pushSlide12ReverseTimeout; [reflexivity |]
  | |- Keeps _ _ (scheduleUntracked _ _) =>
      apply Keeps_scheduleUntracked; [| untracked_side]
  | |- Keeps _ _ (fun _ => _) =>
      let s := fresh "s" in let H := fresh "HS" in intros s H
  end.

Ltac keeps_extra := fail.

Ltac sound_step :=
  first
    [ assumption
    | exact I
    | lazymatch goal with
      | |- Keeps _ _ _ => first [keeps_step | keeps_extra]
      | |- Sound _ _ (match ?x with _ => _ end) => first [refine (Sound_ite _ _ _ _ _ _ _) | destruct x]
      | |- Sound ?n ?d (let x := ?X in @?F x) =>
          lazymatch type of X with
          | State =>
              let x' := fresh "s" in
              let H := fresh "HS" in
              assert (H : Sound n d X) by (repeat sound_step);
              change (Sound n d (F X)); revert H; generalize X; intros x' H; cbv beta
          | _ =>
              let x' := fresh x in
              pose (x' := X); change (Sound n d (F x')); cbv beta
          end
      | |- Sound ?n ?d (?c ?s) => refine (Keeps_apply n d c s _ _)
      end ].

Ltac sound := repeat sound_step.

Lemma Keeps_animateSlide10To11Swoop (n : Z) (dom : bool) (cb : Callback) :
  callbackOk n cb -> Keeps n dom (animateSlide10To11Swoop cb).
Proof. intros Hcb. unfold animateSlide10To11Swoop. sound. Qed.

Lemma Keeps_animateSlide12To11Reverse (n : Z) (dom : bool) (cb : Callback) :
  callbackOk n cb -> Keeps n dom (animateSlide12To11Reverse cb).
Proof. intros Hcb. unfold animateSlide12To11Reverse. sound. Qed.

Lemma Keeps_continueSlide12SplitAnimation (n : Z) (dom : bool) :
  Keeps n dom continueSlide12SplitAnimation.
Proof. unfold continueSlide12SplitAnimation. sound. Qed.

(** Storing or dropping the second callback of the split. *)
Lemma Keeps_setOnContentReady (n : Z) (dom : bool) (cb : option Callback) :
  (forall c, cb = Some c -> callbackOk n c) ->
  Keeps n dom (onAnimator (fun a => withOnContentReadyCallback a cb)).
Proof.
  intros Hcb s (S1 & S2 & S3 & S4 & S5 & S6 & S7).
  split; [exact S1 |]. split; [exact S2 |]. split; [exact S3 |].
  split; [exact S4 |]. split; [exact S5 |]. split; [exact S6 | exact Hcb].
Qed.

Lemma Keeps_animateSlide11To12Split (n : Z) (dom : bool) (cb1 cb2 : Callback) :
  callbackOk n cb1 -> callbackOk n cb2 -> Keeps n dom (animateSlide11To12Split cb1 cb2).
Proof.
  intros H1 H2. unfold animateSlide11To12Split.
  apply Keeps_andThen; [sound |]. apply Keeps_andThen; [sound |].
  apply Keeps_andThen; [sound |]. apply Keeps_andThen; [sound |].
  apply Keeps_andThen.
  - apply Keeps_setOnContentReady. intros c [= <-]. exact H2.
  - sound.
Qed.

Lemma Keeps_animateSwoopTransition (n : Z) (dom : bool) (cb : Callback) :
  callbackOk n cb -> Keeps n dom (animateSwoopTransition cb).
Proof. intros Hcb. unfold animateSwoopTransition. sound. Qed.

Lemma Keeps_animateReverseSwoopTransition (n : Z) (dom : bool) (cb : Callback) :
  callbackOk n cb -> Keeps n dom (animateReverseSwoopTransition cb).
Proof. intros Hcb. unfold animateReverseSwoopTransition. sound. Qed.

Lemma Keeps_updatePath (n : Z) (dom : bool) (slideIndex : Z) (animate : bool) :
  Keeps n dom (updatePath slideIndex animate).
Proof. intros s HS. unfold updatePath. sound. Qed.

Lemma Keeps_cancelLineAnimations (n : Z) (dom : bool) : Keeps n dom cancelLineAnimations.
Proof. unfold cancelLineAnimations. sound. Qed.

Ltac keeps_extra ::=
  lazymatch goal with
  | |- Keeps _ _ cancelLineAnimations => apply Keeps_cancelLineAnimations
  | |- Keeps _ _ (updatePath _ _) => apply Keeps_updatePath
  | |- Keeps _ _ (animateSwoopTransition _) => apply Keeps_animateSwoopTransition
  | |- Keeps _ _ (animateReverseSwoopTransition _) =>
      apply Keeps_animateReverseSwoopTransition
  | |- Keeps _ _ (animateSlide10To11Swoop _) => apply Keeps_animateSlide10To11Swoop
  | |- Keeps _ _ (animateSlide12To11Reverse _) => apply Keeps_animateSlide12To11Reverse
  | |- Keeps _ _ (animateSlide11To12Split _ _) => apply Keeps_animateSlide11To12Split
  | |- Keeps _ _ continueSlide12SplitAnimation => apply Keeps_continueSlide12SplitAnimation
  end.


(** [goToSlide] keeps the invariant, whatever index is asked for. *)
Lemma Keeps_goToSlide (n : Z) (dom : bool) (index : Z) (animate : bool) :
  Keeps n dom (goToSlide index animate).
Proof.
  intros s HS. cbv beta delta [goToSlide].
  refine (Sound_ite _ _ _ _ _ HS _).
  sound_step.
  match goal with
  | |- Sound _ _ (let x := boundsCheck ?i ?s0 in @?F x) =>
      assert (Hr : 0 <= boundsCheck i s0 < n);
      [ match goal with
        | H : Sound _ _ s0 |- _ => destruct H as (S1 & S2 & _)
        end;
        rewrite <- S1; apply boundsCheck_range; lia
      | change (Sound n dom (F (boundsCheck i s0)));
        revert Hr; generalize (boundsCheck i s0); intros index' Hr; cbv beta ]
  end.
  sound. lia.
Qed.

(** Timer callbacks.  When the expansion timer runs it is the only one of
    its kind, so the record may be dropped. *)
Lemma runAction_Sound (n : Z) (dom : bool) (a : Action) (s : State) :
  actionOk n a ->
  (a = ExpansionExpand ->
   forall t, In t (timers (host s)) -> belongsTo Expansion t = false) ->
  Sound n dom s -> Sound n dom (runAction a s).
Proof.
  intros Ha Hex HS. destruct a; cbn [runAction]; cbn [actionOk] in Ha;
    try solve [sound].
  - (* ExpansionExpand *)
    unfold andThen. apply (Sound_reset n dom Expansion); try resets_only.
    + apply Keeps_setPath, HS.
    + apply (Hex eq_refl).
  - (* SplitT0 *)
    refine (Keeps_apply n dom _ s _ HS). apply Keeps_whenS.
    apply Keeps_andThen; [keeps_animator | sound].
  - (* SplitT4 *)
    refine (Keeps_apply n dom _ s _ HS). apply Keeps_whenS. intros s0 HS0.
    destruct (onContentReadyCallback (animator s0)) as [cb |] eqn:E; [| exact HS0].
    apply Keeps_setOnContentReady; [intros c H; discriminate H |].
    apply Keeps_runCallback; [| exact HS0].
    destruct HS0 as (_ & _ & _ & _ & _ & _ & S7). apply S7, E.
Qed.

Lemma recordedTimers_Expansion_one (s : State) (a b : nat) :
  In a (recordedTimers Expansion s) -> In b (recordedTimers Expansion s) -> a = b.
Proof.
  unfold recordedTimers.
  destruct (slide12ExpansionTimeout (animator s)) as [id |]; [| intros []].
  destruct (Nat.eqb id 0); [intros [] |].
  intros [<- | []] [<- | []]. reflexivity.
Qed.

(** The event loop keeps the invariant. *)
Lemma fire_Sound (n : Z) (dom : bool) (t : Timer) (s : State) :
  In t (timers (host s)) -> Sound n dom s -> Sound n dom (fire t s).
Proof.
  intros Hin HS. unfold fire.
  pose proof (Keeps_clearTimeout n dom (tid t) _
                (Keeps_setNow n dom (Z.max (now (host s)) (fireAt t)) s HS)) as H1.
  destruct HS as (S1 & S2 & S3 & S4 & S5 & S6 & S7).
  destruct (S5 t Hin) as (K1 & K2 & K3 & K4).
  apply runAction_Sound; [exact K2 | | exact H1].
  intros Ha t' Hin'. rewrite clearTimeout_eq in Hin'. cbn in Hin'.
  apply filter_In in Hin'. destruct Hin' as (Hin' & Hk).
  destruct (belongsTo Expansion t') eqn:E; [| reflexivity].
  exfalso. apply keptAfterClearing_true in Hk. apply Hk. left.
  apply (recordedTimers_Expansion_one s).
  - apply K3; [| reflexivity]. unfold belongsTo. rewrite Ha. reflexivity.
  - destruct (S5 t' Hin') as (_ & _ & K3' & _). apply K3'; [exact E | reflexivity].
Qed.

Lemma run_Sound (n : Z) (dom : bool) (fuel : nat) : Keeps n dom (run fuel).
Proof.
  induction fuel as [| fuel IH]; intros s HS; [exact HS |].
  cbn [run]. destruct (nextTimer s) as [t |] eqn:E; [| exact HS].
  apply IH, fire_Sound; [| exact HS]. apply nextTimer_spec in E. apply E.
Qed.

Lemma handle_Sound (n : Z) (dom : bool) (i : Input) : Keeps n dom (handle i).
Proof.
  destruct i as [key | x0 x1 | b x w | c | index | | ms |]; cbn [handle].
  - destruct key; cbn [onKeydown]; try apply Keeps_skip;
      intros s HS; apply Keeps_goToSlide, HS.
  - unfold handleSwipe. cbv zeta.
    destruct (Qlt_le_dec 50 (Qabs (x0 - x1))); [| apply Keeps_skip].
    destruct (Qlt_le_dec 0 (x0 - x1)); intros s HS; apply Keeps_goToSlide, HS.
  - unfold onClick. destruct b; [apply Keeps_skip |]. cbv zeta.
    destruct (Qlt_le_dec (inject_Z w / 2) x); intros s HS; apply Keeps_goToSlide, HS.
  - destruct c; cbn [onEdgeControl]; intros s HS; apply Keeps_goToSlide, HS.
  - apply Keeps_goToSlide.
  - unfold onResizeSettled. apply Keeps_andThen; [apply Keeps_cancelTimelineAnimation |].
    intros s HS. sound.
  - intros s HS. apply Keeps_setNow, HS.
  - apply run_Sound.
Qed.

Lemma afterInputs_Sound (n : Z) (dom : bool) (inputs : list Input) :
  Keeps n dom (afterInputs inputs).
Proof.
  unfold afterInputs.
  induction inputs as [| i rest IH]; intros s HS; [exact HS |].
  cbn [fold_left]. apply IH, handle_Sound, HS.
Qed.

(** The loaded page is sound. *)
Lemma boot_Sound (cfg : Config) (dom : list Slide) (a : LineAnimator) :
  dom <> [] ->
  onContentReadyCallback a = None ->
  Sound (Z.of_nat (length dom)) (timelineDom a) (boot cfg dom a).
Proof.
  intros Hdom Hcb. unfold boot. cbv zeta.
  apply Keeps_updatePath.
  refine (Keeps_onEngine _ _ _ _ _ _ _); [reflexivity | reflexivity |].
  unfold init. destruct dom as [| sl dom']; [congruence |].
  apply Keeps_goToSlide.
  split; [| split; [| split; [| split; [| split; [| split]]]]].
  - unfold slideCount. cbn [engine setSlides onEngine slides].
    rewrite mapIndexed_length. reflexivity.
  - cbn. lia.
  - cbn. lia.
  - reflexivity.
  - intros t [].
  - intros pr [].
  - intros cb H. cbn in H. rewrite Hcb in H. discriminate H.
Qed.

Lemma Sound_Tracked (n : Z) (dom : bool) (s : State) : Sound n dom s -> Tracked s.
Proof.
  intros (S1 & S2 & S3 & S4 & S5 & S6 & S7).
  split; [| split; [exact S3 | split]].
  - intros t Hin. apply (S5 t Hin).
  - intros q t Hin Hb H1 H2. apply (S5 t Hin); [exact Hb |].
    destruct q; try reflexivity; congruence.
  - intros Hd. unfold liveTimers.
    rewrite (filter_none (belongsTo TimelineReveal) (timers (host s)));
      [reflexivity |].
    intros t Hin. destruct (belongsTo TimelineReveal t) eqn:E; [| reflexivity].
    destruct (S5 t Hin) as (_ & _ & _ & K4). specialize (K4 E). congruence.
Qed.

Lemma reachable_Sound (cfg : Config) (dom : list Slide)
      (secondary overlays timeline : bool) (inputs : list Input) :
  dom <> [] ->
  Sound (Z.of_nat (length dom)) timeline
        (afterInputs inputs (boot cfg dom (newLineAnimator secondary overlays timeline))).
Proof.
  intros Hdom. apply afterInputs_Sound.
  apply (boot_Sound cfg dom (newLineAnimator secondary overlays timeline) Hdom).
  reflexivity.
Qed.

(** X14.  Whatever the user does to the loaded page (keys, swipes,
    clicks, edge controls, thumbnails, resizing, waiting) and however far
    the timers have run in between, the engine's current index names a
    slide of the deck, the deck keeps its slides, and every index that a
    pending transition will store when it completes names a slide too. *)
Theorem current_slide_always_in_deck (cfg : Config) (dom : list Slide)
        (secondary overlays timeline : bool) (inputs : list Input) :
  dom <> [] ->
  let s := afterInputs inputs
             (boot cfg dom (newLineAnimator secondary overlays timeline)) in
  length (slides (engine s)) = length dom /\
  0 <= currentSlide (engine s) < slideCount s /\
  (exists sl, getSlide (currentSlide (engine s)) (slides (engine s)) = Some sl) /\
  (forall pr, In pr (promises (host s)) -> 0 <= thenIndex (reaction pr) < slideCount s).
Proof.
  intros Hdom s.
  destruct (reachable_Sound cfg dom secondary overlays timeline inputs Hdom)
    as (S1 & S2 & _ & _ & _ & S6 & _).
  fold s in S1, S2, S6.
  split; [unfold slideCount in S1; lia |].
  split; [rewrite S1; exact S2 |]. split.
  - unfold getSlide. destruct (Z.ltb_spec (currentSlide (engine s)) 0) as [Hneg | _]; [lia |].
    destruct (nth_error (slides (engine s)) (Z.to_nat (currentSlide (engine s))))
      as [sl |] eqn:E; [exists sl; reflexivity |].
    apply nth_error_None in E. unfold slideCount in S1. lia.
  - intros pr Hin. rewrite S1. apply (S6 pr Hin).
Qed.

Lemma current_slide_always_in_deck_witness :
  0 <= currentSlide
         (engine (afterInputs [Keydown End_; TimerRuns; Keydown ArrowRight;
                               Swipe 10 200; Wait 50; ThumbnailClick 40]
                    (boot appConfig (deck 3) (newLineAnimator true true true))))
    < 3.
Proof.
  pose proof (current_slide_always_in_deck appConfig (deck 3) true true true
                [Keydown End_; TimerRuns; Keydown ArrowRight;
                 Swipe 10 200; Wait 50; ThumbnailClick 40]) as H.
  cbv zeta in H. destruct H as (H1 & H2 & _).
  - discriminate.
  - unfold slideCount in H2. rewrite H1 in H2. exact H2.
Defined.

(** X15.  In every state the loaded page can reach, the animator's
    records cover its timers: each pending timer of a choreography that
    keeps a record is on that record, timer ids are below the next id, and
    timeline timers exist only where the timeline does.  So the four
    cancel calls of an interruption always leave no timer of a recording
    choreography pending. *)
Theorem records_always_cover_timers (cfg : Config) (dom : list Slide)
        (secondary overlays timeline : bool) (inputs : list Input) :
  dom <> [] ->
  let s := afterInputs inputs
             (boot cfg dom (newLineAnimator secondary overlays timeline)) in
  Tracked s /\
  (forall q, recordsTimers q = true -> liveTimers q (cancelLineAnimations s) = []).
Proof.
  intros Hdom s.
  pose proof (reachable_Sound cfg dom secondary overlays timeline inputs Hdom) as HS.
  fold s in HS. split; [apply (Sound_Tracked _ _ _ HS) |].
  intros q Hq. unfold liveTimers.
  rewrite (filter_none (belongsTo q) (timers (host (cancelLineAnimations s))));
    [reflexivity |].
  intros t Hin. destruct (belongsTo q t) eqn:E; [| reflexivity].
  pose proof (Keeps_cancelLineAnimations _ _ s HS) as (_ & _ & _ & _ & S5 & _).
  destruct (S5 t Hin) as (_ & _ & K3 & _). specialize (K3 q E Hq).
  destruct (cancelLineAnimations_effect s) as (_ & _ & _ & _ & Hrec).
  rewrite (Hrec q Hq) in K3. destruct K3.
Qed.

Lemma records_always_cover_timers_witness :
  Tracked (afterInputs [Keydown End_; EdgeClick LeftControl; TimerRuns; Resize;
                        ThumbnailClick 9; Keydown ArrowRight; Wait 100; Keydown PageUp]
             (boot appConfig (deck 12) (newLineAnimator true true true))).
Proof.
  pose proof (records_always_cover_timers appConfig (deck 12) true true true
                [Keydown End_; EdgeClick LeftControl; TimerRuns; Resize;
                 ThumbnailClick 9; Keydown ArrowRight; Wait 100; Keydown PageUp]) as H.
  cbv zeta in H. destruct H as (H1 & _).
  - discriminate.
  - exact H1.
Defined.


(** * SlideScaler: wrapping *)

Lemma filter_cons_split {A} (f : A -> bool) (l : list A) (x : A) (q : list A) :
  filter f l = x :: q ->
  exists l1 l2, l = l1 ++ x :: l2 /\ (forall y, In y l1 -> f y = false) /\
                f x = true /\ filter f l2 = q.
Proof.
  induction l as [| a l IH]; [discriminate |]. cbn [filter].
  destruct (f a) eqn:E.
  - intros [= -> <-]. exists [], l. repeat split; [intros y [] | exact E].
  - intros H. destruct (IH H) as (l1 & l2 & -> & H1 & Hx & H2).
    exists (a :: l1), l2. repeat split; try assumption.
    intros y [<- | Hy]; [exact E | apply H1, Hy].
Qed.

Section Wrapping.
Import Ascii String.

Lemma insertBefore_at (node c : Element) (before rest : list Element) :
  ~ In (elId c) (map elId before) ->
  insertBefore node (elId c) (before ++ c :: rest) = before ++ node :: c :: rest.
Proof.
  induction before as [| x before IH]; intros Hnot; cbn [insertBefore app].
  - rewrite Nat.eqb_refl. reflexivity.
  - destruct (Nat.eqb_spec (elId x) (elId c)) as [E | _].
    + exfalso. apply Hnot. left. exact E.
    + rewrite IH; [reflexivity |]. intros H. apply Hnot. right. exact H.
Qed.

Lemma filter_keeps_others (id : nat) (l : list Element) :
  ~ In id (map elId l) -> filter (fun x => negb (Nat.eqb (elId x) id)) l = l.
Proof.
  induction l as [| x l IH]; intros Hnot; [reflexivity |]. cbn [filter].
  destruct (Nat.eqb_spec (elId x) id) as [E | _].
  - exfalso. apply Hnot. left. exact E.
  - cbn [negb]. rewrite IH; [reflexivity |]. intros H. apply Hnot. right. exact H.
Qed.

Lemma map_keeps_others (fresh : nat) (el : Element) (l : list Element) :
  ~ In fresh (map elId l) ->
  map (fun x => if Nat.eqb (elId x) fresh
                then El (elId x) (classList x) (children x ++ [el]) else x) l = l.
Proof.
  induction l as [| x l IH]; intros Hnot; [reflexivity |]. cbn [map].
  destruct (Nat.eqb_spec (elId x) fresh) as [E | _].
  - exfalso. apply Hnot. left. exact E.
  - rewrite IH; [reflexivity |]. intros H. apply Hnot. right. exact H.
Qed.

(** One [appendChild]: the element leaves its place and joins the
    wrapper. *)
Lemma appendChild_moves (fresh : nat) (cls : list string) (done before t1 t2 : list Element)
      (el : Element) :
  NoDup (fresh :: map elId (before ++ t1 ++ el :: t2)) ->
  appendChild fresh el (before ++ El fresh cls done :: t1 ++ el :: t2) =
  before ++ El fresh cls (done ++ [el]) :: t1 ++ t2.
Proof.
  intros Hnd. inversion Hnd as [| ? ? Hfresh Hids]; subst.
  rewrite !map_app in Hfresh, Hids. cbn [map] in Hfresh, Hids.
  assert (Hnot : ~ In (elId el) ((map elId before ++ map elId t1) ++ map elId t2)).
  { rewrite app_assoc in Hids. apply NoDup_remove_2 in Hids. exact Hids. }
  assert (Hb : ~ In (elId el) (map elId before)).
  { intros H. apply Hnot. apply in_or_app. left. apply in_or_app. left. exact H. }
  assert (Ht1 : ~ In (elId el) (map elId t1)).
  { intros H. apply Hnot. apply in_or_app. left. apply in_or_app. right. exact H. }
  assert (Ht2 : ~ In (elId el) (map elId t2)).
  { intros H. apply Hnot. apply in_or_app. right. exact H. }
  assert (Hel : elId el <> fresh).
  { intros E. apply Hfresh. rewrite <- E. apply in_or_app. right.
    apply in_or_app. right. left. reflexivity. }
  unfold appendChild.
  rewrite filter_app. cbn [filter elId].
  rewrite filter_app. cbn [filter].
  rewrite Nat.eqb_refl. cbn [negb].
  destruct (Nat.eqb_spec fresh (elId el)) as [E | _]; [congruence |]. cbn [negb].
  rewrite !filter_keeps_others by assumption.
  rewrite map_app. cbn [map elId classList children]. rewrite Nat.eqb_refl.
  rewrite map_app.
  assert (F1 : ~ In fresh (map elId before)).
  { intros H. apply Hfresh. apply in_or_app. left. exact H. }
  assert (F2 : ~ In fresh (map elId t1)).
  { intros H. apply Hfresh. apply in_or_app. right. apply in_or_app. left. exact H. }
  assert (F3 : ~ In fresh (map elId t2)).
  { intros H. apply Hfresh. apply in_or_app. right. apply in_or_app. right. right. exact H. }
  rewrite (map_keeps_others fresh el before F1), (map_keeps_others fresh el t1 F2),
    (map_keeps_others fresh el t2 F3).
  reflexivity.
Qed.

(** The [forEach] loop moves the content elements, in order, into the
    wrapper and leaves the others where they are. *)
Lemma appendChildren_gathers (fresh : nat) (cls : list string) (before : list Element) :
  forall (content tail done : list Element),
    content = filter isContentElement tail ->
    NoDup (fresh :: map elId (before ++ tail)) ->
    fold_left (fun kids el => appendChild fresh el kids) content
              (before ++ El fresh cls done :: tail) =
    before ++ El fresh cls (done ++ content) ::
      filter (fun x => negb (isContentElement x)) tail.
Proof.
  induction content as [| el content IH]; intros tail done Hc Hnd.
  - cbn [fold_left]. rewrite app_nil_r. f_equal. f_equal.
    symmetry. apply forallb_filter_id. apply forallb_forall. intros x Hx.
    destruct (isContentElement x) eqn:E; [| reflexivity].
    assert (In x (filter isContentElement tail)) by (apply filter_In; split; assumption).
    rewrite <- Hc in H. destruct H.
  - symmetry in Hc. destruct (filter_cons_split _ _ _ _ Hc) as (t1 & t2 & -> & H1 & Hel & H2).
    cbn [fold_left]. rewrite appendChild_moves by exact Hnd.
    rewrite (IH (t1 ++ t2) (done ++ [el])).
    + rewrite <- app_assoc. cbn [app]. f_equal. f_equal.
      rewrite !filter_app. cbn [filter]. rewrite Hel. reflexivity.
    + rewrite filter_app, H2.
      rewrite (filter_none isContentElement t1 H1). reflexivity.
    + inversion Hnd as [| ? ? Hf Hids]; subst. constructor.
      * intros H. apply Hf. rewrite !map_app in *. cbn [map].
        apply in_app_or in H. destruct H as [H | H]; [apply in_or_app; left; exact H |].
        apply in_app_or in H. apply in_or_app. right. apply in_or_app.
        destruct H as [H | H]; [left; exact H | right; right; exact H].
      * rewrite !map_app in *. cbn [map] in Hids.
        rewrite app_assoc in Hids. apply NoDup_remove_1 in Hids.
        rewrite <- app_assoc in Hids. exact Hids.
Qed.

Lemma wrapped_is_found (c : string) (i : nat) (cls : list string)
      (l1 l2 kids : list Element) (e : Element) :
  children e = l1 ++ El i (c :: cls) kids :: l2 ->
  querySelectorClass c e = true.
Proof.
  destruct e as [j k ch]. cbn [children querySelectorClass]. intros ->.
  rewrite existsb_app. cbn [existsb]. unfold classListContains at 2.
  cbn [classList existsb]. rewrite String.eqb_refl. cbn [orb].
  apply orb_true_r.
Qed.

(** X16.  [wrapSlideContent] gathers the content of a slide in one
    wrapper.  A slide that already has a wrapper somewhere inside, or has
    no child other than background, overlay, footer, header and contact
    footer, is left as it is and not registered for scaling.  Otherwise
    the wrapper stands where the first content element stood and holds
    all content elements in their order; the other children stay direct
    children in their order, those that followed the first content element
    now after the wrapper.  The slide is registered with the wrapper, and
    wrapping it again changes nothing. *)
Theorem wrapSlideContent_gathers_content (fresh : nat) (slide : Element) :
  (querySelectorClass "slide-content-wrapper" slide = true ->
   wrapSlideContent fresh slide = (slide, None)) /\
  ((forall x, In x (children slide) -> isContentElement x = false) ->
   wrapSlideContent fresh slide = (slide, None)) /\
  (forall before c rest,
     querySelectorClass "slide-content-wrapper" slide = false ->
     children slide = before ++ c :: rest ->
     (forall x, In x before -> isContentElement x = false) ->
     isContentElement c = true ->
     NoDup (fresh :: map elId (children slide)) ->
     let wrapped := fst (wrapSlideContent fresh slide) in
     let wrapper :=
       El fresh
          ("slide-content-wrapper" ::
           (if classListContains "slide-title" slide
            then ["slide-content-wrapper--centered"] else []))%string
          (c :: filter isContentElement rest) in
     snd (wrapSlideContent fresh slide) = Some fresh /\
     elId wrapped = elId slide /\ classList wrapped = classList slide /\
     children wrapped =
       before ++ wrapper :: filter (fun x => negb (isContentElement x)) rest /\
     forall fresh', wrapSlideContent fresh' wrapped = (wrapped, None)).
Proof.
  split; [| split].
  - intros H. unfold wrapSlideContent. rewrite H. reflexivity.
  - intros H. unfold wrapSlideContent.
    destruct (querySelectorClass "slide-content-wrapper" slide); [reflexivity |].
    rewrite (filter_none isContentElement (children slide) H). reflexivity.
  - intros before c rest Hq Hch Hb Hc Hnd wrapped wrapper.
    assert (Hf : filter isContentElement (children slide) =
                 c :: filter isContentElement rest).
    { rewrite Hch, filter_app. cbn [filter]. rewrite Hc.
      rewrite (filter_none isContentElement before Hb). reflexivity. }
    assert (Hbc : ~ In (elId c) (map elId before)).
    { inversion Hnd as [| ? ? _ Hids]; subst. rewrite Hch, map_app in Hids.
      cbn [map] in Hids. apply NoDup_remove_2 in Hids.
      intros H. apply Hids. apply in_or_app. left. exact H. }
    assert (Hw : wrapSlideContent fresh slide =
                 (El (elId slide) (classList slide)
                     (before ++ wrapper ::
                        filter (fun x => negb (isContentElement x)) rest),
                  Some fresh)).
    { unfold wrapSlideContent. rewrite Hq, Hf. cbv zeta.
      rewrite Hch, (insertBefore_at _ c before rest Hbc).
      rewrite (appendChildren_gathers fresh _ before (c :: filter isContentElement rest)
                 (c :: rest) []).
      - cbn [app filter]. rewrite Hc. reflexivity.
      - cbn [filter]. rewrite Hc. reflexivity.
      - rewrite <- Hch. exact Hnd. }
    subst wrapped. rewrite Hw. cbn [fst snd elId classList children].
    repeat split.
    intros fresh'. unfold wrapSlideContent.
    erewrite wrapped_is_found; [reflexivity |].
    cbn [children]. subst wrapper. reflexivity.
Qed.

Lemma wrapSlideContent_gathers_content_witness :
  children
    (fst (wrapSlideContent 9
            (El 0 ["slide"%string]
                [El 1 ["bg-image"%string] []; El 2 ["slide-title-text"%string] [];
                 El 3 ["slide-footer"%string] []; El 4 ["chart"%string] []]))) =
  [El 1 ["bg-image"%string] [];
   El 9 ["slide-content-wrapper"%string]
      [El 2 ["slide-title-text"%string] []; El 4 ["chart"%string] []];
   El 3 ["slide-footer"%string] []].
Proof.
  pose proof (wrapSlideContent_gathers_content 9
                (El 0 ["slide"%string]
                    [El 1 ["bg-image"%string] []; El 2 ["slide-title-text"%string] [];
                     El 3 ["slide-footer"%string] []; El 4 ["chart"%string] []])) as H.
  destruct H as (_ & _ & H).
  specialize (H [El 1 ["bg-image"%string] []] (El 2 ["slide-title-text"%string] [])
                [El 3 ["slide-footer"%string] []; El 4 ["chart"%string] []]).
  cbv zeta in H. destruct H as (_ & _ & _ & H & _).
  - reflexivity.
  - reflexivity.
  - intros x [<- | []]. reflexivity.
  - reflexivity.
  - repeat constructor; cbn; intuition discriminate.
  - exact H.
Defined.
End Wrapping.


(** * InsightBoxInteraction: a hover and its timers *)

Section InsightProofs.
Import Ascii String.
Variables L V : Type.
Variable pulseColor : nat -> option string -> option string.

Lemma In_clearScheduled (id : nat) (s : Insight L V) (t : Scheduled) :
  In t (scheduled (clearScheduled id s)) <->
  In t (scheduled s) /\ scheduledId t <> id.
Proof.
  unfold clearScheduled. cbn [scheduled withScheduled]. rewrite filter_In.
  rewrite negb_true_iff, Nat.eqb_neq. reflexivity.
Qed.

Lemma dictSet_same {A} (d : Dict A) (k : string) (v : A) : dictSet d k v k = Some v.
Proof. unfold dictSet. rewrite String.eqb_refl. reflexivity. Qed.

Lemma dictSet_other {A} (d : Dict A) (k k' : string) (v : A) :
  k' <> k -> dictSet d k v k' = d k'.
Proof. intros H. unfold dictSet. apply String.eqb_neq in H. rewrite H. reflexivity. Qed.

Lemma dictDelete_same {A} (d : Dict A) (k : string) : dictDelete d k k = None.
Proof. unfold dictDelete. rewrite String.eqb_refl. reflexivity. Qed.

Lemma dictDelete_other {A} (d : Dict A) (k k' : string) :
  k' <> k -> dictDelete d k k' = d k'.
Proof. intros H. unfold dictDelete. apply String.eqb_neq in H. rewrite H. reflexivity. Qed.

Lemma chart_eta (c : Chart L V) :
  {| barLabels := barLabels c; barValues := barValues c;
     barBackground := barBackground c; barBorder := barBorder c;
     barBorderWidth := barBorderWidth c |} = c.
Proof. destruct c. reflexivity. Qed.

Lemma truthyId_pos (id : nat) : (0 < id)%nat -> truthyId (Some id) = true.
Proof. intros H. cbn. destruct id; [lia | reflexivity]. Qed.

(** What [clearPulse] does. *)
Lemma clearPulse_effect (c : string) (s : Insight L V) :
  let s' := clearPulse c s in
  chartInstances s' = chartInstances s /\
  originalData s' = originalData s /\
  isReordered s' = isReordered s /\
  highlightTimeouts s' = highlightTimeouts s /\
  highlightActive s' = highlightActive s /\
  nextScheduledId s' = nextScheduledId s /\
  truthyId (pulseIntervals s' c) = false /\
  (forall k, k <> c -> pulseIntervals s' k = pulseIntervals s k) /\
  (forall t, In t (scheduled s') ->
     In t (scheduled s) /\
     (pulseIntervals s c = Some (scheduledId t) -> scheduledId t = 0%nat)).
Proof.
  unfold clearPulse.
  destruct (pulseIntervals s c) as [id |] eqn:E.
  - destruct (truthyId (Some id)) eqn:T.
    + cbn. rewrite dictDelete_same. repeat split; try reflexivity.
      * intros k Hk. apply dictDelete_other, Hk.
      * apply filter_In in H. apply H.
      * intros [= ->]. apply filter_In in H. destruct H as (_ & H).
        rewrite Nat.eqb_refl in H. discriminate H.
    + cbv zeta. rewrite E, T. repeat split; try reflexivity; try assumption.
      intros [= ->]. cbn in T. destruct (scheduledId t); [reflexivity | discriminate T].
  - cbv zeta. rewrite E. repeat split; try reflexivity; try assumption.
    intros H0. discriminate H0.
Qed.

(** What [startPulseAnimation] does: nothing, or one new interval,
    recorded for the chart. *)
Lemma startPulseAnimation_effect (c : string) (bars : list nat) (s : Insight L V) :
  let s' := startPulseAnimation c bars s in
  s' = s \/
  (exists adj base baseB,
     scheduled s' = scheduled s ++
                    [{| scheduledId := nextScheduledId s;
                        closure := PulseInterval c adj base baseB 0 |}] /\
     pulseIntervals s' = dictSet (pulseIntervals s) c (nextScheduledId s)) /\
  nextScheduledId s' = S (nextScheduledId s) /\
  chartInstances s' = chartInstances s /\
  originalData s' = originalData s /\
  isReordered s' = isReordered s /\
  highlightTimeouts s' = highlightTimeouts s /\
  highlightActive s' = highlightActive s.
Proof.
  unfold startPulseAnimation.
  destruct (chartInstances s c) as [chart |]; [| left; reflexivity].
  destruct (reorderedNow c s).
  - destruct (originalData s c) as [o |]; [| left; reflexivity].
    destruct (indexMap o) as [m |]; right; (split; [do 3 eexists; split; reflexivity |]);
      repeat split; reflexivity.
  - right. split; [do 3 eexists; split; reflexivity |]. repeat split; reflexivity.
Qed.

(** What [restoreColors] does. *)
Lemma restoreColors_effect (c : string) (s : Insight L V) :
  let s' := restoreColors c s in
  pulseIntervals s' = pulseIntervals s /\
  originalData s' = originalData s /\
  isReordered s' = isReordered s /\
  highlightTimeouts s' = highlightTimeouts s /\
  highlightActive s' = highlightActive s /\
  scheduled s' = scheduled s /\
  nextScheduledId s' = nextScheduledId s /\
  (forall k, k <> c -> chartInstances s' k = chartInstances s k) /\
  (forall chart, chartInstances s c = Some chart ->
     chartInstances s' c =
       Some match originalData s c with
            | Some o =>
                {| barLabels := barLabels chart; barValues := barValues chart;
                   barBackground := barBackground (originalChart o);
                   barBorder := barBorder (originalChart o);
                   barBorderWidth := barBorderWidth (originalChart o) |}
            | None => chart
            end).
Proof.
  unfold restoreColors.
  destruct (chartInstances s c) as [chart |] eqn:Ec;
    [destruct (originalData s c) as [o |] eqn:Eo |]; cbv zeta.
  - cbn. repeat split; try reflexivity.
    + intros k Hk. apply dictSet_other, Hk.
    + intros ch [= <-]. apply dictSet_same.
  - repeat split; try reflexivity. intros ch [= <-]. exact Ec.
  - repeat split; try reflexivity. intros ch H. discriminate H.
Qed.

(** [Booked] looks at the table and at the two stored ids only. *)
Lemma Booked_ext (c : string) (s s' : Insight L V) :
  Booked c s ->
  nextScheduledId s' = nextScheduledId s ->
  (forall t, In t (scheduled s') -> In t (scheduled s)) ->
  highlightTimeouts s' c = highlightTimeouts s c ->
  pulseIntervals s' c = pulseIntervals s c ->
  Booked c s'.
Proof.
  intros (B1 & B2 & B3) Hn Ht Hh Hp.
  split; [rewrite Hn; exact B1 |]. split.
  - intros t Hin. rewrite Hn. apply B2, Ht, Hin.
  - intros t Hin Hc. rewrite Hh, Hp. apply B3; [apply Ht, Hin | exact Hc].
Qed.

(** With a truthy id out of the way, no pulse of the chart is running,
    and likewise no reorder timeout pending. *)
Lemma Booked_no_pulse (c : string) (s : Insight L V) (t : Scheduled) :
  Booked c s -> truthyId (pulseIntervals s c) = false ->
  In t (scheduled s) -> closureChart (closure t) = c ->
  match closure t with PulseInterval _ _ _ _ _ => False | _ => True end.
Proof.
  intros (B1 & B2 & B3) Hf Hin Hc. specialize (B3 t Hin Hc).
  destruct (closure t); try exact I.
  rewrite B3 in Hf. rewrite truthyId_pos in Hf; [discriminate Hf | apply B2, Hin].
Qed.

Lemma Booked_no_timeout (c : string) (s : Insight L V) (t : Scheduled) :
  Booked c s -> truthyId (highlightTimeouts s c) = false ->
  In t (scheduled s) -> closureChart (closure t) = c ->
  match closure t with ReorderTimeout _ _ _ => False | _ => True end.
Proof.
  intros (B1 & B2 & B3) Hf Hin Hc. specialize (B3 t Hin Hc).
  destruct (closure t); try exact I.
  rewrite B3 in Hf. rewrite truthyId_pos in Hf; [discriminate Hf | apply B2, Hin].
Qed.

Lemma Booked_clearScheduled (c : string) (id : nat) (s : Insight L V) :
  Booked c s -> Booked c (clearScheduled id s).
Proof.
  intros B. apply (Booked_ext c s); try reflexivity; try exact B.
  intros t Hin. apply In_clearScheduled in Hin. apply Hin.
Qed.

Lemma Booked_clearPulse (c c' : string) (s : Insight L V) :
  Booked c s -> Booked c (clearPulse c' s).
Proof.
  intros B. pose proof B as (B1 & B2 & B3).
  destruct (clearPulse_effect c' s) as (_ & _ & _ & Hh & _ & Hn & Hf & Hk & Ht).
  cbv zeta in *.
  split; [rewrite Hn; exact B1 |]. split.
  - intros t Hin. rewrite Hn. apply B2, Ht, Hin.
  - intros t Hin Hc. destruct (Ht t Hin) as (Hin0 & Hz). rewrite Hh.
    specialize (B3 t Hin0 Hc).
    destruct (String.eqb_spec c c') as [<- | Hne].
    + destruct (closure t); try exact B3; try exact I.
      specialize (Hz B3). specialize (B2 t Hin0). lia.
    + rewrite (Hk c Hne). exact B3.
Qed.

Lemma Booked_restoreColors (c c' : string) (s : Insight L V) :
  Booked c s -> Booked c (restoreColors c' s).
Proof.
  intros B. destruct (restoreColors_effect c' s) as (Hp & _ & _ & Hh & _ & Hs & Hn & _).
  cbv zeta in *.
  apply (Booked_ext c s); try assumption; try congruence.
Qed.

Lemma Booked_startPulseAnimation (c c' : string) (bars : list nat) (s : Insight L V) :
  Booked c s ->
  (c' = c -> truthyId (pulseIntervals s c) = false) ->
  Booked c (startPulseAnimation c' bars s).
Proof.
  intros B Hfree. pose proof B as (B1 & B2 & B3).
  destruct (startPulseAnimation_effect c' bars s)
    as [-> | ((adj & base & baseB & Hs & Hp) & Hn & _ & _ & _ & Hh & _)];
    [exact B |].
  cbv zeta in *.
  split; [rewrite Hn; lia |]. split.
  - intros t Hin. rewrite Hs in Hin. rewrite Hn. apply in_app_or in Hin.
    destruct Hin as [Hin | [<- | []]]; [specialize (B2 t Hin); lia | cbn; lia].
  - intros t Hin Hc. rewrite Hs in Hin. rewrite Hh, Hp. apply in_app_or in Hin.
    destruct Hin as [Hin | [<- | []]].
    + specialize (B3 t Hin Hc).
      destruct (String.eqb_spec c c') as [<- | Hne].
      * pose proof (Booked_no_pulse c s t B (Hfree eq_refl) Hin Hc) as Hno.
        destruct (closure t); try exact B3; try exact I. destruct Hno.
      * rewrite dictSet_other by exact Hne. exact B3.
    + cbn in Hc. subst c'. cbn. apply dictSet_same.
Qed.

Lemma Booked_pulseTick (c c' : string) (id : nat) (adj : list nat)
      (base baseB : list (option string)) (phase : nat) (s : Insight L V) :
  Booked c s ->
  In {| scheduledId := id; closure := PulseInterval c' adj base baseB phase |}
     (scheduled s) ->
  Booked c (pulseTick pulseColor id c' adj base baseB phase s).
Proof.
  intros (B1 & B2 & B3) Hin0. unfold pulseTick.
  assert (Hview : forall s0 : Insight L V,
             nextScheduledId s0 = nextScheduledId s -> scheduled s0 = scheduled s ->
             highlightTimeouts s0 = highlightTimeouts s ->
             pulseIntervals s0 = pulseIntervals s ->
             Booked c (withScheduled
                         (map (fun t => if Nat.eqb (scheduledId t) id
                                        then {| scheduledId := id;
                                                closure := PulseInterval c' adj base baseB
                                                                         (S phase) |}
                                        else t) (scheduled s0)) s0)).
  { intros s0 Hn Hs Hh Hp. split; [cbn; rewrite Hn; exact B1 |]. split.
    - intros t Hin. cbn in Hin. rewrite Hs in Hin. apply in_map_iff in Hin.
      destruct Hin as (t0 & <- & Hin). cbn [nextScheduledId withScheduled]. rewrite Hn.
      destruct (Nat.eqb_spec (scheduledId t0) id) as [E | _]; [| apply B2, Hin].
      cbn. rewrite <- E. apply B2, Hin.
    - intros t Hin Hc. cbn in Hin. rewrite Hs in Hin. apply in_map_iff in Hin.
      destruct Hin as (t0 & <- & Hin).
      cbn [highlightTimeouts pulseIntervals withScheduled]. rewrite Hh, Hp.
      destruct (Nat.eqb_spec (scheduledId t0) id) as [E | _];
        [| apply B3; [exact Hin | exact Hc]].
      cbn in Hc. cbn [closure scheduledId]. subst c'.
      apply (B3 _ Hin0 eq_refl). }
  destruct (chartInstances s c'); apply Hview; reflexivity.
Qed.

Lemma find_scheduled (id : nat) (s : Insight L V) (t : Scheduled) :
  find (fun t => Nat.eqb (scheduledId t) id) (scheduled s) = Some t ->
  In {| scheduledId := id; closure := closure t |} (scheduled s).
Proof.
  intros H. apply find_some in H. destruct H as (Hin & E).
  apply Nat.eqb_eq in E. destruct t as [i cl]. cbn in *. subst i. exact Hin.
Qed.

(** Whatever entry runs, the bookkeeping of every chart stays in order. *)
Lemma Booked_runScheduled (c : string) (id : nat) (s : Insight L V) :
  Booked c s -> Booked c (runScheduled pulseColor id s).
Proof.
  intros B. unfold runScheduled.
  destruct (find (fun t => Nat.eqb (scheduledId t) id) (scheduled s)) as [t |] eqn:F;
    [| exact B].
  apply find_scheduled in F.
  destruct (closure t) as [box c' bars | c' adj base baseB phase | c'].
  - cbv zeta.
    destruct (negb (highlightActive (clearScheduled id s) (boxId box)));
      [apply Booked_clearScheduled, B |].
    destruct (truthyId (pulseIntervals (clearScheduled id s) c')) eqn:T;
      [apply Booked_clearScheduled, B |].
    apply Booked_startPulseAnimation; [apply Booked_clearScheduled, B |].
    intros ->. exact T.
  - apply Booked_pulseTick; assumption.
  - cbv zeta. apply Booked_restoreColors, Booked_clearPulse, Booked_clearScheduled, B.
Qed.

(** An entry leaves the charts other than its own alone. *)
Lemma runScheduled_other (c : string) (id : nat) (s : Insight L V) (t : Scheduled) :
  find (fun t => Nat.eqb (scheduledId t) id) (scheduled s) = Some t ->
  closureChart (closure t) <> c ->
  let s' := runScheduled pulseColor id s in
  originalData s' c = originalData s c /\
  chartInstances s' c = chartInstances s c /\
  isReordered s' c = isReordered s c /\
  pulseIntervals s' c = pulseIntervals s c /\
  highlightActive s' = highlightActive s /\
  (forall t', In t' (scheduled s') -> closureChart (closure t') = c -> In t' (scheduled s)).
Proof.
  intros F Hne. unfold runScheduled. rewrite F.
  destruct (closure t) as [box c' bars | c' adj base baseB phase | c']; cbn in Hne; cbv zeta.
  - assert (H0 : forall t', In t' (scheduled (clearScheduled id s)) -> In t' (scheduled s)).
    { intros t' Hin. apply In_clearScheduled in Hin. apply Hin. }
    destruct (negb (highlightActive (clearScheduled id s) (boxId box)));
      [repeat split; auto |].
    destruct (truthyId (pulseIntervals (clearScheduled id s) c'));
      [repeat split; auto |].
    destruct (startPulseAnimation_effect c' bars (clearScheduled id s))
      as [-> | ((adj & base & baseB & Hs & Hp) & _ & Hc & Ho & Hr & _ & Ha)];
      [repeat split; auto |].
    cbv zeta in *. rewrite Hc, Ho, Hr, Hp, Ha.
    rewrite dictSet_other by congruence.
    repeat split; try reflexivity.
    intros t' Hin Hc'. rewrite Hs in Hin. apply in_app_or in Hin.
    destruct Hin as [Hin | [<- | []]]; [apply H0, Hin | cbn in Hc'; congruence].
  - unfold pulseTick.
    assert (Hmap : forall t', In t' (map (fun t0 => if Nat.eqb (scheduledId t0) id
                                            then {| scheduledId := id;
                                                    closure := PulseInterval c' adj base baseB
                                                                             (S phase) |}
                                            else t0) (scheduled s)) ->
                              closureChart (closure t') = c -> In t' (scheduled s)).
    { intros t' Hin Hc'. apply in_map_iff in Hin. destruct Hin as (t0 & <- & Hin).
      destruct (Nat.eqb (scheduledId t0) id); [cbn in Hc'; congruence | exact Hin]. }
    destruct (chartInstances s c') as [chart |]; cbn.
    + rewrite dictSet_other by congruence. repeat split; try reflexivity. exact Hmap.
    + repeat split; try reflexivity. exact Hmap.
  - destruct (restoreColors_effect c' (clearPulse c' (clearScheduled id s)))
      as (Hp & Ho & Hr & _ & Ha & Hs & _ & Hk & _).
    destruct (clearPulse_effect c' (clearScheduled id s))
      as (Hc2 & Ho2 & Hr2 & _ & Ha2 & _ & _ & Hk2 & Ht2).
    cbv zeta in *. rewrite Hp, Ho, Hr, Ha, Hs, (Hk c) by congruence.
    rewrite Hc2, Ho2, Hr2, Ha2, (Hk2 c) by congruence.
    repeat split; try reflexivity.
    intros t' Hin _. apply Ht2 in Hin. destruct Hin as (Hin & _).
    apply In_clearScheduled in Hin. apply Hin.
Qed.

Lemma reorderedNow_by (c : string) (s s' : Insight L V) :
  isReordered s' c = isReordered s c -> reorderedNow c s' = reorderedNow c s.
Proof. intros H. unfold reorderedNow. rewrite H. reflexivity. Qed.

(** While a chart is highlighted, timers may run in any order. *)
Lemma Highlighting_runScheduled (c : string) (chart0 : Chart L V) (id : nat)
      (s : Insight L V) :
  Highlighting c chart0 s -> Highlighting c chart0 (runScheduled pulseColor id s).
Proof.
  intros (B & (o & Ho & Hoc) & chart & Hch & Hshape).
  split; [apply Booked_runScheduled, B |].
  destruct (find (fun t => Nat.eqb (scheduledId t) id) (scheduled s)) as [t |] eqn:F.
  2:{ unfold runScheduled. rewrite F. split; [exists o; split; assumption |].
      exists chart. split; assumption. }
  destruct (String.eqb_spec (closureChart (closure t)) c) as [E | Hne].
  2:{ destruct (runScheduled_other c id s t F Hne) as (H1 & H2 & H3 & _).
      cbv zeta in *. rewrite H1, H2, (reorderedNow_by c s _ H3).
      split; [exists o; split; assumption |]. exists chart. split; assumption. }
  unfold runScheduled. rewrite F.
  destruct (closure t) as [box c' bars | c' adj base baseB phase | c'];
    cbn in E; subst c'; cbv zeta.
  - assert (Hkeep : forall s0 : Insight L V,
               originalData s0 = originalData s -> chartInstances s0 = chartInstances s ->
               isReordered s0 = isReordered s ->
               (exists o, originalData s0 c = Some o /\ originalChart o = chart0) /\
               exists chart, chartInstances s0 c = Some chart /\
                             (reorderedNow c s0 = true \/
                              (barLabels chart = barLabels chart0 /\
                               barValues chart = barValues chart0))).
    { intros s0 H1 H2 H3. rewrite H1, H2. unfold reorderedNow. rewrite H3.
      split; [exists o; split; assumption |]. exists chart. split; assumption. }
    destruct (negb (highlightActive (clearScheduled id s) (boxId box)));
      [apply Hkeep; reflexivity |].
    destruct (truthyId (pulseIntervals (clearScheduled id s) c));
      [apply Hkeep; reflexivity |].
    destruct (startPulseAnimation_effect c bars (clearScheduled id s))
      as [-> | (_ & _ & Hc & Ho' & Hr & _)]; [apply Hkeep; reflexivity |].
    apply Hkeep; assumption.
  - unfold pulseTick. rewrite Hch. cbn. rewrite dictSet_same.
    split; [exists o; split; assumption |].
    eexists. split; [reflexivity |]. cbn. exact Hshape.
  - destruct (restoreColors_effect c (clearPulse c (clearScheduled id s)))
      as (_ & Ho' & Hr & _ & _ & _ & _ & _ & Hat).
    destruct (clearPulse_effect c (clearScheduled id s))
      as (Hc2 & Ho2 & Hr2 & _).
    cbv zeta in *.
    rewrite Ho', Ho2. unfold reorderedNow. rewrite Hr, Hr2.
    split; [exists o; split; assumption |].
    rewrite (Hat chart) by (rewrite Hc2; exact Hch).
    eexists. split; [reflexivity |].
    rewrite Ho2. cbn [originalData clearScheduled withScheduled]. rewrite Ho.
    cbn. exact Hshape.
Qed.

(** At rest, too: a final update writes what is there already. *)
Lemma Idle_runScheduled (c : string) (chart0 : Chart L V) (id : nat) (s : Insight L V) :
  Idle c chart0 s ->
  let s' := runScheduled pulseColor id s in
  Idle c chart0 s' /\
  originalData s' c = originalData s c /\
  highlightActive s' = highlightActive s /\
  (truthyId (pulseIntervals s c) = false -> truthyId (pulseIntervals s' c) = false).
Proof.
  intros (B & Horig & Hch & Hre & Honly) s'.
  pose proof (Booked_runScheduled c id s B) as B'. fold s' in B'.
  destruct (find (fun t => Nat.eqb (scheduledId t) id) (scheduled s)) as [t |] eqn:F.
  2:{ subst s'. unfold runScheduled. rewrite F.
      split; [exact (conj B (conj Horig (conj Hch (conj Hre Honly)))) |].
      repeat split; auto. }
  destruct (String.eqb_spec (closureChart (closure t)) c) as [E | Hne].
  2:{ destruct (runScheduled_other c id s t F Hne) as (H1 & H2 & H3 & H4 & H5 & H6).
      fold s' in H1, H2, H3, H4, H5, H6.
      split; [| split; [exact H1 | split; [exact H5 | rewrite H4; auto]]].
      split; [exact B' |]. rewrite H1, H2, (reorderedNow_by c s _ H3).
      split; [exact Horig |]. split; [exact Hch |]. split; [exact Hre |].
      intros t' Hin Hc'. apply Honly; [apply H6; assumption | exact Hc']. }
  pose proof (find_scheduled id s t F) as Hin.
  pose proof (Honly _ Hin E) as Hfin. cbn in Hfin.
  subst s'. unfold runScheduled in *. rewrite F in *. rewrite Hfin in *. cbv zeta in *.
  destruct (restoreColors_effect c (clearPulse c (clearScheduled id s)))
    as (Hp & Ho' & Hr & _ & Ha & Hs & _ & _ & Hat).
  destruct (clearPulse_effect c (clearScheduled id s))
    as (Hc2 & Ho2 & Hr2 & _ & Ha2 & _ & Hf2 & _ & Ht2).
  cbv zeta in *.
  assert (Hc' : chartInstances (restoreColors c (clearPulse c (clearScheduled id s))) c =
                Some chart0).
  { rewrite (Hat chart0) by (rewrite Hc2; exact Hch). rewrite Ho2.
    cbn [originalData clearScheduled withScheduled].
    destruct Horig as [-> | (o & -> & <-)]; [reflexivity |].
    rewrite chart_eta. reflexivity. }
  split; [| split; [rewrite Ho', Ho2; reflexivity |
                    split; [rewrite Ha, Ha2; reflexivity | intros _; rewrite Hp; exact Hf2]]].
  split; [exact B' |]. rewrite Ho', Ho2. unfold reorderedNow. rewrite Hr, Hr2.
  split; [exact Horig |]. split; [exact Hc' |]. split; [exact Hre |].
  intros t' Hin' Hct. rewrite Hs in Hin'. apply Ht2 in Hin'. destruct Hin' as (Hin' & _).
  apply In_clearScheduled in Hin'. apply Honly; [apply Hin' | exact Hct].
Qed.
End InsightProofs.

Section InsightHover.
Import Ascii String.
Variables L V : Type.
Variable pulseColor : nat -> option string -> option string.

(** The first part of [startHighlight] on a chart at rest: the box is
    marked, the original is stored, no pulse of the chart runs. *)
Lemma startHighlight_prepared (c : string) (chart0 : Chart L V) (box : Box)
      (s : Insight L V) :
  Idle c chart0 s ->
  let s1 := withHighlightActive (boxId box) true s in
  let s2 := match originalData s1 c with
            | Some _ => s1
            | None => withOriginalData
                        (dictSet (originalData s1) c
                                 {| originalChart := chart0; indexMap := None |}) s1
            end in
  let s3 := clearPulse c s2 in
  Idle c chart0 s3 /\
  (exists o, originalData s3 c = Some o /\ originalChart o = chart0) /\
  truthyId (pulseIntervals s3 c) = false /\
  highlightActive s3 (boxId box) = true.
Proof.
  intros (B & Horig & Hch & Hre & Honly) s1 s2 s3.
  assert (H2 : Booked c s2 /\ chartInstances s2 = chartInstances s /\
               isReordered s2 = isReordered s /\ scheduled s2 = scheduled s /\
               highlightActive s2 (boxId box) = true /\
               exists o, originalData s2 c = Some o /\ originalChart o = chart0).
  { subst s2. change (originalData s1 c) with (originalData s c).
    destruct Horig as [E | (o & E & Ho)]; rewrite E.
    - split; [apply (Booked_ext _ _ c s); try reflexivity; auto |].
      cbn. rewrite Nat.eqb_refl, dictSet_same. repeat split; try reflexivity.
      eexists. split; reflexivity.
    - split; [apply (Booked_ext _ _ c s); try reflexivity; auto |].
      cbn. rewrite Nat.eqb_refl. repeat split; try reflexivity.
      exists o. split; assumption. }
  destruct H2 as (B2 & Hc2 & Hr2 & Hs2 & Ha2 & Ho2).
  destruct (clearPulse_effect _ _ c s2) as (Hc3 & Ho3 & Hr3 & _ & Ha3 & _ & Hf3 & _ & Ht3).
  fold s3 in Hc3, Ho3, Hr3, Ha3, Hf3, Ht3.
  split; [| split; [rewrite Ho3; exact Ho2 | split; [exact Hf3 | rewrite Ha3; exact Ha2]]].
  split; [apply Booked_clearPulse, B2 |].
  rewrite Ho3, Hc3, Hc2. unfold reorderedNow. rewrite Hr3, Hr2.
  split; [right; exact Ho2 |]. split; [exact Hch |]. split; [exact Hre |].
  intros t Hin Hc. apply Ht3 in Hin. destruct Hin as (Hin & _). rewrite Hs2 in Hin.
  apply Honly; assumption.
Qed.

Lemma startHighlight_Highlighting (c : string) (chart0 : Chart L V) (box : Box)
      (s : Insight L V) :
  dataChart box = Some c ->
  Idle c chart0 s ->
  Highlighting c chart0 (startHighlight box s) /\
  highlightActive (startHighlight box s) (boxId box) = true.
Proof.
  intros Hbox HI. pose proof HI as (_ & _ & Hch & _).
  unfold startHighlight. rewrite Hbox, Hch. cbv zeta.
  destruct (startHighlight_prepared c chart0 box s HI) as (HI3 & Ho3 & Hf3 & Ha3).
  cbv zeta in HI3, Ho3, Hf3, Ha3.
  set (s3 := clearPulse c _) in *. clearbody s3.
  destruct HI3 as (B & _ & Hch3 & Hre & Honly). destruct Ho3 as (o & Ho & Hoc).
  assert (Hpulse : Highlighting c chart0 (startPulseAnimation c (dataHighlightBars box) s3) /\
                   highlightActive (startPulseAnimation c (dataHighlightBars box) s3)
                                   (boxId box) = true).
  { pose proof (Booked_startPulseAnimation _ _ c c (dataHighlightBars box) s3 B
                  (fun _ => Hf3)) as B'.
    destruct (startPulseAnimation_effect _ _ c (dataHighlightBars box) s3)
      as [E | (_ & _ & Hc & Ho' & Hr & _ & Ha)].
    - cbv zeta in E. rewrite E in *. split; [| exact Ha3].
      split; [exact B |]. split; [exists o; split; assumption |].
      exists chart0. split; [exact Hch3 | right; split; reflexivity].
    - cbv zeta in *. split; [| rewrite Ha; exact Ha3].
      split; [exact B' |]. rewrite Ho', Hc. unfold reorderedNow. rewrite Hr.
      split; [exists o; split; assumption |].
      exists chart0. split; [exact Hch3 | right; split; reflexivity]. }
  destruct (if dataReorder box then hoverOrderOf c else None) as [ho |]; [| exact Hpulse].
  rewrite Ho. rewrite Hre. cbn [negb].
  cbn [setScheduled].
  split; [| exact Ha3].
  destruct B as (B1 & B2 & B3).
  split; [| split].
  - split; [cbn; lia |]. split.
    + intros t Hin. cbn in Hin. apply in_app_or in Hin. cbn.
      destruct Hin as [Hin | [<- | []]]; [specialize (B2 t Hin); lia | cbn; lia].
    + intros t Hin Hc. cbn in Hin. apply in_app_or in Hin.
      cbn [highlightTimeouts pulseIntervals withHighlightTimeouts].
      destruct Hin as [Hin | [<- | []]].
      * rewrite (Honly t Hin Hc). exact I.
      * cbn [closure scheduledId]. apply dictSet_same.
  - eexists. split; [cbn [originalData withHighlightTimeouts]; apply dictSet_same |].
    cbn. exact Hoc.
  - eexists. split; [cbn [chartInstances withHighlightTimeouts]; apply dictSet_same |].
    left. unfold reorderedNow. cbn. unfold dictSet. rewrite String.eqb_refl. reflexivity.
Qed.

(** The first part of [stopHighlight]: the box is unmarked, the stored
    timeout and the pulse are cleared, and with them every timer of the
    chart but final updates. *)
Lemma stopHighlight_cleared (c : string) (chart0 : Chart L V) (box : Box)
      (s : Insight L V) :
  Highlighting c chart0 s ->
  let s1 := withHighlightActive (boxId box) false s in
  let s2 := match highlightTimeouts s1 c with
            | Some id =>
                if truthyId (Some id)
                then withHighlightTimeouts (dictDelete (highlightTimeouts s1) c)
                                           (clearScheduled id s1)
                else s1
            | None => s1
            end in
  let s3 := clearPulse c s2 in
  Booked c s3 /\
  originalData s3 = originalData s /\ chartInstances s3 = chartInstances s /\
  isReordered s3 = isReordered s /\
  highlightActive s3 (boxId box) = false /\
  truthyId (pulseIntervals s3 c) = false /\
  (forall t, In t (scheduled s3) -> closureChart (closure t) = c ->
             closure t = FinalUpdate c).
Proof.
  intros (B & _ & _) s1 s2 s3. pose proof B as (B1 & B2 & B3).
  assert (H2 : Booked c s2 /\ originalData s2 = originalData s /\
               chartInstances s2 = chartInstances s /\ isReordered s2 = isReordered s /\
               highlightActive s2 (boxId box) = false /\
               pulseIntervals s2 = pulseIntervals s /\
               forall t, In t (scheduled s2) ->
                 In t (scheduled s) /\
                 (closureChart (closure t) = c ->
                  match closure t with ReorderTimeout _ _ _ => False | _ => True end)).
  { subst s2. change (highlightTimeouts s1 c) with (highlightTimeouts s c).
    destruct (highlightTimeouts s c) as [id |] eqn:E;
      [destruct (truthyId (Some id)) eqn:T |].
    - split.
      + split; [exact B1 |]. split.
        * intros t Hin. cbn in Hin. apply filter_In in Hin. apply B2, Hin.
        * intros t Hin Hc. cbn in Hin. apply filter_In in Hin. destruct Hin as (Hin & Hid).
          specialize (B3 t Hin Hc). cbn [pulseIntervals highlightTimeouts
                                         withHighlightTimeouts clearScheduled withScheduled
                                         withHighlightActive].
          revert B3. destruct (closure t); intros B3; try exact B3; try exact I.
          injection B3 as ->. rewrite Nat.eqb_refl in Hid.
          discriminate Hid.
      + cbn. rewrite Nat.eqb_refl. repeat split; try reflexivity.
        * apply filter_In in H. apply H.
        * intros Hc. apply filter_In in H. destruct H as (Hin & Hid).
          specialize (B3 t Hin Hc). revert B3. destruct (closure t); intros B3; try exact I.
          injection B3 as ->. rewrite Nat.eqb_refl in Hid.
          discriminate Hid.
    - split; [apply (Booked_ext _ _ c s); try reflexivity; auto |].
      cbn. rewrite Nat.eqb_refl. repeat split; try reflexivity; try assumption.
      intros Hc. specialize (B3 t H Hc). revert B3. destruct (closure t); intros B3;
        try exact I.
      injection B3 as ->. specialize (B2 t H).
      rewrite truthyId_pos in T; [discriminate T | lia].
    - split; [apply (Booked_ext _ _ c s); try reflexivity; auto |].
      cbn. rewrite Nat.eqb_refl. repeat split; try reflexivity; try assumption.
      intros Hc. specialize (B3 t H Hc). revert B3. destruct (closure t); intros B3;
        try exact I.
      discriminate B3. }
  destruct H2 as (B2' & Ho2 & Hc2 & Hr2 & Ha2 & Hp2 & Ht2).
  destruct (clearPulse_effect _ _ c s2) as (Hc3 & Ho3 & Hr3 & _ & Ha3 & _ & Hf3 & _ & Ht3).
  fold s3 in Hc3, Ho3, Hr3, Ha3, Hf3, Ht3.
  split; [apply Booked_clearPulse, B2' |].
  split; [congruence |]. split; [congruence |]. split; [congruence |].
  split; [rewrite Ha3; exact Ha2 |]. split; [exact Hf3 |].
  intros t Hin Hc. destruct (Ht3 t Hin) as (Hin2 & Hz).
  destruct (Ht2 t Hin2) as (Hin0 & Hno). specialize (Hno Hc).
  specialize (B3 t Hin0 Hc). specialize (B2 t Hin0). revert B3 Hno Hc.
  destruct (closure t) as [b c' bars | c' adj base baseB ph | c']; intros B3 Hno Hc.
  - destruct Hno.
  - rewrite Hp2 in Hz. specialize (Hz B3). lia.
  - cbn in Hc. subst c'. reflexivity.
Qed.

Lemma stopHighlight_Idle (c : string) (chart0 : Chart L V) (box : Box) (s : Insight L V) :
  dataChart box = Some c -> c <> ""%string ->
  Highlighting c chart0 s ->
  let s' := stopHighlight box s in
  Idle c chart0 s' /\
  (exists o, originalData s' c = Some o /\ originalChart o = chart0) /\
  highlightActive s' (boxId box) = false /\
  truthyId (pulseIntervals s' c) = false.
Proof.
  intros Hbox Hne HH.
  destruct (stopHighlight_cleared c chart0 box s HH) as (B & Ho3 & Hc3 & Hr3 & Ha3 & Hf3 & Honly).
  destruct HH as (_ & (o & Ho & Hoc) & chart & Hch & Hshape).
  unfold stopHighlight. rewrite Hbox. apply String.eqb_neq in Hne. rewrite Hne.
  cbv zeta in *. set (s3 := clearPulse c _) in *. clearbody s3.
  rewrite Hc3, Ho3, Hch, Ho.
  assert (Hfin : forall s4 : Insight L V,
             Booked c s4 -> originalData s4 c = Some o ->
             chartInstances s4 c = Some chart0 -> reorderedNow c s4 = false ->
             highlightActive s4 (boxId box) = false ->
             truthyId (pulseIntervals s4 c) = false ->
             (forall t, In t (scheduled s4) -> closureChart (closure t) = c ->
                        closure t = FinalUpdate c) ->
             let s' := snd (setScheduled (FinalUpdate c) s4) in
             Idle c chart0 s' /\
             (exists o, originalData s' c = Some o /\ originalChart o = chart0) /\
             highlightActive s' (boxId box) = false /\
             truthyId (pulseIntervals s' c) = false).
  { intros s4 (B1 & B2 & B3) Ho4 Hc4 Hr4 Ha4 Hf4 Honly4. cbn.
    split; [| split; [exists o; split; assumption | split; assumption]].
    split; [| split; [right; exists o; split; assumption |
                      split; [exact Hc4 | split; [exact Hr4 |]]]].
    - split; [cbn; lia |]. split.
      + intros t Hin. cbn in Hin. apply in_app_or in Hin. cbn.
        destruct Hin as [Hin | [<- | []]]; [specialize (B2 t Hin); lia | cbn; lia].
      + intros t Hin Hc. cbn in Hin. apply in_app_or in Hin. cbn.
        destruct Hin as [Hin | [<- | []]]; [| exact I].
        rewrite (Honly4 t Hin Hc). exact I.
    - intros t Hin Hc. cbn in Hin. apply in_app_or in Hin.
      destruct Hin as [Hin | [<- | []]]; [apply Honly4; assumption | reflexivity]. }
  destruct (reorderedNow c s3) eqn:Hre.
  - apply Hfin.
    + apply (Booked_ext _ _ c s3); try reflexivity; auto.
    + cbn. rewrite Ho3. exact Ho.
    + cbn. rewrite dictSet_same. rewrite Hoc. reflexivity.
    + unfold reorderedNow. cbn. rewrite dictSet_same. reflexivity.
    + exact Ha3.
    + exact Hf3.
    + exact Honly.
  - destruct (restoreColors_effect _ _ c s3) as (Hp & Ho' & Hr & _ & Ha & Hs & _ & _ & Hat).
    cbv zeta in *.
    destruct Hshape as [Htrue | (Hl & Hv)].
    { unfold reorderedNow in Htrue, Hre. rewrite Hr3 in Hre. congruence. }
    apply Hfin.
    + apply Booked_restoreColors, B.
    + rewrite Ho', Ho3. exact Ho.
    + rewrite (Hat chart) by (rewrite Hc3; exact Hch). rewrite Ho3, Ho, Hl, Hv, Hoc.
      rewrite chart_eta. reflexivity.
    + unfold reorderedNow in *. rewrite Hr. exact Hre.
    + rewrite Ha. exact Ha3.
    + rewrite Hp. exact Hf3.
    + intros t Hin Hc. rewrite Hs in Hin. apply Honly; assumption.
Qed.

Lemma runAll_Highlighting (c : string) (chart0 : Chart L V) (ids : list nat) :
  forall s, Highlighting c chart0 s -> Highlighting c chart0 (runAll pulseColor ids s).
Proof.
  unfold runAll. induction ids as [| id ids IH]; intros s H; [exact H |].
  cbn [fold_left]. apply IH, Highlighting_runScheduled, H.
Qed.

Lemma runAll_Idle (c : string) (chart0 : Chart L V) (ids : list nat) :
  forall s,
    Idle c chart0 s ->
    let s' := runAll pulseColor ids s in
    Idle c chart0 s' /\
    originalData s' c = originalData s c /\
    highlightActive s' = highlightActive s /\
    (truthyId (pulseIntervals s c) = false -> truthyId (pulseIntervals s' c) = false).
Proof.
  unfold runAll. induction ids as [| id ids IH]; intros s H.
  - cbn. split; [exact H |]. split; [reflexivity |]. split; [reflexivity | auto].
  - cbn [fold_left].
    destruct (Idle_runScheduled L V pulseColor c chart0 id s H) as (H1 & H2 & H3 & H4).
    destruct (IH _ H1) as (K1 & K2 & K3 & K4). cbv zeta in *.
    split; [exact K1 |]. split; [congruence |]. split; [congruence |]. auto.
Qed.

(** X17.  Hovering an insight box and leaving it puts the chart back as
    it was.  For a chart at rest (showing [chart0], not reordered, only
    final updates pending for it, its stored original, if any, equal to
    [chart0]) and a box naming it: after [startHighlight], any timers and
    pulse ticks in any order, [stopHighlight], and again any timers in any
    order, the chart shows [chart0] again (labels, values, colours and
    border widths), it is at rest, no pulse of it is running, the box is
    not marked active and the stored original is [chart0]. *)
Theorem hover_leaves_chart_as_found (c : string) (chart0 : Chart L V) (box : Box)
        (s : Insight L V) (ids1 ids2 : list nat) :
  dataChart box = Some c -> c <> ""%string ->
  Idle c chart0 s ->
  let s1 := runAll pulseColor ids1 (startHighlight box s) in
  let s2 := runAll pulseColor ids2 (stopHighlight box s1) in
  highlightActive (startHighlight box s) (boxId box) = true /\
  chartInstances s2 c = Some chart0 /\
  Idle c chart0 s2 /\
  (exists o, originalData s2 c = Some o /\ originalChart o = chart0) /\
  highlightActive s2 (boxId box) = false /\
  truthyId (pulseIntervals s2 c) = false.
Proof.
  intros Hbox Hne HI s1 s2.
  destruct (startHighlight_Highlighting c chart0 box s Hbox HI) as (HH & Hact).
  pose proof (runAll_Highlighting c chart0 ids1 _ HH) as HH1. fold s1 in HH1.
  destruct (stopHighlight_Idle c chart0 box s1 Hbox Hne HH1) as (HI2 & Ho & Ha & Hf).
  destruct (runAll_Idle c chart0 ids2 _ HI2) as (K1 & K2 & K3 & K4).
  cbv zeta in *. fold s2 in K1, K2, K3, K4.
  split; [exact Hact |]. split; [apply K1 |]. split; [exact K1 |].
  split; [rewrite K2; exact Ho |]. split; [rewrite K3; exact Ha | auto].
Qed.

Lemma clearPulse_idle (c : string) (s : Insight L V) :
  truthyId (pulseIntervals s c) = false -> clearPulse c s = s.
Proof.
  intros H. unfold clearPulse. destruct (pulseIntervals s c) as [id |]; [| reflexivity].
  rewrite H. reflexivity.
Qed.

Lemma find_app_l {A} (f : A -> bool) (l l' : list A) (x : A) :
  find f l = Some x -> find f (l ++ l') = Some x.
Proof.
  induction l as [| a l IH]; [discriminate |]. cbn.
  destruct (f a); [trivial | exact IH].
Qed.

(** When a final update runs, no pulse of its chart survives. *)
Lemma finalUpdate_no_pulse (c : string) (k : nat) (s : Insight L V) :
  Booked c s ->
  let s' := restoreColors c (clearPulse c (clearScheduled k s)) in
  truthyId (pulseIntervals s' c) = false /\
  highlightActive s' = highlightActive s /\
  forall t, In t (scheduled s') -> closureChart (closure t) = c ->
            match closure t with PulseInterval _ _ _ _ _ => False | _ => True end.
Proof.
  intros B s'.
  destruct (restoreColors_effect L V c (clearPulse c (clearScheduled k s)))
    as (Hp & _ & _ & _ & Ha & Hs & _).
  destruct (clearPulse_effect L V c (clearScheduled k s))
    as (_ & _ & _ & _ & Ha2 & _ & Hf2 & _ & Ht2).
  cbv zeta in *. fold s' in Hp, Ha, Hs.
  split; [rewrite Hp; exact Hf2 |]. split; [rewrite Ha, Ha2; reflexivity |].
  intros t Hin Hc. rewrite Hs in Hin. destruct (Ht2 t Hin) as (Hin1 & Hz).
  pose proof (Booked_clearScheduled L V c k s B) as (_ & B2 & B3).
  specialize (B3 t Hin1 Hc). specialize (B2 t Hin1). revert B3.
  destruct (closure t); intros B3; try exact I.
  specialize (Hz B3). lia.
Qed.

(** X18.  A final update left over from the last [stopHighlight] undoes
    the next highlight.  Let a chart be at rest with no pulse stored and a
    final update of it pending (as [stopHighlight] leaves it), and let a
    box of the chart be entered before that update has run.  When it runs,
    the box is still marked active but no pulse of the chart is running.
    If the box does not reorder, a pulse had been started and is cleared:
    the chart is at rest, showing its original data, with the box
    hovered.  If the box reorders, the bars stay in hover order while
    colours and border widths are put back in the original order, so they
    no longer belong to the bars they are drawn on; the reorder timeout is
    still pending. *)
Theorem stale_final_update_undoes_highlight (c : string) (chart0 : Chart L V) (box : Box)
        (s : Insight L V) (k : nat) :
  dataChart box = Some c ->
  Idle c chart0 s ->
  truthyId (pulseIntervals s c) = false ->
  find (fun t => Nat.eqb (scheduledId t) k) (scheduled s) =
    Some {| scheduledId := k; closure := FinalUpdate c |} ->
  let s1 := startHighlight box s in
  let s2 := runScheduled pulseColor k s1 in
  highlightActive s2 (boxId box) = true /\
  truthyId (pulseIntervals s2 c) = false /\
  (forall t, In t (scheduled s2) -> closureChart (closure t) = c ->
             match closure t with PulseInterval _ _ _ _ _ => False | _ => True end) /\
  ((if dataReorder box then hoverOrderOf c else None) = None ->
   truthyId (pulseIntervals s1 c) = true /\ Idle c chart0 s2) /\
  (forall ho,
     (if dataReorder box then hoverOrderOf c else None) = Some ho ->
     chartInstances s2 c =
       Some {| barLabels := barLabels (reordered chart0 ho);
               barValues := barValues (reordered chart0 ho);
               barBackground := barBackground chart0;
               barBorder := barBorder chart0;
               barBorderWidth := barBorderWidth chart0 |} /\
     reorderedNow c s2 = true /\
     In {| scheduledId := nextScheduledId s;
           closure := ReorderTimeout box c (dataHighlightBars box) |} (scheduled s2)).
Proof.
  intros Hbox HI Hfree Hk s1 s2.
  destruct (startHighlight_Highlighting c chart0 box s Hbox HI) as (HH & Hact).
  fold s1 in HH, Hact.
  pose proof HI as (B & Horig & Hch & Hre & Honly).
  pose proof HH as (B1 & (o1 & Ho1 & Hoc1) & _).
  (* the state built by [startHighlight] *)
  set (sa := withHighlightActive (boxId box) true s).
  set (sb := match originalData sa c with
             | Some _ => sa
             | None => withOriginalData
                         (dictSet (originalData sa) c
                                  {| originalChart := chart0; indexMap := None |}) sa
             end).
  assert (Hsb : scheduled sb = scheduled s /\ nextScheduledId sb = nextScheduledId s /\
                pulseIntervals sb = pulseIntervals s /\
                chartInstances sb = chartInstances s /\ isReordered sb = isReordered s /\
                exists o, originalData sb c = Some o /\ originalChart o = chart0).
  { subst sb. change (originalData sa c) with (originalData s c).
    destruct Horig as [E | (o & E & Ho)]; rewrite E.
    - cbn. rewrite dictSet_same. repeat split. eexists. split; reflexivity.
    - repeat split. exists o. split; assumption. }
  destruct Hsb as (Hs_b & Hn_b & Hp_b & Hc_b & Hr_b & (o & Ho & Hoc)).
  assert (E1 : s1 = match (if dataReorder box then hoverOrderOf c else None),
                          originalData sb c with
                    | Some hoverOrder, Some original =>
                        if negb (reorderedNow c sb) then
                          let s := withChartInstances
                                     (dictSet (chartInstances sb) c
                                        (reordered (originalChart original) hoverOrder)) sb in
                          let s := withOriginalData
                                     (dictSet (originalData s) c
                                        {| originalChart := originalChart original;
                                           indexMap :=
                                             Some (snd (reorderChartData
                                                          (originalChart original)
                                                          hoverOrder)) |}) s in
                          let s := withIsReordered (dictSet (isReordered s) c true) s in
                          let '(reorderTimeout, s) :=
                            setScheduled (ReorderTimeout box c (dataHighlightBars box)) s in
                          withHighlightTimeouts
                            (dictSet (highlightTimeouts s) c reorderTimeout) s
                        else startPulseAnimation c (dataHighlightBars box) sb
                    | _, _ => startPulseAnimation c (dataHighlightBars box) sb
                    end).
  { subst s1. unfold startHighlight. rewrite Hbox, Hch. cbv zeta. fold sa. fold sb.
    rewrite (clearPulse_idle c sb) by (rewrite Hp_b; exact Hfree). reflexivity. }
  assert (Hs1 : exists cl, scheduled s1 = scheduled s ++ [{| scheduledId := nextScheduledId s;
                                                              closure := cl |}]).
  { rewrite E1. rewrite Ho.
    assert (Hp : exists cl, scheduled (startPulseAnimation c (dataHighlightBars box) sb) =
                            scheduled s ++ [{| scheduledId := nextScheduledId s;
                                               closure := cl |}]).
    { unfold startPulseAnimation. rewrite Hc_b, Hch.
      unfold reorderedNow. rewrite Hr_b. fold (reorderedNow c s). rewrite Hre.
      cbn. rewrite Hs_b, Hn_b. eexists. reflexivity. }
    destruct (if dataReorder box then hoverOrderOf c else None); [| exact Hp].
    unfold reorderedNow. rewrite Hr_b. fold (reorderedNow c s). rewrite Hre.
    cbn. rewrite Hs_b, Hn_b. eexists. reflexivity. }
  assert (E2 : s2 = restoreColors c (clearPulse c (clearScheduled k s1))).
  { subst s2. unfold runScheduled. destruct Hs1 as (cl & Hs1). rewrite Hs1.
    rewrite (find_app_l _ _ _ _ Hk). reflexivity. }
  destruct (finalUpdate_no_pulse c k s1 B1) as (F1 & F2 & F3).
  cbv zeta in F1, F2, F3. rewrite <- E2 in F1, F2, F3.
  split; [rewrite F2; exact Hact |]. split; [exact F1 |]. split; [exact F3 |].
  assert (Hkn : (k < nextScheduledId s)%nat).
  { apply find_some in Hk. destruct Hk as (Hin & _).
    destruct B as (_ & B2 & _). apply (B2 _ Hin). }
  split.
  - intros Hnone. rewrite Hnone in E1.
    assert (Hp1 : pulseIntervals s1 c = Some (nextScheduledId s)).
    { rewrite E1. unfold startPulseAnimation. rewrite Hc_b, Hch.
      unfold reorderedNow. rewrite Hr_b. fold (reorderedNow c s). rewrite Hre.
      cbn. rewrite Hn_b. apply dictSet_same. }
    split; [rewrite Hp1; apply truthyId_pos; destruct B as (B0 & _); exact B0 |].
    pose proof (Booked_runScheduled L V pulseColor c k s1 B1) as B2. fold s2 in B2.
    destruct (restoreColors_effect L V c (clearPulse c (clearScheduled k s1)))
      as (_ & Ho' & Hr' & _ & _ & Hs' & _ & _ & Hat).
    destruct (clearPulse_effect L V c (clearScheduled k s1))
      as (Hc2 & Ho2 & Hr2 & _ & _ & _ & _ & _ & Ht2).
    cbv zeta in *. rewrite <- E2 in Ho', Hr', Hs', Hat.
    assert (Hc1 : chartInstances s1 c = Some chart0 /\ isReordered s1 = isReordered s).
    { rewrite E1. unfold startPulseAnimation. rewrite Hc_b, Hch.
      unfold reorderedNow. rewrite Hr_b. fold (reorderedNow c s). rewrite Hre.
      cbn. rewrite Hc_b, Hr_b. split; [exact Hch | reflexivity]. }
    destruct Hc1 as (Hc1 & Hr1).
    split; [exact B2 |]. split; [right; rewrite Ho', Ho2; exists o1; split; assumption |].
    split.
    { rewrite (Hat chart0) by (rewrite Hc2; exact Hc1). rewrite Ho2.
      cbn [originalData clearScheduled withScheduled]. rewrite Ho1, Hoc1.
      rewrite chart_eta. reflexivity. }
    split.
    { unfold reorderedNow in *. rewrite Hr', Hr2.
      cbn [isReordered clearScheduled withScheduled]. rewrite Hr1. exact Hre. }
    intros t Hin Hc. pose proof (F3 t Hin Hc) as Hnp.
    rewrite Hs' in Hin. apply Ht2 in Hin. destruct Hin as (Hin & _).
    apply In_clearScheduled in Hin. destruct Hin as (Hin & _).
    destruct Hs1 as (cl & Hs1). rewrite Hs1 in Hin. apply in_app_or in Hin.
    destruct Hin as [Hin | [<- | []]]; [apply Honly; assumption |].
    cbn in Hnp, Hc |- *.
    assert (Hcl : exists adj base baseB ph, cl = PulseInterval c adj base baseB ph).
    { revert Hs1. rewrite E1. unfold startPulseAnimation. rewrite Hc_b, Hch.
      unfold reorderedNow. rewrite Hr_b. fold (reorderedNow c s). rewrite Hre.
      cbn. rewrite Hs_b, Hn_b. intros H. apply app_inv_head in H.
      injection H as <-. do 4 eexists. reflexivity. }
    destruct Hcl as (adj & base & baseB & ph & ->). destruct Hnp.
  - intros ho Hho. rewrite Hho, Ho in E1.
    unfold reorderedNow in E1 at 1. rewrite Hr_b in E1. fold (reorderedNow c s) in E1.
    rewrite Hre in E1. cbn [negb] in E1. cbv zeta in E1. cbn [setScheduled] in E1.
    assert (Hv : chartInstances s1 c = Some (reordered chart0 ho) /\
                 (exists m, originalData s1 c =
                            Some {| originalChart := chart0; indexMap := m |}) /\
                 isReordered s1 c = Some true /\
                 pulseIntervals s1 = pulseIntervals s /\
                 scheduled s1 =
                   scheduled s ++
                   [{| scheduledId := nextScheduledId s;
                       closure := ReorderTimeout box c (dataHighlightBars box) |}]).
    { rewrite E1. cbn. unfold dictSet. rewrite !String.eqb_refl, Hoc, Hp_b, Hs_b, Hn_b.
      repeat split. eexists. reflexivity. }
    destruct Hv as (Hc1 & (m & Ho1') & Hr1 & Hp1 & Hs1').
    destruct (restoreColors_effect L V c (clearPulse c (clearScheduled k s1)))
      as (_ & _ & Hr' & _ & _ & Hs' & _ & _ & Hat).
    cbv zeta in *. rewrite <- E2 in Hr', Hs', Hat.
    assert (Hidle : truthyId (pulseIntervals (clearScheduled k s1) c) = false).
    { cbn [pulseIntervals clearScheduled withScheduled]. rewrite Hp1. exact Hfree. }
    rewrite (clearPulse_idle c _ Hidle) in Hr', Hs', Hat.
    split; [| split].
    + rewrite (Hat (reordered chart0 ho)) by exact Hc1.
      cbn [originalData clearScheduled withScheduled]. rewrite Ho1'. reflexivity.
    + unfold reorderedNow. rewrite Hr'.
      cbn [isReordered clearScheduled withScheduled]. rewrite Hr1. reflexivity.
    + rewrite Hs'. apply In_clearScheduled. split.
      * rewrite Hs1'. apply in_or_app. right. left. reflexivity.
      * cbn. lia.
Qed.
End InsightHover.

Section InsightWitnesses.
Import Ascii String.

Lemma newInsight_Idle (chartId : string) (chart : Chart nat Z) :
  Idle chartId chart (newInsight chartId chart).
Proof.
  split; [| split; [left; reflexivity | split; [apply dictSet_same | split]]].
  - split; [cbn; lia |]. split; intros t [].
  - reflexivity.
  - intros t [].
Qed.

Lemma hover_leaves_chart_as_found_witness :
  chartInstances
    (runAll (fun _ color => color) [3%nat]
       (stopHighlight
          {| boxId := 0; dataChart := Some "chart-weather-severity"%string;
             dataHighlightBars := [0; 2]%nat; dataReorder := true |}
          (runAll (fun _ color => color) [1; 2; 2]%nat
             (startHighlight
                {| boxId := 0; dataChart := Some "chart-weather-severity"%string;
                   dataHighlightBars := [0; 2]%nat; dataReorder := true |}
                (newInsight "chart-weather-severity" sevenBars)))))
    "chart-weather-severity"%string = Some sevenBars.
Proof.
  pose proof (hover_leaves_chart_as_found nat Z (fun _ color => color)
                "chart-weather-severity"%string sevenBars
                {| boxId := 0; dataChart := Some "chart-weather-severity"%string;
                   dataHighlightBars := [0; 2]%nat; dataReorder := true |}
                (newInsight "chart-weather-severity" sevenBars)
                [1; 2; 2]%nat [3%nat]) as H.
  cbv zeta in H. destruct H as (_ & H & _).
  - reflexivity.
  - discriminate.
  - apply newInsight_Idle.
  - exact H.
Defined.

Lemma stale_final_update_undoes_highlight_witness :
  highlightActive
    (runScheduled (fun _ color => color) 2
       (startHighlight
          {| boxId := 0; dataChart := Some "chart-states"%string;
             dataHighlightBars := [0; 2]%nat; dataReorder := false |}
          (stopHighlight
             {| boxId := 0; dataChart := Some "chart-states"%string;
                dataHighlightBars := [0; 2]%nat; dataReorder := false |}
             (startHighlight
                {| boxId := 0; dataChart := Some "chart-states"%string;
                   dataHighlightBars := [0; 2]%nat; dataReorder := false |}
                (newInsight "chart-states" sevenBars))))) 0 = true /\
  truthyId
    (pulseIntervals
       (runScheduled (fun _ color => color) 2
          (startHighlight
             {| boxId := 0; dataChart := Some "chart-states"%string;
                dataHighlightBars := [0; 2]%nat; dataReorder := false |}
             (stopHighlight
                {| boxId := 0; dataChart := Some "chart-states"%string;
                   dataHighlightBars := [0; 2]%nat; dataReorder := false |}
                (startHighlight
                   {| boxId := 0; dataChart := Some "chart-states"%string;
                      dataHighlightBars := [0; 2]%nat; dataReorder := false |}
                   (newInsight "chart-states" sevenBars)))))
       "chart-states"%string) = false.
Proof.
  destruct (startHighlight_Highlighting nat Z "chart-states"%string sevenBars
              {| boxId := 0; dataChart := Some "chart-states"%string;
                 dataHighlightBars := [0; 2]%nat; dataReorder := false |}
              (newInsight "chart-states" sevenBars) eq_refl
              (newInsight_Idle _ _)) as (HH & _).
  destruct (stopHighlight_Idle nat Z "chart-states"%string sevenBars
              {| boxId := 0; dataChart := Some "chart-states"%string;
                 dataHighlightBars := [0; 2]%nat; dataReorder := false |}
              _ eq_refl ltac:(discriminate) HH) as (HI & _ & _ & Hf).
  pose proof (stale_final_update_undoes_highlight nat Z (fun _ color => color)
                "chart-states"%string sevenBars
                {| boxId := 0; dataChart := Some "chart-states"%string;
                   dataHighlightBars := [0; 2]%nat; dataReorder := false |}
                _ 2 eq_refl HI Hf) as H.
  cbv zeta in H. destruct H as (H1 & H2 & _).
  - vm_compute. reflexivity.
  - split; [exact H1 | exact H2].
Defined.
End InsightWitnesses.

(** ** ChartFactory: adjustBrightness *)

Section BrightnessProofs.
Import Ascii String.

Lemma toHex_step (fuel : nat) (n d : Z) (tail : string) :
  0 < n -> 0 <= d < 16 ->
  toHex (S fuel) (16 * n + d) tail = toHex fuel n (String (hexChar d) tail).
Proof.
  intros Hn Hd. cbn [toHex].
  replace ((16 * n + d) mod 16) with d
    by (rewrite Z.add_comm, Z.mul_comm, Z.mod_add by lia; symmetry; apply Z.mod_small; lia).
  replace ((16 * n + d) / 16) with n
    by (rewrite Z.add_comm, Z.mul_comm, Z.div_add by lia; rewrite (Z.div_small d 16) by lia; lia).
  destruct (Z.ltb_spec (16 * n + d) 16); [lia | reflexivity].
Qed.

Lemma toHex_colour (R G B : Z) :
  0 <= R <= 255 -> 0 <= G <= 255 -> 0 <= B <= 255 ->
  toHex 16 (16777216 + R * 65536 + G * 256 + B) EmptyString
  = String "1"%char (channel R ++ channel G ++ channel B)%string.
Proof.
  intros HR HG HB.
  assert (DR := Z.div_mod R 16 ltac:(lia)). assert (MR := Z.mod_pos_bound R 16 ltac:(lia)).
  assert (DG := Z.div_mod G 16 ltac:(lia)). assert (MG := Z.mod_pos_bound G 16 ltac:(lia)).
  assert (DB := Z.div_mod B 16 ltac:(lia)). assert (MB := Z.mod_pos_bound B 16 ltac:(lia)).
  assert (QR : 0 <= R / 16 < 16) by (split; [apply Z.div_pos | apply Z.div_lt_upper_bound]; lia).
  assert (QG : 0 <= G / 16 < 16) by (split; [apply Z.div_pos | apply Z.div_lt_upper_bound]; lia).
  assert (QB : 0 <= B / 16 < 16) by (split; [apply Z.div_pos | apply Z.div_lt_upper_bound]; lia).
  unfold channel.
  generalize dependent (R mod 16). generalize dependent (R / 16).
  generalize dependent (G mod 16). generalize dependent (G / 16).
  generalize dependent (B mod 16). generalize dependent (B / 16).
  intros b1 Hb1 b0 DB Hb0 g1 Hg1 g0 DG Hg0 r1 Hr1 r0 DR Hr0.
  replace (16777216 + R * 65536 + G * 256 + B)
    with (16 * (16 * (16 * (16 * (16 * (16 * 1 + r1) + r0) + g1) + g0) + b1) + b0) by lia.
  rewrite !toHex_step by lia.
  reflexivity.
Qed.

Lemma parseHex_app (s t : string) (acc : Z) :
  parseHex (s ++ t) acc
  = match parseHex s acc with Some v => parseHex t v | None => None end.
Proof.
  revert acc. induction s as [|ch s IH]; intros acc; cbn; [reflexivity |].
  destruct (hexValue ch); [apply IH | reflexivity].
Qed.

Lemma hexValue_hexChar (d : Z) : 0 <= d < 16 -> hexValue (hexChar d) = Some d.
Proof.
  intros H.
  assert (C : d = 0 \/ d = 1 \/ d = 2 \/ d = 3 \/ d = 4 \/ d = 5 \/ d = 6 \/ d = 7
              \/ d = 8 \/ d = 9 \/ d = 10 \/ d = 11 \/ d = 12 \/ d = 13 \/ d = 14 \/ d = 15)
    by lia.
  repeat (destruct C as [-> | C]; [reflexivity |]). subst d. reflexivity.
Qed.

Lemma parseHex_channel (v acc : Z) (t : string) :
  0 <= v <= 255 ->
  parseHex (channel v ++ t) acc = parseHex t (256 * acc + v).
Proof.
  intros H. unfold channel. cbn [append parseHex].
  assert (Q : 0 <= v / 16 < 16) by (split; [apply Z.div_pos | apply Z.div_lt_upper_bound]; lia).
  assert (M := Z.mod_pos_bound v 16 ltac:(lia)).
  rewrite !hexValue_hexChar by lia.
  f_equal. assert (D := Z.div_mod v 16 ltac:(lia)). lia.
Qed.

Lemma length_channel (v : Z) : String.length (channel v) = 2%nat.
Proof. reflexivity. Qed.

Lemma colour_split (r g b : Z) :
  0 <= r <= 255 -> 0 <= g <= 255 -> 0 <= b <= 255 ->
  let num := r * 65536 + g * 256 + b in
  toInt32 num = num
  /\ Z.shiftr num 16 = r
  /\ Z.land (Z.shiftr num 8) 255 = g
  /\ Z.land num 255 = b.
Proof.
  intros Hr Hg Hb num.
  assert (N : 0 <= num < 2 ^ 24) by (subst num; change (2 ^ 24) with 16777216; lia).
  split; [| split; [| split]].
  - unfold toInt32. rewrite Z.mod_small; [lia |].
    change (2 ^ 31) with 2147483648. change (2 ^ 32) with 4294967296.
    change (2 ^ 24) with 16777216 in N. lia.
  - rewrite Z.shiftr_div_pow2 by lia. change (2 ^ 16) with 65536.
    subst num. symmetry. apply (Z.div_unique _ 65536 r (g * 256 + b)); lia.
  - change 255 with (Z.ones 8). rewrite Z.land_ones by lia.
    rewrite Z.shiftr_div_pow2 by lia. change (2 ^ 8) with 256.
    replace (num / 256) with (r * 256 + g)
      by (subst num; apply (Z.div_unique _ 256 (r * 256 + g) b); lia).
    symmetry. apply (Z.mod_unique _ 256 r g); lia.
  - change 255 with (Z.ones 8). rewrite Z.land_ones by lia. change (2 ^ 8) with 256.
    subst num. symmetry. apply (Z.mod_unique _ 256 (r * 256 + g) b); lia.
Qed.

Lemma parseHex_colour (r g b : Z) :
  0 <= r <= 255 -> 0 <= g <= 255 -> 0 <= b <= 255 ->
  parseHex (channel r ++ channel g ++ channel b) 0 = Some (r * 65536 + g * 256 + b).
Proof.
  intros Hr Hg Hb.
  rewrite !parseHex_channel by lia.
  replace (channel b) with (channel b ++ EmptyString)%string by reflexivity.
  rewrite parseHex_channel by lia. cbn [parseHex]. f_equal. lia.
Qed.

(** X19.  Where the text after the first character of [hex] is at most
    thirteen hexadecimal digits, of either case, that read as the colour
    [rrggbb], [adjustBrightness] adds the same amount [amt] to the three
    channels, keeps each one within 0..255 and answers [#] with the six
    digits in lower case.  So amount 0 gives the colour back (in lower
    case), an amount of 255 or more gives white and one of -255 or less
    gives black. *)
Theorem adjustBrightness_shifts_channels (hex : string) (r g b amt : Z) :
  0 <= r <= 255 -> 0 <= g <= 255 -> 0 <= b <= 255 ->
  (String.length (slice1 hex) <= 13)%nat ->
  parseHex (slice1 hex) 0 = Some (r * 65536 + g * 256 + b) ->
  adjustBrightness hex amt
  = Some (String "#"%char
            (channel (clampChannel (r + amt)) ++ channel (clampChannel (g + amt))
             ++ channel (clampChannel (b + amt)))%string)
  /\ adjustBrightness hex 0
     = Some (String "#"%char (channel r ++ channel g ++ channel b)%string)
  /\ (255 <= amt -> adjustBrightness hex amt = Some "#ffffff"%string)
  /\ (amt <= -255 -> adjustBrightness hex amt = Some "#000000"%string).
Proof.
  intros Hr Hg Hb Hlen Hnum.
  assert (G : forall a, adjustBrightness hex a
    = Some (String "#"%char
            (channel (clampChannel (r + a)) ++ channel (clampChannel (g + a))
             ++ channel (clampChannel (b + a)))%string)).
  { intros a. unfold adjustBrightness.
    destruct (Nat.ltb_spec 13 (String.length (slice1 hex))) as [L | _]; [lia |].
    rewrite Hnum.
    destruct (colour_split r g b Hr Hg Hb) as (E0 & E1 & E2 & E3).
    cbv zeta. rewrite E0, E1, E2, E3.
    fold (clampChannel (r + a)). fold (clampChannel (g + a)). fold (clampChannel (b + a)).
    rewrite toHex_colour by (unfold clampChannel; lia).
    reflexivity. }
  split; [apply G |]. split; [| split].
  - rewrite G. unfold clampChannel. rewrite !Z.add_0_r.
    rewrite !Z.min_l, !Z.max_l by lia. reflexivity.
  - intros Ha. rewrite G. unfold clampChannel.
    rewrite !Z.min_r by lia. reflexivity.
  - intros Ha. rewrite G. unfold clampChannel.
    rewrite !(Z.max_r _ 0) by lia. reflexivity.
Qed.

(** The border of a bar in the primary colour: [adjustBrightness("#E07A47", -20)],
    where [Math.round(2.55 * -20)] is -51. *)
Lemma adjustBrightness_shifts_channels_witness :
  adjustBrightness themePrimary (-51) = Some "#ad4714"%string
  /\ adjustBrightness themePrimary 0 = Some "#e07a47"%string.
Proof.
  destruct (adjustBrightness_shifts_channels themePrimary 224 122 71 (-51))
    as (H1 & H2 & _); [lia | lia | lia | cbn; lia | reflexivity |].
  split; [exact H1 | exact H2].
Defined.
End BrightnessProofs.

(** * Properties kept by every statement *)

Lemma promiseOf_sequence (a : Action) (q : Sequence) :
  sequenceOf a = Some q -> promiseOf a = None.
Proof. destruct a; cbn; intros H; try discriminate; reflexivity. Qed.

Section StatementsKeep.
Variable Inv : State -> Prop.

Hypothesis Inv_shrink : KeptByClearing Inv.
Hypothesis Inv_add : KeptBySetTimeout Inv.
Hypothesis Inv_transition : KeptByTransition Inv.

Lemma Inv_same (u u' : State) :
  now (host u') = now (host u) ->
  timers (host u') = timers (host u) ->
  nextTimerId (host u') = nextTimerId (host u) ->
  promises (host u') = promises (host u) ->
  (forall q, recordedTimers q u' = recordedTimers q u) ->
  Inv u -> Inv u'.
Proof.
  intros Hn Ht Hi Hp Hr. apply Inv_shrink; try assumption.
  - intros q id. rewrite Hr. auto.
  - intros t. rewrite Ht. auto.
  - intros t. rewrite Ht. auto.
Qed.

Lemma Keeping_skip : Keeping Inv skip.
Proof. intros u H. exact H. Qed.

Lemma Keeping_andThen (c1 c2 : State -> State) :
  Keeping Inv c1 -> Keeping Inv c2 -> Keeping Inv (c1 ;; c2).
Proof. intros H1 H2 u H. apply H2, H1, H. Qed.

Lemma Keeping_when (b : bool) (c : State -> State) :
  Keeping Inv c -> Keeping Inv (when b c).
Proof. intros Hc u H. unfold when. destruct b; [apply Hc, H | exact H]. Qed.

Lemma Keeping_whenS (b : State -> bool) (c : State -> State) :
  Keeping Inv c -> Keeping Inv (whenS b c).
Proof. intros Hc u H. unfold whenS. destruct (b u); [apply Hc, H | exact H]. Qed.

Lemma Keeping_onEngine (f : SlideEngine -> SlideEngine) : Keeping Inv (onEngine f).
Proof. intros u H. apply (Inv_same u); try reflexivity; exact H. Qed.

Lemma Keeping_setSlides (l : State -> list Slide) : Keeping Inv (fun s => setSlides (l s) s).
Proof. intros u H. apply (Inv_same u); try reflexivity; exact H. Qed.

Lemma Keeping_dispatchSlideChange (index : Z) : Keeping Inv (dispatchSlideChange index).
Proof. intros u H. apply (Inv_same u); try reflexivity; exact H. Qed.

(** A write to the animator that adds nothing to a record. *)
Lemma Keeping_onAnimator (f : LineAnimator -> LineAnimator) :
  (forall q u id, In id (recordedTimers q (onAnimator f u)) ->
                  In id (recordedTimers q u)) ->
  Keeping Inv (onAnimator f).
Proof.
  intros Hr u H. apply (Inv_shrink u); try reflexivity; try exact H.
  - intros q id. apply Hr.
  - auto.
  - auto.
Qed.

Lemma Keeping_clearTimeouts (ids : State -> list nat) :
  (forall u id, In id (ids u) -> exists q, In id (recordedTimers q u)) ->
  Keeping Inv (fun s => clearTimeouts (ids s) s).
Proof.
  intros Hids u H. rewrite clearTimeouts_eq.
  apply (Inv_shrink u); try reflexivity; try exact H.
  - auto.
  - intros t Ht. cbn in Ht. apply filter_In in Ht. apply Ht.
  - intros t Ht. cbn.
    destruct (keptAfterClearing (ids u) t) eqn:E.
    + left. apply filter_In. split; assumption.
    + right. apply Hids. unfold keptAfterClearing in E.
      apply negb_false_iff, existsb_exists in E.
      destruct E as (id & Hin & Heq). apply Nat.eqb_eq in Heq. rewrite Heq. exact Hin.
Qed.

Lemma Inv_setTimeout (a : Action) (dl : Z) (u : State) :
  promiseOf a = None -> Inv u -> Inv (snd (setTimeout a dl u)).
Proof.
  intros Ha H. apply (Inv_add a dl u); try reflexivity; try assumption.
  intros q id Hin. left. exact Hin.
Qed.

Lemma Keeping_scheduleUntracked (a : Action) (dl : Z) :
  promiseOf a = None -> Keeping Inv (scheduleUntracked a dl).
Proof. intros Ha u H. apply Inv_setTimeout; assumption. Qed.

(** [setTimeout] followed by the recording of its id. *)
Lemma Keeping_schedule (a : Action) (dl : Z) (record : nat -> LineAnimator -> LineAnimator) :
  promiseOf a = None ->
  (forall id q u id', In id' (recordedTimers q (onAnimator (record id) u)) ->
                      In id' (recordedTimers q u) \/ (sequenceOf a = Some q /\ id' = id)) ->
  Keeping Inv (schedule a dl (fun id => onAnimator (record id))).
Proof.
  intros Ha Hr u H. unfold schedule, setTimeout. cbv zeta.
  apply (Inv_add a dl u); try reflexivity; try assumption.
  intros q id Hin.
  apply (Hr (nextTimerId (host u)) q u id). exact Hin.
Qed.

(** Statements that touch neither the timer table nor a record. *)
Ltac neutral :=
  let u := fresh "u" in
  let H := fresh "H" in
  intros u H; apply (Inv_same u);
  [reflexivity | reflexivity | reflexivity | reflexivity | intros ?; reflexivity | exact H].

Ltac anim_side :=
  let H := fresh "H" in
  intros [] ? ? H; first [exact H | destruct H].

Lemma Keeping_cancelTimelineAnimation : Keeping Inv cancelTimelineAnimation.
Proof.
  unfold cancelTimelineAnimation.
  apply Keeping_andThen; [| apply Keeping_andThen; apply Keeping_onAnimator; anim_side].
  apply (Keeping_clearTimeouts (fun s => timelineTimeouts (animator s))).
  intros u id Hin. exists TimelineReveal. exact Hin.
Qed.

Lemma Keeping_cancelSlide10To11Swoop : Keeping Inv cancelSlide10To11Swoop.
Proof.
  unfold cancelSlide10To11Swoop.
  apply Keeping_andThen; [| apply Keeping_andThen; [apply Keeping_onAnimator; anim_side | neutral]].
  apply (Keeping_clearTimeouts (fun s => slide10To11Timeouts (animator s))).
  intros u id Hin. exists Swoop10To11. exact Hin.
Qed.

Lemma Keeping_clearSplitTimeouts : Keeping Inv clearSplitTimeouts.
Proof.
  unfold clearSplitTimeouts.
  apply Keeping_andThen; [| apply Keeping_onAnimator; anim_side].
  apply (Keeping_clearTimeouts (fun s => slide12SplitTimeouts (animator s))).
  intros u id Hin. exists Split. exact Hin.
Qed.

Lemma Keeping_clearReverseTimeouts : Keeping Inv clearReverseTimeouts.
Proof.
  unfold clearReverseTimeouts.
  apply Keeping_andThen; [| apply Keeping_onAnimator; anim_side].
  apply (Keeping_clearTimeouts (fun s => slide12ReverseTimeouts (animator s))).
  intros u id Hin. exists ReverseSplit. exact Hin.
Qed.

Lemma Keeping_cancelSlide12Split : Keeping Inv cancelSlide12Split.
Proof.
  intros u H.
  change (cancelSlide12Split u)
    with ((whenS (fun s => negb (lineCurrentSlide (animator s) =? 11)) resetOverlays ;;
           setPathSecondary TransitionNone PathZero ;;
           setIsAnimating false)
            (clearReverseTimeouts (clearSplitTimeouts u))).
  apply Keeping_andThen;
    [apply Keeping_whenS; neutral | apply Keeping_andThen; neutral |].
  apply Keeping_clearReverseTimeouts, Keeping_clearSplitTimeouts, H.
Qed.

Lemma Keeping_cancelSlide12Expansion : Keeping Inv cancelSlide12Expansion.
Proof.
  intros u H. unfold cancelSlide12Expansion.
  destruct (slide12ExpansionTimeout (animator u)) as [id |] eqn:Ex; [| exact H].
  destruct (Nat.eqb id 0) eqn:E0; [exact H |].
  apply Keeping_onAnimator; [anim_side |].
  rewrite clearTimeout_eq.
  apply (Inv_shrink u); try reflexivity; try exact H.
  - auto.
  - intros t Ht. cbn in Ht. apply filter_In in Ht. apply Ht.
  - intros t Ht. cbn.
    destruct (keptAfterClearing [id] t) eqn:E.
    + left. apply filter_In. split; assumption.
    + right. exists Expansion. unfold recordedTimers. rewrite Ex, E0.
      unfold keptAfterClearing in E. cbn in E. rewrite orb_false_r in E.
      apply negb_false_iff, Nat.eqb_eq in E. left. symmetry. exact E.
Qed.

Lemma Keeping_cancelLineAnimations : Keeping Inv cancelLineAnimations.
Proof.
  unfold cancelLineAnimations.
  apply Keeping_andThen; [apply Keeping_cancelTimelineAnimation |].
  apply Keeping_andThen; [apply Keeping_cancelSlide10To11Swoop |].
  apply Keeping_andThen; [apply Keeping_cancelSlide12Split |].
  apply Keeping_cancelSlide12Expansion.
Qed.

(** The four lists of timer ids and the expansion's single id. *)
Lemma Keeping_pushTimelineTimeout (a : Action) (dl : Z) :
  sequenceOf a = Some TimelineReveal ->
  Keeping Inv (schedule a dl pushTimelineTimeout).
Proof.
  intros Hq.
  apply (Keeping_schedule a dl
           (fun id an => withTimelineTimeouts an (timelineTimeouts an ++ [id])));
    [apply (promiseOf_sequence a TimelineReveal Hq) |].
  intros id [] u id' Hin; cbn in *; try (left; exact Hin).
  apply in_app_or in Hin. destruct Hin as [Hin | [<- | []]]; [left; exact Hin |].
  right. split; [exact Hq | reflexivity].
Qed.

Lemma Keeping_pushSlide10To11Timeout (a : Action) (dl : Z) :
  sequenceOf a = Some Swoop10To11 ->
  Keeping Inv (schedule a dl pushSlide10To11Timeout).
Proof.
  intros Hq.
  apply (Keeping_schedule a dl
           (fun id an => withSlide10To11Timeouts an (slide10To11Timeouts an ++ [id])));
    [apply (promiseOf_sequence a Swoop10To11 Hq) |].
  intros id [] u id' Hin; cbn in *; try (left; exact Hin).
  apply in_app_or in Hin. destruct Hin as [Hin | [<- | []]]; [left; exact Hin |].
  right. split; [exact Hq | reflexivity].
Qed.

Lemma Keeping_pushSlide12SplitTimeout (a : Action) (dl : Z) :
  sequenceOf a = Some Split ->
  Keeping Inv (schedule a dl pushSlide12SplitTimeout).
Proof.
  intros Hq.
  apply (Keeping_schedule a dl
           (fun id an => withSlide12SplitTimeouts an (slide12SplitTimeouts an ++ [id])));
    [apply (promiseOf_sequence a Split Hq) |].
  intros id [] u id' Hin; cbn in *; try (left; exact Hin).
  apply in_app_or in Hin. destruct Hin as [Hin | [<- | []]]; [left; exact Hin |].
  right. split; [exact Hq | reflexivity].
Qed.

Lemma Keeping_pushSlide12ReverseTimeout (a : Action) (dl : Z) :
  sequenceOf a = Some ReverseSplit ->
  Keeping Inv (schedule a dl pushSlide12ReverseTimeout).
Proof.
  intros Hq.
  apply (Keeping_schedule a dl
           (fun id an => withSlide12ReverseTimeouts an (slide12ReverseTimeouts an ++ [id])));
    [apply (promiseOf_sequence a ReverseSplit Hq) |].
  intros id [] u id' Hin; cbn in *; try (left; exact Hin).
  apply in_app_or in Hin. destruct Hin as [Hin | [<- | []]]; [left; exact Hin |].
  right. split; [exact Hq | reflexivity].
Qed.

Lemma Keeping_animateSlide12Expansion : Keeping Inv animateSlide12Expansion.
Proof.
  unfold animateSlide12Expansion.
  apply Keeping_andThen; [apply Keeping_cancelSlide12Expansion |].
  apply Keeping_andThen; [neutral |].
  apply (Keeping_schedule ExpansionExpand 1200
           (fun id an => withSlide12ExpansionTimeout an (Some id))); [reflexivity |].
  intros id [] u id' Hin; cbn in *; try (left; exact Hin).
  destruct (Nat.eqb id 0); [destruct Hin |].
  destruct Hin as [<- | []]. right. split; reflexivity.
Qed.

Lemma scheduleSegments_Inv (segs : list (option nat)) :
  forall i cd u, Inv u -> Inv (snd (scheduleSegments segs i cd u)).
Proof.
  induction segs as [| c rest IH]; intros i cd u H; [exact H |].
  cbn [scheduleSegments].
  pose proof (Keeping_pushTimelineTimeout (TimelineDraw i) cd eq_refl u H) as H1.
  unfold schedule in H1.
  destruct (setTimeout (TimelineDraw i) cd u) as (id1, s1).
  destruct c as [ci |].
  - pose proof (Keeping_pushTimelineTimeout (TimelineCircle ci) (cd + 800) eq_refl _ H1)
      as H2.
    unfold schedule in H2.
    destruct (setTimeout (TimelineCircle ci) (cd + 800) (pushTimelineTimeout id1 s1))
      as (id2, s2).
    apply IH, H2.
  - apply IH, H1.
Qed.

Lemma Keeping_drawTimeline : Keeping Inv drawTimeline.
Proof.
  unfold drawTimeline.
  apply Keeping_andThen; [apply Keeping_cancelTimelineAnimation |].
  apply Keeping_andThen; [apply Keeping_onAnimator; anim_side |].
  apply Keeping_andThen; [neutral |].
  intros u H.
  pose proof (scheduleSegments_Inv drawSegments 0 50 u H) as H2.
  destruct (scheduleSegments drawSegments 0 50 u) as (cd, s2).
  apply Keeping_pushTimelineTimeout; [reflexivity | exact H2].
Qed.

Lemma Keeping_animateTimelineStepByStep : Keeping Inv animateTimelineStepByStep.
Proof.
  unfold animateTimelineStepByStep.
  apply Keeping_andThen; [neutral |].
  intros u H. destruct (negb (timelineDom (animator u))).
  - revert u H. change (Keeping Inv (fun u => showAllTimelineCircles
        (setPath (pathTransition (path (animator u))) PathSlide10Timeline u))).
    neutral.
  - apply Keeping_drawTimeline, H.
Qed.

Lemma scheduleReveals_Inv (i stagger : Z) (els : list AnimatedElement) :
  forall k u, Inv u -> Inv (scheduleReveals i stagger k els u).
Proof.
  induction els as [| el rest IH]; intros k u H; [exact H |].
  cbn [scheduleReveals]. apply IH. apply Inv_setTimeout; [reflexivity | exact H].
Qed.

Lemma Keeping_triggerSlideAnimations (i : Z) : Keeping Inv (triggerSlideAnimations i).
Proof.
  intros u H. unfold triggerSlideAnimations.
  destruct (getSlide i (slides (engine u))); [| exact H].
  apply scheduleReveals_Inv, H.
Qed.

Lemma Keeping_afterSlideChange (index : Z) (b : bool) :
  Keeping Inv (afterSlideChange index b).
Proof.
  unfold afterSlideChange.
  apply Keeping_andThen; [neutral |].
  apply Keeping_andThen; [apply Keeping_whenS, Keeping_triggerSlideAnimations | neutral].
Qed.

Lemma Keeping_runThen (k : Then) : Keeping Inv (runThen k).
Proof.
  destruct k as [index | index | index]; cbn [runThen].
  - apply Keeping_andThen; [neutral | apply Keeping_afterSlideChange].
  - apply Keeping_andThen; [neutral |].
    apply Keeping_andThen; [neutral | apply Keeping_afterSlideChange].
  - apply Keeping_andThen; [neutral |].
    apply Keeping_andThen; [neutral | apply Keeping_afterSlideChange].
Qed.

Lemma Keeping_runCallback (cb : Callback) : Keeping Inv (runCallback cb).
Proof.
  destruct cb as [prev next k | prev next index | next]; cbn [runCallback].
  - apply Keeping_andThen; [apply Keeping_whenS, Keeping_triggerSlideAnimations |].
    apply Inv_transition.
  - intros u H. destruct (currentSlide (engine u) =? index).
    + revert u H. change (Keeping Inv (setIsTransitioning false)). neutral.
    + apply Inv_transition, H.
  - apply Keeping_whenS, Keeping_triggerSlideAnimations.
Qed.

Lemma Keeping_apply (c : State -> State) (u : State) :
  Keeping Inv c -> Inv u -> Inv (c u).
Proof. intros K H. apply K, H. Qed.

Lemma Inv_ite (b : bool) (u1 u2 : State) :
  Inv u1 -> Inv u2 -> Inv (if b then u1 else u2).
Proof. intros H1 H2. destruct b; assumption. Qed.

Ltac keeping_step :=
  lazymatch goal with
  | |- Keeping _ skip => apply Keeping_skip
  | |- Keeping _ (_ ;; _) => apply Keeping_andThen
  | |- Keeping _ (when _ _) => apply Keeping_when
  | |- Keeping _ (whenS _ _) => apply Keeping_whenS
  | |- Keeping _ (guardAnimating _) => apply Keeping_whenS
  | |- Keeping _ (setIsTransitioning _) => neutral
  | |- Keeping _ (setCurrentSlide _) => neutral
  | |- Keeping _ (hideSlide _) => neutral
  | |- Keeping _ (showSlide _) => neutral
  | |- Keeping _ (resetSlideAnimations _) => neutral
  | |- Keeping _ (revealElement _ _) => neutral
  | |- Keeping _ (forceResetStuckSlides _) => neutral
  | |- Keeping _ (dispatchSlideChange _) => neutral
  | |- Keeping _ (setPath _ _) => neutral
  | |- Keeping _ (setPathSecondary _ _) => neutral
  | |- Keeping _ (setIsAnimating _) => neutral
  | |- Keeping _ (setLineCurrentSlide _) => neutral
  | |- Keeping _ hideTimelineCircles => neutral
  | |- Keeping _ showAllTimelineCircles => neutral
  | |- Keeping _ resetOverlays => neutral
  | |- Keeping _ (mapOverlays _) => neutral
  | |- Keeping _ (onAnimator _) => apply Keeping_onAnimator; anim_side
  | |- Keeping _ cancelTimelineAnimation => apply Keeping_cancelTimelineAnimation
  | |- Keeping _ cancelSlide10To11Swoop => apply Keeping_cancelSlide10To11Swoop
  | |- Keeping _ clearSplitTimeouts => apply Keeping_clearSplitTimeouts
  | |- Keeping _ clearReverseTimeouts => apply Keeping_clearReverseTimeouts
  | |- Keeping _ cancelSlide12Split => apply Keeping_cancelSlide12Split
  | |- Keeping _ cancelSlide12Expansion => apply Keeping_cancelSlide12Expansion
  | |- Keeping _ cancelLineAnimations => apply Keeping_cancelLineAnimations
  | |- Keeping _ animateSlide12Expansion => apply Keeping_animateSlide12Expansion
  | |- Keeping _ animateTimelineStepByStep => apply Keeping_animateTimelineStepByStep
  | |- Keeping _ (triggerSlideAnimations _) => apply Keeping_triggerSlideAnimations
  | |- Keeping _ (afterSlideChange _ _) => apply Keeping_afterSlideChange
  | |- Keeping _ (transition _ _ _) => apply Inv_transition
  | |- Keeping _ (runCallback _) => apply Keeping_runCallback
  | |- Keeping _ (schedule _ _ pushSlide10To11Timeout) =>
      apply Keeping_pushSlide10To11Timeout; reflexivity
  | |- Keeping _ (schedule _ _ pushSlide12SplitTimeout) =>
      apply Keeping_pushSlide12SplitTimeout; reflexivity
  | |- Keeping _ (schedule _ _ pushSlide12ReverseTimeout) =>
      apply Keeping_pushSlide12ReverseTimeout; reflexivity
  | |- Keeping _ (scheduleUntracked _ _) =>
      apply Keeping_scheduleUntracked; reflexivity
  | |- Keeping _ (fun _ => _) =>
      let s := fresh "s" in let H := fresh "HS" in intros s H
  end.

Ltac keeping_extra := fail.

Ltac inv_step :=
  first
    [ assumption
    | lazymatch goal with
      | |- Keeping _ _ => first [keeping_step | keeping_extra]
      | |- Inv (match ?x with _ => _ end) =>
          first [refine (Inv_ite _ _ _ _ _) | destruct x]
      | |- Inv (let x := ?X in @?F x) =>
          lazymatch type of X with
          | State =>
              let x' := fresh "s" in
              let H := fresh "HS" in
              assert (H : Inv X) by (repeat inv_step);
              change (Inv (F X)); revert H; generalize X; intros x' H; cbv beta
          | _ =>
              let x' := fresh x in
              pose (x' := X); change (Inv (F x')); cbv beta
          end
      | |- Inv (?c ?s) => refine (Keeping_apply c s _ _)
      end ].

Ltac inv := repeat inv_step.

Lemma Keeping_animateSlide10To11Swoop (cb : Callback) :
  Keeping Inv (animateSlide10To11Swoop cb).
Proof. unfold animateSlide10To11Swoop. inv. Qed.

Lemma Keeping_animateSlide12To11Reverse (cb : Callback) :
  Keeping Inv (animateSlide12To11Reverse cb).
Proof. unfold animateSlide12To11Reverse. inv. Qed.

Lemma Keeping_continueSlide12SplitAnimation : Keeping Inv continueSlide12SplitAnimation.
Proof. unfold continueSlide12SplitAnimation. inv. Qed.

Lemma Keeping_animateSlide11To12Split (cb1 cb2 : Callback) :
  Keeping Inv (animateSlide11To12Split cb1 cb2).
Proof. unfold animateSlide11To12Split. inv. Qed.

Lemma Keeping_animateSwoopTransition (cb : Callback) :
  Keeping Inv (animateSwoopTransition cb).
Proof. unfold animateSwoopTransition. inv. Qed.

Lemma Keeping_animateReverseSwoopTransition (cb : Callback) :
  Keeping Inv (animateReverseSwoopTransition cb).
Proof. unfold animateReverseSwoopTransition. inv. Qed.

Lemma Keeping_updatePath (slideIndex : Z) (animate : bool) :
  Keeping Inv (updatePath slideIndex animate).
Proof. intros s HS. unfold updatePath. inv. Qed.

Ltac keeping_extra ::=
  lazymatch goal with
  | |- Keeping _ (updatePath _ _) => apply Keeping_updatePath
  | |- Keeping _ (animateSwoopTransition _) => apply Keeping_animateSwoopTransition
  | |- Keeping _ (animateReverseSwoopTransition _) =>
      apply Keeping_animateReverseSwoopTransition
  | |- Keeping _ (animateSlide10To11Swoop _) => apply Keeping_animateSlide10To11Swoop
  | |- Keeping _ (animateSlide12To11Reverse _) => apply Keeping_animateSlide12To11Reverse
  | |- Keeping _ (animateSlide11To12Split _ _) => apply Keeping_animateSlide11To12Split
  | |- Keeping _ continueSlide12SplitAnimation => apply Keeping_continueSlide12SplitAnimation
  end.

(** [goToSlide] keeps the property, whatever index is asked for. *)
Lemma Keeping_goToSlide (index : Z) (animate : bool) :
  Keeping Inv (goToSlide index animate).
Proof.
  intros s HS. cbv beta delta [goToSlide].
  refine (Inv_ite _ _ _ HS _).
  inv.
Qed.

Lemma Keeping_perform (c : Command) : Keeping Inv (perform c).
Proof.
  destruct c; cbn [perform]; try apply Keeping_goToSlide;
    intros s HS; apply Keeping_goToSlide, HS.
Qed.

(** The callbacks of the timers, those of [transition] apart. *)
Lemma Keeping_runAction (a : Action) :
  promiseOf a = None -> Keeping Inv (runAction a).
Proof.
  intros Ha. destruct a; cbn [runAction]; try discriminate Ha; try solve [inv].
Qed.

Lemma Keeping_onResizeSettled : Keeping Inv onResizeSettled.
Proof.
  unfold onResizeSettled.
  apply Keeping_andThen; [apply Keeping_cancelTimelineAnimation |].
  intros s HS. inv.
Qed.

(** Every input except the passing of time and the running of a timer. *)
Lemma Keeping_handle (i : Input) :
  match i with
  | Wait _ | TimerRuns => True
  | _ => Keeping Inv (handle i)
  end.
Proof.
  destruct i as [key | x0 x1 | b x w | c | index | | ms |]; cbn [handle]; try exact I.
  - destruct key; cbn [onKeydown]; try apply Keeping_skip;
      intros s HS; apply Keeping_goToSlide, HS.
  - unfold handleSwipe. cbv zeta.
    destruct (Qlt_le_dec 50 (Qabs (x0 - x1))); [| apply Keeping_skip].
    destruct (Qlt_le_dec 0 (x0 - x1)); intros s HS; apply Keeping_goToSlide, HS.
  - unfold onClick. destruct b; [apply Keeping_skip |]. cbv zeta.
    destruct (Qlt_le_dec (inject_Z w / 2) x); intros s HS; apply Keeping_goToSlide, HS.
  - destruct c; cbn [onEdgeControl]; intros s HS; apply Keeping_goToSlide, HS.
  - apply Keeping_goToSlide.
  - apply Keeping_onResizeSettled.
Qed.
End StatementsKeep.

(** ** Ids, records and promises stay in order *)

Lemma clearedBy_promiseOf (a : Action) : promiseOf a = None -> clearedBy a = None.
Proof. destruct a; cbn; intros H; try discriminate; reflexivity. Qed.

Lemma settleAt_length (p : nat) (l : list Promise) : length (settleAt p l) = length l.
Proof.
  revert p. induction l as [| x l IH]; intros [| p]; cbn; try reflexivity.
  rewrite IH. reflexivity.
Qed.

(** [Orderly] survives the loss of timers and of recorded ids. *)
Lemma Orderly_fewer (u u' : State) :
  nextTimerId (host u') = nextTimerId (host u) ->
  length (promises (host u')) = length (promises (host u)) ->
  (forall q id, In id (recordedTimers q u') -> In id (recordedTimers q u)) ->
  (forall t, In t (timers (host u')) -> In t (timers (host u))) ->
  Orderly u -> Orderly u'.
Proof.
  intros Hn Hp Hr Ht (O1 & O2 & O3 & O4 & O5).
  split; [| split; [| split; [| split]]].
  - intros t Hin. rewrite Hn. apply O1, Ht, Hin.
  - intros q id Hin. rewrite Hn. apply (O2 q), Hr, Hin.
  - intros q t Hin Hrec. apply O3; [apply Ht, Hin | apply Hr, Hrec].
  - intros t p Hin Hpr. rewrite Hp. apply (O4 t); [apply Ht, Hin | exact Hpr].
  - intros t n Hin Hc. rewrite Hn. apply (O5 t); [apply Ht, Hin | exact Hc].
Qed.

Lemma Orderly_KeptByClearing : KeptByClearing Orderly.
Proof.
  intros u u' _ Hn Hp Hr Ht _ HO.
  apply (Orderly_fewer u); try assumption. rewrite Hp. reflexivity.
Qed.

Lemma Orderly_KeptBySetTimeout : KeptBySetTimeout Orderly.
Proof.
  intros a dl u u' Ha _ Ht Hn Hp Hr (O1 & O2 & O3 & O4 & O5).
  split; [| split; [| split; [| split]]].
  - intros t Hin. rewrite Ht in Hin. rewrite Hn.
    apply in_app_or in Hin. destruct Hin as [Hin | [<- | []]].
    + specialize (O1 t Hin). lia.
    + cbn. lia.
  - intros q id Hin. rewrite Hn.
    destruct (Hr q id Hin) as [H | (_ & ->)]; [specialize (O2 q id H) |]; lia.
  - intros q t Hin Hrec. rewrite Ht in Hin.
    apply in_app_or in Hin. destruct Hin as [Hin | [<- | []]].
    + destruct (Hr q (tid t) Hrec) as [H | (_ & E)]; [apply O3; assumption |].
      specialize (O1 t Hin). lia.
    + cbn [tid] in Hrec. destruct (Hr q _ Hrec) as [H | (Hq & _)].
      * specialize (O2 q _ H). lia.
      * unfold belongsTo. cbn [action]. rewrite Hq.
        apply sequenceEqb_eq. reflexivity.
  - intros t p Hin Hpr. rewrite Ht in Hin. rewrite Hp.
    apply in_app_or in Hin. destruct Hin as [Hin | [<- | []]].
    + apply (O4 t); assumption.
    + cbn [action] in Hpr. congruence.
  - intros t n Hin Hc. rewrite Ht in Hin. rewrite Hn.
    apply in_app_or in Hin. destruct Hin as [Hin | [<- | []]].
    + specialize (O5 t n Hin Hc). lia.
    + cbn [action] in Hc. rewrite (clearedBy_promiseOf a Ha) in Hc. discriminate Hc.
Qed.

(** The table, the promises and the next id after [transition], whatever
    the configured duration. *)
Lemma transition_host (fromSlide toSlide : Z) (k : Then) (s : State) :
  let s1 := transition fromSlide toSlide k s in
  let D := duration (config (engine s)) in
  timers (host s1) =
    timers (host s) ++
    [ {| tid := nextTimerId (host s); fireAt := now (host s) + Z.max 0 (D + 500);
         action := TransitionSafety (length (promises (host s))) |};
      {| tid := S (nextTimerId (host s)); fireAt := now (host s) + Z.max 0 D;
         action := TransitionDone fromSlide toSlide (nextTimerId (host s))
                                  (length (promises (host s))) |} ] /\
  nextTimerId (host s1) = S (S (nextTimerId (host s))) /\
  promises (host s1) = promises (host s) ++ [{| settled := false; reaction := k |}] /\
  now (host s1) = now (host s) /\
  events (host s1) = events (host s) /\
  animator s1 = animator s.
Proof.
  unfold transition. cbn. rewrite <- app_assoc. repeat split; reflexivity.
Qed.

Lemma Orderly_KeptByTransition : KeptByTransition Orderly.
Proof.
  intros f g k u (O1 & O2 & O3 & O4 & O5).
  destruct (transition_host f g k u) as (Ht & Hn & Hp & _ & _ & Ha).
  cbv zeta in *.
  assert (Hr : forall q, recordedTimers q (transition f g k u) = recordedTimers q u)
    by (intros q; unfold recordedTimers; rewrite Ha; reflexivity).
  split; [| split; [| split; [| split]]].
  - intros t Hin. rewrite Ht in Hin. rewrite Hn.
    apply in_app_or in Hin. destruct Hin as [Hin | [<- | [<- | []]]]; cbn; try lia.
    specialize (O1 t Hin). lia.
  - intros q id Hin. rewrite Hn. rewrite Hr in Hin. specialize (O2 q id Hin). lia.
  - intros q t Hin Hrec. rewrite Hr in Hrec. rewrite Ht in Hin.
    apply in_app_or in Hin. destruct Hin as [Hin | [<- | [<- | []]]].
    + apply O3; assumption.
    + cbn [tid] in Hrec. specialize (O2 q _ Hrec). lia.
    + cbn [tid] in Hrec. specialize (O2 q _ Hrec). lia.
  - intros t p Hin Hpr. rewrite Ht in Hin. rewrite Hp, length_app. cbn [length].
    apply in_app_or in Hin. destruct Hin as [Hin | [<- | [<- | []]]].
    + specialize (O4 t p Hin Hpr). lia.
    + cbn in Hpr. injection Hpr as <-. lia.
    + cbn in Hpr. injection Hpr as <-. lia.
  - intros t n Hin Hc. rewrite Ht in Hin. rewrite Hn.
    apply in_app_or in Hin. destruct Hin as [Hin | [<- | [<- | []]]].
    + specialize (O5 t n Hin Hc). lia.
    + discriminate Hc.
    + cbn in Hc. injection Hc as <-. lia.
Qed.

Lemma Orderly_statement (c : State -> State) :
  (forall Inv, KeptByClearing Inv -> KeptBySetTimeout Inv -> KeptByTransition Inv ->
               Keeping Inv c) ->
  Keeping Orderly c.
Proof.
  intros H. apply H.
  - apply Orderly_KeptByClearing.
  - apply Orderly_KeptBySetTimeout.
  - apply Orderly_KeptByTransition.
Qed.

Lemma Orderly_resolve (p : nat) : Keeping Orderly (resolve p).
Proof.
  intros u H. unfold resolve.
  destruct (nth_error (promises (host u)) p) as [pr |]; [| exact H].
  destruct (settled pr); [exact H |].
  apply (Orderly_statement (runThen (reaction pr)));
    [intros Inv H1 H2 H3; apply Keeping_runThen; assumption |].
  apply (Orderly_fewer u); try reflexivity; auto.
  cbn. apply settleAt_length.
Qed.

Lemma Orderly_clearTimeout (id : nat) : Keeping Orderly (clearTimeout id).
Proof.
  intros u H. rewrite clearTimeout_eq.
  apply (Orderly_fewer u); try reflexivity; auto.
  intros t Hin. cbn in Hin. apply filter_In in Hin. apply Hin.
Qed.

Lemma Orderly_runAction (a : Action) : Keeping Orderly (runAction a).
Proof.
  destruct (promiseOf a) as [p |] eqn:E.
  - destruct a; try discriminate E; cbn [runAction].
    + apply Orderly_resolve.
    + intros u H. unfold andThen. apply Orderly_resolve.
      apply (Orderly_fewer (clearTimeout safetyTimeout u)); try reflexivity; auto.
      apply Orderly_clearTimeout, H.
  - apply Orderly_statement. intros Inv H1 H2 H3. apply Keeping_runAction; assumption.
Qed.

(** The event loop keeps ids, records and promises in order. *)
Lemma Orderly_fire (t : Timer) : Keeping Orderly (fire t).
Proof.
  intros u H. unfold fire. apply Orderly_runAction, Orderly_clearTimeout.
  apply (Orderly_fewer u); try reflexivity; auto.
Qed.

Lemma Orderly_run (fuel : nat) : Keeping Orderly (run fuel).
Proof.
  induction fuel as [| fuel IH]; intros u H; [exact H |].
  cbn [run]. destruct (nextTimer u) as [t |]; [| exact H].
  apply IH, Orderly_fire, H.
Qed.

Lemma Orderly_setNow (t : Z) : Keeping Orderly (setNow t).
Proof. intros u H. apply (Orderly_fewer u); try reflexivity; auto. Qed.

Lemma Orderly_runUntil (fuel : nat) (T : Z) : Keeping Orderly (runUntil fuel T).
Proof.
  induction fuel as [| fuel IH]; intros u H; [exact H |].
  cbn [runUntil]. destruct (nextTimer u) as [t |]; [| apply Orderly_setNow, H].
  destruct (fireAt t <=? T); [apply IH, Orderly_fire, H | apply Orderly_setNow, H].
Qed.

Lemma Orderly_perform (c : Command) : Keeping Orderly (perform c).
Proof.
  apply Orderly_statement. intros Inv H1 H2 H3. apply Keeping_perform; assumption.
Qed.

Lemma Orderly_play (fuel : nat) (script : list (Z * Command)) :
  Keeping Orderly (play fuel script).
Proof.
  induction script as [| (wait, c) rest IH]; intros u H; [exact H |].
  cbn [play]. apply IH, Orderly_perform, Orderly_runUntil, H.
Qed.

Lemma Orderly_handle (i : Input) : Keeping Orderly (handle i).
Proof.
  pose proof (Keeping_handle Orderly Orderly_KeptByClearing Orderly_KeptBySetTimeout
                Orderly_KeptByTransition i) as H.
  destruct i; try exact H; cbn [handle].
  - intros u HO. apply Orderly_setNow, HO.
  - apply Orderly_run.
Qed.

Lemma Orderly_afterInputs (inputs : list Input) : Keeping Orderly (afterInputs inputs).
Proof.
  unfold afterInputs.
  induction inputs as [| i rest IH]; intros u H; [exact H |].
  cbn [fold_left]. apply IH, Orderly_handle, H.
Qed.

Lemma Orderly_boot (cfg : Config) (dom : list Slide) (secondary overlays timeline : bool) :
  Orderly (boot cfg dom (newLineAnimator secondary overlays timeline)).
Proof.
  unfold boot. cbv zeta.
  apply (Orderly_statement (updatePath 0 false));
    [intros Inv H1 H2 H3; apply Keeping_updatePath; assumption |].
  set (s0 := {| engine := newSlideEngine cfg;
                animator := newLineAnimator secondary overlays timeline;
                host := newHost |}).
  assert (H0 : Orderly s0).
  { split; [| split; [| split; [| split]]].
    - intros t [].
    - intros [] id Hin; cbn in Hin; destruct Hin.
    - intros q t [].
    - intros t p [].
    - intros t n []. }
  apply (Orderly_fewer (init dom s0)); try reflexivity; auto.
  unfold init. destruct dom as [| sl dom']; [exact H0 |].
  apply (Orderly_statement (goToSlide 0 false));
    [intros Inv H1 H2 H3; apply Keeping_goToSlide; assumption |].
  apply (Orderly_fewer s0); try reflexivity; auto.
Qed.

(** Whatever happens to the loaded page, ids, records and promises stay
    in order. *)
Lemma reachable_Orderly (cfg : Config) (dom : list Slide)
      (secondary overlays timeline : bool) (inputs : list Input) :
  Orderly (afterInputs inputs (boot cfg dom (newLineAnimator secondary overlays timeline))).
Proof. apply Orderly_afterInputs, Orderly_boot. Qed.

(** ** Statements that clear no timer *)

Lemma Grows_skip : Grows (fun s => s).
Proof. intros s t H. exact H. Qed.

Lemma Grows_andThen (c1 c2 : State -> State) : Grows c1 -> Grows c2 -> Grows (c1 ;; c2).
Proof. intros H1 H2 s t H. apply H2, H1, H. Qed.

Lemma Grows_whenS (b : State -> bool) (c : State -> State) : Grows c -> Grows (whenS b c).
Proof. intros Hc s t H. unfold whenS. destruct (b s); [apply Hc, H | exact H]. Qed.

Lemma Grows_onAnimator (f : LineAnimator -> LineAnimator) : Grows (onAnimator f).
Proof. intros s t H. exact H. Qed.

Lemma Grows_onEngine (f : SlideEngine -> SlideEngine) : Grows (onEngine f).
Proof. intros s t H. exact H. Qed.

Lemma Grows_setTimeout (a : Action) (dl : Z) : Grows (fun s => snd (setTimeout a dl s)).
Proof. intros s t H. cbn. apply in_or_app. left. exact H. Qed.

Lemma Grows_scheduleUntracked (a : Action) (dl : Z) : Grows (scheduleUntracked a dl).
Proof. apply Grows_setTimeout. Qed.

Lemma Grows_schedule (a : Action) (dl : Z) (record : nat -> State -> State) :
  (forall id, Grows (record id)) -> Grows (schedule a dl record).
Proof.
  intros Hr s t H. unfold schedule.
  destruct (setTimeout a dl s) as [id s'] eqn:E.
  apply Hr. replace s' with (snd (setTimeout a dl s)) by (rewrite E; reflexivity).
  apply Grows_setTimeout, H.
Qed.

Lemma Grows_scheduleReveals (i stagger : Z) (els : list AnimatedElement) :
  forall n, Grows (scheduleReveals i stagger n els).
Proof.
  induction els as [| el rest IH]; intros n s t H; cbn [scheduleReveals]; [exact H |].
  apply IH. apply (Grows_setTimeout _ _ s), H.
Qed.

Lemma Grows_triggerSlideAnimations (i : Z) : Grows (triggerSlideAnimations i).
Proof.
  intros s t H. unfold triggerSlideAnimations.
  destruct (getSlide i (slides (engine s))); [apply Grows_scheduleReveals, H | exact H].
Qed.

Lemma Grows_transition (a b : Z) (k : Then) : Grows (transition a b k).
Proof.
  intros s t H. destruct (transition_host a b k s) as (Ht & _).
  cbv zeta in Ht. rewrite Ht. apply in_or_app. left. exact H.
Qed.

Lemma Grows_runCallback (cb : Callback) : Grows (runCallback cb).
Proof.
  destruct cb as [prev next k | prev next index | next]; cbn [runCallback].
  - apply Grows_andThen; [apply Grows_whenS, Grows_triggerSlideAnimations |].
    apply Grows_transition.
  - intros s t H. destruct (currentSlide (engine s) =? index);
      [exact H | apply Grows_transition, H].
  - apply Grows_whenS, Grows_triggerSlideAnimations.
Qed.

Ltac grows :=
  unfold setIsAnimating, setPath, setPathSecondary, mapOverlays,
    setLineCurrentSlide, pushSlide10To11Timeout, pushSlide12SplitTimeout,
    pushSlide12ReverseTimeout, pushTimelineTimeout;
  repeat match goal with
         | |- Grows (andThen _ _) => apply Grows_andThen
         | |- Grows (whenS _ _) => apply Grows_whenS
         | |- Grows (onAnimator _) => apply Grows_onAnimator
         | |- Grows (onEngine _) => apply Grows_onEngine
         | |- Grows (runCallback _) => apply Grows_runCallback
         | |- Grows (scheduleUntracked _ _) => apply Grows_scheduleUntracked
         | |- Grows (schedule _ _ _) => apply Grows_schedule; intros ?
         end.

Lemma Grows_scheduleSegments (segs : list (option nat)) :
  forall (i : nat) (dl : Z), Grows (fun s => snd (scheduleSegments segs i dl s)).
Proof.
  induction segs as [| c rest IH]; intros i dl s t H; cbn [scheduleSegments].
  - exact H.
  - destruct (setTimeout (TimelineDraw i) dl s) as [id1 s1] eqn:E1.
    assert (H1 : In t (timers (host (pushTimelineTimeout id1 s1)))).
    { replace s1 with (snd (setTimeout (TimelineDraw i) dl s))
        by (rewrite E1; reflexivity).
      apply (Grows_setTimeout _ _ s), H. }
    destruct c as [ci |].
    + destruct (setTimeout (TimelineCircle ci) (dl + 800)
                           (pushTimelineTimeout id1 s1)) as [id2 s2] eqn:E2.
      apply (IH (S i) (dl + 800 + 300) (pushTimelineTimeout id2 s2)).
      replace s2 with (snd (setTimeout (TimelineCircle ci) (dl + 800)
                                       (pushTimelineTimeout id1 s1)))
        by (rewrite E2; reflexivity).
      apply (Grows_setTimeout _ _ (pushTimelineTimeout id1 s1)), H1.
    + apply (IH (S i) (dl + 800) (pushTimelineTimeout id1 s1)), H1.
Qed.

Lemma kept_after_clearing (ids : list nat) (t : Timer) (l : list Timer) :
  In t l -> ~ In (tid t) ids -> In t (filter (keptAfterClearing ids) l).
Proof.
  intros Hin Hno. apply filter_In. split; [exact Hin |].
  apply keptAfterClearing_intro. exact Hno.
Qed.

(** A pending timer that is on no record cleared by the start method of
    [q] is still pending when the method returns. *)
Lemma start_keeps (q : Sequence) (cb1 cb2 : Callback) (s : State) (t : Timer) :
  In t (timers (host s)) ->
  (forall q', In q' (cancelledBy q) -> ~ In (tid t) (recordedTimers q' s)) ->
  In t (timers (host (startSequence q cb1 cb2 s))).
Proof.
  intros Hin Hun. destruct q; cbn [startSequence].
  - (* forward swoop *)
    unfold animateSwoopTransition.
    destruct (isAnimating (animator s)); [exact Hin |].
    revert s t Hin Hun. 
    assert (G : Grows (setIsAnimating true ;;
                       setPath (TransitionD timingSwoop CubicBezier) (PathHeaderUnderline 2) ;;
                       setLineCurrentSlide 2 ;;
                       scheduleUntracked (SwoopComplete cb1) (timingSwoop * 2 / 10) ;;
                       scheduleUntracked SwoopCleanup timingSwoop)) by grows.
    intros s t Hin _. apply G, Hin.
  - (* reverse swoop *)
    unfold animateReverseSwoopTransition.
    destruct (isAnimating (animator s)); [exact Hin |].
    assert (G : Grows (setIsAnimating true ;;
                       setPath (TransitionD timingSwoop CubicBezier) PathSlide2 ;;
                       scheduleUntracked (ReverseSwoopComplete cb1) (timingSwoop * 4 / 10) ;;
                       scheduleUntracked ReverseSwoopCleanup timingSwoop)) by grows.
    apply G, Hin.
  - (* timeline *)
    unfold animateTimelineStepByStep. rewrite andThen_apply.
    change (timelineDom (animator (hideTimelineCircles s)))
      with (timelineDom (animator s)).
    destruct (timelineDom (animator s)); cbn [negb]; [| exact Hin].
    unfold drawTimeline. rewrite andThen_apply.
    assert (G : Grows (onAnimator (fun a => withTimelineSvg a true) ;;
                       setPath TransitionNone PathTimelineHeader ;;
                       (fun s =>
                          let '(currentDelay, s) := scheduleSegments drawSegments 0 50 s in
                          let totalDuration := currentDelay + 100 in
                          schedule TimelineFinal totalDuration pushTimelineTimeout s))).
    { apply Grows_andThen; [apply Grows_onAnimator |].
      apply Grows_andThen; [apply Grows_onAnimator |].
      intros s0 t0 H0.
      pose proof (Grows_scheduleSegments drawSegments 0 50 s0 t0 H0) as H1.
      cbv beta in H1.
      destruct (scheduleSegments drawSegments 0 50 s0) as [dl s1] eqn:E.
      cbn [snd] in H1.
      assert (G2 : Grows (schedule TimelineFinal (dl + 100) pushTimelineTimeout)) by grows.
      exact (G2 s1 t0 H1). }
    apply G.
    destruct (cancelTimelineAnimation_effect (hideTimelineCircles s)) as (_ & Ht).
    cbv zeta in Ht. rewrite Ht.
    apply kept_after_clearing; [exact Hin |].
    apply (Hun TimelineReveal). left. reflexivity.
  - (* swoop from slide 10 to 11 *)
    unfold animateSlide10To11Swoop. rewrite andThen_apply.
    assert (G : Grows (setIsAnimating true ;;
                       whenS (fun s => timelineDom (animator s))
                             (setPath TransitionNone PathSlide10Bottom) ;;
                       setPath (TransitionD timingSwoop CubicBezier) (PathSlide11 false) ;;
                       schedule (Swoop10T1 cb1) (timingSwoop * 2 / 10) pushSlide10To11Timeout ;;
                       schedule Swoop10T2 (timingSwoop + 150) pushSlide10To11Timeout ;;
                       schedule Swoop10T3 (timingSwoop + 1200) pushSlide10To11Timeout))
      by grows.
    apply G.
    destruct (cancelSlide10To11Swoop_effect s) as (_ & Ht & _).
    cbv zeta in Ht. rewrite Ht.
    apply kept_after_clearing; [exact Hin |].
    apply (Hun Swoop10To11). left. reflexivity.
  - (* expansion *)
    unfold animateSlide12Expansion. rewrite andThen_apply.
    assert (G : Grows (setPath (TransitionD 800 EaseOut) (PathSlide12 false) ;;
                       schedule ExpansionExpand 1200
                         (fun id => onAnimator
                                      (fun a => withSlide12ExpansionTimeout a (Some id)))))
      by grows.
    apply G.
    destruct (cancelSlide12Expansion_effect s) as (_ & _ & Ht & _).
    cbv zeta in Ht. rewrite Ht.
    apply kept_after_clearing; [exact Hin |].
    apply (Hun Expansion). left. reflexivity.
  - (* split *)
    unfold animateSlide11To12Split. rewrite 3 andThen_apply.
    assert (G : Grows (setIsAnimating true ;;
                       onAnimator (fun a => withOnContentReadyCallback a (Some cb2)) ;;
                       (fun s =>
                          match overlayTop (animator s), overlayBottom (animator s),
                                pathSecondary (animator s) with
                          | Some _, Some _, Some _ =>
                              (runCallback cb1 ;;
                               schedule SplitT0 50 pushSlide12SplitTimeout) s
                          | _, _, _ =>
                              (setIsAnimating false ;;
                               runCallback cb1 ;;
                               runCallback cb2) s
                          end))).
    { apply Grows_andThen; [apply Grows_onAnimator |].
      apply Grows_andThen; [apply Grows_onAnimator |].
      intros s0 t0 H0.
      destruct (overlayTop (animator s0)), (overlayBottom (animator s0)),
        (pathSecondary (animator s0));
        revert s0 t0 H0;
        match goal with |- forall s0 t0, _ -> In t0 (timers (host (?c s0))) =>
          change (Grows c) end; grows. }
    apply G.
    destruct (cancelSlide10To11Swoop_effect s) as (_ & At & Ast & Art & Aet).
    destruct (cancelSlide12Split_effect (cancelSlide10To11Swoop s)) as (_ & Bt & Bet).
    destruct (cancelSlide12Expansion_effect
                (cancelSlide12Split (cancelSlide10To11Swoop s)))
      as (_ & _ & Ct & _).
    cbv zeta in *.
    assert (Hrec : recordedTimers Expansion (cancelSlide12Split (cancelSlide10To11Swoop s))
                   = recordedTimers Expansion s).
    { unfold recordedTimers. rewrite Bet, Aet. reflexivity. }
    rewrite Ct, Bt, At, Ast, Art, Hrec.
    apply kept_after_clearing; [| apply (Hun Expansion); cbn; auto].
    apply kept_after_clearing; [| apply (Hun ReverseSplit); cbn; auto].
    apply kept_after_clearing; [| apply (Hun Split); cbn; auto].
    apply kept_after_clearing; [exact Hin | apply (Hun Swoop10To11); cbn; auto].
  - (* reverse split *)
    unfold animateSlide12To11Reverse. rewrite 3 andThen_apply.
    assert (G : Grows (setIsAnimating true ;;
                       mapOverlays (retractOverlay timingSwoop) ;;
                       setPathSecondary TransitionNone (PathSlide12Header true) ;;
                       setPath (TransitionD timingSwoop EaseIn) PathOffScreenBottom ;;
                       setPathSecondary (TransitionD timingSwoop EaseOut)
                                        (PathSlide12Header false) ;;
                       schedule (ReverseR1 cb1) (timingSwoop * 3 / 10)
                                pushSlide12ReverseTimeout ;;
                       schedule ReverseR2 (timingSwoop + 100) pushSlide12ReverseTimeout ;;
                       schedule ReverseR3 (timingSwoop + 950) pushSlide12ReverseTimeout ;;
                       schedule ReverseR4 (timingSwoop + 1000) pushSlide12ReverseTimeout))
      by grows.
    apply G.
    destruct (cancelSlide12Expansion_effect s) as (_ & _ & At & Ast & Art).
    destruct (clearSplitTimeouts_effect (cancelSlide12Expansion s)) as (_ & Bt & Brt).
    destruct (clearReverseTimeouts_effect
                (clearSplitTimeouts (cancelSlide12Expansion s))) as (_ & Ct).
    cbv zeta in *. rewrite Ct, Bt, At, Brt, Ast, Art.
    apply kept_after_clearing; [| apply (Hun ReverseSplit); cbn; auto].
    apply kept_after_clearing; [| apply (Hun Split); cbn; auto].
    apply kept_after_clearing; [exact Hin | apply (Hun Expansion); cbn; auto].
Qed.

(** ** C3: what a start method clears and what it leaves *)

Lemma Orderly_goToSlide (index : Z) (animate : bool) :
  Keeping Orderly (goToSlide index animate).
Proof.
  apply Orderly_statement. intros Inv H1 H2 H3. apply Keeping_goToSlide; assumption.
Qed.

Lemma Orderly_restingAt (cfg : Config) (n : Z) : Orderly (restingAt cfg n).
Proof.
  unfold restingAt, loaded.
  apply Orderly_run, Orderly_goToSlide, Orderly_run, Orderly_boot.
Qed.

Lemma belongsTo_unique (q q' : Sequence) (t : Timer) :
  belongsTo q t = true -> belongsTo q' t = true -> q = q'.
Proof.
  intros H H'. apply belongsTo_spec in H. apply belongsTo_spec in H'. congruence.
Qed.

(** C3.  In a state the page can reach (records covering the timers,
    ids in order), the start method of sequence [q] clears exactly the
    pending timers whose ids are on the records of the sequences listed in
    [cancelledBy q], and it does so before it sets any timer.  The listed
    sequences other than [q] are left without a pending timer: for the
    split these are the slide-10-to-11 swoop, the reverse split and the
    expansion, for the reverse split the expansion and the split.  Every
    pending timer of a sequence that is not listed is still pending
    afterwards, and so is every timer of the engine: the timeline reveal,
    the slide-10-to-11 swoop and the expansion clear only timers of their
    own, the two swoops of slides 2 and 3 clear nothing.  Every timer the
    method adds carries a fresh id and belongs to [q] or to the engine. *)
Theorem start_cancels_listed_sequences
        (q : Sequence) (cb1 cb2 : Callback) (s : State) :
  Tracked s ->
  Orderly s ->
  let s' := startSequence q cb1 cb2 s in
  (forall t, In t (timers (host s)) ->
     (In t (timers (host s')) <->
      forall q', In q' (cancelledBy q) -> ~ In (tid t) (recordedTimers q' s))) /\
  (forall q', In q' (cancelledBy q) -> q' <> q -> liveTimers q' s' = []) /\
  (forall q' t, ~ In q' (cancelledBy q) -> In t (timers (host s)) ->
                belongsTo q' t = true -> In t (timers (host s'))) /\
  (forall t, In t (timers (host s)) -> engineTimer t -> In t (timers (host s'))) /\
  (forall t, In t (timers (host s')) -> ~ In t (timers (host s)) ->
             (nextTimerId (host s) <= tid t)%nat /\
             (sequenceOf (action t) = Some q \/ engineTimer t)).
Proof.
  intros (Hid & _ & Hrec & Hdomless) (_ & _ & Hown & _) s'.
  assert (Hcase : (q = TimelineReveal /\ timelineDom (animator s) = false) \/
                  (q = TimelineReveal -> timelineDom (animator s) = true)).
  { destruct (timelineDom (animator s)); [right; reflexivity |].
    destruct q; try (right; discriminate). left. split; reflexivity. }
  assert (Hexact : forall t, In t (timers (host s)) ->
     (In t (timers (host s')) <->
      forall q', In q' (cancelledBy q) -> ~ In (tid t) (recordedTimers q' s))).
  { intros t Hin. split.
    - intros Hin' q' Hq' Hon.
      destruct Hcase as [(-> & Hdom) | Hdom].
      + cbn in Hq'. destruct Hq' as [<- | []].
        pose proof (Hown TimelineReveal t Hin Hon) as Hb.
        assert (Hlive : In (tid t) (liveTimers TimelineReveal s)).
        { apply liveTimers_In. exists t. repeat split; assumption. }
        rewrite (Hdomless Hdom) in Hlive. exact Hlive.
      + destruct (start_effect q cb1 cb2 s Hdom t Hin') as [(_ & Hun) | (Hfresh & _)].
        * exact (Hun q' Hq' Hon).
        * specialize (Hid t Hin). lia.
    - intros Hun. apply start_keeps; assumption. }
  split; [exact Hexact |]. split; [| split; [| split]].
  - intros q' Hq' Hne.
    assert (Hdom : q = TimelineReveal -> timelineDom (animator s) = true).
    { intros ->. cbn in Hq'. destruct Hq' as [<- | []]. contradiction. }
    apply liveTimers_nil. intros t Hin.
    destruct (belongsTo q' t) eqn:Hb; [exfalso | reflexivity].
    destruct (cancelledBy_records q q' Hq') as (Hf & Hbk).
    destruct (start_effect q cb1 cb2 s Hdom t Hin) as [(Hold & Hun) | (_ & Hownq)].
    + apply (Hun q' Hq'). apply Hrec; assumption.
    + apply belongsTo_spec in Hb. destruct Hownq as [Hownq | Heng].
      * apply Hne. congruence.
      * unfold engineTimer in Heng. congruence.
  - intros q' t Hq' Hin Hb. apply Hexact; [exact Hin |].
    intros q'' Hq'' Hon. apply Hq'.
    rewrite (belongsTo_unique q' q'' t Hb (Hown q'' t Hin Hon)). exact Hq''.
  - intros t Hin Heng. apply Hexact; [exact Hin |].
    intros q'' Hq'' Hon. pose proof (Hown q'' t Hin Hon) as Hb.
    apply belongsTo_spec in Hb. unfold engineTimer in Heng. congruence.
  - intros t Hin' Hnew.
    destruct Hcase as [(-> & Hdom) | Hdom].
    + exfalso. apply Hnew. subst s'. cbn [startSequence] in Hin'.
      rewrite (animateTimelineStepByStep_without_dom s Hdom) in Hin'. exact Hin'.
    + destruct (start_effect q cb1 cb2 s Hdom t Hin') as [(Hold & _) | Hfresh].
      * contradiction.
      * exact Hfresh.
Qed.

(** Two starts in the middle of other choreographies.  300 ms into the
    reverse split, the split start leaves none of its three timers.  600 ms
    into the swoop from slide 10 to 11, the timeline start leaves both
    timers of the swoop pending. *)
Lemma start_cancels_listed_sequences_witness :
  (let s := runUntil 100 (now (host (restingAt appConfig 11)) + 300)
                     (goToSlide 10 true (restingAt appConfig 11)) in
   liveTimers ReverseSplit s = [9; 10; 11]%nat /\
   liveTimers ReverseSplit
     (startSequence Split (OnSlideReady 10 11 11) (OnContentReady 11) s) = []) /\
  (let s := runUntil 100 (now (host (restingAt appConfig 9)) + 600)
                     (goToSlide 10 true (restingAt appConfig 9)) in
   liveTimers Swoop10To11 s = [26; 27]%nat /\
   forall t, In t (timers (host s)) -> belongsTo Swoop10To11 t = true ->
             In t (timers (host (startSequence TimelineReveal
                                   (OnSwap 10 9 (ThenSettle 9)) (OnContentReady 9) s)))).
Proof.
  split.
  - split; [vm_compute; reflexivity |].
    apply (start_cancels_listed_sequences Split).
    + apply trackedb_sound. vm_compute. reflexivity.
    + apply Orderly_runUntil, Orderly_goToSlide, Orderly_restingAt.
    + cbn. auto.
    + discriminate.
  - split; [vm_compute; reflexivity |].
    intros t Hin Hb.
    refine (proj1 (proj2 (proj2 (start_cancels_listed_sequences TimelineReveal
               (OnSwap 10 9 (ThenSettle 9)) (OnContentReady 9) _ _ _))) Swoop10To11 t _ Hin Hb).
    + apply trackedb_sound. vm_compute. reflexivity.
    + apply Orderly_runUntil, Orderly_goToSlide, Orderly_restingAt.
    + cbn. intros [H | []]. discriminate H.
Defined.


(** * The generic transition in any company *)

Lemma pending_true (id : nat) (s : State) (t : Timer) :
  In t (timers (host s)) -> tid t = id -> pending id s = true.
Proof.
  intros Hin Hid. unfold pending. apply existsb_exists. exists t.
  split; [exact Hin | apply Nat.eqb_eq, Hid].
Qed.

Lemma pending_false_inv (id : nat) (s : State) (t : Timer) :
  pending id s = false -> In t (timers (host s)) -> tid t <> id.
Proof.
  intros Hp Hin Hid. rewrite (pending_true id s t Hin Hid) in Hp. discriminate Hp.
Qed.

Lemma pending_subset (id : nat) (s s' : State) :
  (forall t, In t (timers (host s')) -> In t (timers (host s))) ->
  pending id s = false -> pending id s' = false.
Proof.
  intros Hsub Hp. apply pending_false. intros t Hin.
  apply (pending_false_inv id s t Hp), Hsub, Hin.
Qed.

Lemma nth_error_settleAt_other (p p' : nat) (l : list Promise) :
  p <> p' -> nth_error (settleAt p' l) p = nth_error l p.
Proof.
  revert p p'. induction l as [| x l IH]; intros [| p] [| p'] Hne; cbn;
    try reflexivity; try congruence.
  apply IH. congruence.
Qed.

Section InFlightFacts.
Variables (fromSlide toSlide : Z) (k : Then) (p n0 : nat) (tdone tsafe : Z).

Let safetyT : Timer := safetyTimer p n0 tsafe.
Let doneT : Timer := completionTimer fromSlide toSlide p n0 tdone.
Let TendedT : bool -> State -> Prop := Tended fromSlide toSlide k p n0 tdone tsafe.
Let foreignT : Action -> Prop := foreign p n0.

Lemma foreign_other (a : Action) : promiseOf a = None -> foreignT a.
Proof.
  intros Ha. unfold foreignT, foreign. rewrite Ha, (clearedBy_promiseOf a Ha).
  repeat split; discriminate.
Qed.

(** What the transition needs of a step: ids and promises only grow, the
    promise is untouched, the records keep clear, the two timers stay if
    they are pending and do not come back, and what else is pending is
    foreign. *)
Lemma Tended_step (done : bool) (u u' : State) :
  (nextTimerId (host u) <= nextTimerId (host u'))%nat ->
  (length (promises (host u)) <= length (promises (host u')))%nat ->
  nth_error (promises (host u')) p = nth_error (promises (host u)) p ->
  (forall q id, In id (recordedTimers q u') ->
                In id (recordedTimers q u) \/ (nextTimerId (host u) <= id)%nat) ->
  (forall t, In t (timers (host u')) ->
             In t (timers (host u)) \/
             (tid t <> n0 /\ tid t <> S n0 /\ foreignT (action t))) ->
  (In safetyT (timers (host u)) -> In safetyT (timers (host u'))) ->
  (In doneT (timers (host u)) -> In doneT (timers (host u'))) ->
  TendedT done u -> TendedT done u'.
Proof.
  intros Hn Hl Hp Hr Ht Hs Hd ((A1 & A2 & A3 & A4) & HW).
  split.
  - split; [lia |]. split; [lia |]. split.
    + intros q. destruct (A3 q) as (R1 & R2). split; intros Hin;
        destruct (Hr q _ Hin) as [H | H]; try contradiction; lia.
    + intros t Hin. destruct (Ht t Hin) as [H | H]; [apply A4, H | right; right; exact H].
  - destruct done; destruct HW as (W1 & W2 & W3).
    + split; [| split; [| rewrite Hp; exact W3]].
      * apply pending_false. intros t Hin Hid.
        destruct (Ht t Hin) as [H | (H & _)]; [| contradiction].
        exact (pending_false_inv n0 u t W1 H Hid).
      * apply pending_false. intros t Hin Hid.
        destruct (Ht t Hin) as [H | (_ & H & _)]; [| contradiction].
        exact (pending_false_inv (S n0) u t W2 H Hid).
    + split; [apply Hs, W1 |]. split; [apply Hd, W2 |]. rewrite Hp. exact W3.
Qed.

Lemma Tended_KeptByClearing (done : bool) : KeptByClearing (TendedT done).
Proof.
  intros u u' _ Hn Hp Hr Ht Hrem HT.
  pose proof HT as ((_ & _ & A3 & _) & _).
  apply (Tended_step done u); [lia | rewrite Hp; lia | rewrite Hp; reflexivity | | | | | exact HT].
  - intros q id Hin. left. apply Hr, Hin.
  - intros t Hin. left. apply Ht, Hin.
  - intros Hin. destruct (Hrem _ Hin) as [H | (q & Hq)]; [exact H |].
    exfalso. apply (proj1 (A3 q)). exact Hq.
  - intros Hin. destruct (Hrem _ Hin) as [H | (q & Hq)]; [exact H |].
    exfalso. apply (proj2 (A3 q)). exact Hq.
Qed.

Lemma Tended_KeptBySetTimeout (done : bool) : KeptBySetTimeout (TendedT done).
Proof.
  intros a dl u u' Ha _ Ht Hn Hp Hr HT.
  pose proof HT as ((A1 & _) & _).
  apply (Tended_step done u); [lia | rewrite Hp; lia | rewrite Hp; reflexivity | | | | | exact HT].
  - intros q id Hin. destruct (Hr q id Hin) as [H | (_ & ->)]; [left; exact H | right; lia].
  - intros t Hin. rewrite Ht in Hin. apply in_app_or in Hin.
    destruct Hin as [Hin | [<- | []]]; [left; exact Hin | right].
    cbn [tid action]. split; [lia |]. split; [lia |]. apply foreign_other, Ha.
  - intros Hin. rewrite Ht. apply in_or_app. left. exact Hin.
  - intros Hin. rewrite Ht. apply in_or_app. left. exact Hin.
Qed.

Lemma Tended_KeptByTransition (done : bool) : KeptByTransition (TendedT done).
Proof.
  intros f g k' u HT.
  pose proof HT as ((A1 & A2 & _) & _).
  destruct (transition_host f g k' u) as (Ht & Hn & Hp & _ & _ & Ha).
  cbv zeta in *.
  apply (Tended_step done u);
    [lia | rewrite Hp, length_app; lia | rewrite Hp; apply nth_error_app1; exact A2
     | | | | | exact HT].
  - intros q id Hin. left. unfold recordedTimers in *. rewrite Ha in Hin. exact Hin.
  - intros t Hin. rewrite Ht in Hin. apply in_app_or in Hin.
    destruct Hin as [Hin | [<- | [<- | []]]]; [left; exact Hin | right | right];
      cbn [tid action]; (split; [lia |]; split; [lia |]);
      unfold foreignT, foreign; cbn [promiseOf clearedBy]; repeat split;
      try discriminate; intros [= E]; lia.
  - intros Hin. rewrite Ht. apply in_or_app. left. exact Hin.
  - intros Hin. rewrite Ht. apply in_or_app. left. exact Hin.
Qed.

Lemma Tended_statement (done : bool) (c : State -> State) :
  (forall Inv, KeptByClearing Inv -> KeptBySetTimeout Inv -> KeptByTransition Inv ->
               Keeping Inv c) ->
  Keeping (TendedT done) c.
Proof.
  intros H. apply H.
  - apply Tended_KeptByClearing.
  - apply Tended_KeptBySetTimeout.
  - apply Tended_KeptByTransition.
Qed.

(** Losing a timer with another id. *)
Lemma Tended_clearTimeout (done : bool) (id : nat) :
  id <> n0 -> id <> S n0 -> Keeping (TendedT done) (clearTimeout id).
Proof.
  intros H0 H1 u HT. rewrite clearTimeout_eq.
  assert (Hk : forall t, In t (timers (host u)) -> tid t <> id ->
                         In t (filter (keptAfterClearing [id]) (timers (host u)))).
  { intros t Hin Hne. apply filter_In. split; [exact Hin |].
    apply keptAfterClearing_other. exact Hne. }
  apply (Tended_step done u);
    [apply Nat.le_refl | apply Nat.le_refl | reflexivity | | | | | exact HT].
  - intros q id0 Hin. left. exact Hin.
  - intros t Hin. cbn in Hin. apply filter_In in Hin. left. apply Hin.
  - intros Hin. cbn. apply Hk; [exact Hin | cbn; congruence].
  - intros Hin. cbn. apply Hk; [exact Hin | cbn; congruence].
Qed.

Lemma Tended_setNow (done : bool) (t : Z) : Keeping (TendedT done) (setNow t).
Proof.
  intros u HT.
  apply (Tended_step done u);
    [apply Nat.le_refl | apply Nat.le_refl | reflexivity | | | | | exact HT]; auto.
Qed.

(** Another promise is resolved. *)
Lemma Tended_resolve (done : bool) (p' : nat) :
  p' <> p -> Keeping (TendedT done) (resolve p').
Proof.
  intros Hne u HT. unfold resolve.
  destruct (nth_error (promises (host u)) p') as [pr |]; [| exact HT].
  destruct (settled pr); [exact HT |].
  apply (Tended_statement done (runThen (reaction pr)));
    [intros Inv H1 H2 H3; apply Keeping_runThen; assumption |].
  apply (Tended_step done u); [apply Nat.le_refl | | | | | | | exact HT]; auto.
  - cbn. rewrite settleAt_length. lia.
  - cbn. apply nth_error_settleAt_other. congruence.
Qed.

(** The callback of a foreign timer. *)
Lemma Tended_runAction (done : bool) (a : Action) :
  foreignT a -> Keeping (TendedT done) (runAction a).
Proof.
  intros (F1 & F2 & F3).
  destruct (promiseOf a) as [p' |] eqn:E.
  - destruct a; try discriminate E; cbn [runAction]; cbn in E, F1, F2, F3.
    + apply Tended_resolve. congruence.
    + intros u HT. unfold andThen. apply Tended_resolve; [congruence |].
      apply (Tended_statement done (hideSlide fromSlide0));
        [intros Inv H1 H2 H3 u0 H0; apply (Inv_same Inv H1 u0); try reflexivity; exact H0 |].
      apply Tended_clearTimeout; [congruence | congruence | exact HT].
  - apply Tended_statement. intros Inv H1 H2 H3. apply Keeping_runAction; assumption.
Qed.

(** The event loop takes a timer other than the two. *)
Lemma Tended_fire_other (done : bool) (t : Timer) :
  tid t <> n0 -> tid t <> S n0 -> foreignT (action t) -> Keeping (TendedT done) (fire t).
Proof.
  intros H0 H1 Hf u HT. unfold fire.
  apply Tended_runAction; [exact Hf |].
  apply Tended_clearTimeout; [exact H0 | exact H1 |].
  apply Tended_setNow, HT.
Qed.

(** While the transition is in flight, with the completion due before the
    safety timeout, the event loop does not take the safety timer. *)
Lemma safety_not_next (u : State) (t : Timer) :
  tdone < tsafe ->
  In doneT (timers (host u)) ->
  nextTimer u = Some t -> t <> safetyT.
Proof.
  intros Hord Hin Hnext ->.
  destruct (@nextTimer_spec u safetyT Hnext) as (_ & Hmin).
  specialize (Hmin doneT Hin). cbn in Hmin. lia.
Qed.

(** The completion callback runs while the transition is in flight. *)
Lemma fire_completion (u : State) :
  TendedT false u ->
  let u' := fire doneT u in
  TendedT true u' /\
  events (host u') = events (host u) ++ [thenIndex k] /\
  isTransitioning (engine u') = false /\
  now (host u') = Z.max (now (host u)) tdone /\
  hiddenFlag fromSlide u' = true /\
  (forall j, j <> fromSlide -> hiddenFlag j u' = hiddenFlag j u).
Proof.
  intros ((A1 & A2 & A3 & A4) & (W1 & W2 & W3)) u'.
  subst u'. unfold fire. cbn [action tid fireAt doneT completionTimer runAction].
  unfold andThen.
  set (ua := hideSlide fromSlide
               (clearTimeout n0 (clearTimeout (S n0)
                  (setNow (Z.max (now (host u)) tdone) u)))).
  assert (Hpa : promises (host ua) = promises (host u)) by reflexivity.
  assert (Hta : forall t, In t (timers (host ua)) ->
                  In t (timers (host u)) /\ tid t <> n0 /\ tid t <> S n0).
  { intros t Hin. subst ua. cbn [hideSlide setSlides onEngine host] in Hin.
    rewrite !clearTimeout_eq in Hin. cbn in Hin.
    apply filter_In in Hin. destruct Hin as (Hin & K1).
    apply filter_In in Hin. destruct Hin as (Hin & K2).
    apply keptAfterClearing_true in K1. apply keptAfterClearing_true in K2.
    cbn in K1, K2. split; [exact Hin |]. split; intros E; [apply K1 | apply K2]; auto. }
  unfold resolve. rewrite Hpa, W3. cbn [settled reaction].
  set (ub := setPromises (settleAt p (promises (host u))) ua).
  assert (HTb : TendedT true ub).
  { split.
    - split; [exact A1 |]. split; [cbn; rewrite settleAt_length; exact A2 |].
      split; [exact A3 |].
      intros t Hin. destruct (Hta t Hin) as (Hin' & _). apply A4, Hin'.
    - split; [| split].
      + apply pending_false. intros t Hin. apply (Hta t Hin).
      + apply pending_false. intros t Hin. apply (Hta t Hin).
      + cbn. rewrite (@nth_error_settleAt_same _ _ _ W3). reflexivity. }
  destruct (runThen_frame k ub) as (Htm & _ & Hpr & Hnow & Hev & Hsl & _ & Htr).
  assert (Hflag : forall j, hiddenFlag j (runThen k ub) = hiddenFlag j ua).
  { intros j. rewrite (@hiddenFlag_by_slides j _ _ Hsl). reflexivity. }
  split; [apply (Tended_statement true (runThen k));
          [intros Inv H1 H2 H3; apply Keeping_runThen; assumption | exact HTb] |].
  split; [exact Hev | split; [exact Htr | split; [exact Hnow | split]]].
  - rewrite Hflag. subst ua.
    unfold hiddenFlag, hideSlide. cbn.
    destruct (getSlide fromSlide (slides (engine u))) as [sl |] eqn:E.
    + rewrite (@getSlide_updateSlide_same _ _ _ _ E). reflexivity.
    + unfold getSlide, updateSlide in *.
      destruct (fromSlide <? 0); [reflexivity |].
      apply nth_error_None in E.
      rewrite (proj2 (nth_error_None _ _)); [reflexivity |].
      rewrite mapAt_length. exact E.
  - intros j Hj. rewrite Hflag. subst ua.
    rewrite hiddenFlag_hideSlide_other by congruence. reflexivity.
Qed.

(** One turn of the event loop: the phase changes when the completion
    timer is taken, and only then; the safety timer is not taken. *)
Lemma Tended_fire (done : bool) (u : State) (t : Timer) :
  tdone < tsafe ->
  nextTimer u = Some t ->
  TendedT done u ->
  t <> safetyT /\
  ((t = doneT /\ done = false /\ TendedT true (fire t u)) \/
   (t <> doneT /\ TendedT done (fire t u))).
Proof.
  intros Hord Hnext HT.
  destruct (@nextTimer_spec u t Hnext) as (Hin & _).
  pose proof HT as ((_ & _ & _ & A4) & HW).
  destruct (A4 t Hin) as [-> | [-> | (H0 & H1 & Hf)]].
  - exfalso. destruct done.
    + destruct HW as (C1 & _). apply (pending_false_inv n0 u _ C1 Hin). reflexivity.
    + destruct HW as (_ & Hd & _). exact (safety_not_next u _ Hord Hd Hnext eq_refl).
  - split; [discriminate |]. left. destruct done.
    + exfalso. destruct HW as (_ & C2 & _).
      apply (pending_false_inv (S n0) u _ C2 Hin). reflexivity.
    + split; [reflexivity |]. split; [reflexivity |]. apply (fire_completion u HT).
  - split; [intros ->; apply H0; reflexivity |]. right.
    split; [intros ->; apply H1; reflexivity |].
    apply Tended_fire_other; assumption.
Qed.
End InFlightFacts.

(** ** The event loop on time *)

Lemma Punctual_fewer (u u' : State) :
  now (host u') = now (host u) ->
  (forall t, In t (timers (host u')) -> In t (timers (host u))) ->
  Punctual u -> Punctual u'.
Proof. intros Hn Ht HP t Hin. rewrite Hn. apply HP, Ht, Hin. Qed.

Lemma Punctual_KeptByClearing : KeptByClearing Punctual.
Proof. intros u u' Hn _ _ _ Ht _ HP. apply (Punctual_fewer u); assumption. Qed.

Lemma Punctual_KeptBySetTimeout : KeptBySetTimeout Punctual.
Proof.
  intros a dl u u' _ Hn Ht _ _ _ HP t Hin. rewrite Hn. rewrite Ht in Hin.
  apply in_app_or in Hin. destruct Hin as [Hin | [<- | []]]; [apply HP, Hin |].
  cbn. lia.
Qed.

Lemma Punctual_KeptByTransition : KeptByTransition Punctual.
Proof.
  intros f g k u HP t Hin.
  destruct (transition_host f g k u) as (Ht & _ & _ & Hn & _).
  cbv zeta in *. rewrite Hn. rewrite Ht in Hin.
  apply in_app_or in Hin. destruct Hin as [Hin | [<- | [<- | []]]];
    [apply HP, Hin | cbn; lia | cbn; lia].
Qed.

Lemma Punctual_statement (c : State -> State) :
  (forall Inv, KeptByClearing Inv -> KeptBySetTimeout Inv -> KeptByTransition Inv ->
               Keeping Inv c) ->
  Keeping Punctual c.
Proof.
  intros H. apply H.
  - apply Punctual_KeptByClearing.
  - apply Punctual_KeptBySetTimeout.
  - apply Punctual_KeptByTransition.
Qed.

Lemma Punctual_resolve (p : nat) : Keeping Punctual (resolve p).
Proof.
  intros u H. unfold resolve.
  destruct (nth_error (promises (host u)) p) as [pr |]; [| exact H].
  destruct (settled pr); [exact H |].
  apply (Punctual_statement (runThen (reaction pr)));
    [intros Inv H1 H2 H3; apply Keeping_runThen; assumption |].
  apply (Punctual_fewer u); [reflexivity | auto | exact H].
Qed.

Lemma Punctual_clearTimeout (id : nat) : Keeping Punctual (clearTimeout id).
Proof.
  intros u H. rewrite clearTimeout_eq.
  apply (Punctual_fewer u); [reflexivity | | exact H].
  intros t Hin. cbn in Hin. apply filter_In in Hin. apply Hin.
Qed.

Lemma Punctual_runAction (a : Action) : Keeping Punctual (runAction a).
Proof.
  destruct (promiseOf a) as [p |] eqn:E.
  - destruct a; try discriminate E; cbn [runAction].
    + apply Punctual_resolve.
    + intros u H. unfold andThen. apply Punctual_resolve.
      apply (Punctual_fewer (clearTimeout safetyTimeout u)); [reflexivity | auto |].
      apply Punctual_clearTimeout, H.
  - apply Punctual_statement. intros Inv H1 H2 H3. apply Keeping_runAction; assumption.
Qed.

(** The loop takes the timer due first: nothing becomes overdue. *)
Lemma Punctual_fire (u : State) (t : Timer) :
  nextTimer u = Some t -> Punctual u ->
  Punctual (fire t u) /\ now (host (fire t u)) = fireAt t.
Proof.
  intros Hnext HP. destruct (@nextTimer_spec u t Hnext) as (Hin & Hmin).
  assert (Hmax : Z.max (now (host u)) (fireAt t) = fireAt t)
    by (specialize (HP t Hin); lia).
  unfold fire. rewrite Hmax. split.
  - apply Punctual_runAction, Punctual_clearTimeout.
    intros t' Hin'. cbn. apply Hmin. exact Hin'.
  - assert (Hnow : forall a s, now (host (runAction a s)) = now (host s)).
    { intros a s. 
      assert (Hres : forall p s0, now (host (resolve p s0)) = now (host s0)).
      { intros p s0. unfold resolve.
        destruct (nth_error (promises (host s0)) p) as [pr |]; [| reflexivity].
        destruct (settled pr); [reflexivity |].
        destruct (runThen_frame (reaction pr)
                    (setPromises (settleAt p (promises (host s0))) s0))
          as (_ & _ & _ & Hn & _).
        rewrite Hn. reflexivity. }
      destruct (promiseOf a) as [p |] eqn:E.
      - destruct a; try discriminate E; cbn [runAction]; unfold andThen;
          rewrite Hres; reflexivity.
      - pose proof (Keeping_runAction (fun s0 => now (host s0) = now (host s))) as K.
        apply K; try assumption; try reflexivity.
        + intros u0 u1 Hn _ _ _ _ _ H0. congruence.
        + intros a0 dl u0 u1 _ Hn _ _ _ _ H0. congruence.
        + intros f g k0 u0 H0. destruct (transition_host f g k0 u0) as (_ & _ & _ & Hn & _).
          cbv zeta in Hn. congruence. }
    rewrite Hnow. reflexivity.
Qed.

Lemma Punctual_runUntil (fuel : nat) (T : Z) : Keeping Punctual (runUntil fuel T).
Proof.
  induction fuel as [| fuel IH]; intros u H; [exact H |].
  cbn [runUntil]. destruct (nextTimer u) as [t |] eqn:E.
  - destruct (Z.leb_spec (fireAt t) T) as [Hdue | Hlate].
    + apply IH. apply (Punctual_fire u t E H).
    + intros t' Hin. cbn in *.
      destruct (@nextTimer_spec u t E) as (_ & Hmin).
      specialize (Hmin t' Hin). specialize (H t' Hin). lia.
  - apply nextTimer_none in E. intros t' Hin. cbn in Hin. rewrite E in Hin. destruct Hin.
Qed.

Lemma Punctual_perform (c : Command) : Keeping Punctual (perform c).
Proof.
  apply Punctual_statement. intros Inv H1 H2 H3. apply Keeping_perform; assumption.
Qed.

Lemma Punctual_play (fuel : nat) (script : list (Z * Command)) :
  Keeping Punctual (play fuel script).
Proof.
  induction script as [| (wait, c) rest IH]; intros u H; [exact H |].
  cbn [play]. apply IH, Punctual_perform, Punctual_runUntil, H.
Qed.

Section InFlightRuns.
Variables (fromSlide toSlide : Z) (k : Then) (p n0 : nat) (tdone tsafe : Z).
Hypothesis Horder : tdone < tsafe.

Let TendedT : bool -> State -> Prop := Tended fromSlide toSlide k p n0 tdone tsafe.

Lemma Tended_runUntil (fuel : nat) (T : Z) :
  forall done u, TendedT done u ->
    exists done', noLess done done' /\ TendedT done' (runUntil fuel T u).
Proof.
  induction fuel as [| fuel IH]; intros done u H;
    [exists done; split; [intros E; exact E | exact H] |].
  cbn [runUntil].
  assert (Hstay : exists done', noLess done done' /\
                    TendedT done' (setNow (Z.max (now (host u)) T) u)).
  { exists done. split; [intros E; exact E |].
    apply (Tended_setNow fromSlide toSlide k p n0 tdone tsafe), H. }
  destruct (nextTimer u) as [t |] eqn:E; [| exact Hstay].
  destruct (fireAt t <=? T); [| exact Hstay].
  destruct (Tended_fire fromSlide toSlide k p n0 tdone tsafe done u t Horder E H)
    as (_ & [(_ & Hd & HT) | (_ & HT)]).
  - destruct (IH true _ HT) as (done' & Hle & HT').
    exists done'. split; [intros _; apply Hle; reflexivity | exact HT'].
  - apply (IH done _ HT).
Qed.

Lemma Tended_play (fuel : nat) (script : list (Z * Command)) :
  forall done u, TendedT done u ->
    exists done', noLess done done' /\ TendedT done' (play fuel script u).
Proof.
  induction script as [| (wait, c) rest IH]; intros done u H;
    [exists done; split; [intros E; exact E | exact H] |].
  cbn [play].
  destruct (Tended_runUntil fuel (now (host u) + wait) done u H) as (d1 & L1 & H1).
  destruct (IH d1 (perform c (runUntil fuel (now (host u) + wait) u))) as (d2 & L2 & H2).
  - apply (Tended_statement fromSlide toSlide k p n0 tdone tsafe d1 (perform c));
      [intros Inv K1 K2 K3; apply Keeping_perform; assumption | exact H1].
  - exists d2. split; [intros E; apply L2, L1, E | exact H2].
Qed.
End InFlightRuns.

(** ** The two callbacks of [transition], each on its own *)

(** The safety callback on the unsettled promise: it resolves (the
    reaction runs), and touches neither slide nor timer. *)
Lemma safety_resolves (p : nat) (k : Then) (u : State) :
  nth_error (promises (host u)) p = Some {| settled := false; reaction := k |} ->
  let u' := runAction (TransitionSafety p) u in
  nth_error (promises (host u')) p = Some {| settled := true; reaction := k |} /\
  events (host u') = events (host u) ++ [thenIndex k] /\
  isTransitioning (engine u') = false /\
  (forall j, hiddenFlag j u' = hiddenFlag j u) /\
  timers (host u') = timers (host u).
Proof.
  intros Hp u'. subst u'. cbn [runAction]. unfold resolve. rewrite Hp. cbn [settled reaction].
  destruct (runThen_frame k (setPromises (settleAt p (promises (host u))) u))
    as (Htm & _ & Hpr & _ & Hev & Hsl & _ & Htr).
  split; [| split; [exact Hev | split; [exact Htr | split]]].
  - rewrite Hpr. cbn.
    rewrite (@nth_error_settleAt_same _ _ _ Hp). reflexivity.
  - intros j. rewrite (@hiddenFlag_by_slides j _ _ Hsl). reflexivity.
  - exact Htm.
Qed.

(** Either callback on the settled promise: [resolve()] does nothing;
    what is left of the completion callback is its own clean-up. *)
Lemma callbacks_after_settling (fromSlide toSlide : Z) (p n0 : nat) (u : State) :
  isSettledPromise p u = true ->
  runAction (TransitionSafety p) u = u /\
  runAction (TransitionDone fromSlide toSlide n0 p) u =
    hideSlide fromSlide (clearTimeout n0 u).
Proof.
  intros Hs. cbn [runAction]. unfold andThen. split.
  - apply resolve_settled, Hs.
  - apply resolve_settled. exact Hs.
Qed.

(** ** The state [transition] leaves *)

Lemma transition_Tended (fromSlide toSlide : Z) (k : Then) (s : State) :
  Orderly s -> 0 <= duration (config (engine s)) ->
  let D := duration (config (engine s)) in
  let t0 := now (host s) in
  let p := length (promises (host s)) in
  let n0 := nextTimerId (host s) in
  let s1 := transition fromSlide toSlide k s in
  timers (host s1) =
    timers (host s) ++ [safetyTimer p n0 (t0 + D + 500);
                        completionTimer fromSlide toSlide p n0 (t0 + D)] /\
  Tended fromSlide toSlide k p n0 (t0 + D) (t0 + D + 500) false s1.
Proof.
  intros (O1 & O2 & O3 & O4 & O5) HD D t0 p n0 s1.
  destruct (transition_host fromSlide toSlide k s) as (Ht & Hn & Hp & _ & _ & Ha).
  cbv zeta in Ht, Hn, Hp, Ha. fold D t0 p n0 s1 in Ht, Hn, Hp, Ha.
  rewrite !Z.max_r in Ht by lia. rewrite Z.add_assoc in Ht.
  assert (Ht' : timers (host s1) =
                timers (host s) ++ [safetyTimer p n0 (t0 + D + 500);
                                    completionTimer fromSlide toSlide p n0 (t0 + D)])
    by exact Ht.
  assert (HF : InFlight fromSlide toSlide k p n0 (t0 + D) (t0 + D + 500) s1).
  { split; [| split].
    - rewrite Ht'. apply in_or_app. right. left. reflexivity.
    - rewrite Ht'. apply in_or_app. right. right. left. reflexivity.
    - rewrite Hp. rewrite nth_error_app2 by (subst p; lia).
      subst p. rewrite Nat.sub_diag. reflexivity. }
  split; [exact Ht' |]. split; [| exact HF].
  split; [rewrite Hn; lia |].
  split; [rewrite Hp, length_app; cbn; lia |].
  split.
  - intros q. unfold recordedTimers. rewrite Ha.
    split; intros Hin; apply (O2 q) in Hin; fold n0 in Hin; lia.
  - intros t Hin. rewrite Ht' in Hin. apply in_app_or in Hin.
    destruct Hin as [Hin | [<- | [<- | []]]]; [| left; reflexivity | right; left; reflexivity].
    right. right. specialize (O1 t Hin). fold n0 in O1.
    split; [lia |]. split; [lia |].
    split; [| split].
    + intros E. specialize (O4 t p Hin E). fold p in O4. lia.
    + intros E. specialize (O5 t n0 Hin E). fold n0 in O5. lia.
    + intros E. specialize (O5 t (S n0) Hin E). fold n0 in O5. lia.
Qed.

(** ** Every callback uses up pending work *)

Lemma workOf_app (m : nat) (l l' : list Timer) :
  workOf m (l ++ l') = (workOf m l + workOf m l')%nat.
Proof. induction l as [| t l IH]; cbn [app workOf]; [reflexivity | lia]. Qed.

Lemma workOf_filter (m : nat) (f : Timer -> bool) (l : list Timer) :
  (workOf m (filter f l) <= workOf m l)%nat.
Proof.
  induction l as [| t l IH]; [apply Nat.le_refl |].
  cbn [filter]. destruct (f t); cbn [workOf]; lia.
Qed.

Lemma workOf_filter_out (m : nat) (f : Timer -> bool) (l : list Timer) (t : Timer) :
  In t l -> f t = false ->
  (workOf m (filter f l) + weight m (action t) <= workOf m l)%nat.
Proof.
  intros Hin Hf. induction l as [| x l IH]; [destruct Hin |].
  cbn [filter]. destruct Hin as [-> | Hin].
  - rewrite Hf. pose proof (workOf_filter m f l). cbn [workOf]. lia.
  - specialize (IH Hin). destruct (f x); cbn [workOf]; lia.
Qed.

Lemma weight_pos (m : nat) (a : Action) : (1 <= weight m a)%nat.
Proof. destruct a; cbn; lia. Qed.

Lemma workOf_In (m : nat) (l : list Timer) (t : Timer) :
  In t l -> (1 <= workOf m l)%nat.
Proof.
  intros Hin. induction l as [| x l IH]; [destruct Hin |].
  cbn [workOf]. pose proof (weight_pos m (action x)). lia.
Qed.

Lemma childCounts_updateSlide (i : Z) (f : Slide -> Slide) (s : State) :
  (forall sl, length (animatedElements (f sl)) = length (animatedElements sl)) ->
  childCounts (setSlides (updateSlide i f (slides (engine s))) s) = childCounts s.
Proof.
  intros Hf. unfold childCounts. cbn. unfold updateSlide.
  destruct (i <? 0); [reflexivity |].
  generalize (Z.to_nat i) as n. intros n.
  revert n. induction (slides (engine s)) as [| sl l IH]; intros [| n]; cbn;
    try reflexivity.
  - rewrite Hf. reflexivity.
  - rewrite IH. reflexivity.
Qed.

Lemma children_bounded (i : Z) (sl : Slide) (s : State) :
  getSlide i (slides (engine s)) = Some sl ->
  (length (animatedElements sl) <= maxChildren s)%nat.
Proof.
  unfold getSlide. destruct (i <? 0); [discriminate |]. intros H.
  apply nth_error_In in H. unfold maxChildren, childCounts.
  pose proof (proj1 (list_max_le (map (fun sl0 => length (animatedElements sl0))
                                      (slides (engine s))) _) (Nat.le_refl _)) as Hall.
  rewrite Forall_forall in Hall. apply Hall. apply in_map_iff. exists sl. auto.
Qed.

Section Costs.
Variable m : nat.

Let Cost : nat -> (State -> State) -> Prop := Costs m.

Lemma Costs_weaken (b b' : nat) (c : State -> State) :
  (b <= b')%nat -> Cost b c -> Cost b' c.
Proof. intros Hb H v Hv. destruct (H v Hv). split; [assumption | lia]. Qed.

Lemma Costs_andThen (b1 b2 : nat) (c1 c2 : State -> State) :
  Cost b1 c1 -> Cost b2 c2 -> Cost (b1 + b2) (c1 ;; c2).
Proof.
  intros H1 H2 v Hv. unfold andThen.
  destruct (H1 v Hv) as (S1 & W1).
  destruct (H2 (c1 v)) as (S2 & W2); [unfold maxChildren; rewrite S1; exact Hv |].
  split; [congruence | lia].
Qed.

Lemma Costs_whenS (b : nat) (g : State -> bool) (c : State -> State) :
  Cost b c -> Cost b (whenS g c).
Proof.
  intros H v Hv. unfold whenS. destruct (g v); [apply H, Hv |].
  split; [reflexivity | lia].
Qed.

Lemma Costs_neutral (c : State -> State) :
  (forall v, timers (host (c v)) = timers (host v) /\
             slides (engine (c v)) = slides (engine v)) ->
  Cost 0 c.
Proof.
  intros H v _. destruct (H v) as (Ht & Hs). unfold childCounts.
  rewrite Ht, Hs. split; [reflexivity | lia].
Qed.

Lemma Costs_onAnimator (f : LineAnimator -> LineAnimator) : Cost 0 (onAnimator f).
Proof. apply Costs_neutral. intros v. split; reflexivity. Qed.

Lemma Costs_setTimeout (a : Action) (dl : Z) :
  Cost (weight m a) (fun s => snd (setTimeout a dl s)).
Proof.
  intros v _. split; [reflexivity |]. cbn. rewrite workOf_app.
  cbn [workOf action]. lia.
Qed.

Lemma Costs_schedule (a : Action) (dl : Z) (record : nat -> State -> State) :
  (forall id v, host (record id v) = host v /\ engine (record id v) = engine v) ->
  Cost (weight m a) (schedule a dl record).
Proof.
  intros Hr v Hv. unfold schedule.
  destruct (setTimeout a dl v) as [id v'] eqn:E.
  pose proof (Costs_setTimeout a dl v Hv) as (S1 & W1). rewrite E in S1, W1.
  cbn [snd] in S1, W1. destruct (Hr id v') as (Hh & He).
  unfold childCounts in *. rewrite Hh, He. split; assumption.
Qed.

Lemma Costs_scheduleReveals (i stagger : Z) (els : list AnimatedElement) :
  forall n, Cost (length els) (scheduleReveals i stagger n els).
Proof.
  induction els as [| el rest IH]; intros n v Hv; cbn [scheduleReveals length].
  - split; [reflexivity | lia].
  - destruct (Costs_setTimeout (RevealElement i n)
                (dataDelay el + Z.of_nat n * stagger) v Hv) as (S1 & W1).
    destruct (IH (S n) (snd (setTimeout (RevealElement i n)
                               (dataDelay el + Z.of_nat n * stagger) v)))
      as (S2 & W2); [unfold maxChildren; rewrite S1; exact Hv |].
    cbn [weight] in W1. split; [congruence | lia].
Qed.

Lemma Costs_triggerSlideAnimations (i : Z) : Cost m (triggerSlideAnimations i).
Proof.
  intros v Hv. unfold triggerSlideAnimations.
  destruct (getSlide i (slides (engine v))) as [sl |] eqn:E; [| split; [reflexivity | lia]].
  pose proof (children_bounded i sl v E) as Hb.
  destruct (Costs_scheduleReveals i (staggerDelay (config (engine v)))
              (animatedElements sl) 0 v Hv) as (S1 & W1).
  split; [exact S1 | lia].
Qed.

Lemma Costs_showSlide (i : Z) : Cost 0 (showSlide i).
Proof.
  intros v _. split; [| cbn; lia].
  apply childCounts_updateSlide. reflexivity.
Qed.

Lemma Costs_hideSlide (i : Z) : Cost 0 (hideSlide i).
Proof.
  intros v _. split; [| cbn; lia].
  apply childCounts_updateSlide. reflexivity.
Qed.

Lemma Costs_clearTimeout (id : nat) : Cost 0 (clearTimeout id).
Proof.
  intros v _. split; [reflexivity |]. rewrite clearTimeout_eq. cbn.
  pose proof (workOf_filter m (keptAfterClearing [id]) (timers (host v))). lia.
Qed.

Lemma Costs_transition (fromSlide toSlide : Z) (k : Then) :
  Cost 2 (transition fromSlide toSlide k).
Proof.
  intros v Hv.
  destruct (transition_host fromSlide toSlide k v) as (Ht & _).
  cbv zeta in Ht. rewrite Ht, workOf_app. split.
  - unfold transition. cbn.
    change (childCounts (showSlide toSlide v) = childCounts v).
    apply (Costs_showSlide toSlide v Hv).
  - cbn [workOf action weight]. lia.
Qed.

Lemma Costs_resolve (p : nat) : Cost 0 (resolve p).
Proof.
  intros v _. unfold resolve.
  destruct (nth_error (promises (host v)) p) as [pr |]; [| split; [reflexivity | lia]].
  destruct (settled pr); [split; [reflexivity | lia] |].
  destruct (runThen_frame (reaction pr)
              (setPromises (settleAt p (promises (host v))) v))
    as (Htm & _ & _ & _ & _ & Hsl & _).
  unfold childCounts. rewrite Htm, Hsl. split; [reflexivity | cbn; lia].
Qed.

Lemma Costs_runCallback (cb : Callback) : Cost (m + 2) (runCallback cb).
Proof.
  destruct cb; cbn [runCallback].
  - apply Costs_andThen; [apply Costs_whenS, Costs_triggerSlideAnimations |
                          apply Costs_transition].
  - intros v Hv. destruct (currentSlide (engine v) =? index).
    + split; [reflexivity | cbn; lia].
    + apply Costs_weaken with (b := 2%nat); [lia | apply Costs_transition | exact Hv].
  - apply Costs_weaken with (b := m); [lia |].
    apply Costs_whenS, Costs_triggerSlideAnimations.
Qed.

Lemma Costs_guardAnimating (b : nat) (c : State -> State) :
  Cost b c -> Cost b (guardAnimating c).
Proof. apply Costs_whenS. Qed.

Lemma Costs_continueSlide12SplitAnimation :
  Cost (m + 6) continueSlide12SplitAnimation.
Proof.
  unfold continueSlide12SplitAnimation.
  apply Costs_weaken with (b := (1 + (1 + (weight m SplitT4 + 1)))%nat); [cbn; lia |].
  apply Costs_andThen; [apply (Costs_schedule SplitT2); intros; split; reflexivity |].
  apply Costs_andThen; [apply (Costs_schedule SplitT3); intros; split; reflexivity |].
  apply Costs_andThen; [apply (Costs_schedule SplitT4); intros; split; reflexivity |].
  apply (Costs_schedule SplitT5); intros; split; reflexivity.
Qed.

(** A callback sets timers for less work than its own timer stood for. *)
Lemma Costs_runAction (a : Action) : Cost (weight m a - 1) (runAction a).
Proof.
  assert (N : forall c, (forall v, timers (host (c v)) = timers (host v) /\
                                   slides (engine (c v)) = slides (engine v)) ->
                        Cost 0 (guardAnimating c)).
  { intros c H. apply Costs_guardAnimating, Costs_neutral, H. }
  destruct a; cbn [runAction weight]; replace (1 - 1)%nat with 0%nat by reflexivity;
    try (apply Costs_neutral; intros v; split; reflexivity);
    try (apply N; intros v; split; reflexivity).
  - (* TransitionSafety *) apply Costs_resolve.
  - (* TransitionDone *)
    apply Costs_andThen with (b1 := 0%nat) (b2 := 0%nat); [apply Costs_clearTimeout |].
    apply Costs_andThen with (b1 := 0%nat) (b2 := 0%nat); [apply Costs_hideSlide | apply Costs_resolve].
  - (* RevealElement *)
    intros v _. split; [| cbn; lia].
    unfold revealElement. apply childCounts_updateSlide.
    intros sl. cbn. apply mapAt_length.
  - apply Costs_guardAnimating. replace (m + 3 - 1)%nat with (m + 2)%nat by lia.
    apply Costs_runCallback.
  - apply Costs_guardAnimating. replace (m + 3 - 1)%nat with (m + 2)%nat by lia.
    apply Costs_runCallback.
  - (* SplitT0 *)
    apply Costs_guardAnimating. replace (m + 7 - 1)%nat with (0 + (0 + (m + 6)))%nat by lia.
    apply Costs_andThen; [apply Costs_onAnimator |].
    apply Costs_andThen; [apply Costs_onAnimator |].
    apply Costs_continueSlide12SplitAnimation.
  - (* SplitT4 *)
    apply Costs_guardAnimating. replace (m + 3 - 1)%nat with (m + 2)%nat by lia.
    intros v Hv. destruct (onContentReadyCallback (animator v)) as [cb |];
      [| split; [reflexivity | lia]].
    destruct (Costs_runCallback cb v Hv) as (S1 & W1). split; assumption.
  - replace (m + 3 - 1)%nat with (m + 2)%nat by lia. apply Costs_runCallback.
  - replace (m + 3 - 1)%nat with (m + 2)%nat by lia. apply Costs_runCallback.
Qed.
End Costs.

(** A turn of the event loop leaves the child counts alone and strictly
    less pending work. *)
Lemma fire_less (t : Timer) (u : State) :
  In t (timers (host u)) ->
  childCounts (fire t u) = childCounts u /\
  (pendingWork (fire t u) < pendingWork u)%nat.
Proof.
  intros Hin. unfold fire.
  set (uc := clearTimeout (tid t) (setNow (Z.max (now (host u)) (fireAt t)) u)).
  assert (Hc : childCounts uc = childCounts u) by reflexivity.
  assert (Hm : maxChildren uc = maxChildren u) by reflexivity.
  assert (Hw : (workOf (maxChildren u) (timers (host uc)) +
                weight (maxChildren u) (action t)
                <= workOf (maxChildren u) (timers (host u)))%nat).
  { subst uc. rewrite clearTimeout_eq. cbn.
    apply workOf_filter_out; [exact Hin | apply (keptAfterClearing_self t)]. }
  destruct (Costs_runAction (maxChildren u) (action t) uc) as (S1 & W1);
    [rewrite Hm; apply Nat.le_refl |].
  split; [congruence |].
  unfold pendingWork, maxChildren. rewrite S1, Hc. fold (maxChildren u).
  pose proof (weight_pos (maxChildren u) (action t)). lia.
Qed.

(** ** The completion is reached *)

Lemma runUntil_due (fuel : nat) (T : Z) (u : State) (t : Timer) :
  nextTimer u = Some t -> fireAt t <= T ->
  runUntil (S fuel) T u = runUntil fuel T (fire t u).
Proof.
  intros E Hdue. cbn [runUntil]. rewrite E.
  destruct (Z.leb_spec (fireAt t) T); [reflexivity | lia].
Qed.

Section Completion.
Variables (fromSlide toSlide : Z) (k : Then) (p n0 : nat) (tdone tsafe T : Z).
Hypothesis Horder : tdone < tsafe.
Hypothesis Hdue : tdone <= T.

Let doneT : Timer := completionTimer fromSlide toSlide p n0 tdone.
Let TendedT : bool -> State -> Prop := Tended fromSlide toSlide k p n0 tdone tsafe.

(** With fuel for the pending work, the loop reaches the turn of the
    completion timer, the transition still in flight, and goes on from
    the state its callback leaves. *)
Lemma runUntil_reaches_completion (fuel : nat) :
  forall u, TendedT false u -> (pendingWork u <= fuel)%nat ->
    TendedT true (runUntil fuel T u) /\
    exists n, (n < fuel)%nat /\
      TendedT false (runUntil n T u) /\
      nextTimer (runUntil n T u) = Some doneT /\
      runUntil (S n) T u = fire doneT (runUntil n T u).
Proof.
  induction fuel as [| fuel IH]; intros u HT Hw.
  - exfalso. destruct HT as (_ & (_ & Hd & _)).
    pose proof (workOf_In (maxChildren u) _ _ Hd). unfold pendingWork in Hw. lia.
  - pose proof HT as (_ & (_ & Hd & _)).
    destruct (nextTimer u) as [t |] eqn:E;
      [| apply nextTimer_none in E; rewrite E in Hd; destruct Hd].
    destruct (@nextTimer_spec u t E) as (Hin & Hmin).
    assert (Ht : fireAt t <= T) by (specialize (Hmin _ Hd); cbn in Hmin; lia).
    rewrite (runUntil_due fuel T u t E Ht).
    destruct (fire_less t u Hin) as (_ & Hless).
    destruct (Tended_fire fromSlide toSlide k p n0 tdone tsafe false u t Horder E HT)
      as (_ & [(-> & _ & HT1) | (Hne & HT1)]).
    + split.
      * destruct (Tended_runUntil fromSlide toSlide k p n0 tdone tsafe Horder
                    fuel T true _ HT1) as (d & Hd' & HT2).
        rewrite (Hd' eq_refl) in HT2. exact HT2.
      * exists 0%nat. split; [lia |]. split; [exact HT |]. split; [exact E |].
        rewrite (runUntil_due 0 T u _ E Ht). reflexivity.
    + destruct (IH (fire t u) HT1) as (HT2 & n & Hn & H1 & H2 & H3); [lia |].
      split; [exact HT2 |]. exists (S n). split; [lia |].
      rewrite (runUntil_due n T u t E Ht), (runUntil_due (S n) T u t E Ht).
      split; [exact H1 |]. split; [exact H2 | exact H3].
Qed.
End Completion.

(** ** C2: the generic transition ends in bounded time *)

(** C2.  [transition(fromSlide, toSlide)] called at time [t0] with
    configured duration [D >= 0], in any state of the page whose timer
    ids and promises are in order and whose event loop is on time;
    whatever else is pending.
    The request: the destination's hidden flag is cleared at once; two
    timers are added, the safety timer (set first, due at [t0 + D + 500])
    and the completion timer (due at [t0 + D]); no completion hook of the
    visual effect is involved.
    Afterwards, whatever commands are issued (also ones that interrupt
    the transition) and however far the loop runs: the transition is
    either in flight (both timers pending, promise unsettled) and the
    clock has not passed [t0 + D], or it is over (neither timer pending,
    promise settled).  While it is in flight the loop never takes the
    safety timer; a turn for any other timer leaves it in flight; the
    turn of the completion timer happens at [t0 + D] exactly, sets the
    source's hidden flag and touches no other, settles the promise, runs
    its reaction once (one [slidechange] event, [isTransitioning] false)
    and clears the safety timer, which therefore never runs.
    With no further input and fuel for the pending work, the loop run to
    any [T >= t0 + D] (so also [t0 + D + 500]) does reach that turn.
    The callbacks one by one: the safety callback on the unsettled
    promise resolves the transition as well (promise settled, reaction run
    once) but touches no hidden flag and no timer; on the settled promise
    it changes nothing, and all the completion callback still does there
    is to clear the safety timer and hide the source. *)
Theorem transition_bounded_latency
        (s : State) (fromSlide toSlide : Z) (k : Then) :
  Orderly s -> Punctual s -> 0 <= duration (config (engine s)) ->
  let D := duration (config (engine s)) in
  let t0 := now (host s) in
  let p := length (promises (host s)) in
  let n0 := nextTimerId (host s) in
  let safety := safetyTimer p n0 (t0 + D + 500) in
  let completion := completionTimer fromSlide toSlide p n0 (t0 + D) in
  let inFlight := InFlight fromSlide toSlide k p n0 (t0 + D) (t0 + D + 500) in
  let completed := Completed k p n0 in
  let s1 := transition fromSlide toSlide k s in
  (0 <= toSlide < slideCount s -> hiddenFlag toSlide s1 = false) /\
  timers (host s1) = timers (host s) ++ [safety; completion] /\
  inFlight s1 /\
  (forall fuel script fuel' T,
     let u := runUntil fuel' T (play fuel script s1) in
     (inFlight u /\ now (host u) <= t0 + D) \/ completed u) /\
  (forall fuel script fuel' T t,
     let u := runUntil fuel' T (play fuel script s1) in
     inFlight u -> nextTimer u = Some t ->
     t <> safety /\
     (t <> completion -> inFlight (fire t u)) /\
     (t = completion ->
      let u' := fire t u in
      completed u' /\
      now (host u') = t0 + D /\
      hiddenFlag fromSlide u' = true /\
      (forall j, j <> fromSlide -> hiddenFlag j u' = hiddenFlag j u) /\
      events (host u') = events (host u) ++ [thenIndex k] /\
      isTransitioning (engine u') = false)) /\
  (forall fuel script fuel' T,
     let u := play fuel script s1 in
     inFlight u -> t0 + D <= T -> (pendingWork u <= fuel')%nat ->
     completed (runUntil fuel' T u) /\
     exists n, (n < fuel')%nat /\
       inFlight (runUntil n T u) /\
       nextTimer (runUntil n T u) = Some completion /\
       runUntil (S n) T u = fire completion (runUntil n T u)) /\
  (forall u,
     nth_error (promises (host u)) p = Some {| settled := false; reaction := k |} ->
     let u' := runAction (TransitionSafety p) u in
     nth_error (promises (host u')) p = Some {| settled := true; reaction := k |} /\
     events (host u') = events (host u) ++ [thenIndex k] /\
     isTransitioning (engine u') = false /\
     (forall j, hiddenFlag j u' = hiddenFlag j u) /\
     timers (host u') = timers (host u)) /\
  (forall u,
     isSettledPromise p u = true ->
     runAction (TransitionSafety p) u = u /\
     runAction (TransitionDone fromSlide toSlide n0 p) u =
       hideSlide fromSlide (clearTimeout n0 u)).
Proof.
  intros HO HP HD D t0 p n0 safety completion inFlight completed s1.
  destruct (transition_Tended fromSlide toSlide k s HO HD) as (Ht & HT).
  cbv zeta in Ht, HT. fold D t0 p n0 s1 in Ht, HT.
  assert (Hord : t0 + D < t0 + D + 500) by lia.
  assert (HP1 : Punctual s1) by (apply Punctual_KeptByTransition, HP).
  assert (Hrun : forall fuel script fuel' T,
             Punctual (runUntil fuel' T (play fuel script s1)) /\
             exists done, Tended fromSlide toSlide k p n0 (t0 + D) (t0 + D + 500) done
                            (runUntil fuel' T (play fuel script s1))).
  { intros fuel script fuel' T. split.
    - apply Punctual_runUntil, Punctual_play, HP1.
    - destruct (Tended_play fromSlide toSlide k p n0 (t0 + D) (t0 + D + 500) Hord
                  fuel script false s1 HT) as (d1 & _ & H1).
      destruct (Tended_runUntil fromSlide toSlide k p n0 (t0 + D) (t0 + D + 500) Hord
                  fuel' T d1 _ H1) as (d2 & _ & H2).
      exists d2. exact H2. }
  assert (Hflight : forall done u,
             Tended fromSlide toSlide k p n0 (t0 + D) (t0 + D + 500) done u ->
             inFlight u -> done = false).
  { intros [|] u (_ & Hph) (Hs & _); [| reflexivity].
    exfalso. destruct Hph as (C1 & _).
    apply (pending_false_inv n0 u _ C1 Hs). reflexivity. }
  split; [| split; [exact Ht | split; [exact (proj2 HT) | split; [| split; [| split; [| split]]]]]].
  - intros Hto. subst s1. unfold transition. cbn.
    change (hiddenFlag toSlide (showSlide toSlide s) = false).
    apply hiddenFlag_showSlide_same. exact Hto.
  - intros fuel script fuel' T u.
    destruct (Hrun fuel script fuel' T) as (HPu & [|] & (_ & Hph)); fold u in HPu, Hph.
    + right. exact Hph.
    + left. split; [exact Hph |].
      destruct Hph as (_ & Hd & _). specialize (HPu _ Hd). exact HPu.
  - intros fuel script fuel' T t u HF Hnext.
    destruct (Hrun fuel script fuel' T) as (HPu & done & HTu); fold u in HPu, HTu.
    rewrite (Hflight done u HTu HF) in HTu.
    destruct (Tended_fire fromSlide toSlide k p n0 (t0 + D) (t0 + D + 500) false u t
                Hord Hnext HTu) as (Hns & Hcase).
    split; [exact Hns |]. split.
    + intros Hne. destruct Hcase as [(E & _) | (_ & (_ & H))]; [contradiction | exact H].
    + intros -> u'.
      destruct (fire_completion fromSlide toSlide k p n0 (t0 + D) (t0 + D + 500) u HTu)
        as ((_ & G1) & G2 & G3 & G4 & G5 & G6).
      fold completion u' in G1, G2, G3, G4, G5, G6.
      split; [exact G1 |]. split; [| split; [exact G5 | split; [exact G6 |
        split; [exact G2 | exact G3]]]].
      rewrite G4. destruct HF as (_ & Hd & _). specialize (HPu _ Hd). cbn in HPu. lia.
  - intros fuel script fuel' T u HF HT' Hw.
    destruct (Tended_play fromSlide toSlide k p n0 (t0 + D) (t0 + D + 500) Hord
                fuel script false s1 HT) as (d1 & _ & H1). fold u in H1.
    rewrite (Hflight d1 u H1 HF) in H1.
    destruct (runUntil_reaches_completion fromSlide toSlide k p n0 (t0 + D)
                (t0 + D + 500) T Hord HT' fuel' u H1 Hw)
      as ((_ & G1) & n & Hn & (_ & G2) & G3 & G4).
    split; [exact G1 |]. exists n.
    split; [exact Hn |]. split; [exact G2 |]. split; [exact G3 | exact G4].
  - intros u Hp. apply (safety_resolves p k u Hp).
  - intros u Hs. apply callbacks_after_settling, Hs.
Qed.

(** The witness: 150 ms into the fade from slide 4 to slide 5 the
    transition back from 5 to 4 starts, among the timers of the first
    one; 100 ms later [next()] interrupts it, 50 ms after that [prev()]
    does so again.  It is still in flight then, and the loop run to 400 ms
    after its start completes it. *)
Lemma transition_bounded_latency_witness :
  let s := runUntil 50 (now (host (restingAt appConfig 4)) + 150)
                    (perform Next (restingAt appConfig 4)) in
  let s1 := transition 5 4 (ThenSettle 4) s in
  let u := play 50 [(100, Next); (50, Prev)] s1 in
  let v := runUntil 50 (now (host s) + 400) u in
  length (timers (host s)) = 3%nat /\
  hiddenFlag 4 s1 = false /\
  (length (timers (host s1)) < length (timers (host u)))%nat /\
  Completed (ThenSettle 4) (length (promises (host s))) (nextTimerId (host s)) v.
Proof.
  intros s s1 u v.
  assert (HO : Orderly s)
    by (apply Orderly_runUntil, Orderly_perform, Orderly_restingAt).
  assert (HP : Punctual s).
  { apply Punctual_runUntil, Punctual_perform.
    intros t Hin. vm_compute in Hin. destruct Hin. }
  assert (HD : 0 <= duration (config (engine s))) by (vm_compute; discriminate).
  destruct (transition_bounded_latency s 5 4 (ThenSettle 4) HO HP HD)
    as (H1 & _ & _ & _ & _ & H6 & _).
  split; [vm_compute; reflexivity |].
  split; [apply H1; vm_compute; split; [discriminate | reflexivity] |].
  split; [vm_compute; lia |].
  apply (H6 50%nat [(100, Next); (50, Prev)] 50%nat (now (host s) + 400)).
  - split; [| split]; vm_compute;
      try reflexivity; repeat (first [left; reflexivity | right]).
  - vm_compute. discriminate.
  - vm_compute. lia.
Defined.
